(* ===== verification/_CoqProject ===== *)
-Q . S2P
Prelude.v
GoStd.v
GoTime.v
GoJson.v
GoRegexp.v
GoUrl.v
GoTemplate.v
Docker.v
Labels.v
Config.v
Network.v
Nginx.v
HAProxy.v
Agree.v
NodeID.v
Backends.v
LoadBalancer.v
Templates.v
EndToEnd.v
Returns.v
Progress.v
Debounce.v
Fair.v
Swarm.v
Beacon.v
Collect.v
Poller.v
Extensions.v
Server.v
Decode.v
Published.v
ServerChannels.v
ServerFair.v
Hosted.v
System.v
SystemFair.v
EventFair.v
BeaconSystem.v
BeaconFair.v
Client.v
Cmd.v
