(* ===== verification/Prelude.v ===== *)
(** * Interlock: a verification development

    Interlock ([src/], written in Go) watches the containers of a Docker
    engine or Swarm cluster and keeps reverse proxies (nginx, haproxy) up to
    date with them; a second extension, the beacon, publishes statistics.
    This development models the program's own code, definition by
    definition, and proves what makes each part correct, or how it fails.

    ** The program and the files that model it

    - Events: [server/server.go] reads the event stream of the daemon (or
      polls it), and hands each event to the extensions; a line [null] gives
      a nil message, on which the handler of events panics.  [Poller] is
      [runPoller]; [Server] is the handlers of [NewServer] one message at a
      time, [waitForSwarm], [loadExtensions] and [Run]; [ServerChannels] is
      the goroutines and the unbuffered channels between them, as an
      executable transition system, and [ServerFair] its fair runs;
      [Extensions] is the interface of [ext/ext.go] and [NewLoadBalancer];
      [Swarm] is the parser of [server/utils.go].  [Decode] is the decoding
      of the lines of the event stream and of the statistics, on [GoJson].
    - Load balancer: [ext/lb/lb.go].  [LoadBalancer] has [HandleEvent], the
      handler of [lbUpdateChan] ([handle_update]), [SaveConfig], the shares
      of [proxyContainersToRestart] and the removal of networks; [Debounce]
      is the way from a request to an update through the cache [ttlcache],
      its ticker and the channel, as a transition system, and [Fair] its
      fair runs.
    - Backends: [Nginx] and [HAProxy] are [ext/lb/nginx] and
      [ext/lb/haproxy]: [GenerateProxyConfig], [Reload] and the packet
      filter; [Backends] is the interface between them and the load balancer,
      a class with laws that both implementations satisfy, and against which
      the theorems on [handle_update] are proved.  [Labels] is [ext/ext.go]
      and [ext/lb/utils], [Network] the address of an upstream.  [Agree]
      compares the two generators, which the source has as two copies of one
      loop.
    - Templates: [GoTemplate] is the part of [text/template] the program
      uses, as a parser and an interpreter; [Templates] has the three
      built-in templates as they are in the source, and what they render;
      [EndToEnd] puts generators, templates and [handle_update] together.
    - Beacon: [Beacon] is [ext/beacon], with [Float64] arithmetic and the
      gauges as events; [Collect] runs the goroutines of [collectStats] in
      any order; [Published] goes from the JSON of the daemon to the gauges.
      [BeaconSystem] is the program with a beacon as an executable transition
      system, in which the goroutines of a collection are interleaved
      one interaction at a time, and [BeaconFair] its fair runs.
    - The whole: [System] composes [ServerChannels], [Debounce],
      [HandleEvent] and [handle_update] into one executable transition
      system, from an event read from the daemon to the files on the proxies.
      [Progress] has the rules for infinite runs; [SystemFair] and
      [EventFair] are the fair runs of [System].  [Hosted] is a class that
      says what a program with an extension promises ([system_host],
      [beacon_host]), from which each event is handled.
    - Start: [Config] is [config/], [NodeID] is [utils/], [Cmd] is
      [cmd/interlock] (the commands, and the choice of the source of the
      configuration), and [Client] the TLS options of [client/].
    - The language and the outside: [Prelude] has the results, panics and
      effects of Go code; [GoStd] and [GoTime] the parts of the standard
      library the program uses (strings, strconv, path, net, bufio, time,
      sort, encoding/json for the poller, crypto/sha256), [GoJson] the
      decoding part of encoding/json, [GoRegexp] the expressions of [regexp]
      on ASCII, [GoUrl] the scheme and host of [net/url]; [Docker] the types
      of the Docker API and the interactions with the outside.

    ** How the code is read

    Effectful code is a function of the history of interactions so far, which
    it extends ([comp], [M]): a call is an [event] and its reply is given by
    the [World], a parameter, as any function of that history.  A theorem over
    all worlds holds for every daemon, however its state changes between two
    calls.  Code ends with a value, a panic, or the end of the process
    ([outcome]); an error of Go is a value of [res].  The iteration order of
    a Go map is a parameter ([MapRange]) that may differ at every execution of
    a loop.  Integers are in Z with their bounds where the code depends on
    them ([strconv], durations, floats).  Goroutines appear as transition
    systems in [Debounce] and [ServerChannels], where a send and its receive
    are one step, because the channels are not buffered.

    ** What the theorems show

    - The generated configurations are those of a reference reading of the
      labels, for every daemon and every map order ([nginx_generate_refines],
      [haproxy_generate_refines]); the functions return, panics excepted,
      which are located ([backend_address_panics]).  The two generators agree
      on the containers both can use, but for the aliases
      ([generators_agree]).
    - An update copies one configuration to every proxy and then reloads
      only proxies ([update_course_holds]); the instances share the restarts
      ([restart_partition]).
    - Requests for an update are neither lost nor too frequent with one load
      balancer ([no_lost_reload], [updates_spaced], [owed_leads_to_update];
      in every fair run, [fair_owed_updates]),
      can be starved ([requests_starve_updates]), and with two load balancers
      can be lost ([first_of_two_never_updates]).
    - The goroutines of the server can wait for each other in a circle; the
      states from which they never recover are characterised
      ([recovers_iff]), reachable ([doomed_reachable]) only through errors of
      status 500 ([recovers_without_500]) and never when polling
      ([polling_recovers]).  In every fair run without such errors each event
      that is waiting to be sent is received ([events_received]).
    - The poller makes an event exactly when the containers or ports change
      ([poll_detects]).  The extensions loaded are those of the configuration,
      or the process ends ([load_extensions_loaded]), and all of them are
      notified ([poll_events_dispatched]).
    - The statistics of the beacon are those of the container
      ([gauges_read_back], [influx_writes]), whatever the order of the
      goroutines that collect them ([no_torn_statistics]); the totals are not
      ([totals_torn]).  A rule selects the images its expression matches
      ([rule_match], [plain_rules], [written_rules]), a collection publishes
      the numbers of the JSON text of the daemon ([statistics_published]),
      and in every fair run the beacon handles the start of a container and
      every collection after it publishes its statistics
      ([started_published]).
    - What the daemon writes as JSON is read back ([stream_read_back],
      [statistics_read_back]); the printer and the parser of [GoJson] are
      inverse ([parse_print]).
    - From the cluster to the file on the proxies: every configuration that
      is generated has the type the built-in templates are checked against,
      so they render it ([built_in_templates_typed], on [execute_yields]).
      In every run of the composed program, every file on a proxy has the
      server of each container of a listing that publishes an address, and
      the rules of its names ([nginx_files_serve], [haproxy_files_serve]);
      when no request is pending, each request was followed by an update
      that brought the containers listed after it to all the proxies listed,
      and reloaded this instance's share, if the daemon answers
      ([nginx_converges], [haproxy_converges]).  In every fair run whose
      requests stop, whatever the daemon answers, each request is followed by
      an update that does so, or that only looks and reports the error it
      fails with ([nginx_requests_answered], [haproxy_requests_answered]), and
      so is each event that asks for one, when the server polls or no error
      has the status 500 ([nginx_events_answered], [haproxy_events_answered]);
      an update can be reached within [ReloadThreshold]
      ([nginx_event_brought]).  A request whose update fails is not tried
      again, and a copy that the daemon refuses is only logged, as in the
      code.  In no run does a handler of the load balancer panic on a daemon
      whose answers have what the code reads without a check
      ([never_panics], with the assumptions spelled out in [Returns]); the
      line [null] of the event stream does end the process.
    - The configuration of the program comes from one source
      ([config_sources]; [config_precedence] has their order), a key-value
      store is the one its address names
      ([discovery_address]), and the daemon is verified by one variable only
      ([client_verification]).

    ** Fuel and bounds

    [waitForSwarm] takes the number of tries as fuel, and
    [handle_error_restarts] shows that one more than the tries the daemon
    fails is enough.  Other recursion is structural, or has a measure that
    is part of its input: [Time.parse_terms], [Net.parse_groups] and the
    functions of [GoTemplate] that read a template take the length of their
    text, [Sha256.blocks] the number of words.  [parse_json] takes twice the
    length of its text, which [parse_json_complete] shows is enough; the
    functions of [GoRegexp] take the length of theirs, which [parse_fuel] and
    [class_items_fuel] show is enough.  SHA-256 is
    computed; that it tells two given texts apart is a hypothesis of
    [poll_detects], discharged by computation in its witness.

    ** Parameters

    Code that is not in the repository's own packages and is not the
    language: the command line ([cli]), the TOML decoder ([ParseConfig]),
    the validation of a point by the InfluxDB client ([NewPoint]), the
    key-value store and the constructor of the Docker client, the
    registration of Prometheus metrics, the Docker daemon and the file
    system (the [World]).  Of the standard library, the expressions of
    [regexp] outside of [GoRegexp] (not ASCII, long, or with Unicode or
    POSIX names, quoted text or flags), the addresses of [net/url] outside
    of [GoUrl] (other characters, and what differs between the versions of
    Go), what the method of [time.Time] accepts and the texts of the errors
    of [encoding/json], the parsing of certificates, and what [text/template]
    does with templates of users beyond the part of [GoTemplate] are
    parameters.

    ** Not modelled

    Logging; the Prometheus registry beyond gauges, counters and their
    labels; the data races of the beacon's map, since [BeaconSystem] handles
    an event in one step.  In [System] the interactions of one handler are
    one step too; the answers of the daemon are any function of the history,
    so they may change between two interactions of a handler all the same.

    ** Plan

    Next: the parsing of certificates as a definition; the interactions of
    the handlers interleaved with those of the other goroutines; several load
    balancers in [System]. *)

From stdpp Require Export base list gmap strings pretty.

(** ** Go errors and fallible results *)

(** The one-character string holding a double quote. *)
Definition dquote : string := String (Ascii.ascii_of_nat 34) EmptyString.

(** Concatenation of strings. *)
Lemma sapp_cons c (s t : string) : String c s +:+ t = String c (s +:+ t).
Proof. reflexivity. Qed.
Lemma sapp_nil_l (s : string) : "" +:+ s = s.
Proof. reflexivity. Qed.
Lemma sapp_nil_r (s : string) : s +:+ "" = s.
Proof. induction s as [|c s IH]; [done|by rewrite sapp_cons, IH]. Qed.
Lemma sapp_assoc (s1 s2 s3 : string) : (s1 +:+ s2) +:+ s3 = s1 +:+ s2 +:+ s3.
Proof. induction s1 as [|c s IH]; [done|by rewrite !sapp_cons, IH]. Qed.

(** A Go [error] value.  [ErrorString] is an error made by [errors.New],
    [fmt.Errorf] or a remote service; [NumError] is what [strconv] returns;
    [ParseError] is what [net] returns. *)
Inductive error :=
| ErrorString (s : string)
| NumError (Func Num Err : string)
| ParseError (Type_ Text : string).

(** The [Error()] method. *)
Definition Error (e : error) : string :=
  match e with
  | ErrorString s => s
  | NumError f n s => "strconv." +:+ f +:+ ": parsing " +:+ dquote +:+ n +:+ dquote +:+ ": " +:+ s
  | ParseError ty s => "invalid " +:+ ty +:+ ": " +:+ s
  end.

(** The pair [(value, error)] a Go function returns: exactly one of the two
    is meaningful. *)
Inductive res (A : Type) :=
| Ok (a : A)
| Err (e : error).
Arguments Ok {A} a.
Arguments Err {A} e.

(** How a piece of Go code ends: it returns a value, it panics, or it ends
    the process through [log.Fatal]. *)
Inductive outcome (A : Type) :=
| Val (a : A)
| Panic (why : string)
| Exit (why : string).
Arguments Val {A} a.
Arguments Panic {A} why.
Arguments Exit {A} why.

(** Pure Go code that may panic. *)
#[export] Instance outcome_ret : MRet outcome := fun A a => Val a.
#[export] Instance outcome_bind : MBind outcome := fun A B f m =>
  match m with
  | Val a => f a
  | Panic w => Panic w
  | Exit w => Exit w
  end.

(** Dereferencing a pointer that may be nil. *)
Definition deref {A} (p : option A) : outcome A :=
  match p with
  | Some a => Val a
  | None => Panic "invalid memory address or nil pointer dereference"
  end.

(** [l[i]] on a slice. *)
Definition at_index {A} (l : list A) (i : nat) : outcome A :=
  match l !! i with
  | Some a => Val a
  | None => Panic "index out of range"
  end.

(** ** Effectful code *)

(** Code that talks to the outside world is a function of the history of the
    interactions so far (oldest first); it extends the history. *)
Definition comp (E A : Type) : Type := list E -> outcome A * list E.

#[export] Instance comp_ret {E} : MRet (comp E) := fun A a h => (Val a, h).
#[export] Instance comp_bind {E} : MBind (comp E) := fun A B f m h =>
  match m h with
  | (Val a, h') => f a h'
  | (Panic w, h') => (Panic w, h')
  | (Exit w, h') => (Exit w, h')
  end.

Section Comp.
Context {E : Type}.

(** Lifts code with no interaction. *)
Definition pure {A} (o : outcome A) : comp E A := fun h => (o, h).

(** One interaction: the reply is a function of the history before it. *)
Definition call {A} (e : E) (reply : list E -> A) : comp E A := fun h => (Val (reply h), h ++ [e]).

(** The number of interactions so far. *)
Definition tick : comp E nat := fun h => (Val (length h), h).

(** [for _, x := range l { s = f(s, x) }] *)
Fixpoint foldM {S A} (f : S -> A -> comp E S) (s : S) (l : list A) : comp E S :=
  match l with
  | [] => mret s
  | x :: l => s' ← f s x; foldM f s' l
  end.

(** The same for a body that may [return nil, err] from the function. *)
Fixpoint foldE {S A} (f : S -> A -> comp E (res S)) (s : S) (l : list A) : comp E (res S) :=
  match l with
  | [] => mret (Ok s)
  | x :: l =>
      r ← f s x;
      match r with
      | Ok s' => foldE f s' l
      | Err e => mret (Err e)
      end
  end.

(** [for _, x := range l { f(x) }] *)
Fixpoint forM {A} (f : A -> comp E unit) (l : list A) : comp E unit :=
  match l with
  | [] => mret tt
  | x :: l => _ ← f x; forM f l
  end.

(** ** Reasoning about effectful code *)

(** [wp m h Q]: run after the history [h], [m] extends it by some
    interactions [new], and [Q] holds of its outcome and of [new]. *)
Definition wp {A} (m : comp E A) (h : list E) (Q : outcome A -> list E -> Prop) : Prop :=
  exists new, (m h).2 = h ++ new /\ Q (m h).1 new.

(** Every run of [m] extends the history by interactions in the language [L],
    however it ends. *)
Definition emits (L : list E -> Prop) {A} (m : comp E A) : Prop :=
  forall h, wp m h (fun _ new => L new).

(** Concatenation of languages. *)
Definition lang_app (L1 L2 : list E -> Prop) (l : list E) : Prop :=
  exists l1 l2, l = l1 ++ l2 /\ L1 l1 /\ L2 l2.

(** [bind], at a history. *)
Lemma bind_at {A B} (m : comp E A) (f : A -> comp E B) h :
  (m ≫= f) h =
  match m h with
  | (Val a, h') => f a h'
  | (Panic w, h') => (Panic w, h')
  | (Exit w, h') => (Exit w, h')
  end.
Proof. reflexivity. Qed.

Lemma wp_mono {A} (m : comp E A) h (Q Q' : outcome A -> list E -> Prop) :
  wp m h Q -> (forall o new, Q o new -> Q' o new) -> wp m h Q'.
Proof. intros (new & Hh & HQ) HQQ. exists new. auto. Qed.

Lemma wp_and {A} (m : comp E A) h (Q Q' : outcome A -> list E -> Prop) :
  wp m h Q -> wp m h Q' -> wp m h (fun o new => Q o new /\ Q' o new).
Proof.
  intros (new & Hh & HQ) (new' & Hh' & HQ'). exists new. rewrite Hh in Hh'.
  apply app_inv_head in Hh' as <-. auto.
Qed.

Lemma wp_ret {A} (a : A) h (Q : outcome A -> list E -> Prop) : Q (Val a) [] -> wp (mret a) h Q.
Proof. intros HQ. exists []. rewrite app_nil_r. auto. Qed.

Lemma wp_pure {A} (o : outcome A) h (Q : outcome A -> list E -> Prop) : Q o [] -> wp (pure o) h Q.
Proof. intros HQ. exists []. rewrite app_nil_r. auto. Qed.

Lemma wp_tick h (Q : outcome nat -> list E -> Prop) : Q (Val (length h)) [] -> wp tick h Q.
Proof. intros HQ. exists []. rewrite app_nil_r. auto. Qed.

Lemma wp_call {A} (e : E) (reply : list E -> A) h (Q : outcome A -> list E -> Prop) :
  Q (Val (reply h)) [e] -> wp (call e reply) h Q.
Proof. intros HQ. exists [e]. auto. Qed.

Lemma wp_bind {A B} (m : comp E A) (f : A -> comp E B) h (Q : outcome B -> list E -> Prop) :
  wp m h (fun o n =>
    match o with
    | Val a => wp (f a) (h ++ n) (fun o' n' => Q o' (n ++ n'))
    | Panic w => Q (Panic w) n
    | Exit w => Q (Exit w) n
    end) ->
  wp (m ≫= f) h Q.
Proof.
  intros (n & Hh & HQ). unfold wp, mbind, comp_bind in *.
  destruct (m h) as [[a|w|w] h'] eqn:Hm; simpl in *; subst h'; eauto.
  destruct HQ as (n' & Hh' & HQ). exists (n ++ n'). rewrite app_assoc. auto.
Qed.

(** The invariant rule for loops: [I] holds of the state and of the
    interactions of the loop so far, and [J] of a run cut short. *)
Lemma wp_foldM {S A} (f : S -> A -> comp E S) (I : S -> list E -> Prop)
    (J : outcome S -> list E -> Prop) s l h pre :
  (forall s x n, I s n -> x ∈ l ->
     wp (f s x) (h ++ n) (fun o n' =>
       match o with
       | Val s' => I s' (n ++ n')
       | _ => J o (n ++ n')
       end)) ->
  I s pre ->
  wp (foldM f s l) (h ++ pre) (fun o n =>
    match o with
    | Val s' => I s' (pre ++ n)
    | _ => J o (pre ++ n)
    end).
Proof.
  revert s pre. induction l as [|x l IH]; intros s pre Hf HI.
  - apply wp_ret. by rewrite app_nil_r.
  - simpl. apply wp_bind.
    eapply wp_mono; [apply Hf; [done|left]|].
    intros [s'|w|w] n HIn; simpl in *; [|done..].
    rewrite <- app_assoc.
    eapply wp_mono; [apply IH; [|done]|].
    + intros. apply Hf; [done|by right].
    + intros [s''|w|w] n'; by rewrite app_assoc.
Qed.

Lemma emits_ret L {A} (a : A) : L [] -> emits L (mret a : comp E A).
Proof. intros HL h. by apply wp_ret. Qed.

Lemma emits_pure L {A} (o : outcome A) : L [] -> emits L (pure o).
Proof. intros HL h. by apply wp_pure. Qed.

Lemma emits_tick L : L [] -> emits L tick.
Proof. intros HL h. by apply wp_tick. Qed.

Lemma emits_call L {A} (e : E) (reply : list E -> A) : L [e] -> emits L (call e reply).
Proof. intros HL h. by apply wp_call. Qed.

Lemma emits_weaken (L L' : list E -> Prop) {A} (m : comp E A) :
  emits L m -> (forall l, L l -> L' l) -> emits L' m.
Proof. intros Hm HL h. eapply wp_mono; [apply Hm|]. auto. Qed.

Lemma emits_bind L1 L2 {A B} (m : comp E A) (f : A -> comp E B) :
  emits L1 m -> (forall a, emits L2 (f a)) -> L2 [] -> emits (lang_app L1 L2) (m ≫= f).
Proof.
  intros Hm Hf Hnil h. apply wp_bind. eapply wp_mono; [apply Hm|].
  intros [a|w|w] n Hn.
  - eapply wp_mono; [apply Hf|]. intros o n' Hn'. by exists n, n'.
  - exists n, []. by rewrite app_nil_r.
  - exists n, []. by rewrite app_nil_r.
Qed.

(** What is established by the end of the code alone. *)
Lemma wp_then L {A B} (m : comp E A) (f : A -> comp E B) (Q : B -> Prop) h :
  emits L m ->
  (forall a h, wp (f a) h (fun o _ => match o with Val b => Q b | _ => True end)) ->
  wp (m ≫= f) h (fun o _ => match o with Val b => Q b | _ => True end).
Proof.
  intros Hm Hf. apply wp_bind. eapply wp_mono; [apply Hm|]. intros [a|w|w] n _; [|done..]. apply Hf.
Qed.

(** A language given by a predicate on single interactions. *)
Lemma emits_all_bind (P : E -> Prop) {A B} (m : comp E A) (f : A -> comp E B) :
  emits (Forall P) m -> (forall a, emits (Forall P) (f a)) -> emits (Forall P) (m ≫= f).
Proof.
  intros Hm Hf. eapply emits_weaken; [by apply emits_bind|].
  intros l (l1 & l2 & -> & ? & ?). by apply Forall_app.
Qed.

Lemma emits_all_call (P : E -> Prop) {A} (e : E) (reply : list E -> A) :
  P e -> emits (Forall P) (call e reply).
Proof. intros HP. apply emits_call. by constructor. Qed.

Lemma emits_all_foldM (P : E -> Prop) {S A} (f : S -> A -> comp E S) s l :
  (forall s x, x ∈ l -> emits (Forall P) (f s x)) -> emits (Forall P) (foldM f s l).
Proof.
  revert s. induction l as [|x l IH]; intros s Hf; simpl.
  - by apply emits_ret.
  - apply emits_all_bind; [apply Hf; left|]. intros. apply IH. intros. apply Hf. by right.
Qed.

Lemma emits_all_foldE (P : E -> Prop) {S A} (f : S -> A -> comp E (res S)) s l :
  (forall s x, x ∈ l -> emits (Forall P) (f s x)) -> emits (Forall P) (foldE f s l).
Proof.
  revert s. induction l as [|x l IH]; intros s Hf; simpl.
  - by apply emits_ret.
  - apply emits_all_bind; [apply Hf; left|]. intros [s'|e]; [|by apply emits_ret].
    apply IH. intros. apply Hf. by right.
Qed.

Lemma emits_all_forM (P : E -> Prop) {A} (f : A -> comp E unit) l :
  (forall x, x ∈ l -> emits (Forall P) (f x)) -> emits (Forall P) (forM f l).
Proof.
  induction l as [|x l IH]; intros Hf; simpl.
  - by apply emits_ret.
  - apply emits_all_bind; [apply Hf; left|]. intros. apply IH. intros. apply Hf. by right.
Qed.

(** Every run of [m] returns: it neither panics nor ends the process. *)
Definition returns {A} (m : comp E A) : Prop := forall h, wp m h (fun o _ => exists a, o = Val a).

Lemma returns_ret {A} (a : A) : returns (mret a : comp E A).
Proof. intros h. apply wp_ret. by exists a. Qed.

Lemma returns_pure {A} (a : A) : returns (pure (Val a) : comp E A).
Proof. intros h. apply wp_pure. by exists a. Qed.

Lemma returns_tick : returns tick.
Proof. intros h. apply wp_tick. eauto. Qed.

Lemma returns_call {A} (e : E) (reply : list E -> A) : returns (call e reply).
Proof. intros h. apply wp_call. eauto. Qed.

Lemma returns_bind {A B} (m : comp E A) (f : A -> comp E B) :
  returns m -> (forall a, returns (f a)) -> returns (m ≫= f).
Proof.
  intros Hm Hf h. apply wp_bind. eapply wp_mono; [apply Hm|]. intros o n [a ->]. apply Hf.
Qed.

(** The same, with the reply at hand. *)
Lemma returns_call_bind {A B} (e : E) (reply : list E -> A) (f : A -> comp E B) :
  (forall h, returns (f (reply h))) -> returns (call e reply ≫= f).
Proof. intros Hf h. apply wp_bind, wp_call, Hf. Qed.

Lemma returns_foldM {S A} (f : S -> A -> comp E S) s l :
  (forall s x, x ∈ l -> returns (f s x)) -> returns (foldM f s l).
Proof.
  revert s. induction l as [|x l IH]; intros s Hf; simpl; [by apply returns_ret|].
  apply returns_bind; [apply Hf; left|]. intros. apply IH. intros. apply Hf. by right.
Qed.

Lemma returns_foldE {S A} (f : S -> A -> comp E (res S)) s l :
  (forall s x, x ∈ l -> returns (f s x)) -> returns (foldE f s l).
Proof.
  revert s. induction l as [|x l IH]; intros s Hf; simpl; [by apply returns_ret|].
  apply returns_bind; [apply Hf; left|]. intros [s'|e]; [|by apply returns_ret].
  apply IH. intros. apply Hf. by right.
Qed.

Lemma returns_forM {A} (f : A -> comp E unit) l : (forall x, x ∈ l -> returns (f x)) -> returns (forM f l).
Proof.
  induction l as [|x l IH]; intros Hf; simpl; [by apply returns_ret|].
  apply returns_bind; [apply Hf; left|]. intros _. apply IH. intros. apply Hf. by right.
Qed.

Lemma returns_val {A} (m : comp E A) h : returns m -> exists a new, m h = (Val a, h ++ new).
Proof.
  intros Hm. destruct (Hm h) as (new & Hh & a & Ho). exists a, new.
  rewrite <- Ho, <- Hh. by destruct (m h).
Qed.
End Comp.

Create HintDb go.
#[export] Hint Resolve emits_pure emits_ret emits_tick emits_all_bind emits_all_call
  emits_all_foldM emits_all_foldE emits_all_forM : go.

(** Goes through the body of an effectful definition down to its calls. *)
Ltac emits_step :=
  match goal with
  | |- emits (Forall _) (_ ≫= _) => apply emits_all_bind; [|intros ?]
  | |- emits (Forall _) (mret _) => apply emits_ret; constructor
  | |- emits (Forall _) (pure _) => apply emits_pure; constructor
  | |- emits (Forall _) tick => apply emits_tick; constructor
  | |- emits (Forall _) (call _ _) => apply emits_all_call
  | |- emits (Forall _) (foldM _ _ _) => apply emits_all_foldM; intros
  | |- emits (Forall _) (foldE _ _ _) => apply emits_all_foldE; intros
  | |- emits (Forall _) (forM _ _) => apply emits_all_forM; intros
  | |- emits _ (match ?x with _ => _ end) => destruct x eqn:?
  | |- emits _ (let _ := _ in _) => cbv zeta
  end.
Ltac emits_auto := repeat emits_step.

(** ** Iteration over maps *)

(** Go leaves the order of [for k, v := range m] unspecified and changes it
    from one execution of the loop to the next.  [range site n m] is the
    order taken by the execution number [n] of the loop [site]. *)
Class MapRange := {
  range : forall {A : Type}, string -> nat -> gmap string A -> list (string * A);
  range_perm : forall (A : Type) site n (m : gmap string A), range site n m ≡ₚ map_to_list m;
}.

(** Two orders, for concrete runs. *)
Definition sorted_range : MapRange :=
  {| range := fun A _ _ m => map_to_list m; range_perm := fun A _ _ m => Permutation_refl _ |}.
Definition reversed_range : MapRange :=
  {| range := fun A _ _ m => rev (map_to_list m);
     range_perm := fun A _ _ m => symmetry (Permutation_rev (map_to_list m)) |}.

Section MapRangeFacts.
Context `{MapRange}.

Lemma elem_of_range {A} site n (m : gmap string A) k v : (k, v) ∈ range site n m <-> m !! k = Some v.
Proof. rewrite (range_perm A site n m). apply elem_of_map_to_list. Qed.

Lemma NoDup_range_fst {A} site n (m : gmap string A) : NoDup (range site n m).*1.
Proof. rewrite (range_perm A site n m). apply NoDup_fst_map_to_list. Qed.

Lemma range_empty {A} site n : range site n (∅ : gmap string A) = [].
Proof. apply Permutation_nil_r. rewrite (range_perm A site n ∅). by rewrite map_to_list_empty. Qed.
End MapRangeFacts.

(** ** Loops that fill maps *)

(** A component of a loop's state that is updated from itself alone. *)
Lemma fold_left_proj {S T A} (p : S -> T) (f : S -> A -> S) (g : T -> A -> T) l s :
  (forall s x, p (f s x) = g (p s) x) -> p (fold_left f l s) = fold_left g l (p s).
Proof. intros Hp. revert s. induction l as [|x l IH]; intros s; simpl; [done|]. by rewrite IH, Hp. Qed.

(** What a loop leaves in a component [p] of its state, as a function [spec]
    of the elements gone through. *)
Lemma fold_left_spec {S T A} (p : S -> T) (f : S -> A -> S) (spec : list A -> T) l s :
  p s = spec [] ->
  (forall s l x, p s = spec l -> p (f s x) = spec (l ++ [x])) ->
  p (fold_left f l s) = spec l.
Proof.
  intros Hs Hf. induction l as [|x l IH] using rev_ind; [done|].
  rewrite fold_left_app. simpl. by apply Hf.
Qed.

(** [m[k] = append(m[k], v)] *)
Definition append_at {A} (k : string) (v : A) (m : gmap string (list A)) : gmap string (list A) :=
  <[k := default [] (m !! k) ++ [v]]> m.

(** A list as a map entry: absent when empty. *)
Definition entry {A} (l : list A) : option (list A) :=
  match l with [] => None | _ => Some l end.

Lemma default_entry {A} (l : list A) : default [] (entry l) = l.
Proof. by destruct l. Qed.

Lemma entry_snoc {A} (l : list A) x : entry (l ++ [x]) = Some (l ++ [x]).
Proof. by destruct l. Qed.

Lemma entry_app_cons {A} (l l' : list A) x : entry (l ++ x :: l') = Some (l ++ x :: l').
Proof. by destruct l. Qed.

Lemma lookup_insert_values {A} (vs : list A) (k k' : string) (m : gmap string A) :
  fold_left (fun m v => <[k := v]> m) vs m !! k' =
  if decide (k = k') then match last vs with Some v => Some v | None => m !! k' end else m !! k'.
Proof.
  induction vs as [|v vs IH] using rev_ind; simpl; [by case_decide|].
  rewrite fold_left_app. simpl. rewrite last_snoc, lookup_insert, IH. by case_decide.
Qed.

Lemma lookup_append_at {A} (k k' : string) (v : A) (m : gmap string (list A)) :
  append_at k v m !! k' = if decide (k = k') then Some (default [] (m !! k') ++ [v]) else m !! k'.
Proof. unfold append_at. rewrite lookup_insert. by case_decide; subst. Qed.

Lemma lookup_append_all {A} (k k' : string) (vs : list A) (m : gmap string (list A)) :
  fold_left (fun m v => append_at k v m) vs m !! k' =
  if decide (k = k') then
    match vs with [] => m !! k' | _ => Some (default [] (m !! k') ++ vs) end
  else m !! k'.
Proof.
  revert m. induction vs as [|v vs IH]; intros m; simpl; [by case_decide|].
  rewrite IH, lookup_append_at. case_decide; [|done]. simpl.
  destruct vs; [done|]. by rewrite <- app_assoc.
Qed.

Lemma lookup_insert_all {A} (v : A) (ks : list string) (k : string) (m : gmap string A) :
  fold_left (fun m k => <[k := v]> m) ks m !! k = if decide (k ∈ ks) then Some v else m !! k.
Proof.
  revert m. induction ks as [|k' ks IH]; intros m; simpl.
  - done.
  - rewrite IH, lookup_insert. destruct (decide (k ∈ ks)), (decide (k' = k)), (decide (k ∈ k' :: ks)); set_solver.
Qed.

(** A loop over the images of a list. *)
Lemma fold_left_map {S A B} (f : S -> B -> S) (g : A -> B) l s :
  fold_left f (map g l) s = fold_left (fun s x => f s (g x)) l s.
Proof. revert s. induction l as [|x l IH]; intros s; simpl; [done|apply IH]. Qed.

Lemma map_flat_map {A B C} (f : B -> C) (g : A -> list B) l :
  map f (flat_map g l) = flat_map (fun x => map f (g x)) l.
Proof. induction l as [|x l IH]; simpl; [done|]. by rewrite map_app, IH. Qed.

(** [mapM] goes through a list from the left. *)
Lemma foldM_mapM {E S A B} (f : S -> A -> comp E S) (g : A -> comp E B) (upd : S -> B -> S) l s h :
  (forall s x h, f s x h = (y ← g x; mret (upd s y)) h) ->
  foldM f s l h = (ys ← mapM g l; mret (fold_left upd ys s)) h.
Proof.
  intros Hf. revert s h. induction l as [|x l IH]; intros s h; [done|].
  simpl. unfold mbind, comp_bind at 1. rewrite Hf. simpl.
  unfold mbind, comp_bind, mret, comp_ret. destruct (g x h) as [[y|w|w] h']; [|done..].
  rewrite IH. unfold mbind, comp_bind, mret, comp_ret.
  by destruct (mapM g l h') as [[ys|w|w] h''].
Qed.

(** The same for a loop that may return early: [g] yields the error. *)
Fixpoint mapE {E A B} (g : A -> comp E (res B)) (l : list A) : comp E (res (list B)) :=
  match l with
  | [] => mret (Ok [])
  | x :: l =>
      r ← g x;
      match r with
      | Ok y => ys ← mapE g l; mret (match ys with Ok ys => Ok (y :: ys) | Err e => Err e end)
      | Err e => mret (Err e)
      end
  end.

Lemma foldE_mapE {E S A B} (f : S -> A -> comp E (res S)) (g : A -> comp E (res B)) (upd : S -> B -> S) l s h :
  (forall s x h, f s x h =
    (r ← g x; mret (match r with Ok y => Ok (upd s y) | Err e => Err e end)) h) ->
  foldE f s l h =
  (r ← mapE g l; mret (match r with Ok ys => Ok (fold_left upd ys s) | Err e => Err e end)) h.
Proof.
  intros Hf. revert s h. induction l as [|x l IH]; intros s h; [done|].
  simpl. rewrite !bind_at, Hf, bind_at.
  destruct (g x h) as [[[y|e]|w|w] h']; [|done..].
  unfold mret at 1, comp_ret at 1. rewrite IH, !bind_at.
  by destruct (mapE g l h') as [[[ys|e]|w|w] h''].
Qed.

Lemma lookup_append_keys {A} (v : A) (ks : list string) (k : string) (m : gmap string (list A)) :
  fold_left (fun m k => append_at k v m) ks m !! k =
  match map (fun _ => v) (filter (fun k' => k' = k) ks) with
  | [] => m !! k
  | vs => Some (default [] (m !! k) ++ vs)
  end.
Proof.
  revert m. induction ks as [|k' ks IH]; intros m; simpl; [done|].
  rewrite IH, lookup_append_at, filter_cons. case_decide; [|done]. simpl.
  destruct (filter _ ks); [done|]. simpl. by rewrite <- app_assoc.
Qed.

(** A map of lists given by a function and the keys where it is not empty. *)
Lemma entry_map_perm {A} (m : gmap string (list A)) (f : string -> list A) (keys : list string) :
  NoDup keys -> (forall k, k ∈ keys <-> f k <> []) -> (forall k, m !! k = entry (f k)) ->
  map_to_list m ≡ₚ map (fun k => (k, f k)) keys.
Proof.
  intros Hnd Hk Hm. apply NoDup_Permutation.
  - apply NoDup_map_to_list.
  - apply NoDup_fmap_2_strong; [|done]. by intros x y _ _ [= -> _].
  - intros [k v]. rewrite elem_of_map_to_list, Hm, list_elem_of_fmap. split.
    + intros He. exists k. rewrite Hk. destruct (f k); naive_solver.
    + intros (k' & [= -> ->] & Hs%Hk). by destruct (f k').
Qed.

Lemma map_range_perm `{MapRange} {A B} site n (m : gmap string (list A)) (f : string -> list A)
    (keys : list string) (g : string * list A -> B) (g' : string -> B) :
  NoDup keys -> (forall k, k ∈ keys <-> f k <> []) -> (forall k, m !! k = entry (f k)) ->
  (forall k, k ∈ keys -> g (k, f k) = g' k) ->
  map g (range site n m) ≡ₚ map g' keys.
Proof.
  intros Hnd Hk Hm Hg. rewrite (range_perm _ site n), (entry_map_perm m f keys) by done.
  rewrite map_map. apply reflexive_eq, map_ext_in. intros k Hin%list_elem_of_In. by apply Hg.
Qed.

(** Steps through the beginning of an effectful definition. *)
Ltac wp_step :=
  match goal with
  | |- wp (call _ _ ≫= _) _ _ => apply wp_bind, wp_call
  | |- wp (tick ≫= _) _ _ => apply wp_bind, wp_tick
  | |- wp (mret _ ≫= _) _ _ => apply wp_bind, wp_ret
  | |- wp (pure ?o ≫= _) _ _ => apply wp_bind, wp_pure; destruct o eqn:?
  | |- wp (mret _) _ _ => apply wp_ret
  | |- wp (call _ _) _ _ => apply wp_call
  end.

(** A loop that makes one call for each element. *)
Lemma forM_calls {E A} (f : A -> comp E unit) (e : A -> E) l h :
  (forall x h, f x h = (Val tt, h ++ [e x])) -> forM f l h = (Val tt, h ++ map e l).
Proof.
  intros Hf. revert h. induction l as [|x l IH]; intros h; simpl; [by rewrite app_nil_r|].
  rewrite bind_at, Hf, IH. by rewrite <- app_assoc.
Qed.

Lemma wp_forM_calls {E A} (f : A -> comp E unit) (e : A -> E) l h (Q : outcome unit -> list E -> Prop) :
  (forall x h, f x h = (Val tt, h ++ [e x])) -> Q (Val tt) (map e l) -> wp (forM f l) h Q.
Proof. intros Hf HQ. exists (map e l). by rewrite (forM_calls f e). Qed.

(** A bound on the number of interactions and on a cost of theirs. *)
Definition costs {E} (cost : E -> Z) (k : nat) (c : Z) (l : list E) : Prop :=
  length l <= k /\ (foldr (fun e s => cost e + s) 0 l <= c)%Z.

Lemma costs_app {E} (cost : E -> Z) k1 c1 k2 c2 l1 l2 :
  costs cost k1 c1 l1 -> costs cost k2 c2 l2 -> costs cost (k1 + k2) (c1 + c2)%Z (l1 ++ l2).
Proof.
  intros [H1 H1'] [H2 H2']. split; [rewrite length_app; lia|].
  rewrite foldr_app. revert H1' H2'. clear.
  generalize (foldr (fun e s => cost e + s)%Z 0%Z l2). intros z. revert c1.
  induction l1 as [|e l1 IH]; intros c1 H1 H2; simpl in *; [lia|].
  specialize (IH (c1 - cost e)%Z). lia.
Qed.

Lemma costs_nil {E} (cost : E -> Z) k c : (0 <= c)%Z -> costs cost k c [].
Proof. split; simpl; lia. Qed.

Lemma emits_costs_bind {E} (cost : E -> Z) k1 c1 k2 c2 {A B} (m : comp E A) (f : A -> comp E B) :
  emits (costs cost k1 c1) m -> (forall a, emits (costs cost k2 c2) (f a)) -> (0 <= c2)%Z ->
  emits (costs cost (k1 + k2) (c1 + c2)%Z) (m ≫= f).
Proof.
  intros Hm Hf Hc. eapply emits_weaken; [eapply emits_bind; [exact Hm|exact Hf|by apply costs_nil]|].
  intros l (l1 & l2 & -> & H1 & H2). by apply costs_app.
Qed.
