(* ===== verification/GoStd.v ===== *)
(** * The parts of Go's standard library the program uses

    [strings], [strconv], [path], [path/filepath] and [net], as of the Go 1.6
    release the build image of the repository names.  Strings are byte
    strings.  Case conversion and trimming treat the ASCII letters and
    spaces only. *)

From S2P Require Import Prelude.
From Stdlib Require Export Ascii.

(** ** Characters *)

Definition char_code (c : ascii) : Z := Z.of_N (N_of_ascii c).
Definition digit_value (c : ascii) : option Z :=
  let v := char_code c in
  if (48 <=? v)%Z && (v <=? 57)%Z then Some (v - 48)%Z else None.
Definition hex_value (c : ascii) : option Z :=
  let v := char_code c in
  if (48 <=? v)%Z && (v <=? 57)%Z then Some (v - 48)%Z
  else if (97 <=? v)%Z && (v <=? 102)%Z then Some (v - 87)%Z
  else if (65 <=? v)%Z && (v <=? 70)%Z then Some (v - 55)%Z
  else None.

(** ** Package strings *)

Module Strings.
(** [strings.Index]: the first position of [sub], or -1. *)
Definition Index (s sub : string) : Z :=
  match String.index 0 sub s with
  | Some n => Z.of_nat n
  | None => -1
  end.

(** [strings.Split] for a separator of one byte. *)
Fixpoint Split (s : string) (sep : ascii) : list string :=
  match s with
  | EmptyString => [EmptyString]
  | String c s' =>
      if decide (c = sep) then EmptyString :: Split s' sep
      else match Split s' sep with
           | w :: ws => String c w :: ws
           | [] => [String c EmptyString]
           end
  end.

(** [strings.Join]. *)
Fixpoint Join (l : list string) (sep : string) : string :=
  match l with
  | [] => ""
  | [w] => w
  | w :: l' => w +:+ sep +:+ Join l' sep
  end.

(** [strings.Replace(s, old, new, -1)] for an [old] of one byte. *)
Fixpoint ReplaceAll (s : string) (old : ascii) (new : string) : string :=
  match s with
  | EmptyString => EmptyString
  | String c s' => if decide (c = old) then new +:+ ReplaceAll s' old new else String c (ReplaceAll s' old new)
  end.

Definition lower (c : ascii) : ascii :=
  if (65 <=? char_code c)%Z && (char_code c <=? 90)%Z then ascii_of_N (N_of_ascii c + 32) else c.
Fixpoint ToLower (s : string) : string :=
  match s with
  | EmptyString => EmptyString
  | String c s' => String (lower c) (ToLower s')
  end.

Fixpoint TrimLeftSpace (s : string) : string :=
  match s with
  | String c s' => if Ascii.is_space c then TrimLeftSpace s' else s
  | EmptyString => EmptyString
  end.
(** Drops the longest suffix of characters in [p]. *)
Fixpoint TrimRight (p : ascii -> bool) (s : string) : string :=
  match s with
  | EmptyString => EmptyString
  | String c s' =>
      match TrimRight p s' with
      | EmptyString => if p c then EmptyString else String c EmptyString
      | t => String c t
      end
  end.
Definition TrimSpace (s : string) : string := TrimRight Ascii.is_space (TrimLeftSpace s).

(** [s[:n]]: panics when [s] is shorter. *)
Definition prefix_slice (s : string) (n : nat) : outcome string :=
  if decide (n <= String.length s) then Val (String.substring 0 n s)
  else Panic "slice bounds out of range".
(** [s[n:]]: panics when [s] is shorter. *)
Definition suffix_slice (s : string) (n : nat) : outcome string :=
  if decide (n <= String.length s) then Val (String.substring n (String.length s - n) s)
  else Panic "slice bounds out of range".
End Strings.

(** ** Package strconv *)

Module Strconv.
Definition max_uint64 : Z := 18446744073709551615.

Inductive uint_error := ErrSyntax | ErrRange.
Definition uint_error_text (e : uint_error) : string :=
  match e with ErrSyntax => "invalid syntax" | ErrRange => "value out of range" end.

(** The digit loop of [ParseUint(s, 10, 64)]. *)
Fixpoint parse_digits (s : string) (n : Z) : Z + uint_error :=
  match s with
  | EmptyString => inl n
  | String c s' =>
      match digit_value c with
      | None => inr ErrSyntax
      | Some v => if (max_uint64 <? n * 10 + v)%Z then inr ErrRange else parse_digits s' (n * 10 + v)
      end
  end.
Definition ParseUint (s : string) : Z + uint_error :=
  match s with EmptyString => inr ErrSyntax | _ => parse_digits s 0 end.

(** [Atoi], which is [ParseInt(s, 10, 0)] on a platform of 64 bits. *)
Definition Atoi (s0 : string) : res Z :=
  let fail e := Err (NumError "ParseInt" s0 (uint_error_text e)) in
  let '(neg, s) :=
    match s0 with
    | String c s' =>
        if decide (c = "+"%char) then (false, s')
        else if decide (c = "-"%char) then (true, s')
        else (false, s0)
    | EmptyString => (false, s0)
    end in
  match ParseUint s with
  | inr e => fail e
  | inl un =>
      if negb neg && (2 ^ 63 <=? un)%Z then fail ErrRange
      else if neg && (2 ^ 63 <? un)%Z then fail ErrRange
      else Ok (if neg then - un else un)%Z
  end.

(** [Sprintf] of an integer with the verb d. *)
Definition Itoa (z : Z) : string := pretty z.
End Strconv.

(** ** Packages path and path/filepath (on Unix they agree) *)

Module Path.
(** One element of the path met by [Clean]; [out] is reversed. *)
Definition clean_step (rooted : bool) (out : list string) (w : string) : list string :=
  if decide (w = "") then out
  else if decide (w = ".") then out
  else if decide (w = "..") then
    match out with
    | x :: out' => if decide (x = "..") then w :: out else out'
    | [] => if rooted then [] else [w]
    end
  else w :: out.
Definition rooted (p : string) : bool :=
  match p with String c _ => bool_decide (c = "/"%char) | EmptyString => false end.
Definition Clean (p : string) : string :=
  let r := rooted p in
  let body := Strings.Join (rev (fold_left (clean_step r) (Strings.Split p "/") [])) "/" in
  let q := (if r then "/" else "") +:+ body in
  if decide (q = "") then "." else q.

(** [Join]: the elements that are not empty, joined and cleaned. *)
Definition Join (l : list string) : string :=
  match filter (fun w => w <> "") l with
  | [] => ""
  | l' => Clean (Strings.Join l' "/")
  end.

(** [path.Split]: up to and with the last slash, and what follows it. *)
Definition Split (p : string) : string * string :=
  match rev (Strings.Split p "/") with
  | [] => ("", "")
  | [w] => ("", w)
  | w :: ws => (Strings.Join (rev ws) "/" +:+ "/", w)
  end.
Definition Dir (p : string) : string := Clean (Split p).1.

(** [path.Base]: the last element, without trailing slashes. *)
Definition Base (p : string) : string :=
  if decide (p = "") then "."
  else
    let b := (Split (Strings.TrimRight (fun c => bool_decide (c = "/"%char)) p)).2 in
    if decide (b = "") then "/" else b.
End Path.

(** ** Package net: CIDR notation *)

Module Net.
(** The bound on decimal and hexadecimal numbers in addresses. *)
Definition big : Z := 16777215.

(** The loops of [dtoi] and [xtoi]: the number, and what follows it. *)
Fixpoint scan_number (value : ascii -> option Z) (base n : Z) (s : string) : option (Z * string) :=
  match s with
  | String c s' =>
      match value c with
      | Some v => if (big <=? n * base + v)%Z then None else scan_number value base (n * base + v) s'
      | None => Some (n, s)
      end
  | EmptyString => Some (n, s)
  end.
(** At least one digit is required. *)
Definition starts_with (value : ascii -> option Z) (s : string) : bool :=
  match s with String c _ => bool_decide (is_Some (value c)) | EmptyString => false end.
Definition dtoi (s : string) : option (Z * string) :=
  if starts_with digit_value s then scan_number digit_value 10 0 s else None.
Definition xtoi (s : string) : option (Z * string) :=
  if starts_with hex_value s then scan_number hex_value 16 0 s else None.

(** The octets of a dotted address; the dot before the first is absent. *)
Fixpoint parse_octets (n : nat) (first : bool) (s : string) : option (list Z) :=
  match n with
  | O => if decide (s = "") then Some [] else None
  | S n' =>
      let s1 := if first then Some s
                else match s with
                     | String c s' => if decide (c = "."%char) then Some s' else None
                     | EmptyString => None
                     end in
      s1 ← s1;
      '(v, rest) ← dtoi s1;
      if (255 <? v)%Z then None
      else vs ← parse_octets n' false rest; Some (v :: vs)
  end.
Definition parseIPv4 (s : string) : option (list Z) := parse_octets 4 true s.

(** The loop of [parseIPv6] over groups of 16 bits: [groups] are those read
    so far (last first), [ellipsis] their number when "::" was met.  Each
    iteration reads a group, so 8 iterations are enough. *)
Fixpoint parse_groups (fuel : nat) (s : string) (groups : list Z) (ellipsis : option nat) :
    option (list Z * option nat) :=
  match fuel with
  | O => if decide (s = "") then Some (groups, ellipsis) else None
  | S fuel' =>
      '(n, rest) ← xtoi s;
      if (65535 <? n)%Z then None
      else
        match rest with
        | EmptyString => Some (n :: groups, ellipsis)
        | String c rest' =>
            if decide (c = "."%char) then
              if bool_decide (ellipsis = None /\ length groups <> 6) || bool_decide (6 < length groups) then None
              else
                match parseIPv4 s with
                | Some [a; b; c; d] => Some (c * 256 + d :: a * 256 + b :: groups, ellipsis)%Z
                | _ => None
                end
            else if decide (c = ":"%char) then
              match rest' with
              | EmptyString => None
              | String c' rest'' =>
                  if decide (c' = ":"%char) then
                    if decide (is_Some ellipsis) then None
                    else if decide (rest'' = "") then Some (n :: groups, Some (S (length groups)))
                    else parse_groups fuel' rest'' (n :: groups) (Some (S (length groups)))
                  else parse_groups fuel' rest' (n :: groups) ellipsis
              end
            else None
        end
  end.
(** Fills the place of "::" with zeros. *)
Definition expand (groups : list Z) (ellipsis : option nat) : option (list Z) :=
  match ellipsis with
  | None => if decide (length groups = 8) then Some groups else None
  | Some e =>
      if decide (length groups < 8)
      then Some (take e groups ++ replicate (8 - length groups) 0%Z ++ drop e groups)
      else None
  end.
Definition parseIPv6 (s : string) : option (list Z) :=
  '(groups, ellipsis) ←
    match s with
    | String c1 (String c2 s') =>
        if bool_decide (c1 = ":"%char) && bool_decide (c2 = ":"%char) then
          if decide (s' = "") then Some ([], Some 0) else parse_groups 8 s' [] (Some 0)
        else parse_groups 8 s [] None
    | _ => parse_groups 8 s [] None
    end;
  expand (rev groups) ellipsis.

(** An [IP] is its eight groups of 16 bits; an IPv4 address is mapped. *)
Definition of_ipv4 (p : list Z) : list Z :=
  match p with
  | [a; b; c; d] => [0; 0; 0; 0; 0; 65535; a * 256 + b; c * 256 + d]%Z
  | _ => []
  end.

Definition hex_digit (v : Z) : ascii :=
  ascii_of_N (Z.to_N (if (v <? 10)%Z then v + 48 else v + 87)%Z).
(** [appendHex]: no leading zeros. *)
Definition hex_group (v : Z) : string :=
  let digits := [v / 4096 mod 16; v / 256 mod 16; v / 16 mod 16]%Z in
  let fix strip l := match l with d :: l' => if (d =? 0)%Z then strip l' else l | [] => [] end in
  fold_right (fun d s => String (hex_digit d) s) (String (hex_digit (v mod 16)%Z) EmptyString) (strip digits).

(** The length of the run of zero groups at the head. *)
Fixpoint zero_run (l : list Z) : nat :=
  match l with
  | v :: l' => if (v =? 0)%Z then S (zero_run l') else 0
  | [] => 0
  end.
(** The first longest run of zero groups of [l], the best so far being
    [best] (start and length); [i] is the position of [l]. *)
Fixpoint longest_run (l : list Z) (i : nat) (best : nat * nat) : nat * nat :=
  match l with
  | [] => best
  | _ :: l' => longest_run l' (S i) (if decide (best.2 < zero_run l) then (i, zero_run l) else best)
  end.

Definition hex_groups (l : list Z) : string := Strings.Join (map hex_group l) ":".

(** [IP.String]. *)
Definition IP_String (ip : list Z) : string :=
  match ip with
  | [0; 0; 0; 0; 0; 65535; ab; cd]%Z =>
      Strings.Join (map Strconv.Itoa [ab / 256; ab mod 256; cd / 256; cd mod 256]%Z) "."
  | _ =>
      let '(e, n) := longest_run ip 0 (0, 0) in
      if decide (n <= 1) then hex_groups ip
      else hex_groups (take e ip) +:+ "::" +:+ hex_groups (drop (e + n) ip)
  end.

(** [ParseCIDR], of which the callers use the address only. *)
Definition ParseCIDR (s : string) : res (list Z) :=
  let fail := Err (ParseError "CIDR address" s) in
  match String.index 0 "/" s with
  | None => fail
  | Some i =>
      let addr := String.substring 0 i s in
      let mask := String.substring (S i) (String.length s - S i) s in
      let '(ip, bits) :=
        match parseIPv4 addr with
        | Some p => (Some (of_ipv4 p), 32%Z)
        | None => (parseIPv6 addr, 128%Z)
        end in
      match ip, dtoi mask with
      | Some ip, Some (n, EmptyString) => if (bits <? n)%Z then fail else Ok ip
      | _, _ => fail
      end
  end.
End Net.

(** ** Package bufio: scanning lines *)

Module Bufio.
(** The lines of a text: a final newline ends the last line. *)
Definition lines (s : string) : list string :=
  let ws := Strings.Split s "010"%char in
  match rev ws with
  | EmptyString :: ws' => rev ws'
  | _ => ws
  end.
Definition drop_cr (s : string) : string :=
  match String.rev s with
  | String c t => if decide (c = "013"%char) then String.rev t else s
  | EmptyString => s
  end.
(** The tokens of a [Scanner]: it stops at a line of 64 KiB or more. *)
Fixpoint scan (ws : list string) : list string :=
  match ws with
  | [] => []
  | w :: ws' => if decide (Z.of_nat (String.length w) < 65536)%Z then drop_cr w :: scan ws' else []
  end.
Definition Scan (s : string) : list string := scan (lines s).
End Bufio.

(** ** Facts *)

Module StringsFacts.
Lemma prefix_spec p s : String.prefix p s = true <-> exists t, s = p +:+ t.
Proof.
  revert s. induction p as [|c p IH]; intros s.
  - split; [intros _; by exists s|]. by destruct s.
  - destruct s as [|c' s]; simpl; [split; [done|by intros [t [=]]]|].
    destruct (ascii_dec c c') as [<-|Hne].
    + rewrite IH. split; intros [t Ht]; exists t; [by subst|by injection Ht].
    + split; [done|]. intros [t [= Hc _]]. congruence.
Qed.

(** [Index] finds a substring that is there. *)
Lemma Index_contains s sub : (Strings.Index s sub > -1)%Z <-> exists a b, s = a +:+ sub +:+ b.
Proof.
  assert (Hi : is_Some (String.index 0 sub s) <-> exists a b, s = a +:+ sub +:+ b).
  { induction s as [|c s IH].
    - simpl. destruct sub as [|c' sub]; [split; [by exists "", ""|done]|].
      split; [by intros []|]. intros (a & b & Hab). by destruct a.
    - cbn [String.index]. destruct (String.prefix sub (String c s)) eqn:Hp.
      + split; [|done]. intros _. apply prefix_spec in Hp as [t ->]. by exists "", t.
      + transitivity (is_Some (String.index 0 sub s)).
        { destruct (String.index 0 sub s); split; intros [? ?]; try done; by eexists. }
        rewrite IH. split.
        * intros (a & b & ->). by exists (String c a), b.
        * intros ([|c' a] & b & Hab); [|injection Hab as -> ->; by exists a, b].
          assert (String.prefix sub (String c s) = true) by (apply prefix_spec; eauto). congruence. }
  rewrite <- Hi. unfold Strings.Index. destruct (String.index 0 sub s); split; intros; try lia; [by eexists|].
  by destruct H.
Qed.
End StringsFacts.

Module StrconvFacts.
Lemma digit_value_char n : (n < 10)%N -> digit_value (pretty_N_char n) = Some (Z.of_N n).
Proof.
  intros Hn. assert (n ∈ [0; 1; 2; 3; 4; 5; 6; 7; 8; 9]%N) as Hin by (rewrite !elem_of_cons; lia).
  repeat (apply elem_of_cons in Hin as [->|Hin]; [reflexivity|]). by apply elem_of_nil in Hin.
Qed.

Section Digits.
(** A reader of digits accumulates the number it reads. *)
Context {R : Type} (read : string -> Z -> R) (limit : Z).
Context (read_digit : forall c s v n, digit_value c = Some v -> (0 <= n * 10 + v < limit)%Z ->
  read (String c s) n = read s (n * 10 + v)%Z).

Lemma read_pretty_go x s : (Z.of_N x < limit)%Z -> read (pretty_N_go x s) 0 = read s (Z.of_N x).
Proof.
  revert s. induction (N.lt_wf_0 x) as [x _ IH]; intros s Hx.
  destruct (decide (x = 0%N)) as [->|Hne]; [by rewrite pretty_N_go_0|].
  rewrite pretty_N_go_step by lia.
  assert (x `div` 10 < x)%N by (apply N.div_lt; lia).
  assert (x `mod` 10 < 10)%N by (apply N.mod_lt; lia).
  pose proof (N.div_mod x 10 ltac:(done)).
  rewrite IH by lia. rewrite (read_digit _ _ (Z.of_N (x `mod` 10))); [f_equal; lia|by apply digit_value_char|lia].
Qed.

Lemma read_pretty x s : (Z.of_N x < limit)%Z -> (0 < limit)%Z -> read (pretty x +:+ s) 0 = read s (Z.of_N x).
Proof.
  intros Hx Hl. unfold pretty, pretty_N. case_decide; [subst; by apply (read_digit _ _ 0%Z)|].
  assert (Happ : forall s', pretty_N_go x s' +:+ s = pretty_N_go x (s' +:+ s)).
  { clear Hx H. induction (N.lt_wf_0 x) as [x _ IH]; intros s'.
    destruct (decide (x = 0%N)) as [->|Hne]; [by rewrite !pretty_N_go_0|].
    rewrite !(pretty_N_go_step x) by lia. apply IH. apply N.div_lt; lia. }
  rewrite Happ. by apply read_pretty_go.
Qed.
End Digits.

Fixpoint all_digits (s : string) : Prop :=
  match s with
  | EmptyString => True
  | String c s' => is_Some (digit_value c) /\ all_digits s'
  end.

Lemma pretty_go_digits x s :
  all_digits s ->
  all_digits (pretty_N_go x s) /\ String.length s <= String.length (pretty_N_go x s).
Proof.
  revert s. induction (N.lt_wf_0 x) as [x _ IH]; intros s Hs.
  destruct (decide (x = 0%N)) as [->|Hne]; [by rewrite pretty_N_go_0|].
  rewrite pretty_N_go_step by lia.
  destruct (IH (x `div` 10)%N ltac:(apply N.div_lt; lia) (String (pretty_N_char (x `mod` 10)) s)) as [Hd Hl].
  - split; [|done]. rewrite digit_value_char by (apply N.mod_lt; lia). by eexists.
  - split; [done|]. simpl in Hl. lia.
Qed.

Lemma pretty_digits (x : N) : exists c s, pretty x = String c s /\ all_digits (String c s).
Proof.
  unfold pretty, pretty_N. case_decide as Hx; [by exists "0"%char, ""|].
  rewrite pretty_N_go_step by lia.
  destruct (pretty_go_digits (x `div` 10)%N (String (pretty_N_char (x `mod` 10)) "")) as [Hd Hl].
  - split; [|done]. rewrite digit_value_char by (apply N.mod_lt; lia). by eexists.
  - destruct (pretty_N_go _ _) as [|c s]; [simpl in Hl; lia|]. eauto.
Qed.

Lemma parse_digits_digit c s v n :
  digit_value c = Some v -> (0 <= n * 10 + v < Strconv.max_uint64 + 1)%Z ->
  Strconv.parse_digits (String c s) n = Strconv.parse_digits s (n * 10 + v)%Z.
Proof. intros Hv Hn. cbn [Strconv.parse_digits]. rewrite Hv. destruct (Z.ltb_spec Strconv.max_uint64 (n * 10 + v)); [lia|done]. Qed.

Lemma ParseUint_pretty (x : N) : (Z.of_N x <= Strconv.max_uint64)%Z -> Strconv.ParseUint (pretty x) = inl (Z.of_N x).
Proof.
  intros Hx. pose proof (read_pretty Strconv.parse_digits (Strconv.max_uint64 + 1) parse_digits_digit x "" ltac:(lia) ltac:(done)) as Hr.
  rewrite sapp_nil_r in Hr. simpl in Hr. rewrite <- Hr.
  by destruct (pretty_digits x) as (c & s & -> & _).
Qed.

Lemma Itoa_nonneg z : (0 <= z)%Z -> Strconv.Itoa z = pretty (Z.to_N z).
Proof. intros Hz. destruct z; [done|done|lia]. Qed.

Lemma Itoa_neg z : (z < 0)%Z -> Strconv.Itoa z = "-" +:+ pretty (Z.to_N (- z)).
Proof. intros Hz. by destruct z. Qed.

(** Printing and reading an integer of 64 bits. *)
Lemma Atoi_Itoa z : (- 2 ^ 63 <= z < 2 ^ 63)%Z -> Strconv.Atoi (Strconv.Itoa z) = Ok z.
Proof.
  intros Hz. destruct (decide (z < 0)%Z) as [Hneg|Hpos].
  - rewrite Itoa_neg, sapp_cons, sapp_nil_l by done. unfold Strconv.Atoi. simpl. rewrite ParseUint_pretty by (unfold Strconv.max_uint64; lia).
    rewrite Z2N.id by lia. simpl. destruct (Z.ltb_spec (2 ^ 63) (- z)); [lia|]. simpl. f_equal. lia.
  - rewrite Itoa_nonneg by lia.
    pose proof (ParseUint_pretty (Z.to_N z) ltac:(unfold Strconv.max_uint64; lia)) as Hp.
    destruct (pretty_digits (Z.to_N z)) as (c & s & Hcs & [[v Hv] _]). rewrite Hcs in Hp |- *.
    unfold Strconv.Atoi. destruct (decide (c = "+"%char)) as [->|_]; [done|].
    destruct (decide (c = "-"%char)) as [->|_]; [done|]. rewrite Hp, Z2N.id by lia. simpl.
    destruct (Z.leb_spec (2 ^ 63) z); [lia|done].
Qed.

Lemma parse_digits_nonneg s n un : (0 <= n)%Z -> Strconv.parse_digits s n = inl un -> (0 <= un)%Z.
Proof.
  revert n. induction s as [|c s IH]; intros n Hn; simpl; [intros [= <-]; done|].
  destruct (digit_value c) as [v|] eqn:Hv; [|done]. case_match; [done|]. apply IH.
  unfold digit_value in Hv. case_match; [|done]. injection Hv as <-. lia.
Qed.

(** [Atoi] yields an integer of 64 bits. *)
Lemma Atoi_bounds s z : Strconv.Atoi s = Ok z -> (- 2 ^ 63 <= z < 2 ^ 63)%Z.
Proof.
  unfold Strconv.Atoi. destruct (match s with EmptyString => _ | _ => _ end) as [neg s'].
  destruct (Strconv.ParseUint s') as [un|e] eqn:Hp; [|done].
  assert (0 <= un)%Z as Hun by (destruct s'; [done|by apply parse_digits_nonneg in Hp]).
  destruct neg; simpl; case_match eqn:Hb; try done; intros [= <-]; lia.
Qed.
End StrconvFacts.

Module NetFacts.
Import StrconvFacts.

Definition no_digit_head (s : string) : Prop :=
  match s with String c _ => digit_value c = None | EmptyString => True end.

Lemma dtoi_pretty (x : N) s :
  (Z.of_N x < Net.big)%Z -> no_digit_head s -> Net.dtoi (pretty x +:+ s) = Some (Z.of_N x, s).
Proof.
  intros Hx Hs. unfold Net.dtoi.
  assert (Net.starts_with digit_value (pretty x +:+ s) = true) as ->.
  { destruct (pretty_digits x) as (c & t & -> & [Hc _]). rewrite sapp_cons. simpl. by apply bool_decide_eq_true. }
  rewrite (read_pretty (fun s n => Net.scan_number digit_value 10 n s) Net.big); [|clear|done..].
  - destruct s as [|c s]; [done|]. simpl in *. by rewrite Hs.
  - intros c s v n Hv Hn. simpl. rewrite Hv. by destruct (Z.leb_spec Net.big (n * 10 + v)); [lia|].
Qed.

(** A byte, and the dotted form of four of them. *)
Definition byte (v : Z) : Prop := (0 <= v < 256)%Z.
Definition dotted (a b c d : Z) : string := Strings.Join (map Strconv.Itoa [a; b; c; d]) ".".

Lemma dtoi_Itoa v s : byte v -> no_digit_head s -> Net.dtoi (Strconv.Itoa v +:+ s) = Some (v, s).
Proof.
  intros [Hv1 Hv2] Hs. rewrite Itoa_nonneg by done.
  rewrite dtoi_pretty; [by rewrite Z2N.id by lia|unfold Net.big; lia|done].
Qed.

Lemma parse_octets_cons n (first : bool) v s :
  byte v -> no_digit_head s ->
  Net.parse_octets (S n) first ((if first then "" else ".") +:+ Strconv.Itoa v +:+ s) =
  vs ← Net.parse_octets n false s; Some (v :: vs).
Proof.
  intros Hv Hs. destruct first; rewrite ?sapp_cons, !sapp_nil_l; cbn [Net.parse_octets].
  - cbn [mbind option_bind]. rewrite dtoi_Itoa by done. cbn. by destruct (Z.ltb_spec 255 v); [destruct Hv; lia|].
  - rewrite decide_True by done. cbn [mbind option_bind]. rewrite dtoi_Itoa by done. cbn.
    by destruct (Z.ltb_spec 255 v); [destruct Hv; lia|].
Qed.

Lemma parseIPv4_dotted a b c d :
  byte a -> byte b -> byte c -> byte d -> Net.parseIPv4 (dotted a b c d) = Some [a; b; c; d].
Proof.
  intros. unfold Net.parseIPv4, dotted. cbn [map Strings.Join].
  rewrite <- (sapp_nil_r (Strconv.Itoa d)).
  change (Strconv.Itoa a +:+ ?s) with ("" +:+ Strconv.Itoa a +:+ s).
  rewrite (parse_octets_cons 3 true), (parse_octets_cons 2 false), (parse_octets_cons 1 false), (parse_octets_cons 0 false)
    by done.
  reflexivity.
Qed.

(** Strings without the character [c]. *)
Fixpoint lacks (c : ascii) (s : string) : Prop :=
  match s with
  | EmptyString => True
  | String c' s' => c' <> c /\ lacks c s'
  end.

Lemma lacks_app c s t : lacks c s -> lacks c t -> lacks c (s +:+ t).
Proof.
  intros Hs Ht. induction s as [|c' s IH]; [done|]. rewrite sapp_cons. destruct Hs as [Hc Hs].
  split; [done|by apply IH].
Qed.

Lemma digits_lack_slash s : all_digits s -> lacks "/" s.
Proof. induction s as [|c s IH]; [done|]. intros [[v Hv] Hs]. split; [by intros ->|by apply IH]. Qed.

Lemma Itoa_lacks_slash v : (0 <= v)%Z -> lacks "/" (Strconv.Itoa v).
Proof.
  intros Hv. rewrite Itoa_nonneg by done. destruct (pretty_digits (Z.to_N v)) as (c & s & -> & Hd).
  by apply digits_lack_slash.
Qed.

Lemma index_slash s t : lacks "/" s -> String.index 0 "/" (s +:+ String "/" t) = Some (String.length s).
Proof.
  induction s as [|c s IH]; intros Hs; [by destruct t|]. destruct Hs as [Hc Hs].
  rewrite sapp_cons. cbn [String.index String.prefix]. destruct (ascii_dec "/" c); [congruence|].
  rewrite IH by done. done.
Qed.

Lemma substring_all s : String.substring 0 (String.length s) s = s.
Proof. induction s as [|c s IH]; [done|]. simpl. by rewrite IH. Qed.

Lemma substring_prefix s t : String.substring 0 (String.length s) (s +:+ t) = s.
Proof. induction s as [|c s IH]; [by destruct t|]. rewrite sapp_cons. simpl. by rewrite IH. Qed.

Lemma substring_suffix s c t n :
  n = String.length t -> String.substring (S (String.length s)) n (s +:+ String c t) = t.
Proof.
  intros ->. induction s as [|c' s IH]; [by apply substring_all|]. rewrite sapp_cons. simpl. apply IH.
Qed.

Lemma length_sapp s t : String.length (s +:+ t) = String.length s + String.length t.
Proof. induction s as [|c s IH]; [done|]. rewrite sapp_cons. simpl. by rewrite IH. Qed.

Lemma ParseCIDR_dotted a b c d n :
  byte a -> byte b -> byte c -> byte d -> (0 <= n <= 32)%Z ->
  Net.ParseCIDR (dotted a b c d +:+ "/" +:+ Strconv.Itoa n) = Ok (Net.of_ipv4 [a; b; c; d]).
Proof.
  intros Ha Hb Hc Hd Hn. unfold Net.ParseCIDR. rewrite sapp_cons, sapp_nil_l.
  assert (lacks "/" (dotted a b c d)) as Hl.
  { unfold dotted. cbn [map Strings.Join]. destruct Ha, Hb, Hc, Hd.
    repeat first [apply lacks_app | apply Itoa_lacks_slash; lia | done]. }
  rewrite index_slash by done. cbv zeta. rewrite substring_prefix, parseIPv4_dotted by done.
  rewrite substring_suffix by (rewrite length_sapp; simpl; lia).
  rewrite <- (sapp_nil_r (Strconv.Itoa n)), dtoi_Itoa; [|unfold byte; lia|done].
  by destruct (Z.ltb_spec 32 n); [lia|].
Qed.

Lemma IP_String_dotted a b c d :
  byte a -> byte b -> byte c -> byte d -> Net.IP_String (Net.of_ipv4 [a; b; c; d]) = dotted a b c d.
Proof.
  intros [Ha1 Ha2] [Hb1 Hb2] [Hc1 Hc2] [Hd1 Hd2]. unfold Net.of_ipv4, Net.IP_String, dotted.
  rewrite !Z.div_add_l, !(Z.div_small _ 256), !Z.add_0_r by lia.
  rewrite !(Z.add_comm (_ * 256)), !Z.mod_add, !Z.mod_small by lia. done.
Qed.
End NetFacts.
