(* ===== verification/GoTime.v ===== *)
(** * The parts of Go's [time], [sort], [encoding/json] and [crypto/sha256]
    the program uses

    Floating point numbers are those of [SpecFloat], at the format of
    [float64]. *)

From S2P Require Import Prelude GoStd.
From stdpp Require Import sorting.
From Stdlib Require Import SpecFloat.

(** ** float64 *)

Module Float64.
Definition t := spec_float.
Definition prec : Z := 53.
Definition emax : Z := 1024.
(** The conversion of an integer. *)
Definition of_Z (z : Z) : t := binary_normalize prec emax z 0 false.
Definition mul : t -> t -> t := SFmul prec emax.
Definition div : t -> t -> t := SFdiv prec emax.
(** The conversion to an integer that fits, towards zero. *)
Definition to_Z (x : t) : Z :=
  match x with
  | S754_finite s m e => let v := Z.shiftl (Z.pos m) e in if s then - v else v
  | _ => 0
  end.
End Float64.

(** ** time.ParseDuration *)

Module Time.
Definition max_int64 : Z := 9223372036854775807.

(** [leadingInt]: the digits at the head, or an overflow. *)
Fixpoint leadingInt (x : Z) (s : string) : option (Z * string) :=
  match s with
  | String c s' =>
      match digit_value c with
      | Some v => if (max_int64 <? x * 10 + v)%Z then None else leadingInt (x * 10 + v) s'
      | None => Some (x, s)
      end
  | EmptyString => Some (x, s)
  end.

(** What precedes the next digit or period. *)
Fixpoint take_unit (s : string) : string * string :=
  match s with
  | String c s' =>
      if bool_decide (c = "."%char) || bool_decide (is_Some (digit_value c)) then (EmptyString, s)
      else let '(u, r) := take_unit s' in (String c u, r)
  | EmptyString => (EmptyString, EmptyString)
  end.

(** Nanoseconds. *)
Definition unitMap (u : string) : option Z :=
  if decide (u = "ns") then Some 1%Z
  else if decide (u ∈ ["us"; "µs"; "μs"]) then Some 1000%Z
  else if decide (u = "ms") then Some 1000000%Z
  else if decide (u = "s") then Some 1000000000%Z
  else if decide (u = "m") then Some 60000000000%Z
  else if decide (u = "h") then Some 3600000000000%Z
  else None.

(** [scale] is multiplied by 10 for each digit of the fraction. *)
Fixpoint pow10 (n : nat) : Float64.t :=
  match n with O => Float64.of_Z 1 | S n' => Float64.mul (pow10 n') (Float64.of_Z 10) end.
Definition fraction (f : Z) (digits : nat) (unit : Z) : Z :=
  Float64.to_Z (Float64.mul (Float64.of_Z f) (Float64.div (Float64.of_Z unit) (pow10 digits))).

Definition starts_number (s : string) : bool :=
  match s with
  | String c _ => bool_decide (c = "."%char) || bool_decide (is_Some (digit_value c))
  | EmptyString => false
  end.

(** One number with its unit: the nanoseconds, and what follows. *)
Definition parse_term (s : string) : option (Z * string) + string :=
  if starts_number s then
    match leadingInt 0 s with
    | None => inl None
    | Some (v, s1) =>
        let pre := bool_decide (String.length s <> String.length s1) in
        let frac :=
          match s1 with
          | String c s2 =>
              if decide (c = "."%char) then
                match leadingInt 0 s2 with
                | None => None
                | Some (f, s3) => Some (f, String.length s2 - String.length s3, s3)
                end
              else Some (0%Z, 0, s1)
          | EmptyString => Some (0%Z, 0, s1)
          end in
        match frac with
        | None => inl None
        | Some (f, digits, s3) =>
            if negb pre && bool_decide (digits = 0) then inl None
            else
              let '(u, rest) := take_unit s3 in
              if decide (u = "") then inr "missing unit in duration "
              else
                match unitMap u with
                | None => inr ("unknown unit " +:+ u +:+ " in duration ")
                | Some unit =>
                    if (max_int64 / unit <? v)%Z then inl None
                    else
                      let v := (v * unit + (if (0 <? f)%Z then fraction f digits unit else 0))%Z in
                      if (max_int64 <? v)%Z then inl None else inl (Some (v, rest))
                end
        end
    end
  else inl None.

(** The terms of a duration; each has a character at least. *)
Fixpoint parse_terms (fuel : nat) (d : Z) (s : string) : Z + string :=
  match fuel with
  | O => inl d
  | S fuel' =>
      if decide (s = "") then inl d
      else
        match parse_term s with
        | inr e => inr e
        | inl None => inr "invalid duration "
        | inl (Some (v, rest)) =>
            if (max_int64 <? d + v)%Z then inr "invalid duration " else parse_terms fuel' (d + v) rest
        end
  end.

(** The sign at the head. *)
Definition sign (s : string) : bool * string :=
  match s with
  | String c s' =>
      if decide (c = "-"%char) then (true, s') else if decide (c = "+"%char) then (false, s') else (false, s)
  | EmptyString => (false, s)
  end.

(** [ParseDuration], in nanoseconds. *)
Definition ParseDuration (orig : string) : res Z :=
  let '(neg, s) := sign orig in
  if decide (s = "0") then Ok 0%Z
  else if decide (s = "") then Err (ErrorString ("time: invalid duration " +:+ orig))
  else
    match parse_terms (String.length s) 0 s with
    | inr e => Err (ErrorString ("time: " +:+ e +:+ orig))
    | inl d => Ok (if neg then - d else d)%Z
    end.
End Time.

Example parse_30s : Time.ParseDuration "30s" = Ok 30000000000%Z. Proof. vm_compute. reflexivity. Qed.
Example parse_mixed : Time.ParseDuration "-1h15m0.5s" = Ok (-4500500000000)%Z. Proof. vm_compute. reflexivity. Qed.
Example parse_frac : Time.ParseDuration "1.5h" = Ok 5400000000000%Z. Proof. vm_compute. reflexivity. Qed.
Example parse_none : Time.ParseDuration "30" = Err (ErrorString "time: missing unit in duration 30"). Proof. vm_compute. reflexivity. Qed.

Module TimeFacts.
Import StrconvFacts.

Lemma leadingInt_pretty (x : N) c s :
  (Z.of_N x <= Time.max_int64)%Z -> digit_value c = None ->
  Time.leadingInt 0 (pretty x +:+ String c s) = Some (Z.of_N x, String c s).
Proof.
  intros Hx Hc.
  rewrite (read_pretty (fun s n => Time.leadingInt n s) (Time.max_int64 + 1)); [|clear|lia|done].
  - simpl. by rewrite Hc.
  - intros c s v n Hv Hn. simpl. rewrite Hv. by destruct (Z.ltb_spec Time.max_int64 (n * 10 + v)); [lia|].
Qed.

(** A whole number of seconds. *)
Definition seconds (n : Z) : string := Strconv.Itoa n +:+ "s".

Lemma parse_seconds n :
  (0 <= n <= 9223372036)%Z -> Time.ParseDuration (seconds n) = Ok (n * 1000000000)%Z.
Proof.
  intros Hn. unfold seconds. rewrite Itoa_nonneg by lia.
  destruct (pretty_digits (Z.to_N n)) as (c & t & Hp & [[v Hv] Hd]).
  unfold Time.ParseDuration.
  assert (Time.sign (pretty (Z.to_N n) +:+ "s") = (false, pretty (Z.to_N n) +:+ "s")) as ->.
  { rewrite Hp, sapp_cons. simpl. destruct (decide (c = "-"%char)) as [->|_]; [done|].
    by destruct (decide (c = "+"%char)) as [->|_]. }
  rewrite decide_False.
  2: { rewrite Hp, sapp_cons. intros [= _ Ht]. by destruct t. }
  rewrite decide_False by (rewrite Hp, sapp_cons; done).
  assert (Hterm : Time.parse_term (pretty (Z.to_N n) +:+ "s") = inl (Some (n * 1000000000, ""))%Z).
  { unfold Time.parse_term.
    assert (Time.starts_number (pretty (Z.to_N n) +:+ "s") = true) as ->.
    { rewrite Hp, sapp_cons. simpl. apply orb_true_intro. right. by apply bool_decide_eq_true. }
    rewrite leadingInt_pretty by (unfold Time.max_int64; done || lia). rewrite Z2N.id by lia.
    assert (bool_decide (String.length (pretty (Z.to_N n) +:+ "s") <> String.length "s") = true) as ->.
    { apply bool_decide_eq_true. rewrite Hp, sapp_cons. simpl.
      rewrite NetFacts.length_sapp. simpl. lia. }
    rewrite (decide_False (P := "s"%char = "."%char)) by done.
    change (Time.take_unit "s") with ("s", ""). cbn [negb andb]. rewrite decide_False by done.
    change (Time.unitMap "s") with (Some 1000000000%Z). change (0 <? 0)%Z with false. cbv beta iota zeta.
    rewrite Z.add_0_r. unfold Time.max_int64. change (9223372036854775807 / 1000000000)%Z with 9223372036%Z.
    destruct (Z.ltb_spec 9223372036 n); [lia|].
    destruct (Z.ltb_spec 9223372036854775807 (n * 1000000000)); [lia|done]. }
  assert (exists m, String.length (pretty (Z.to_N n) +:+ "s") = S m) as [m ->].
  { rewrite Hp, sapp_cons. simpl. eauto. }
  cbn [Time.parse_terms]. rewrite decide_False by (rewrite Hp, sapp_cons; done). rewrite Hterm.
  rewrite Z.add_0_l. unfold Time.max_int64.
  destruct (Z.ltb_spec 9223372036854775807 (n * 1000000000)); [lia|]. by destruct m.
Qed.
End TimeFacts.

(** ** sort.Strings and sort.Ints *)

Module Sort.
Definition Strings (l : list string) : list string := merge_sort String.le l.
Definition Ints (l : list Z) : list Z := merge_sort Z.le l.

(** Sorting forgets the order of a list, and nothing else. *)
Lemma Strings_perm l l' : l ≡ₚ l' <-> Strings l = Strings l'.
Proof.
  unfold Strings. split.
  - intros Hp. apply (Sorted_unique String.le); [apply (Sorted_merge_sort _)..|].
    by rewrite !merge_sort_Permutation.
  - intros Hs. by rewrite <- (merge_sort_Permutation String.le l), <- (merge_sort_Permutation String.le l'), Hs.
Qed.
Lemma Ints_perm l l' : l ≡ₚ l' <-> Ints l = Ints l'.
Proof.
  unfold Ints. split.
  - intros Hp. apply (Sorted_unique Z.le); [apply (Sorted_merge_sort _)..|].
    by rewrite !merge_sort_Permutation.
  - intros Hs. by rewrite <- (merge_sort_Permutation Z.le l), <- (merge_sort_Permutation Z.le l'), Hs.
Qed.
End Sort.

(** ** encoding/json: lists of strings and of integers *)

Module Json.
Definition hex_byte (n : N) : string :=
  let d k := Net.hex_digit (Z.of_N k) in String (d (n / 16)%N) (String (d (n mod 16)%N) EmptyString).
(** One byte of a string; those of an UTF-8 sequence are kept. *)
Definition escape (c : ascii) : string :=
  let n := N_of_ascii c in
  if decide (c = ascii_of_nat 34) then String "\" dquote
  else if decide (c = "\"%char) then "\\"
  else if decide (n = 10%N) then "\n"
  else if decide (n = 13%N) then "\r"
  else if decide (n = 9%N) then "\t"
  else if decide (n < 32 \/ n = 60 \/ n = 62 \/ n = 38)%N then "\u00" +:+ hex_byte n
  else String c EmptyString.
Fixpoint escapes (s : string) : string :=
  match s with EmptyString => EmptyString | String c s' => escape c +:+ escapes s' end.
Definition quote (s : string) : string := dquote +:+ escapes s +:+ dquote.
Definition strings (l : list string) : string := "[" +:+ Strings.Join (map quote l) "," +:+ "]".
Definition ints (l : list Z) : string := "[" +:+ Strings.Join (map Strconv.Itoa l) "," +:+ "]".
End Json.

(** ** crypto/sha256 *)

Module Sha256.
Definition word (z : Z) : Z := (z mod 2 ^ 32)%Z.
Definition rotr (n x : Z) : Z := Z.lor (Z.shiftr x n) (word (Z.shiftl x (32 - n))).
(** The constants of the standard: the first 32 bits of the fractional parts
    of the cube roots of the first 64 primes, and of the square roots of the
    first 8. *)
Fixpoint primes_from (fuel : nat) (seen : list Z) (z : Z) (n : nat) : list Z :=
  match fuel, n with
  | S fuel', S n' =>
      if forallb (fun q => negb (z mod q =? 0)%Z) seen then z :: primes_from fuel' (z :: seen) (z + 1) n'
      else primes_from fuel' seen (z + 1) n
  | _, _ => []
  end.
Definition primes (n : nat) : list Z := primes_from 400 [] 2 n.
(** The largest root below [r + 2 ^ (bit + 1)] whose cube is at most [x]. *)
Fixpoint cube_root (bit : nat) (x r : Z) : Z :=
  let r' := (r + 2 ^ Z.of_nat bit)%Z in
  let r := if (r' * r' * r' <=? x)%Z then r' else r in
  match bit with O => r | S bit' => cube_root bit' x r end.
Definition K : list Z := Eval vm_compute in map (fun q => word (cube_root 40 (q * 2 ^ 96) 0)) (primes 64).
Definition H0 : list Z := Eval vm_compute in map (fun q => word (Z.sqrt (q * 2 ^ 64))) (primes 8).

(** The schedule, last word first. *)
Fixpoint schedule (n : nat) (w : list Z) : list Z :=
  match n with
  | O => w
  | S n' =>
      let at_ i := default 0%Z (w !! i) in
      let s0 := Z.lxor (Z.lxor (rotr 7 (at_ 14)) (rotr 18 (at_ 14))) (Z.shiftr (at_ 14) 3) in
      let s1 := Z.lxor (Z.lxor (rotr 17 (at_ 1)) (rotr 19 (at_ 1))) (Z.shiftr (at_ 1) 10) in
      schedule n' (word (at_ 15 + s0 + at_ 6 + s1) :: w)
  end.
Definition round (h : list Z) (kw : Z * Z) : list Z :=
  match h with
  | [a; b; c; d; e; f; g; hh] =>
      let s1 := Z.lxor (Z.lxor (rotr 6 e) (rotr 11 e)) (rotr 25 e) in
      let ch := Z.lxor (Z.land e f) (Z.land (Z.lxor e (2 ^ 32 - 1)) g) in
      let t1 := (hh + s1 + ch + kw.1 + kw.2)%Z in
      let s0 := Z.lxor (Z.lxor (rotr 2 a) (rotr 13 a)) (rotr 22 a) in
      let maj := Z.lxor (Z.lxor (Z.land a b) (Z.land a c)) (Z.land b c) in
      [word (t1 + s0 + maj); a; b; c; word (d + t1); e; f; g]
  | _ => h
  end.
Definition block (h : list Z) (w : list Z) : list Z :=
  zip_with (fun x y => word (x + y)) h (fold_left round (zip K (rev (schedule 48 (rev w)))) h).

Definition bytes (s : string) : list Z := map char_code (String.list_ascii_of_string s).
(** Big-endian bytes of [z], [n] of them. *)
Fixpoint be (n : nat) (z : Z) : list Z :=
  match n with O => [] | S n' => be n' (z / 256) ++ [z mod 256] end%Z.
Definition pad (m : list Z) : list Z :=
  let l := Z.of_nat (length m) in
  m ++ [128%Z] ++ replicate (Z.to_nat ((55 - l) mod 64)) 0%Z ++ be 8 (8 * l).
Fixpoint words (m : list Z) : list Z :=
  match m with
  | a :: b :: c :: d :: m' => (((a * 256 + b) * 256 + c) * 256 + d)%Z :: words m'
  | _ => []
  end.
Fixpoint blocks (fuel : nat) (ws : list Z) (h : list Z) : list Z :=
  match fuel with
  | O => h
  | S fuel' => match ws with [] => h | _ => blocks fuel' (drop 16 ws) (block h (take 16 ws)) end
  end.
(** The digest, in hexadecimal. *)
Definition Sum (s : string) : string :=
  let ws := words (pad (bytes s)) in
  let h := blocks (length ws) ws H0 in
  fold_right (fun b t => Json.hex_byte (Z.to_N b) +:+ t) "" (flat_map (be 4) h).

(** A digest has 64 characters. *)
Lemma length_round h kw : length (round h kw) = length h.
Proof. by do 9 (destruct h as [|? h]; [done|]). Qed.
Lemma length_block h w : length (block h w) = length h.
Proof.
  unfold block. rewrite length_zip_with. generalize (zip K (rev (schedule 48 (rev w)))). intros l.
  enough (forall h', length (fold_left round l h') = length h') as -> by lia.
  induction l as [|kw l IH]; intros h'; [done|]. simpl. by rewrite IH, length_round.
Qed.
Lemma length_blocks fuel ws h : length (blocks fuel ws h) = length h.
Proof.
  revert ws h. induction fuel as [|fuel IH]; intros ws h; [done|]. simpl.
  destruct ws; [done|]. by rewrite IH, length_block.
Qed.
Lemma length_be n z : length (be n z) = n.
Proof. revert z. induction n as [|n IH]; intros z; [done|]. simpl. rewrite length_app, IH. simpl. lia. Qed.
Lemma Sum_length s : String.length (Sum s) = 64.
Proof.
  unfold Sum. set (h := blocks _ _ _).
  assert (Hh : length h = 8) by apply length_blocks. clearbody h.
  assert (Hf : forall l, String.length (fold_right (fun b t => Json.hex_byte (Z.to_N b) +:+ t) "" l) = 2 * length l).
  { assert (Hb : forall n t, String.length (Json.hex_byte n +:+ t) = 2 + String.length t) by done.
    induction l as [|b l IH]; [done|]. cbn [fold_right length]. rewrite Hb, IH. lia. }
  rewrite Hf. enough (length (flat_map (be 4) h) = 4 * length h) as -> by lia.
  clear. induction h as [|z h IH]; [done|]. cbn [flat_map]. rewrite length_app, length_be, IH. simpl. lia.
Qed.
End Sha256.

Example sha_abc :
  Sha256.Sum "abc" = "ba7816bf8f01cfea414140de5dae2223b00361a396177a9cb410ff61f20015ad".
Proof. vm_compute. reflexivity. Qed.
Example sha_empty :
  Sha256.Sum "" = "e3b0c44298fc1c149afbf4c8996fb92427ae41e4649b934ca495991b7852b855".
Proof. vm_compute. reflexivity. Qed.
