(* ===== verification/GoJson.v ===== *)
(** * The decoding part of [encoding/json]

    A JSON text as a tree, read as the scanner of Go reads it: escapes,
    surrogates, and bytes that are not UTF-8, which become U+FFFD.  [fits]
    says when a tree can be stored in a Go type, and [fold_name] compares a
    key with the name of a field. *)

From S2P Require Import Prelude GoStd GoTime.

Set Warnings "-register-all".
Unset Elimination Schemes.
Inductive json :=
| JNull
| JBool (b : bool)
| JNum (s : string)          (* the literal *)
| JStr (s : string)
| JArr (l : list json)
| JObj (l : list (string * json)).
Set Elimination Schemes.

(** Induction over the elements and the members. *)
Definition json_ind (P : json -> Prop)
    (Hnull : P JNull) (Hbool : forall b, P (JBool b)) (Hnum : forall s, P (JNum s)) (Hstr : forall s, P (JStr s))
    (Harr : forall l, Forall P l -> P (JArr l)) (Hobj : forall l, Forall (fun kv => P kv.2) l -> P (JObj l)) :
    forall j, P j :=
  fix go j := match j with
  | JNull => Hnull
  | JBool b => Hbool b
  | JNum s => Hnum s
  | JStr s => Hstr s
  | JArr l => Harr l ((fix gos l := match l return Forall P l with
                                   | [] => Forall_nil_2 _
                                   | j :: l => Forall_cons_2 _ _ _ (go j) (gos l) end) l)
  | JObj l => Hobj l ((fix gos l := match l return Forall (fun kv => P kv.2) l with
                                   | [] => Forall_nil_2 _
                                   | kv :: l => Forall_cons_2 (fun kv => P kv.2) _ _ (go kv.2) (gos l) end) l)
  end.

(** ** UTF-8 *)

Definition code (c : ascii) : N := N_of_ascii c.
Definition within (lo hi : N) (c : ascii) : bool := ((lo <=? code c) && (code c <=? hi))%N.
Definition cont (c : ascii) : bool := within 128 191 c.

(** The length of the sequence a text starts with; 0 when it is malformed. *)
Definition utf8_len (s : string) : nat :=
  match s with
  | String a r1 =>
      if (code a <? 128)%N then 1
      else match r1 with
      | String b r2 =>
          if within 194 223 a && cont b then 2
          else match r2 with
          | String c r3 =>
              if ((within 224 224 a && within 160 191 b) || (within 225 236 a && cont b) ||
                  (within 237 237 a && within 128 159 b) || (within 238 239 a && cont b)) && cont c then 3
              else match r3 with
              | String d _ =>
                  if ((within 240 240 a && within 144 191 b) || (within 241 243 a && cont b) ||
                      (within 244 244 a && within 128 143 b)) && cont c && cont d then 4
                  else 0
              | EmptyString => 0
              end
          | EmptyString => 0
          end
      | EmptyString => 0
      end
  | EmptyString => 0
  end.

(** The UTF-8 encoding of a code point. *)
Definition byte_of (n : N) : ascii := ascii_of_N n.
Definition encode_rune (n : N) : string :=
  if (n <? 128)%N then String (byte_of n) ""
  else if (n <? 2048)%N then String (byte_of (192 + n / 64)) (String (byte_of (128 + n mod 64)) "")
  else if (n <? 65536)%N then
    String (byte_of (224 + n / 4096)) (String (byte_of (128 + (n / 64) mod 64)) (String (byte_of (128 + n mod 64)) ""))
  else
    String (byte_of (240 + n / 262144)) (String (byte_of (128 + (n / 4096) mod 64))
      (String (byte_of (128 + (n / 64) mod 64)) (String (byte_of (128 + n mod 64)) ""))).
Definition replacement : string := encode_rune 65533.

(** Each byte outside of a sequence is replaced; [k] bytes of the current
    sequence are still to come. *)
Fixpoint coerce (k : nat) (s : string) : string :=
  match s with
  | EmptyString => EmptyString
  | String c s' =>
      match k with
      | S k' => String c (coerce k' s')
      | O => match utf8_len s with O => replacement +:+ coerce 0 s' | S l => String c (coerce l s') end
      end
  end.
Definition to_valid (s : string) : string := coerce 0 s.

(** ** Strings *)

Inductive str_unit := UByte (c : ascii) | URune (n : N).

Definition escaped (e : ascii) : option ascii :=
  if decide (e = ascii_of_nat 34) then Some e
  else if decide (e = "\"%char) then Some e
  else if decide (e = "/"%char) then Some e
  else if decide (e = "b"%char) then Some (ascii_of_nat 8)
  else if decide (e = "f"%char) then Some (ascii_of_nat 12)
  else if decide (e = "n"%char) then Some (ascii_of_nat 10)
  else if decide (e = "r"%char) then Some (ascii_of_nat 13)
  else if decide (e = "t"%char) then Some (ascii_of_nat 9)
  else None.
Definition hex4 (a b c d : ascii) : option N :=
  va ← hex_value a; vb ← hex_value b; vc ← hex_value c; vd ← hex_value d;
  Some (Z.to_N (((va * 16 + vb) * 16 + vc) * 16 + vd)).

(** What follows an opening quote: the string, and what follows its end. *)
Fixpoint scan_string (s : string) : option (list str_unit * string) :=
  match s with
  | EmptyString => None
  | String c s' =>
      if decide (c = ascii_of_nat 34) then Some ([], s')
      else if decide (c = "\"%char) then
        match s' with
        | String e s'' =>
            if decide (e = "u"%char) then
              match s'' with
              | String h1 (String h2 (String h3 (String h4 r))) =>
                  n ← hex4 h1 h2 h3 h4; '(us, t) ← scan_string r; Some (URune n :: us, t)
              | _ => None
              end
            else x ← escaped e; '(us, t) ← scan_string s''; Some (UByte x :: us, t)
        | EmptyString => None
        end
      else if (code c <? 32)%N then None
      else '(us, t) ← scan_string s'; Some (UByte c :: us, t)
  end.

Definition high (n : N) : bool := ((55296 <=? n) && (n <? 56320))%N.
Definition low (n : N) : bool := ((56320 <=? n) && (n <? 57344))%N.

(** A pair of surrogates is one code point, and one alone is replaced. *)
Fixpoint runes (us : list str_unit) : string :=
  match us with
  | [] => EmptyString
  | UByte c :: us' => String c (runes us')
  | URune n :: us' =>
      if high n || low n then
        match us' with
        | URune m :: us'' =>
            if high n && low m then encode_rune ((n - 55296) * 1024 + (m - 56320) + 65536) +:+ runes us''
            else replacement +:+ runes us'
        | _ => replacement +:+ runes us'
        end
      else encode_rune n +:+ runes us'
  end.
Definition unquote (us : list str_unit) : string := to_valid (runes us).

(** ** Numbers *)

Fixpoint take_digits (s : string) : string * string :=
  match s with
  | String c s' =>
      if decide (is_Some (digit_value c)) then let '(d, r) := take_digits s' in (String c d, r) else (EmptyString, s)
  | EmptyString => (EmptyString, EmptyString)
  end.
Definition some_digits (s : string) : option (string * string) :=
  let '(d, r) := take_digits s in if decide (d = "") then None else Some (d, r).
(** No digit follows a leading zero. *)
Definition scan_int (s : string) : option (string * string) :=
  match s with
  | String "0"%char s' => Some ("0", s')
  | _ => some_digits s
  end.
Definition scan_frac (s : string) : option (string * string) :=
  match s with
  | String "."%char s' => '(d, r) ← some_digits s'; Some (String "." d, r)
  | _ => Some ("", s)
  end.
Definition scan_exp (s : string) : option (string * string) :=
  match s with
  | String c s' =>
      if decide (c = "e"%char \/ c = "E"%char) then
        let '(sign, s'') := match s' with
                            | String "+"%char t => ("+", t)
                            | String "-"%char t => ("-", t)
                            | _ => ("", s')
                            end in
        '(d, r) ← some_digits s''; Some (String c (sign +:+ d), r)
      else Some ("", s)
  | EmptyString => Some ("", s)
  end.
Definition scan_number (s : string) : option (string * string) :=
  let '(sign, s) := match s with String "-"%char t => ("-", t) | _ => ("", s) end in
  '(i, s) ← scan_int s; '(f, s) ← scan_frac s; '(e, s) ← scan_exp s;
  Some (sign +:+ i +:+ f +:+ e, s).

(** ** Values *)

Definition is_blank (c : ascii) : bool := bool_decide (code c = 32 \/ code c = 9 \/ code c = 10 \/ code c = 13)%N.
Fixpoint skip_blanks (s : string) : string :=
  match s with
  | String c s' => if is_blank c then skip_blanks s' else s
  | EmptyString => EmptyString
  end.

(** What follows [p] in a text that starts with it. *)
Fixpoint after (p s : string) : option string :=
  match p, s with
  | EmptyString, _ => Some s
  | String c p', String d s' => if decide (c = d) then after p' s' else None
  | _, _ => None
  end.

(** The literals, and numbers. *)
Definition scalar (s : string) : option (json * string) :=
  match after "null" s, after "true" s, after "false" s with
  | Some r, _, _ => Some (JNull, r)
  | _, Some r, _ => Some (JBool true, r)
  | _, _, Some r => Some (JBool false, r)
  | _, _, _ => '(n, r) ← scan_number s; Some (JNum n, r)
  end.

(** One value, and what follows it. *)
Fixpoint value (fuel : nat) (s : string) : option (json * string) :=
  match fuel, skip_blanks s with
  | S fuel', String c r =>
      if decide (c = ascii_of_nat 34) then '(us, r) ← scan_string r; Some (JStr (unquote us), r)
      else if decide (c = "["%char) then
        match skip_blanks r with
        | String "]"%char r' => Some (JArr [], r')
        | _ => '(l, r) ← elements fuel' r; Some (JArr l, r)
        end
      else if decide (c = "{"%char) then
        match skip_blanks r with
        | String "}"%char r' => Some (JObj [], r')
        | _ => '(l, r) ← members fuel' r; Some (JObj l, r)
        end
      else scalar (String c r)
  | _, _ => None
  end
with elements (fuel : nat) (s : string) : option (list json * string) :=
  match fuel with
  | O => None
  | S fuel' =>
      '(j, r) ← value fuel' s;
      match skip_blanks r with
      | String ","%char r' => '(l, r) ← elements fuel' r'; Some (j :: l, r)
      | String "]"%char r' => Some ([j], r')
      | _ => None
      end
  end
with members (fuel : nat) (s : string) : option (list (string * json) * string) :=
  match fuel, skip_blanks s with
  | S fuel', String q r =>
      if decide (q = ascii_of_nat 34) then
        '(us, r) ← scan_string r;
        match skip_blanks r with
        | String ":"%char r =>
            '(j, r) ← value fuel' r;
            match skip_blanks r with
            | String ","%char r' => '(l, r) ← members fuel' r'; Some ((unquote us, j) :: l, r)
            | String "}"%char r' => Some ([(unquote us, j)], r')
            | _ => None
            end
        | _ => None
        end
      else None
  | _, _ => None
  end.

(** A whole text.  Each call but the last one of [value] reads a character,
    and a value takes two of them at most. *)
Definition parse_json (s : string) : option json :=
  '(j, r) ← value (2 * S (String.length s)) s;
  if decide (skip_blanks r = "") then Some j else None.

(** ** Go types *)

(** The types of the decoded fields; [TTime] is [time.Time], which has its
    own method. *)
Inductive ty :=
| TyString
| TyInt64
| TyUint64
| TyTime
| TyStruct (fields : list (string * ty))
| TyMap (t : ty)
| TySlice (t : ty).

(** Letters are compared without case, and with the long s and the Kelvin
    sign. *)
Fixpoint fold_name (s : string) : string :=
  match s with
  | String c s' =>
      match s' with
      | String d s'' =>
          if decide (code c = 197 /\ code d = 191)%N then String "s" (fold_name s'')
          else match s'' with
          | String e s3 =>
              if decide (code c = 226 /\ code d = 132 /\ code e = 170)%N then String "k" (fold_name s3)
              else String (Strings.lower c) (fold_name s')
          | EmptyString => String (Strings.lower c) (fold_name s')
          end
      | EmptyString => String (Strings.lower c) ""
      end
  | EmptyString => EmptyString
  end.

(** The field a key stands for. *)
Definition field {A} (fields : list (string * A)) (key : string) : option (string * A) :=
  snd <$> list_find (fun f => fold_name f.1 = fold_name key) fields.

Section Fits.
(** What the method of [time.Time] accepts. *)
Context (time_ok : json -> bool).

(** The value can be stored: a null fits everything but a time. *)
Fixpoint fits (t : ty) (j : json) {struct j} : bool :=
  match t, j with
  | TyTime, _ => time_ok j
  | _, JNull => true
  | TyString, JStr _ => true
  | TyInt64, JNum s => match Strconv.Atoi s with Ok _ => true | Err _ => false end
  | TyUint64, JNum s => match Strconv.ParseUint s with inl _ => true | inr _ => false end
  | TyStruct fields, JObj l =>
      forallb (fun '(k, v) => match field fields k with Some (_, t) => fits t v | None => true end) l
  | TyMap t, JObj l => forallb (fun '(_, v) => fits t v) l
  | TySlice t, JArr l => forallb (fits t) l
  | _, _ => false
  end.
End Fits.

(** The values of the members that stand for the field [name], in order. *)
Definition members_of (name : string) (j : json) : list json :=
  match j with
  | JObj l => omap (fun '(k, v) => if decide (fold_name k = fold_name name) then Some v else None) l
  | _ => []
  end.

(** ** Writing *)

Fixpoint print (j : json) : string :=
  match j with
  | JNull => "null"
  | JBool b => if b then "true" else "false"
  | JNum s => s
  | JStr s => Json.quote s
  | JArr l => "[" +:+ Strings.Join (map print l) "," +:+ "]"
  | JObj l => "{" +:+ Strings.Join (map (fun '(k, v) => Json.quote k +:+ ":" +:+ print v) l) "," +:+ "}"
  end.

(** A text that UTF-8 decoding keeps. *)
Definition utf8 (s : string) : Prop := to_valid s = s.

(** The trees whose text is read back: their strings are UTF-8 and their
    numbers integers. *)
Inductive printable : json -> Prop :=
| printable_null : printable JNull
| printable_bool b : printable (JBool b)
| printable_num z : printable (JNum (Strconv.Itoa z))
| printable_str s : utf8 s -> printable (JStr s)
| printable_arr l : Forall printable l -> printable (JArr l)
| printable_obj l : Forall (fun kv => utf8 kv.1 /\ printable kv.2) l -> printable (JObj l).

(** ** Round trip *)

(** The character as the escape writes it. *)
Lemma hex4_byte c : (code c < 128)%N ->
  exists a b, Json.hex_byte (code c) = String a (String b "") /\ hex4 "0" "0" a b = Some (code c).
Proof.
  intros _. eexists _, _. split; [reflexivity|]. destruct c as [[] [] [] [] [] [] [] []]; reflexivity.
Qed.

Lemma scan_unicode h1 h2 h3 h4 s :
  scan_string ("\u" +:+ String h1 (String h2 (String h3 (String h4 s)))) =
  (n ← hex4 h1 h2 h3 h4; '(us, t) ← scan_string s; Some (URune n :: us, t)).
Proof. reflexivity. Qed.

Lemma scan_escape c s us r :
  scan_string s = Some (us, r) -> exists us', scan_string (Json.escape c +:+ s) = Some (us', r) /\ runes us' = String c (runes us).
Proof.
  intros Hs. unfold Json.escape. fold (code c).
  assert (Hesc : forall e, e <> "u"%char -> escaped e = Some c ->
    exists us', scan_string (String "\" (String e s)) = Some (us', r) /\ runes us' = String c (runes us)).
  { intros e He Hc. exists (UByte c :: us). simpl. rewrite (decide_False _ _ He), Hc. simpl. by rewrite Hs. }
  repeat case_decide; subst.
  - by apply (Hesc (ascii_of_nat 34)).
  - by apply (Hesc "\"%char).
  - apply (Hesc "n"%char); [done|]. unfold escaped. simpl. f_equal. rewrite <- (ascii_N_embedding c). unfold code in *. by rewrite H1.
  - apply (Hesc "r"%char); [done|]. unfold escaped. simpl. f_equal. rewrite <- (ascii_N_embedding c). unfold code in *. by rewrite H2.
  - apply (Hesc "t"%char); [done|]. unfold escaped. simpl. f_equal. rewrite <- (ascii_N_embedding c). unfold code in *. by rewrite H3.
  - assert (Hn : (code c < 128)%N) by lia. destruct (hex4_byte c Hn) as (a & b & -> & Hx).
    exists (URune (code c) :: us). split; [exact (eq_trans (scan_unicode "0" "0" a b s) ltac:(by rewrite Hx; simpl; rewrite Hs))|]. simpl.
    assert (high (code c) || low (code c) = false) as -> by (unfold high, low; by rewrite !(proj2 (N.leb_gt _ _)) by lia).
    unfold encode_rune, byte_of. rewrite (proj2 (N.ltb_lt _ _) Hn). unfold code. by rewrite ascii_N_embedding.
  - exists (UByte c :: us). split; [|done]. transitivity ('(us, t) ← scan_string s; Some (UByte c :: us, t)); [|by rewrite Hs].
    simpl. rewrite !decide_False by done. by rewrite (proj2 (N.ltb_ge (code c) 32)) by lia.
Qed.

Lemma scan_escapes s r : exists us, scan_string (Json.escapes s +:+ String (ascii_of_nat 34) r) = Some (us, r) /\ runes us = s.
Proof.
  induction s as [|c s (us & Hus & Hr)]; [by exists []|].
  simpl. rewrite sapp_assoc. destruct (scan_escape c _ us r Hus) as (us' & Hs & Hr'). exists us'. by rewrite Hr', Hr.
Qed.

(** A quoted string is read back. *)
Lemma scan_quote s r :
  utf8 s -> exists us, Json.quote s +:+ r = String (ascii_of_nat 34) (Json.escapes s +:+ String (ascii_of_nat 34) r) /\
    scan_string (Json.escapes s +:+ String (ascii_of_nat 34) r) = Some (us, r) /\ unquote us = s.
Proof.
  intros Hs. destruct (scan_escapes s r) as (us & Hus & Hr). exists us. split; [|by unfold unquote; rewrite Hr].
  unfold Json.quote, dquote. by rewrite !sapp_assoc.
Qed.

(** *** Numbers *)

(** What may follow a number. *)
Definition ends (r : string) : Prop :=
  match r with String c _ => c ∈ [","%char; "]"%char; "}"%char] | EmptyString => True end.

Lemma take_digits_all d r : StrconvFacts.all_digits d -> ends r -> take_digits (d +:+ r) = (d, r).
Proof.
  induction d as [|c d IH]; intros Hd Hr.
  - destruct r as [|c r]; [done|]. simpl. rewrite decide_False; [done|].
    simpl in Hr. repeat (apply elem_of_cons in Hr as [->|Hr]; [by intros []|]). by apply elem_of_nil in Hr.
  - destruct Hd as [Hc Hd]. simpl. rewrite (decide_True _ _ Hc). by rewrite IH.
Qed.

(** A positive number has no leading zero. *)
Lemma pretty_go_head x s : (0 < x)%N -> exists c t, pretty_N_go x s = String c t /\ c <> "0"%char.
Proof.
  revert s. induction (N.lt_wf_0 x) as [x _ IH]; intros s Hx. rewrite pretty_N_go_step by lia.
  destruct (decide (x `div` 10 = 0)%N) as [H0|Hne].
  - rewrite H0, pretty_N_go_0. eexists _, _. split; [reflexivity|]. intros Hc.
    pose proof (StrconvFacts.digit_value_char (x `mod` 10) ltac:(apply N.mod_lt; lia)) as Hd. rewrite Hc in Hd.
    change (Some 0%Z = Some (Z.of_N (x `mod` 10))) in Hd. injection Hd as Hd. pose proof (N.div_mod x 10 ltac:(done)). lia.
  - apply IH; [apply N.div_lt; lia|]. clear -Hne. set (y := (x `div` 10)%N) in *. lia.
Qed.

Lemma scan_int_pretty (x : N) r : ends r -> scan_int (pretty x +:+ r) = Some (pretty x, r).
Proof.
  intros Hr. destruct (decide (x = 0%N)) as [->|Hx]; [done|].
  assert (Hh : exists c t, pretty x = String c t /\ c <> "0"%char).
  { unfold pretty, pretty_N. rewrite decide_False by done. apply pretty_go_head. lia. }
  destruct Hh as (c & t & Hp & Hc). destruct (StrconvFacts.pretty_digits x) as (c' & t' & Hp' & Hd).
  rewrite Hp in Hp'. injection Hp' as <- <-. rewrite Hp.
  transitivity (some_digits (String c t +:+ r)).
  - destruct c as [[] [] [] [] [] [] [] []]; simpl; done.
  - unfold some_digits. by rewrite take_digits_all.
Qed.

Lemma scan_rest r : ends r -> scan_frac r = Some ("", r) /\ scan_exp r = Some ("", r).
Proof.
  destruct r as [|c r]; [done|]. simpl ends. intros Hr.
  repeat (apply elem_of_cons in Hr as [->|Hr]; [done|]). by apply elem_of_nil in Hr.
Qed.

Lemma scan_number_Itoa z r : ends r -> scan_number (Strconv.Itoa z +:+ r) = Some (Strconv.Itoa z, r).
Proof.
  intros Hr. destruct (scan_rest r Hr) as [Hf He].
  assert (Hpos : forall x : N, scan_number (pretty x +:+ r) = Some (pretty x, r)).
  { intros x. unfold scan_number. pose proof (scan_int_pretty x r Hr) as Hi.
    destruct (StrconvFacts.pretty_digits x) as (c & t & Hp & [[v Hv] _]). rewrite Hp in *.
    assert (Hm : match String c t +:+ r with String "-" t0 => ("-", t0) | _ => ("", String c t +:+ r) end = ("", String c t +:+ r)).
    { destruct c as [[] [] [] [] [] [] [] []]; simpl; done. }
    rewrite Hm, Hi. simpl. rewrite Hf. simpl. rewrite He. simpl. by rewrite sapp_nil_r. }
  destruct (decide (z < 0)%Z) as [Hz|Hz].
  - rewrite StrconvFacts.Itoa_neg by done. rewrite sapp_cons, sapp_nil_l, sapp_cons.
    unfold scan_number. rewrite scan_int_pretty by done. simpl. rewrite Hf. simpl. rewrite He. simpl. by rewrite sapp_nil_r.
  - rewrite StrconvFacts.Itoa_nonneg by lia. apply Hpos.
Qed.

(** *** Values *)

Definition starts (p : ascii -> Prop) (s : string) : Prop := exists c t, s = String c t /\ p c.
Definition opening (c : ascii) : Prop := is_blank c = false /\ c <> "]"%char /\ c <> "}"%char.

Lemma number_head z : starts (fun c => c = "-"%char \/ is_Some (digit_value c)) (Strconv.Itoa z).
Proof.
  destruct (decide (z < 0)%Z) as [Hz|Hz].
  - rewrite StrconvFacts.Itoa_neg by done. eexists _, _. split; [reflexivity|by left].
  - rewrite StrconvFacts.Itoa_nonneg by lia. destruct (StrconvFacts.pretty_digits (Z.to_N z)) as (c & t & -> & [Hd _]).
    eexists _, _. split; [reflexivity|by right].
Qed.

Lemma number_char c : c = "-"%char \/ is_Some (digit_value c) ->
  opening c /\ c <> ascii_of_nat 34 /\ c <> "["%char /\ c <> "{"%char /\ c <> "n"%char /\ c <> "t"%char /\ c <> "f"%char.
Proof.
  intros [->|[v Hv]]; [by repeat split|].
  destruct c as [[] [] [] [] [] [] [] []]; try discriminate Hv; by repeat split.
Qed.

Lemma print_head j : printable j -> starts opening (print j).
Proof.
  destruct 1 as [|[]|z|s|l|l]; try (by eexists _, _; split; [reflexivity|]).
  destruct (number_head z) as (c & t & Ht & Hc). exists c, t. split; [exact Ht|]. by apply number_char.
Qed.

Lemma skip_head s r : starts opening s -> skip_blanks (s +:+ r) = s +:+ r.
Proof. intros (c & t & -> & Hb & _). simpl. by rewrite Hb. Qed.

Lemma scalar_number z r : ends r -> scalar (Strconv.Itoa z +:+ r) = Some (JNum (Strconv.Itoa z), r).
Proof.
  intros Hr. unfold scalar. destruct (number_head z) as (c & t & Ht & Hc).
  apply number_char in Hc as (_ & _ & _ & _ & Hn & Htr & Hfa).
  assert (Hno : after "null" (Strconv.Itoa z +:+ r) = None /\ after "true" (Strconv.Itoa z +:+ r) = None /\
    after "false" (Strconv.Itoa z +:+ r) = None).
  { rewrite Ht. rewrite sapp_cons. simpl. by rewrite !decide_False by congruence. }
  destruct Hno as (-> & -> & ->). by rewrite scan_number_Itoa.
Qed.

(** Reading back a value: enough fuel is twice its length. *)
Definition reads_back (j : json) : Prop := forall n r,
  2 * String.length (print j) <= n -> ends r -> value n (print j +:+ r) = Some (j, r).

Lemma value_at n s c t :
  starts opening s -> s = String c t ->
  value (S n) s =
  (if decide (c = ascii_of_nat 34) then '(us, r) ← scan_string t; Some (JStr (unquote us), r)
   else if decide (c = "["%char) then
     match skip_blanks t with String "]"%char r' => Some (JArr [], r') | _ => '(l, r) ← elements n t; Some (JArr l, r) end
   else if decide (c = "{"%char) then
     match skip_blanks t with String "}"%char r' => Some (JObj [], r') | _ => '(l, r) ← members n t; Some (JObj l, r) end
   else scalar (String c t)).
Proof. intros (c' & t' & -> & Hb & _) [= -> ->]. cbn [value]. cbn [skip_blanks]. by rewrite Hb. Qed.

Lemma not_closing {A} s (x : string -> A) (y : A) :
  starts opening s -> match s with String "]"%char r => x r | _ => y end = y.
Proof. intros (c & t & -> & _ & Hc & _). destruct c as [[] [] [] [] [] [] [] []]; done. Qed.

Lemma not_closing' {A} s (x : string -> A) (y : A) :
  starts opening s -> match s with String "}"%char r => x r | _ => y end = y.
Proof. intros (c & t & -> & _ & _ & Hc). destruct c as [[] [] [] [] [] [] [] []]; done. Qed.
Lemma starts_app p s t : starts p s -> starts p (s +:+ t).
Proof. intros (c & s' & -> & Hc). by exists c, (s' +:+ t). Qed.
Lemma join_starts p w ws sep : starts p w -> starts p (Strings.Join (w :: ws) sep).
Proof. intros Hw. destruct ws; simpl; [done|by apply starts_app]. Qed.

Lemma elements_print l n r :
  Forall reads_back l -> Forall printable l -> l <> [] ->
  2 * String.length (Strings.Join (map print l) ",") + 1 <= n ->
  elements n (Strings.Join (map print l) "," +:+ "]" +:+ r) = Some (l, r).
Proof.
  intros Hl Hp. revert n. induction Hl as [|j l Hj Hl IH]; intros n Hne Hn; [done|].
  apply Forall_cons in Hp as [Hpj Hpl]. destruct n as [|n]; [lia|].
  destruct l as [|j' l].
  - simpl in Hn |- *. by rewrite Hj by (lia || (simpl; set_solver)).
  - change (Strings.Join (map print (j :: j' :: l)) ",") with (print j +:+ "," +:+ Strings.Join (map print (j' :: l)) ",") in *.
    set (J := Strings.Join (map print (j' :: l)) ",") in *. clearbody J.
    rewrite !NetFacts.length_sapp in Hn. rewrite !sapp_assoc. cbn [elements].
    rewrite Hj by (lia || (simpl; set_solver)). simpl. simpl in Hn. by rewrite IH by (done || lia).
Qed.

Definition print_member (kv : string * json) : string := Json.quote kv.1 +:+ ":" +:+ print kv.2.
Lemma member_starts kv : starts opening (print_member kv).
Proof. by eexists _, _. Qed.
Lemma print_members l : print (JObj l) = "{" +:+ Strings.Join (map print_member l) "," +:+ "}".
Proof. simpl. do 3 f_equal. apply map_ext. by intros []. Qed.

Lemma members_print l n r :
  Forall (fun kv => reads_back kv.2) l -> Forall (fun kv => utf8 kv.1 /\ printable kv.2) l -> l <> [] ->
  2 * String.length (Strings.Join (map print_member l) ",") + 1 <= n ->
  members n (Strings.Join (map print_member l) "," +:+ "}" +:+ r) = Some (l, r).
Proof.
  intros Hl Hp. revert n. induction Hl as [|[k j] l Hj Hl IH]; intros n Hne Hn; [done|]. simpl in Hj.
  apply Forall_cons in Hp as [[Hk Hpj] Hpl]. simpl in Hk, Hpj. destruct n as [|n]; [lia|].
  assert (Hstep : forall t, members (S n) (print_member (k, j) +:+ t) =
    ('(j, r) ← value n (print j +:+ t);
     match skip_blanks r with
     | String ","%char r' => '(l, r) ← members n r'; Some ((k, j) :: l, r)
     | String "}"%char r' => Some ([(k, j)], r')
     | _ => None
     end)).
  { intros t. unfold print_member. simpl fst. simpl snd. rewrite !sapp_assoc.
    destruct (scan_quote k (":" +:+ print j +:+ t) Hk) as (us & Hq & Hs & Hu). rewrite Hq.
    cbn [members]. cbn [skip_blanks]. change (is_blank (ascii_of_nat 34)) with false. cbn [negb].
    rewrite decide_True by done. rewrite Hs. simpl. by rewrite Hu. }
  destruct l as [|kv l].
  - simpl map. simpl Strings.Join in *. rewrite Hstep. unfold print_member in Hn. simpl fst in Hn. simpl snd in Hn.
    rewrite !NetFacts.length_sapp in Hn. rewrite Hj by (lia || (simpl; set_solver)). done.
  - change (Strings.Join (map print_member ((k, j) :: kv :: l)) ",")
      with (print_member (k, j) +:+ "," +:+ Strings.Join (map print_member (kv :: l)) ",") in *.
    set (J := Strings.Join (map print_member (kv :: l)) ",") in *. clearbody J.
    rewrite !sapp_assoc, Hstep. unfold print_member in Hn. simpl fst in Hn. simpl snd in Hn.
    rewrite !NetFacts.length_sapp in Hn.
    rewrite Hj by (lia || (simpl; set_solver)). simpl. simpl in Hn. by rewrite IH by (done || lia).
Qed.

Lemma print_reads_back j : printable j -> reads_back j.
Proof.
  induction j as [|b|s|s|l IH|l IH] using json_ind; intros Hp n r Hn Hr.
  - destruct n as [|n]; [simpl in Hn; lia|]. reflexivity.
  - destruct n as [|n]; [destruct b; simpl in Hn; lia|]. by destruct b.
  - inversion Hp as [| |z| | |]; subst. destruct (number_head z) as (c & t & Ht & Hc).
    pose proof (number_char c Hc) as (Ho & H1 & H2 & H3 & _).
    destruct n as [|n]; [simpl print in Hn; rewrite Ht in Hn; simpl in Hn; lia|].
    simpl print. rewrite (value_at n _ c (t +:+ r)); [|exists c, (t +:+ r); by rewrite Ht|by rewrite Ht].
    rewrite !decide_False by done. rewrite <- sapp_cons, <- Ht. by apply scalar_number.
  - inversion Hp as [| | |s' Hs| |]; subst. simpl print. destruct (scan_quote s r Hs) as (us & Hq & Hus & Hu).
    simpl print in Hn. destruct n as [|n]; [unfold Json.quote in Hn; rewrite NetFacts.length_sapp in Hn; simpl in Hn; lia|].
    rewrite Hq. erewrite value_at; [|by eexists _, _|reflexivity]. rewrite decide_True by done. by rewrite Hus, <- Hu.
  - inversion Hp as [| | | |l' Hl|]; subst. simpl print in *. rewrite !NetFacts.length_sapp in Hn. simpl String.length in Hn.
    destruct n as [|n]; [lia|]. rewrite !sapp_assoc.
    erewrite value_at; [|by eexists _, _|reflexivity]. rewrite decide_False, decide_True by done.
    destruct l as [|j l]; [done|]. pose proof Hl as [Hj _]%Forall_cons.
    assert (Hst : starts opening (Strings.Join (map print (j :: l)) ",")) by (apply (join_starts _ (print j)), print_head; exact Hj).
    rewrite (skip_head _ _ Hst), not_closing by (by apply starts_app).
    rewrite elements_print; [done| |done|done|lia].
    apply Forall_forall. intros x Hx. rewrite Forall_forall in IH, Hl. auto.
  - inversion Hp as [| | | | |l' Hl]; subst. rewrite print_members in *. rewrite !NetFacts.length_sapp in Hn. simpl String.length in Hn.
    destruct n as [|n]; [lia|]. rewrite !sapp_assoc.
    erewrite value_at; [|by eexists _, _|reflexivity]. rewrite decide_False, decide_False, decide_True by done.
    destruct l as [|kv l]; [done|].
    assert (Hst : starts opening (Strings.Join (map print_member (kv :: l)) ",")) by apply (join_starts _ (print_member kv)), member_starts.
    rewrite (skip_head _ _ Hst), not_closing' by (by apply starts_app).
    rewrite members_print; [done| |done|done|lia].
    apply Forall_forall. intros x Hx. rewrite Forall_forall in IH, Hl. apply IH; [done|]. by apply Hl.
Qed.

(** A printed tree is parsed to itself. *)
Lemma parse_print j : printable j -> parse_json (print j) = Some j.
Proof.
  intros Hp. unfold parse_json. rewrite <- (sapp_nil_r (print j)) at 2.
  by rewrite (print_reads_back j Hp) by (lia || done).
Qed.

(** ** The fuel is enough *)

Abbreviation len := String.length (only parsing).

Lemma skip_blanks_len s : len (skip_blanks s) <= len s.
Proof. induction s as [|c s IH]; simpl; [done|]. destruct (is_blank c); simpl; lia. Qed.

Lemma scan_string_len k s us r : len s <= k -> scan_string s = Some (us, r) -> len r < len s.
Proof.
  revert s us r. induction k as [|k IH]; intros s us r Hk Hs; (destruct s as [|c s]; [done|]); simpl in Hk; [lia|].
  assert (Hnext : forall t (f : list str_unit -> list str_unit), len t <= k -> len t <= len s ->
    ('(us, r) ← scan_string t; Some (f us, r)) = Some (us, r) -> len r < S (len s)).
  { intros t f Ht Hts Heq. destruct (scan_string t) as [[us' r']|] eqn:Hsc; [|done].
    simpl in Heq. injection Heq as _ ->. apply IH in Hsc; lia. }
  simpl in Hs |- *. case_decide; [by injection Hs as _ ->; lia|]. case_decide.
  - destruct s as [|e s]; [done|]. simpl in Hk. case_decide.
    + destruct s as [|h1 [|h2 [|h3 [|h4 s]]]]; try done. destruct (hex4 h1 h2 h3 h4) as [n|]; [|done].
      simpl in Hs, Hk. eapply (Hnext s (cons (URune n))); [lia|simpl; lia|exact Hs].
    + destruct (escaped e) as [x|]; [|done]. simpl in Hs. eapply (Hnext s (cons (UByte x))); [lia|simpl; lia|exact Hs].
  - destruct (code c <? 32)%N; [done|]. eapply (Hnext s (cons (UByte c))); [lia|lia|exact Hs].
Qed.

Lemma take_digits_len s : len (take_digits s).2 <= len s.
Proof. induction s as [|c s IH]; simpl; [done|]. case_decide; simpl; [|done]. destruct (take_digits s); simpl in *; lia. Qed.
Lemma some_digits_len s d r : some_digits s = Some (d, r) -> len r < len s.
Proof.
  unfold some_digits. pose proof (take_digits_len s) as Hl. destruct (take_digits s) as [d' r'] eqn:Ht. simpl in Hl.
  case_decide as Hd; [done|]. intros [= -> ->]. destruct s as [|c s]; simpl in Ht; [by injection Ht as <- <-|].
  case_decide; [|by injection Ht as <- <-]. pose proof (take_digits_len s). destruct (take_digits s). injection Ht as <- <-. simpl in *. lia.
Qed.

Lemma scan_int_len s d r : scan_int s = Some (d, r) -> len r < len s.
Proof.
  assert (Hd : some_digits s = Some (d, r) -> len r < len s) by apply some_digits_len.
  destruct s as [|c s]; [done|]. destruct c as [[] [] [] [] [] [] [] []]; try exact Hd. intros [= <- <-]. simpl. lia.
Qed.
Lemma scan_frac_len s d r : scan_frac s = Some (d, r) -> len r <= len s.
Proof.
  assert (Hd : Some ("", s) = Some (d, r) -> len r <= len s) by (intros [= <- <-]; lia).
  destruct s as [|c s]; [done|]. destruct c as [[] [] [] [] [] [] [] []]; try exact Hd.
  simpl. destruct (some_digits s) as [[d' r']|] eqn:Hs; [|done]. intros [= <- <-]. apply some_digits_len in Hs. lia.
Qed.
Lemma scan_exp_len s d r : scan_exp s = Some (d, r) -> len r <= len s.
Proof.
  destruct s as [|c s]; simpl; [by intros [= <- <-]|]. case_decide; [|intros [= <- <-]; simpl; lia].
  assert (Hsome : forall sign t, len t <= len s ->
    ('(d, r) ← some_digits t; Some (String c (sign +:+ d), r)) = Some (d, r) -> len r <= S (len s)).
  { intros sign t Ht. destruct (some_digits t) as [[d' r']|] eqn:Hs; [|done]. intros [= <- <-]. apply some_digits_len in Hs. lia. }
  destruct s as [|c' s]; [by apply Hsome|].
  destruct c' as [[] [] [] [] [] [] [] []]; apply Hsome; simpl; lia.
Qed.
Lemma scan_number_len s d r : scan_number s = Some (d, r) -> len r < len s.
Proof.
  assert (Hn : forall sign t, len t <= len s ->
    ('(i, s) ← scan_int t; '(f, s) ← scan_frac s; '(e, s) ← scan_exp s; Some (sign +:+ i +:+ f +:+ e, s)) = Some (d, r) ->
    len r < len s).
  { intros sign t Ht. destruct (scan_int t) as [[i s1]|] eqn:H1; [|done]. simpl.
    destruct (scan_frac s1) as [[f s2]|] eqn:H2; [|done]. simpl. destruct (scan_exp s2) as [[e s3]|] eqn:H3; [|done].
    intros [= <- <-]. apply scan_int_len in H1. apply scan_frac_len in H2. apply scan_exp_len in H3. lia. }
  unfold scan_number. destruct s as [|c s]; [by apply Hn|].
  destruct c as [[] [] [] [] [] [] [] []]; apply Hn; simpl; lia.
Qed.
Lemma after_len p s r : after p s = Some r -> len s = len p + len r.
Proof.
  revert s. induction p as [|c p IH]; intros s; simpl; [by intros [= ->]|].
  destruct s as [|d s]; [done|]. case_decide; [|done]. intros Hr. simpl. by rewrite (IH _ Hr).
Qed.
Lemma scalar_len s j r : scalar s = Some (j, r) -> len r < len s.
Proof.
  unfold scalar. destruct (after "null" s) as [r1|] eqn:H1; [intros [= <- <-]; apply after_len in H1; simpl in H1; lia|].
  destruct (after "true" s) as [r2|] eqn:H2; [intros [= <- <-]; apply after_len in H2; simpl in H2; lia|].
  destruct (after "false" s) as [r3|] eqn:H3; [intros [= <- <-]; apply after_len in H3; simpl in H3; lia|].
  destruct (scan_number s) as [[d r']|] eqn:Hs; [|done]. intros [= <- <-]. by eapply scan_number_len.
Qed.

(** What the three functions read with some fuel they read with the fuel of
    the length of the text. *)
Definition fuel_bound (n : nat) : Prop :=
  (forall s j r, value n s = Some (j, r) -> len r < len s /\ forall m, 2 * len s <= m -> value m s = Some (j, r)) /\
  (forall s l r, elements n s = Some (l, r) -> len r < len s /\ forall m, 2 * len s + 1 <= m -> elements m s = Some (l, r)) /\
  (forall s l r, members n s = Some (l, r) -> len r < len s /\ forall m, 2 * len s + 1 <= m -> members m s = Some (l, r)).

(** How a text goes on. *)
Lemma bracket_cases s :
  (exists r, s = String "]" r) \/ forall A (x : string -> A) y, match s with String "]"%char r => x r | _ => y end = y.
Proof. destruct s as [|c s]; [by right|]. destruct c as [[] [] [] [] [] [] [] []]; first [by right|left; by eexists]. Qed.
Lemma brace_cases s :
  (exists r, s = String "}" r) \/ forall A (x : string -> A) y, match s with String "}"%char r => x r | _ => y end = y.
Proof. destruct s as [|c s]; [by right|]. destruct c as [[] [] [] [] [] [] [] []]; first [by right|left; by eexists]. Qed.
Lemma list_cases s :
  (exists r, s = String "," r) \/ (exists r, s = String "]" r) \/
  forall A (x y : string -> A) (z : A), match s with String ","%char r => x r | String "]"%char r => y r | _ => z end = z.
Proof.
  destruct s as [|c s]; [by right; right|].
  destruct c as [[] [] [] [] [] [] [] []]; first [by right; right|left; by eexists|right; left; by eexists].
Qed.
Lemma object_cases s :
  (exists r, s = String "," r) \/ (exists r, s = String "}" r) \/
  forall A (x y : string -> A) (z : A), match s with String ","%char r => x r | String "}"%char r => y r | _ => z end = z.
Proof.
  destruct s as [|c s]; [by right; right|].
  destruct c as [[] [] [] [] [] [] [] []]; first [by right; right|left; by eexists|right; left; by eexists].
Qed.
Lemma colon_cases s :
  (exists r, s = String ":" r) \/ forall A (x : string -> A) y, match s with String ":"%char r => x r | _ => y end = y.
Proof. destruct s as [|c s]; [by right|]. destruct c as [[] [] [] [] [] [] [] []]; first [by right|left; by eexists]. Qed.

Lemma value_bound n : fuel_bound n -> forall s j r, value (S n) s = Some (j, r) ->
  len r < len s /\ forall m, 2 * len s <= m -> value m s = Some (j, r).
Proof.
  intros (_ & He & Hm) s j r Hv. pose proof (skip_blanks_len s) as Hl.
  assert (Hs : forall m, 2 * len s <= m -> len (skip_blanks s) <> 0 -> exists m', m = S m' /\ 2 * len (skip_blanks s) <= S m').
  { intros [|m] Hm' Hne; [lia|]. exists m. lia. }
  cbn [value] in Hv. destruct (skip_blanks s) as [|c t] eqn:Hst; [done|]. simpl in Hl, Hs.
  pose proof (skip_blanks_len t) as Hlt.
  case_decide; [|case_decide; [|case_decide]].
  - destruct (scan_string t) as [[us r']|] eqn:Hsc; [|done]. injection Hv as <- <-.
    apply (scan_string_len (len t)) in Hsc as Hr; [|done]. split; [lia|].
    intros m (m' & -> & _)%Hs; [|lia]. cbn [value]. rewrite Hst, decide_True, Hsc by done. done.
  - destruct (bracket_cases (skip_blanks t)) as [[r' Hb]|Hb].
    + rewrite Hb in Hv, Hlt. injection Hv as <- <-. simpl in Hlt. split; [lia|].
      intros m (m' & -> & _)%Hs; [|lia]. cbn [value]. rewrite Hst, decide_False, decide_True, Hb by done. done.
    + rewrite Hb in Hv. destruct (elements n t) as [[l r']|] eqn:Hel; [|done]. injection Hv as <- <-.
      destruct (He _ _ _ Hel) as [Hr Hall]. split; [lia|].
      intros m (m' & -> & Hm')%Hs; [|lia]. cbn [value]. rewrite Hst, decide_False, decide_True, Hb by done.
      by rewrite Hall by lia.
  - destruct (brace_cases (skip_blanks t)) as [[r' Hb]|Hb].
    + rewrite Hb in Hv, Hlt. injection Hv as <- <-. simpl in Hlt. split; [lia|].
      intros m (m' & -> & _)%Hs; [|lia]. cbn [value]. rewrite Hst, !decide_False, decide_True, Hb by done. done.
    + rewrite Hb in Hv. destruct (members n t) as [[l r']|] eqn:Hel; [|done]. injection Hv as <- <-.
      destruct (Hm _ _ _ Hel) as [Hr Hall]. split; [lia|].
      intros m (m' & -> & Hm')%Hs; [|lia]. cbn [value]. rewrite Hst, !decide_False, decide_True, Hb by done.
      by rewrite Hall by lia.
  - pose proof (scalar_len _ _ _ Hv) as Hr. simpl in Hr. split; [lia|].
    intros m (m' & -> & _)%Hs; [|lia]. cbn [value]. by rewrite Hst, !decide_False by done.
Qed.

Lemma elements_bound n : fuel_bound n -> forall s l r, elements (S n) s = Some (l, r) ->
  len r < len s /\ forall m, 2 * len s + 1 <= m -> elements m s = Some (l, r).
Proof.
  intros (Hv & He & _) s l r Hel. cbn [elements] in Hel.
  destruct (value n s) as [[j t]|] eqn:Hj; [|done]. cbn [mbind option_bind] in Hel.
  destruct (Hv _ _ _ Hj) as [Ht Hvm]. pose proof (skip_blanks_len t) as Hl.
  destruct (list_cases (skip_blanks t)) as [[u Hc]|[[u Hb]|Hc]].
  - rewrite Hc in Hel, Hl. simpl in Hl. destruct (elements n u) as [[l' r']|] eqn:Hu; [|done]. injection Hel as <- <-.
    destruct (He _ _ _ Hu) as [Hr Hem]. split; [lia|]. intros [|m] Hm; [lia|].
    cbn [elements]. rewrite Hvm by lia. cbn [mbind option_bind]. rewrite Hc. by rewrite Hem by lia.
  - rewrite Hb in Hel, Hl. simpl in Hl. injection Hel as <- <-. split; [lia|]. intros [|m] Hm; [lia|].
    cbn [elements]. rewrite Hvm by lia. cbn [mbind option_bind]. by rewrite Hb.
  - by rewrite Hc in Hel.
Qed.

Lemma members_bound n : fuel_bound n -> forall s l r, members (S n) s = Some (l, r) ->
  len r < len s /\ forall m, 2 * len s + 1 <= m -> members m s = Some (l, r).
Proof.
  intros (Hv & _ & He) s l r Hel. pose proof (skip_blanks_len s) as Hls. cbn [members] in Hel.
  destruct (skip_blanks s) as [|q t0] eqn:Hst; [done|]. simpl in Hls. case_decide as Hq; [|done].
  destruct (scan_string t0) as [[us t1]|] eqn:Hsc; [|done]. cbn [mbind option_bind] in Hel.
  apply (scan_string_len (len t0)) in Hsc as Hl1; [|done]. pose proof (skip_blanks_len t1) as Hl2.
  destruct (colon_cases (skip_blanks t1)) as [[t2 Hcol]|Hcol]; rewrite Hcol in Hel; [|done]. rewrite Hcol in Hl2. simpl in Hl2.
  destruct (value n t2) as [[j t]|] eqn:Hj; [|done]. cbn [mbind option_bind] in Hel.
  destruct (Hv _ _ _ Hj) as [Ht Hvm]. pose proof (skip_blanks_len t) as Hl.
  assert (Hstep : forall m, 2 * len s + 1 <= S m -> members (S m) s =
    match skip_blanks t with
    | String ","%char r' => '(l, r) ← members m r'; Some ((unquote us, j) :: l, r)
    | String "}"%char r' => Some ([(unquote us, j)], r')
    | _ => None
    end).
  { intros m Hm. cbn [members]. rewrite Hst, (decide_True _ _ Hq), Hsc. cbn [mbind option_bind]. rewrite Hcol.
    rewrite Hvm by lia. done. }
  destruct (object_cases (skip_blanks t)) as [[u Hc]|[[u Hb]|Hc]].
  - rewrite Hc in Hel, Hl. simpl in Hl. destruct (members n u) as [[l' r']|] eqn:Hu; [|done]. injection Hel as <- <-.
    destruct (He _ _ _ Hu) as [Hr Hem]. split; [lia|]. intros [|m] Hm; [lia|].
    rewrite Hstep, Hc by lia. by rewrite Hem by lia.
  - rewrite Hb in Hel, Hl. simpl in Hl. injection Hel as <- <-. split; [lia|]. intros [|m] Hm; [lia|].
    by rewrite Hstep, Hb by lia.
  - by rewrite Hc in Hel.
Qed.

Lemma fuel_enough n : fuel_bound n.
Proof.
  induction n as [|n IH]; [by repeat split|].
  split; [|split]; [by apply value_bound|by apply elements_bound|by apply members_bound].
Qed.

(** A text that is one value for some fuel is parsed. *)
Lemma parse_json_complete n s j r :
  value n s = Some (j, r) -> skip_blanks r = "" -> parse_json s = Some j.
Proof.
  intros Hv Hr. destruct (fuel_enough n) as [Hn _]. destruct (Hn _ _ _ Hv) as [_ Hm].
  unfold parse_json. rewrite Hm by lia. simpl. by rewrite decide_True.
Qed.
