(* ===== verification/GoRegexp.v ===== *)
(** * [regexp]

    The expressions of Go on ASCII, read as [syntax.Parse] reads them with the
    flags of [regexp.Compile]: literals, classes, groups, assertions and
    repetitions, with its errors.  What an expression matches is a relation
    between positions of the text ([denotes]); [ends] computes it.  The names
    of Unicode and POSIX classes, quoted text and the flags of a group are not
    read here: for them [Compile] asks its parameter. *)

From S2P Require Import Prelude GoStd GoJson.

Module Regexp.

(** ** Expressions *)

Inductive class := Class (negated : bool) (ranges : list (N * N)).

Inductive regex :=
| REmpty
| RClass (c : class)
| RBeginText
| REndText
| RWordBoundary
| RNoWordBoundary
| RConcat (a b : regex)
| RAlternate (a b : regex)
| RStar (a : regex)
| RPlus (a : regex)
| RQuest (a : regex)
| RRepeat (min : nat) (max : option nat) (a : regex).

Definition in_ranges (ranges : list (N * N)) (c : N) : bool :=
  existsb (fun '(lo, hi) => (lo <=? c) && (c <=? hi))%N ranges.
Definition in_class (k : class) (c : N) : bool :=
  let 'Class negated ranges := k in xorb negated (in_ranges ranges c).

(** The runes of a text; a byte that begins no sequence is U+FFFD. *)
Definition decode_sequence (bytes : list N) : N :=
  match bytes with
  | [a] => a
  | [a; b] => (a mod 32) * 64 + b mod 64
  | [a; b; c] => (a mod 16) * 4096 + (b mod 64) * 64 + c mod 64
  | [a; b; c; d] => (a mod 8) * 262144 + (b mod 64) * 4096 + (c mod 64) * 64 + d mod 64
  | _ => 65533
  end%N.
Fixpoint codes (n : nat) (s : string) : list N :=
  match n, s with
  | S n', String c s' => code c :: codes n' s'
  | _, _ => []
  end.
(** [k] bytes of the current sequence are still to come. *)
Fixpoint runes_from (k : nat) (s : string) : list N :=
  match s with
  | EmptyString => []
  | String c s' =>
      match k with
      | S k' => runes_from k' s'
      | O => let l := utf8_len s in decode_sequence (codes l s) :: runes_from (pred l) s'
      end
  end.
Definition runes_of (s : string) : list N := runes_from 0 s.

Definition digits : list (N * N) := [(48, 57)]%N.
Definition spaces : list (N * N) := [(9, 10); (12, 13); (32, 32)]%N.
Definition words : list (N * N) := [(48, 57); (65, 90); (95, 95); (97, 122)]%N.

(** ** What an expression matches *)

Section Text.
Context (w : list N).

Definition word_at (o : option N) : bool := match o with Some c => in_ranges words c | None => false end.
Definition before (i : nat) : option N := match i with O => None | S j => w !! j end.
Definition boundary (i : nat) : bool := xorb (word_at (before i)) (word_at (w !! i)).

(** From the position before the match to the one after it. *)
Fixpoint denotes (e : regex) : nat -> nat -> Prop :=
  match e with
  | REmpty => fun i j => j = i
  | RClass k => fun i j => j = S i /\ exists c, w !! i = Some c /\ in_class k c = true
  | RBeginText => fun i j => j = i /\ i = 0
  | REndText => fun i j => j = i /\ i = length w
  | RWordBoundary => fun i j => j = i /\ boundary i = true
  | RNoWordBoundary => fun i j => j = i /\ boundary i = false
  | RConcat a b => fun i j => exists k, denotes a i k /\ denotes b k j
  | RAlternate a b => fun i j => denotes a i j \/ denotes b i j
  | RStar a => rtc (denotes a)
  | RPlus a => fun i j => exists k, denotes a i k /\ rtc (denotes a) k j
  | RQuest a => fun i j => j = i \/ denotes a i j
  | RRepeat n None a => fun i j => exists k, nsteps (denotes a) n i k /\ rtc (denotes a) k j
  | RRepeat n (Some m) a => fun i j => exists k, n <= k <= m /\ nsteps (denotes a) k i j
  end.

Definition then_ends (f : nat -> list nat) (l : list nat) : list nat := remove_dups (flat_map f l).
(** As many as there are, when each makes progress. *)
Fixpoint star_ends (f : nat -> list nat) (fuel i : nat) : list nat :=
  match fuel with
  | O => [i]
  | S fuel' => i :: remove_dups (flat_map (star_ends f fuel') (filter (fun k => i < k) (f i)))
  end.
Fixpoint upto_ends (f : nat -> list nat) (n : nat) (l : list nat) : list nat :=
  match n with
  | O => l
  | S n' => remove_dups (l ++ upto_ends f n' (then_ends f l))
  end.

Fixpoint ends (e : regex) (i : nat) : list nat :=
  match e with
  | REmpty => [i]
  | RClass k => match w !! i with Some c => if in_class k c then [S i] else [] | None => [] end
  | RBeginText => if decide (i = 0) then [i] else []
  | REndText => if decide (i = length w) then [i] else []
  | RWordBoundary => if boundary i then [i] else []
  | RNoWordBoundary => if boundary i then [] else [i]
  | RConcat a b => then_ends (ends b) (ends a i)
  | RAlternate a b => remove_dups (ends a i ++ ends b i)
  | RStar a => star_ends (ends a) (length w) i
  | RPlus a => then_ends (star_ends (ends a) (length w)) (ends a i)
  | RQuest a => i :: ends a i
  | RRepeat n None a => then_ends (star_ends (ends a) (length w)) (Nat.iter n (then_ends (ends a)) [i])
  | RRepeat n (Some m) a =>
      if m <? n then [] else upto_ends (ends a) (m - n) (Nat.iter n (then_ends (ends a)) [i])
  end.
End Text.

(** [MatchString]: somewhere in the text. *)
Definition MatchString (e : regex) (s : string) : bool :=
  let w := runes_of s in
  existsb (fun i => match ends w e i with [] => false | _ => true end) (seq 0 (S (length w))).

(** ** Reading an expression *)

(** An expression is read, is rejected, or is outside of this file. *)
Inductive reading (A : Type) := Read (a : A) | Invalid | Elsewhere.
Arguments Read {A} a.
Arguments Invalid {A}.
Arguments Elsewhere {A}.
#[export] Instance reading_ret : MRet reading := fun A a => Read a.
#[export] Instance reading_bind : MBind reading := fun A B f m =>
  match m with Read a => f a | Invalid => Invalid | Elsewhere => Elsewhere end.

(** The text after a first character. *)
Definition strip (c : ascii) (s : string) : option string :=
  match s with String d s' => if (d =? c)%char then Some s' else None | EmptyString => None end.

Definition is_digit (c : ascii) : bool := within 48 57 c.
Definition alphanumeric (c : ascii) : bool := is_digit c || within 65 90 c || within 97 122 c.
Definition max_rune : N := 1114111.
Definition single (n : N) : class := Class false [(n, n)].

(** The ranges between sorted ranges, from [lo] on. *)
Fixpoint gaps (lo : N) (ranges : list (N * N)) : list (N * N) :=
  match ranges with
  | [] => [(lo, max_rune)]
  | (a, b) :: ranges' => (if (lo <? a)%N then [(lo, a - 1)%N] else []) ++ gaps (b + 1) ranges'
  end.

(** [parsePerlClassEscape], after the backslash. *)
Definition perl_class (c : ascii) : option (list (N * N)) :=
  if (c =? "d")%char then Some digits else if (c =? "D")%char then Some (gaps 0 digits)
  else if (c =? "s")%char then Some spaces else if (c =? "S")%char then Some (gaps 0 spaces)
  else if (c =? "w")%char then Some words else if (c =? "W")%char then Some (gaps 0 words)
  else None.

(** The digits of [\x{...}]. *)
Fixpoint hex_braced (any : bool) (n : N) (s : string) : reading (N * string) :=
  match s with
  | EmptyString => Invalid
  | String c s' =>
      if (c =? "}")%char then if any then Read (n, s') else Invalid
      else match hex_value c with
      | Some v => let n' := (n * 16 + Z.to_N v)%N in if (max_rune <? n')%N then Invalid else hex_braced true n' s'
      | None => Invalid
      end
  end.
Definition octal (c : ascii) : bool := within 48 55 c.
(** Up to [k] more octal digits. *)
Fixpoint octals (k : nat) (n : N) (s : string) : N * string :=
  match k, s with
  | S k', String c s' => if octal c then octals k' (n * 8 + (code c - 48))%N s' else (n, s)
  | _, _ => (n, s)
  end.

(** [parseEscape], after the backslash: a rune. *)
Definition parse_escape (s : string) : reading (N * string) :=
  match s with
  | EmptyString => Invalid
  | String c s' =>
      if octal c then
        if (c =? "0")%char then Read (octals 2 0 s')
        else match s' with
        | String d _ => if octal d then Read (octals 2 (code c - 48)%N s') else Invalid
        | EmptyString => Invalid
        end
      else if (c =? "x")%char then
        match strip "{" s', s' with
        | Some s'', _ => hex_braced false 0 s''
        | None, String a (String b s'') =>
            match hex_value a, hex_value b with
            | Some x, Some y => Read (Z.to_N x * 16 + Z.to_N y, s'')%N
            | _, _ => Invalid
            end
        | None, _ => Invalid
        end
      else if (c =? "a")%char then Read (7, s')%N else if (c =? "f")%char then Read (12, s')%N
      else if (c =? "n")%char then Read (10, s')%N else if (c =? "r")%char then Read (13, s')%N
      else if (c =? "t")%char then Read (9, s')%N else if (c =? "v")%char then Read (11, s')%N
      else if alphanumeric c then Invalid else Read (code c, s')
  end.

(** [parseClassChar]. *)
Definition class_char (s : string) : reading (N * string) :=
  match s with
  | EmptyString => Invalid
  | String c s' => if (c =? "\")%char then parse_escape s' else Read (code c, s')
  end.

(** A character or a range; a minus before the bracket is literal. *)
Definition class_range (s : string) : reading (list (N * N) * string) :=
  '(lo, t) ← class_char s;
  match strip "-" t with
  | Some (String c t') =>
      if (c =? "]")%char then Read ([(lo, lo)], t)
      else '(hi, t'') ← class_char (String c t'); if (hi <? lo)%N then Invalid else Read ([(lo, hi)], t'')
  | _ => Read ([(lo, lo)], t)
  end.

(** One member of a class. *)
Definition class_item (s : string) : reading (list (N * N) * string) :=
  match strip "[" s ≫= strip ":", strip "\" s with
  | Some _, _ => Elsewhere
  | None, Some (String c s') =>
      match perl_class c with
      | Some rs => Read (rs, s')
      | None => if (c =? "p")%char || (c =? "P")%char then Elsewhere else class_range s
      end
  | _, _ => class_range s
  end.

(** The members up to the bracket, which is literal in the first place. *)
Fixpoint class_items (fuel : nat) (first : bool) (acc : list (N * N)) (s : string) : reading (list (N * N) * string) :=
  match fuel with
  | O => Invalid
  | S fuel' =>
      match s with
      | String c s' =>
          if (c =? "]")%char && negb first then Read (acc, s')
          else '(rs, t) ← class_item s; class_items fuel' false (acc ++ rs) t
      | EmptyString => Invalid
      end
  end.

(** [parseClass], after the bracket. *)
Definition parse_class (s : string) : reading (class * string) :=
  let '(negated, t) := match strip "^" s with Some s' => (true, s') | None => (false, s) end in
  '(rs, t') ← class_items (S (String.length t)) true [] t;
  Read (Class negated rs, t').

(** [parseInt]: no leading zero; too large a number is [None]. *)
Fixpoint scan_int (n : N) (s : string) : N * string :=
  match s with
  | String c s' => if is_digit c then scan_int (n * 10 + (code c - 48))%N s' else (n, s)
  | EmptyString => (n, s)
  end.
Definition parse_int (s : string) : option (N * string) :=
  match s with
  | String c s' =>
      if is_digit c then
        match s' with
        | String d _ => if (c =? "0")%char && is_digit d then None else Some (scan_int 0 s)
        | EmptyString => Some (scan_int 0 s)
        end
      else None
  | EmptyString => None
  end.

(** [parser.repeat], after the brace: the two bounds, or [None] when the
    brace is literal. *)
Definition parse_bounds (s : string) : option (N * option N * string) :=
  '(min, t) ← parse_int s;
  match strip "}" t, strip "," t with
  | Some t', _ => Some (min, Some min, t')
  | None, Some t' =>
      match strip "}" t' with
      | Some t'' => Some (min, None, t'')
      | None => '(max, t'') ← parse_int t'; r ← strip "}" t''; Some (min, Some max, r)
      end
  | None, None => None
  end.

(** [repeatIsValid]: how often the text of a nest of repetitions is copied. *)
Fixpoint repeat_is_valid (e : regex) (n : nat) : bool :=
  match e with
  | RRepeat min max a =>
      match max with
      | Some O => true
      | _ =>
          let m := default min max in
          (m <=? n) && repeat_is_valid a (if decide (m = 0) then n else n / m)
      end
  | RConcat a b | RAlternate a b => repeat_is_valid a n && repeat_is_valid b n
  | RStar a | RPlus a | RQuest a => repeat_is_valid a n
  | _ => true
  end.

(** *** The loop of [Parse] *)

(** What is read of one group: the alternatives before, the concatenation
    before its last expression, and that expression, which a repetition
    applies to. *)
Record frame := Frame { f_alt : option regex; f_cat : option regex; f_last : option regex }.
Definition empty_frame : frame := Frame None None None.

Definition joined (f : regex -> regex -> regex) (a b : option regex) : option regex :=
  match a, b with
  | Some a, Some b => Some (f a b)
  | Some a, None => Some a
  | None, _ => b
  end.
Definition push (e : regex) (f : frame) : frame := Frame (f_alt f) (joined RConcat (f_cat f) (f_last f)) (Some e).
Definition branch (f : frame) : regex := default REmpty (joined RConcat (f_cat f) (f_last f)).
Definition alternative (f : frame) : frame := Frame (joined RAlternate (f_alt f) (Some (branch f))) None None.
Definition closed (f : frame) : regex := default REmpty (f_alt (alternative f)).

(** The innermost group, those around it, whether a repetition was just read,
    and the rest of the text. *)
Record parser := Parser { p_top : frame; p_outer : list frame; p_repeated : bool; p_rest : string }.

Definition item (e : regex) (p : parser) (rest : string) : reading parser :=
  Read (Parser (push e (p_top p)) (p_outer p) false rest).

(** [repeat]: a question mark asks for the short match, which does not change
    whether there is one. *)
Definition repetition (op : regex -> regex) (p : parser) (rest : string) : reading parser :=
  let rest' := default rest (strip "?" rest) in
  if p_repeated p then Invalid
  else match f_last (p_top p) with
  | None => Invalid
  | Some e =>
      if repeat_is_valid (op e) 1000 then
        Read (Parser (Frame (f_alt (p_top p)) (f_cat (p_top p)) (Some (op e))) (p_outer p) true rest')
      else Invalid
  end.

Definition opened (p : parser) (rest : string) : reading parser :=
  Read (Parser empty_frame (p_top p :: p_outer p) false rest).

Definition escape (p : parser) (s : string) : reading parser :=
  match s with
  | String c t =>
      if (c =? "A")%char then item RBeginText p t
      else if (c =? "b")%char then item RWordBoundary p t
      else if (c =? "B")%char then item RNoWordBoundary p t
      else if (c =? "z")%char then item REndText p t
      else if (c =? "Q")%char || (c =? "p")%char || (c =? "P")%char then Elsewhere
      else match perl_class c with
      | Some rs => item (RClass (Class false rs)) p t
      | None => '(r, t') ← parse_escape s; item (RClass (single r)) p t'
      end
  | EmptyString => Invalid
  end.

Definition step (p : parser) : reading parser :=
  match p_rest p with
  | EmptyString => Read p
  | String c t =>
      if (c =? "(")%char then
        match strip "?" t with
        | Some t' => match strip ":" t' with Some t'' => opened p t'' | None => Elsewhere end
        | None => opened p t
        end
      else if (c =? "|")%char then Read (Parser (alternative (p_top p)) (p_outer p) false t)
      else if (c =? ")")%char then
        match p_outer p with
        | f :: fs => Read (Parser (push (closed (p_top p)) f) fs false t)
        | [] => Invalid
        end
      else if (c =? "^")%char then item RBeginText p t
      else if (c =? "$")%char then item REndText p t
      else if (c =? ".")%char then item (RClass (Class true [(10, 10)]%N)) p t
      else if (c =? "[")%char then '(k, t') ← parse_class t; item (RClass k) p t'
      else if (c =? "*")%char then repetition RStar p t
      else if (c =? "+")%char then repetition RPlus p t
      else if (c =? "?")%char then repetition RQuest p t
      else if (c =? "{")%char then
        match parse_bounds t with
        | None => item (RClass (single (code c))) p t
        | Some (min, max, t') =>
            if ((min <=? 1000) && match max with Some m => (m <=? 1000) && (min <=? m) | None => true end)%N
            then repetition (RRepeat (N.to_nat min) (option_map N.to_nat max)) p t'
            else Invalid
        end
      else if (c =? "\")%char then escape p t
      else item (RClass (single (code c))) p t
  end.

Fixpoint parse (fuel : nat) (p : parser) : reading regex :=
  match p_rest p with
  | EmptyString => match p_outer p with [] => Read (closed (p_top p)) | _ => Invalid end
  | _ => match fuel with O => Invalid | S fuel' => p' ← step p; parse fuel' p' end
  end.

Definition initial (s : string) : parser := Parser empty_frame [] false s.

Fixpoint is_ascii (s : string) : bool :=
  match s with EmptyString => true | String c s' => (code c <? 128)%N && is_ascii s' end.

(** [syntax.Parse]. The length keeps the program under every limit of the
    package. *)
Definition Parse (s : string) : reading regex :=
  if is_ascii s && (String.length s <=? 500) then parse (String.length s) (initial s) else Elsewhere.

(** [regexp.Compile]. *)
Definition Compile (elsewhere : string -> option (string -> bool)) (s : string) : option (string -> bool) :=
  match Parse s with
  | Read e => Some (MatchString e)
  | Invalid => None
  | Elsewhere => elsewhere s
  end.

(** ** [ends] computes [denotes] *)

Section EndsSpec.
Context (w : list N).

Lemma boundary_cases i : boundary w i = true \/ boundary w i = false.
Proof. destruct (boundary w i); auto. Qed.

(** A relation that goes forward, inside of the text when it moves. *)
Definition forward (R : nat -> nat -> Prop) : Prop := forall i j, R i j -> i <= j /\ (i < j -> j <= length w).

Lemma forward_then R S : forward R -> forward S -> forward (fun i j => exists k, R i k /\ S k j).
Proof. intros HR HS i j (k & ?%HR & ?%HS). lia. Qed.
Lemma forward_rtc R : forward R -> forward (rtc R).
Proof. intros HR i j. induction 1 as [|i k j ?%HR _ IH]; lia. Qed.
Lemma forward_nsteps R n : forward R -> forward (nsteps R n).
Proof. intros HR i j. induction 1 as [|n i k j ?%HR _ IH]; lia. Qed.

Lemma denotes_forward e : forward (denotes w e).
Proof.
  induction e as [| k | | | | |a IHa b IHb|a IHa b IHb|a IHa|a IHa|a IHa|n [m|] a IHa]; intros i j; simpl.
  - lia.
  - intros (-> & c & Hc%lookup_lt_Some & _). lia.
  - lia.
  - lia.
  - lia.
  - lia.
  - by apply forward_then.
  - intros [?%IHa|?%IHb]; lia.
  - by apply forward_rtc.
  - by apply forward_then, forward_rtc.
  - intros [->|?%IHa]; lia.
  - intros (k & _ & Hk). by eapply forward_nsteps.
  - apply forward_then; [by apply forward_nsteps|by apply forward_rtc].
Qed.

Lemma nsteps_none (R : nat -> nat -> Prop) i j : nsteps R 0 i j -> j = i.
Proof. by inversion 1. Qed.
Lemma nsteps_first (R : nat -> nat -> Prop) n i j : nsteps R (S n) i j -> exists k, R i k /\ nsteps R n k j.
Proof. inversion 1; eauto. Qed.

(** [f] computes [R] from the positions of the text. *)
Definition computes (f : nat -> list nat) (R : nat -> nat -> Prop) : Prop :=
  forall i j, i <= length w -> j ∈ f i <-> R i j.

Lemma elem_of_flat_map {A B} (f : A -> list B) l y : y ∈ flat_map f l <-> exists x, x ∈ l /\ y ∈ f x.
Proof.
  rewrite list_elem_of_In, in_flat_map. setoid_rewrite list_elem_of_In. reflexivity.
Qed.

Lemma elem_of_then_ends f l j : j ∈ then_ends f l <-> exists k, k ∈ l /\ j ∈ f k.
Proof. unfold then_ends. by rewrite elem_of_remove_dups, elem_of_flat_map. Qed.

Context (R : nat -> nat -> Prop) (HR : forward R) (f : nat -> list nat) (Hf : computes f R).

Lemma forward_inside S i j : forward S -> i <= length w -> S i j -> j <= length w.
Proof. intros HS Hi ?%HS. lia. Qed.

Lemma star_computes fuel i j : i <= length w -> length w - i <= fuel -> j ∈ star_ends f fuel i <-> rtc R i j.
Proof.
  revert i j. induction fuel as [|fuel IH]; intros i j Hi Hfuel; simpl.
  - rewrite list_elem_of_singleton. split; [intros ->; reflexivity|].
    intros [? ?]%(forward_rtc R HR). lia.
  - rewrite elem_of_cons, elem_of_remove_dups, elem_of_flat_map. setoid_rewrite list_elem_of_filter. split.
    + intros [->|(k & (Hk & Hik) & Hj)]; [reflexivity|]. apply Hf in Hik; [|done].
      pose proof (HR _ _ Hik). apply rtc_l with k; [done|]. apply IH; [lia..|done].
    + induction 1 as [|i k j Hik Hkj IHs]; [by left|].
      pose proof (HR _ _ Hik). destruct (decide (i = k)) as [<-|]; [by apply IHs|].
      right. exists k. split; [split; [lia|by apply Hf]|]. apply IH; [lia..|done].
Qed.

Lemma iter_computes n l j : Forall (fun i => i <= length w) l ->
  j ∈ Nat.iter n (then_ends f) l <-> exists i, i ∈ l /\ nsteps R n i j.
Proof.
  intros Hl. revert j. induction n as [|n IH]; intros j; simpl.
  - split; [intros Hj; exists j; split; [done|constructor]|]. by intros (i & Hi & ->%nsteps_none).
  - rewrite elem_of_then_ends. setoid_rewrite IH. split.
    + intros (k & (i & Hi & Hik) & Hkj). exists i. split; [done|].
      apply Hf in Hkj; [eauto using nsteps_r|].
      eapply forward_inside; [by apply forward_nsteps| |done]. by eapply Forall_forall in Hl.
    + intros (i & Hi & (k & Hik & Hkj)%nsteps_inv_r). exists k. split; [eauto|]. apply Hf; [|done].
      eapply forward_inside; [by apply forward_nsteps| |done]. by eapply Forall_forall in Hl.
Qed.

Lemma then_ends_inside l : Forall (fun i => i <= length w) l -> Forall (fun i => i <= length w) (then_ends f l).
Proof.
  intros Hl. apply Forall_forall. intros j (k & Hk & Hj)%elem_of_then_ends.
  assert (Hkw : k <= length w) by (by eapply Forall_forall in Hl).
  apply Hf in Hj; [|done]. by eapply forward_inside.
Qed.

Lemma upto_computes n l j : Forall (fun i => i <= length w) l ->
  j ∈ upto_ends f n l <-> exists i k, i ∈ l /\ k <= n /\ nsteps R k i j.
Proof.
  revert l. induction n as [|n IH]; intros l Hl; simpl.
  - split; [intros Hj; exists j, 0; repeat split; [done|lia|constructor]|].
    intros (i & k & Hi & Hk & Hs). replace k with 0 in Hs by lia. by apply nsteps_none in Hs as ->.
  - rewrite elem_of_remove_dups, elem_of_app, IH by (by apply then_ends_inside).
    setoid_rewrite elem_of_then_ends. rewrite Forall_forall in Hl. split.
    + intros [Hj|(k & m & (i & Hi & Hik%Hf) & Hm & Hs)]; [|exists i, (S m); repeat split; [done|lia|econstructor; eauto]|by apply Hl].
      exists j, 0. repeat split; [done|lia|constructor].
    + intros (i & [|k] & Hi & Hk & Hs); [left; by apply nsteps_none in Hs as ->|].
      right. apply nsteps_first in Hs as (k' & Hik & Hkj).
      exists k', k. repeat split; [|lia|done]. exists i. split; [done|]. apply Hf; auto.
Qed.

Lemma iter_inside n l : Forall (fun i => i <= length w) l -> Forall (fun i => i <= length w) (Nat.iter n (then_ends f) l).
Proof. intros Hl. induction n; simpl; auto using then_ends_inside. Qed.

Lemma from_computes n i j : i <= length w -> j ∈ Nat.iter n (then_ends f) [i] <-> nsteps R n i j.
Proof.
  intros Hi. rewrite iter_computes by auto using Forall_singleton. split; [|set_solver].
  by intros (? & ->%list_elem_of_singleton & ?).
Qed.

Lemma then_star_computes l j : Forall (fun i => i <= length w) l ->
  j ∈ then_ends (star_ends f (length w)) l <-> exists k, k ∈ l /\ rtc R k j.
Proof.
  intros Hl. rewrite elem_of_then_ends. rewrite Forall_forall in Hl.
  split; intros (k & Hk & Hj); exists k; (split; [done|]); (apply star_computes in Hj || apply star_computes); auto; lia.
Qed.

Lemma repeat_computes n m i j : i <= length w -> n <= m ->
  j ∈ upto_ends f (m - n) (Nat.iter n (then_ends f) [i]) <-> exists k, n <= k <= m /\ nsteps R k i j.
Proof.
  intros Hi Hnm. rewrite upto_computes by auto using iter_inside. setoid_rewrite from_computes; [|done]. split.
  - intros (k & d & Hk & Hd & Hj). exists (n + d). split; [lia|]. by eapply nsteps_trans.
  - intros (k & Hk & Hj). replace k with (n + (k - n)) in Hj by lia.
    apply nsteps_add_inv in Hj as (x & Hx & Hj). exists x, (k - n). repeat split; [done|lia|done].
Qed.
End EndsSpec.

Lemma elem_of_if {A} (P : Prop) `{Decision P} (x y : A) : y ∈ (if decide P then [x] else []) <-> y = x /\ P.
Proof. case_decide; set_solver. Qed.

Lemma computes_inside w f R i : forward w R -> computes w f R -> i <= length w -> Forall (fun i => i <= length w) (f i).
Proof. intros HR Hf Hi. apply Forall_forall. intros j Hj%Hf; [|done]. by eapply forward_inside. Qed.

Lemma ends_computes w e : computes w (ends w e) (denotes w e).
Proof.
  induction e as [|k| | | | |a IHa b IHb|a IHa b IHb|a IHa|a IHa|a IHa|n [m|] a IHa]; intros i j Hi; simpl;
    try pose proof (denotes_forward w a) as Ha.
  - set_solver.
  - destruct (w !! i) as [c|] eqn:Hc; [|split; [set_solver|by intros (_ & ? & ? & _)]].
    destruct (in_class k c) eqn:Hk; split; [intros ->%list_elem_of_singleton; eauto|intros [-> _]; set_solver|set_solver|].
    intros (_ & c' & [= <-] & Hk'). congruence.
  - apply elem_of_if.
  - apply elem_of_if.
  - destruct (boundary w i); set_solver.
  - destruct (boundary w i); set_solver.
  - rewrite elem_of_then_ends. split; intros (k & Hk & Hj); exists k.
    + apply IHa in Hk; [|done]. split; [done|]. apply IHb in Hj; [done|]. by eapply forward_inside.
    + split; [by apply IHa|]. apply IHb; [by eapply forward_inside|done].
  - rewrite elem_of_remove_dups, elem_of_app, (IHa i j Hi), (IHb i j Hi). done.
  - by apply (star_computes w _ Ha); [..|lia].
  - rewrite then_star_computes by eauto using computes_inside. by setoid_rewrite (fun k => IHa i k Hi).
  - rewrite elem_of_cons, (IHa i j Hi). done.
  - destruct (Nat.ltb_spec m n) as [Hmn|Hmn]; [split; [set_solver|intros (k & ? & _); lia]|].
    by apply (repeat_computes w _ Ha _ IHa).
  - rewrite then_star_computes by eauto using iter_inside, Forall_singleton.
    by setoid_rewrite (fun k => from_computes w _ Ha _ IHa n i k Hi).
Qed.

(** There is a match somewhere in the text. *)
Lemma match_string_spec e s :
  MatchString e s = true <-> exists i j, i <= length (runes_of s) /\ denotes (runes_of s) e i j.
Proof.
  unfold MatchString. rewrite existsb_exists. setoid_rewrite in_seq. split.
  - intros (i & Hi & Hm). destruct (ends _ e i) as [|j l] eqn:He; [done|].
    exists i, j. split; [lia|]. apply ends_computes; [lia|]. rewrite He. left.
  - intros (i & j & Hi & Hj). exists i. split; [lia|]. apply ends_computes in Hj; [|done].
    destruct (ends _ e i); [set_solver|done].
Qed.

(** ** The fuel is enough *)

Section Fuel.
#[local] Abbreviation len := String.length.
#[local] Arguments octals : simpl never.
#[local] Arguments scan_int : simpl never.

Lemma strip_Some c s t : strip c s = Some t <-> s = String c t.
Proof.
  destruct s as [|d s]; simpl; [done|]. destruct (Ascii.eqb_spec d c) as [->|Hd]; [naive_solver|].
  split; [done|]. intros [= ? _]. done.
Qed.

Lemma bind_read {A B} (m : reading A) (f : A -> reading B) b : (m ≫= f) = Read b -> exists a, m = Read a /\ f a = Read b.
Proof. destruct m; [eauto|done..]. Qed.

Lemma hex_braced_rest any n s m r : hex_braced any n s = Read (m, r) -> len r < len s.
Proof.
  revert any n. induction s as [|c s IH]; intros any n; [done|]; simpl.
  destruct (_ =? _)%char; [destruct any; intros [= <- <-]; lia|].
  destruct (hex_value c); [|done]. destruct (_ <? _)%N; [done|]. intros ?%IH. lia.
Qed.
Lemma octals_rest k n s m r : octals k n s = (m, r) -> len r <= len s.
Proof.
  revert n s. induction k as [|k IH]; intros n [|c s]; unfold octals; fold octals;
    try (intros [= <- <-]; lia).
  destruct (octal c); [intros ?%IH; simpl; lia|intros [= <- <-]; lia].
Qed.
Lemma scan_int_rest n s m r : scan_int n s = (m, r) -> len r <= len s.
Proof.
  revert n. induction s as [|c s IH]; intros n; unfold scan_int; fold scan_int; [intros [= <- <-]; lia|].
  destruct (is_digit c); [intros ?%IH; simpl; lia|intros [= <- <-]; lia].
Qed.

Lemma parse_escape_rest s n r : parse_escape s = Read (n, r) -> len r < len s.
Proof.
  destruct s as [|c s]; [done|]; simpl. destruct (octal c).
  - destruct (_ =? _)%char; [intros [= ?%octals_rest]; lia|].
    destruct s as [|d s]; [done|]. destruct (octal d); [intros [= ?%octals_rest]; lia|done].
  - destruct (c =? "x")%char.
    + destruct (strip "{" s) as [t|] eqn:Ht.
      * apply strip_Some in Ht as ->. intros ?%hex_braced_rest. simpl. lia.
      * destruct s as [|a [|b t]]; [done..|]. destruct (hex_value a), (hex_value b); try done.
        intros [= <- <-]. simpl. lia.
    + repeat (destruct (_ =? _)%char; [intros [= <- <-]; lia|]).
      destruct (alphanumeric c); [done|]. intros [= <- <-]. lia.
Qed.

Lemma class_char_rest s n r : class_char s = Read (n, r) -> len r < len s.
Proof.
  destruct s as [|c s]; [done|]; simpl. destruct (_ =? _)%char; [intros ?%parse_escape_rest; lia|].
  intros [= <- <-]. lia.
Qed.

Lemma class_range_rest s k r : class_range s = Read (k, r) -> len r < len s.
Proof.
  unfold class_range. intros ([lo t] & Hc%class_char_rest & H)%bind_read.
  destruct (strip "-" t) as [[|c t']|] eqn:Ht; try (injection H as <- <-; lia).
  destruct (_ =? _)%char; [injection H as <- <-; lia|].
  apply bind_read in H as ([hi t''] & Hc'%class_char_rest & H). apply strip_Some in Ht as ->.
  destruct (_ <? _)%N; [done|]. injection H as <- <-. simpl in *. lia.
Qed.

Lemma class_item_rest s k r : class_item s = Read (k, r) -> len r < len s.
Proof.
  unfold class_item. destruct (strip "[" s ≫= strip ":"); [done|].
  destruct (strip "\" s) as [[|c t]|] eqn:Ht; [apply class_range_rest| |apply class_range_rest].
  apply strip_Some in Ht as ->. destruct (perl_class c); [intros [= <- <-]; simpl; lia|].
  destruct (_ || _); [done|apply class_range_rest].
Qed.

Lemma class_items_rest fuel first acc s k r : class_items fuel first acc s = Read (k, r) -> len r < len s.
Proof.
  revert first acc s. induction fuel as [|fuel IH]; intros first acc [|c s]; [done..|]; simpl.
  destruct (_ && _); [intros [= <- <-]; lia|].
  intros ([rs t] & Hi%class_item_rest & ?%IH)%bind_read. simpl in *. lia.
Qed.
(** More fuel than the text has characters changes nothing. *)
Lemma class_items_fuel fuel fuel' first acc s : len s < fuel -> len s < fuel' ->
  class_items fuel first acc s = class_items fuel' first acc s.
Proof.
  revert fuel' first acc s. induction fuel as [|fuel IH]; intros [|fuel'] first acc [|c s] H H'; try (simpl in *; lia); [done|].
  cbn [class_items]. destruct (_ && _); [done|].
  destruct (class_item (String c s)) as [[rs t]| |] eqn:Hi; [|done..]. apply class_item_rest in Hi.
  cbn [mbind reading_bind]. simpl in *. apply IH; lia.
Qed.

Lemma parse_class_rest s k r : parse_class s = Read (k, r) -> len r < len s.
Proof.
  unfold parse_class. destruct (strip "^" s) as [t|] eqn:Ht.
  - apply strip_Some in Ht as ->. intros ([rs t'] & Hc%class_items_rest & H)%bind_read. injection H as <- <-. simpl. lia.
  - intros ([rs t'] & Hc%class_items_rest & H)%bind_read. injection H as <- <-. lia.
Qed.

Lemma parse_int_rest s n r : parse_int s = Some (n, r) -> len r <= len s.
Proof.
  destruct s as [|c s]; [done|]. unfold parse_int. destruct (is_digit c); [|done].
  destruct s as [|d s]; [|destruct (_ && _); [done|]]; intros [= ?%scan_int_rest]; done.
Qed.

Lemma parse_bounds_rest s min max r : parse_bounds s = Some (min, max, r) -> len r < len s.
Proof.
  unfold parse_bounds. destruct (parse_int s) as [[n t]|] eqn:Hn; [|done]. apply parse_int_rest in Hn. cbn.
  destruct (strip "}" t) as [t'|] eqn:Ht; [apply strip_Some in Ht as ->; intros [= <- <- <-]; simpl in *; lia|].
  destruct (strip "," t) as [t'|] eqn:Hc; [|done]. apply strip_Some in Hc as ->. simpl in Hn.
  destruct (strip "}" t') as [t''|] eqn:Hb; [apply strip_Some in Hb as ->; intros [= <- <- <-]; simpl in *; lia|].
  destruct (parse_int t') as [[m t'']|] eqn:Hm; [|done]. apply parse_int_rest in Hm. cbn.
  destruct (strip "}" t'') as [t3|] eqn:H3; [|done]. apply strip_Some in H3 as ->. intros [= <- <- <-]. simpl in *. lia.
Qed.

Lemma repetition_rest op p rest p' : repetition op p rest = Read p' -> len (p_rest p') <= len rest.
Proof.
  unfold repetition. destruct (p_repeated p); [done|]. destruct (f_last _); [|done].
  destruct (repeat_is_valid _ _); [|done]. intros [= <-]. simpl.
  destruct (strip "?" rest) as [t|] eqn:Ht; [apply strip_Some in Ht as ->; simpl; lia|done].
Qed.

Lemma item_rest e p rest p' : item e p rest = Read p' -> p_rest p' = rest.
Proof. by intros [= <-]. Qed.
Lemma opened_rest p rest p' : opened p rest = Read p' -> p_rest p' = rest.
Proof. by intros [= <-]. Qed.

Lemma escape_rest p s p' : escape p s = Read p' -> len (p_rest p') < len s.
Proof.
  destruct s as [|c s]; [done|]. unfold escape.
  repeat (destruct (_ =? _)%char; [intros ->%item_rest; simpl; lia|]).
  destruct (_ || _); [done|]. destruct (perl_class c); [intros ->%item_rest; simpl; lia|].
  by intros ([r t] & Hr%parse_escape_rest & ->%item_rest)%bind_read.
Qed.

(** Each step reads something. *)
Lemma step_rest p p' : step p = Read p' -> p_rest p <> "" -> len (p_rest p') < len (p_rest p).
Proof.
  destruct p as [f fs b [|c t]]; [done|]. unfold step. cbn [p_rest String.length]. intros H _.
  destruct (_ =? _)%char.
  { destruct (strip "?" t) as [t'|] eqn:Ht.
    - apply strip_Some in Ht as ->. destruct (strip ":" t') as [t''|] eqn:Ht'; [|done].
      apply strip_Some in Ht' as ->. apply opened_rest in H as ->. simpl. lia.
    - apply opened_rest in H as ->. lia. }
  destruct (_ =? _)%char; [injection H as <-; simpl; lia|].
  destruct (_ =? _)%char; [destruct fs; [done|injection H as <-; simpl; lia]|].
  do 3 (destruct (_ =? _)%char; [apply item_rest in H as ->; lia|]).
  destruct (_ =? _)%char; [apply bind_read in H as ([k t'] & Hk%parse_class_rest & ->%item_rest); lia|].
  do 3 (destruct (_ =? _)%char; [apply repetition_rest in H; lia|]).
  destruct (_ =? _)%char.
  { destruct (parse_bounds t) as [[[min max] t']|] eqn:Hb; [|apply item_rest in H as ->; lia].
    apply parse_bounds_rest in Hb. destruct (_ && _); [|done]. apply repetition_rest in H. lia. }
  destruct (_ =? _)%char; [apply escape_rest in H; lia|]. apply item_rest in H as ->. lia.
Qed.

Lemma parse_nil fuel p : p_rest p = "" -> parse fuel p = match p_outer p with [] => Read (closed (p_top p)) | _ => Invalid end.
Proof. intros H. destruct fuel; simpl; by rewrite H. Qed.
Lemma parse_cons fuel p : p_rest p <> "" -> parse (S fuel) p = p' ← step p; parse fuel p'.
Proof. intros H. simpl. by destruct (p_rest p). Qed.

Lemma len_pos s : s <> "" -> 0 < len s.
Proof. destruct s; [done|simpl; lia]. Qed.

(** More fuel than the length of the text changes nothing. *)
Lemma parse_fuel fuel fuel' p : len (p_rest p) <= fuel -> len (p_rest p) <= fuel' -> parse fuel p = parse fuel' p.
Proof.
  revert fuel' p. induction fuel as [|fuel IH]; intros fuel' p H H'.
  all: destruct (decide (p_rest p = "")) as [Hr|Hr]; [by rewrite !parse_nil|].
  { apply len_pos in Hr. lia. }
  destruct fuel' as [|fuel']; [apply len_pos in Hr; lia|]. rewrite !parse_cons by done.
  destruct (step p) as [p'| |] eqn:Hp; [|done..]. apply step_rest in Hp; [|done].
  cbn [mbind reading_bind]. apply IH; lia.
Qed.

(** What is left to parse after a step, or several, gives the result. *)
Definition steps : parser -> parser -> Prop := rtc (fun p p' => p_rest p <> "" /\ step p = Read p').
Lemma parse_steps p p' : steps p p' -> parse (len (p_rest p)) p = parse (len (p_rest p')) p'.
Proof.
  induction 1 as [|p p' p'' [Hr Hp] _ IH]; [done|]. rewrite <- IH.
  pose proof (step_rest _ _ Hp Hr). destruct (len (p_rest p)) as [|n] eqn:Hn; [lia|].
  rewrite parse_cons, Hp by done. cbn [mbind reading_bind]. apply parse_fuel; lia.
Qed.
End Fuel.

(** ** Writing an expression *)

Definition print_rune (n : N) : string :=
  let digit d := String (Net.hex_digit (Z.of_N (d mod 16))) "" in
  "\x{" +:+ digit (n / 1048576)%N +:+ digit (n / 65536)%N +:+ digit (n / 4096)%N +:+ digit (n / 256)%N +:+
  digit (n / 16)%N +:+ digit n +:+ "}".
Definition print_range (r : N * N) : string := print_rune r.1 +:+ "-" +:+ print_rune r.2.
Fixpoint print_ranges (rs : list (N * N)) : string :=
  match rs with [] => "]" | r :: rs' => print_range r +:+ print_ranges rs' end.
Definition print_class (k : class) : string :=
  let 'Class negated rs := k in "[" +:+ (if negated then "^" else "") +:+ print_ranges rs.

Fixpoint print (e : regex) : string :=
  let group e := "(?:" +:+ print e +:+ ")" in
  match e with
  | REmpty => ""
  | RClass k => print_class k
  | RBeginText => "^"
  | REndText => "$"
  | RWordBoundary => "\b"
  | RNoWordBoundary => "\B"
  | RConcat a b => group a +:+ group b
  | RAlternate a b => group a +:+ "|" +:+ group b
  | RStar a => group a +:+ "*"
  | RPlus a => group a +:+ "+"
  | RQuest a => group a +:+ "?"
  | RRepeat n None a => group a +:+ "{" +:+ pretty (N.of_nat n) +:+ ",}"
  | RRepeat n (Some m) a => group a +:+ "{" +:+ pretty (N.of_nat n) +:+ "," +:+ pretty (N.of_nat m) +:+ "}"
  end.

(** What can be written: classes of characters that are not empty, and
    bounds the package accepts. *)
Definition range_ok (r : N * N) : bool := ((r.1 <=? r.2) && (r.2 <=? max_rune))%N.
Fixpoint writable (e : regex) : bool :=
  match e with
  | RClass (Class _ rs) => match rs with [] => false | _ => forallb range_ok rs end
  | RConcat a b | RAlternate a b => writable a && writable b
  | RStar a | RPlus a | RQuest a => writable a && repeat_is_valid a 1000
  | RRepeat n None a => writable a && (n <=? 1000) && repeat_is_valid e 1000
  | RRepeat n (Some m) a => writable a && (n <=? m) && (m <=? 1000) && repeat_is_valid e 1000
  | _ => true
  end.

Section RoundTrip.
Lemma hex_value_digit d : (d < 16)%N -> hex_value (Net.hex_digit (Z.of_N d)) = Some (Z.of_N d).
Proof.
  intros Hd. assert (d ∈ [0; 1; 2; 3; 4; 5; 6; 7; 8; 9; 10; 11; 12; 13; 14; 15]%N) as Hin by (rewrite !elem_of_cons; lia).
  repeat (apply elem_of_cons in Hin as [->|Hin]; [reflexivity|]). by apply elem_of_nil in Hin.
Qed.

Lemma hex_braced_digit any n s : (n <= max_rune)%N ->
  hex_braced any (n / 16) (String (Net.hex_digit (Z.of_N (n mod 16))) s) = hex_braced true n s.
Proof.
  intros Hn. assert (Hd : (n mod 16 < 16)%N) by (by apply N.mod_lt).
  cbn [hex_braced]. rewrite hex_value_digit, N2Z.id by done.
  assert ((Net.hex_digit (Z.of_N (n mod 16)) =? "}")%char = false) as ->.
  { destruct (Ascii.eqb_spec (Net.hex_digit (Z.of_N (n mod 16))) "}"%char) as [He|]; [|done].
    pose proof (hex_value_digit _ Hd) as H. by rewrite He in H. }
  replace (n / 16 * 16 + n mod 16)%N with n by (pose proof (N.div_mod n 16 ltac:(done)); lia).
  by rewrite (proj2 (N.ltb_ge _ _) Hn).
Qed.

Lemma parse_rune n s : (n <= max_rune)%N -> class_char (print_rune n +:+ s) = Read (n, s).
Proof.
  intros Hn. unfold print_rune. rewrite !sapp_assoc, !sapp_cons, !sapp_nil_l.
  replace (n / 256)%N with (n / 16 / 16)%N by (by rewrite N.Div0.div_div).
  replace (n / 4096)%N with (n / 16 / 16 / 16)%N by (by rewrite !N.Div0.div_div).
  replace (n / 65536)%N with (n / 16 / 16 / 16 / 16)%N by (by rewrite !N.Div0.div_div).
  replace (n / 1048576)%N with (n / 16 / 16 / 16 / 16 / 16)%N by (by rewrite !N.Div0.div_div).
  assert (Hle : forall x, (x <= max_rune -> x / 16 <= max_rune)%N).
  { intros x Hx. etrans; [|exact Hx]. apply N.Div0.div_le_upper_bound. lia. }
  set (digit x := Net.hex_digit (Z.of_N (x mod 16))).
  change (hex_braced false 0 (String (digit (n / 16 / 16 / 16 / 16 / 16)%N) (String (digit (n / 16 / 16 / 16 / 16)%N)
    (String (digit (n / 16 / 16 / 16)%N) (String (digit (n / 16 / 16)%N) (String (digit (n / 16)%N)
    (String (digit n) (String "}" s))))))) = Read (n, s)).
  assert (0 = n / 16 / 16 / 16 / 16 / 16 / 16)%N as ->.
  { rewrite !N.Div0.div_div. symmetry. apply N.div_small. unfold max_rune in Hn. simpl. lia. }
  unfold digit. rewrite !hex_braced_digit by auto 10. cbn [hex_braced]. by rewrite Ascii.eqb_refl.
Qed.

Lemma print_rune_head n : exists t, print_rune n = String "\" (String "x" t).
Proof. unfold print_rune. by eexists. Qed.

Lemma parse_range r s : range_ok r = true -> class_item (print_range r +:+ s) = Read ([r], s).
Proof.
  destruct r as [lo hi]. unfold range_ok. cbn [fst snd]. intros [Hle%N.leb_le Hmax%N.leb_le]%andb_true_iff.
  assert (class_range (print_range (lo, hi) +:+ s) = Read ([(lo, hi)], s)) as Hr.
  { unfold class_range, print_range. cbn [fst snd]. rewrite !sapp_assoc, parse_rune by lia. cbn [mbind reading_bind].
    rewrite sapp_cons, sapp_nil_l. cbn [strip]. rewrite Ascii.eqb_refl.
    pose proof (parse_rune hi s Hmax) as Hhi. destruct (print_rune_head hi) as [t Ht]. rewrite Ht, !sapp_cons in Hhi |- *.
    replace ("\" =? "]")%char with false by reflexivity. rewrite Hhi. cbn [mbind reading_bind].
    by rewrite (proj2 (N.ltb_ge _ _) Hle). }
  rewrite <- Hr. unfold print_range. cbn [fst snd]. destruct (print_rune_head lo) as [t ->]. reflexivity.
Qed.

Lemma parse_ranges rs fuel first acc s : forallb range_ok rs = true -> first = false \/ rs <> [] ->
  String.length (print_ranges rs +:+ s) < fuel -> class_items fuel first acc (print_ranges rs +:+ s) = Read (acc ++ rs, s).
Proof.
  revert fuel first acc. induction rs as [|r rs IH]; intros [|fuel] first acc Hok Hfirst Hfuel; try lia.
  - destruct Hfirst as [->|]; [|done]. cbn. by rewrite app_nil_r.
  - cbn [forallb] in Hok. apply andb_true_iff in Hok as [Hr Hok]. cbn [print_ranges] in *.
    rewrite sapp_assoc in *. pose proof (parse_range r (print_ranges rs +:+ s) Hr) as Hi.
    pose proof (class_item_rest _ _ _ Hi).
    assert (exists t, print_range r +:+ print_ranges rs +:+ s = String "\" t) as [t Ht].
    { unfold print_range. destruct (print_rune_head r.1) as [t ->]. by eexists. }
    cbn [class_items]. rewrite Ht in Hi |- *. replace ("\" =? "]")%char with false by reflexivity. cbn [andb].
    rewrite Hi. cbn [mbind reading_bind]. rewrite IH by (auto; lia). by rewrite <- app_assoc.
Qed.

Lemma parse_print_class k s : writable (RClass k) = true ->
  exists t, print_class k +:+ s = String "[" t /\ parse_class t = Read (k, s).
Proof.
  destruct k as [negated rs]. intros Hw. assert (Hrs : forallb range_ok rs = true /\ rs <> []) by (destruct rs; done).
  destruct Hrs as [Hok Hne]. unfold print_class. rewrite !sapp_assoc, sapp_cons, sapp_nil_l. eexists. split; [done|].
  unfold parse_class. destruct negated.
  - rewrite sapp_cons, sapp_nil_l. cbn [strip]. rewrite Ascii.eqb_refl. rewrite parse_ranges by (auto; lia). done.
  - rewrite sapp_nil_l. assert (strip "^" (print_ranges rs +:+ s) = None) as ->.
    { destruct rs as [|r rs]; [done|]. cbn [print_ranges]. unfold print_range.
      destruct (print_rune_head r.1) as [t ->]. reflexivity. }
    rewrite parse_ranges by (auto; lia). done.
Qed.

(** Numbers have no leading zero. *)
Lemma no_leading_zero n : (n <= 1000)%N -> forall c t, pretty n = String c t -> c = "0"%char -> t = "".
Proof.
  intros Hn c t Hp ->.
  assert (Hall : forallb (fun k => match pretty (N.of_nat k) with
    | String "0" (String _ _) => false | _ => true end) (seq 0 1001) = true) by by vm_compute.
  rewrite forallb_forall in Hall. specialize (Hall (N.to_nat n)). rewrite N2Nat.id, Hp in Hall.
  destruct t; [done|]. discriminate Hall. apply in_seq. lia.
Qed.

Lemma is_digit_value c : is_digit c = bool_decide (is_Some (digit_value c)).
Proof. destruct c as [[] [] [] [] [] [] [] []]; reflexivity. Qed.

Lemma digit_value_code c v : digit_value c = Some v -> is_digit c = true /\ (code c - 48)%N = Z.to_N v /\ (0 <= v < 10)%Z.
Proof.
  intros Hv. split; [rewrite is_digit_value, Hv; by apply bool_decide_eq_true|].
  unfold digit_value, char_code, code in *. destruct (Z.leb_spec 48 (Z.of_N (N_of_ascii c))); [|done].
  simpl in Hv. destruct (Z.leb_spec (Z.of_N (N_of_ascii c)) 57); [|done]. injection Hv as <-. lia.
Qed.

Lemma scan_int_decimal n s : (n <= 1000)%N -> NetFacts.no_digit_head s -> scan_int 0 (pretty n +:+ s) = (n, s).
Proof.
  intros Hn Hs.
  assert (Hstep : forall c t v z, digit_value c = Some v -> (0 <= z * 10 + v < 10000)%Z ->
    scan_int (Z.to_N z) (String c t) = scan_int (Z.to_N (z * 10 + v)) t).
  { intros c t v z (Hd & Hc & Hv)%digit_value_code Hz. cbn [scan_int]. rewrite Hd, Hc. f_equal. lia. }
  change 0%N with (Z.to_N 0).
  rewrite (StrconvFacts.read_pretty (fun s z => scan_int (Z.to_N z) s) 10000 Hstep n s), N2Z.id by lia.
  destruct s as [|c s]; [done|]. cbn in Hs |- *. by rewrite is_digit_value, Hs.
Qed.

Lemma parse_int_pretty n s : (n <= 1000)%N -> NetFacts.no_digit_head s -> parse_int (pretty n +:+ s) = Some (n, s).
Proof.
  intros Hn Hs. rewrite <- (scan_int_decimal n s Hn Hs).
  destruct (StrconvFacts.pretty_digits n) as (c & t & Hp & Hc & Ht). pose proof (no_leading_zero n Hn c t Hp) as Hz.
  rewrite Hp, sapp_cons. unfold parse_int. rewrite is_digit_value, bool_decide_true by done.
  destruct (t +:+ s) as [|d r] eqn:Hts; [done|].
  destruct (Ascii.eqb_spec c "0"%char) as [Hc0|]; [|done]. rewrite (Hz Hc0), sapp_nil_l in Hts. subst s.
  cbn in Hs. by rewrite is_digit_value, Hs.
Qed.

Lemma parse_bounds_none n s : n <= 1000 ->
  parse_bounds (pretty (N.of_nat n) +:+ ",}" +:+ s) = Some (N.of_nat n, None, s).
Proof. intros Hn. unfold parse_bounds. rewrite parse_int_pretty by (done || lia). reflexivity. Qed.

Lemma parse_bounds_some n m s : n <= 1000 -> m <= 1000 ->
  parse_bounds (pretty (N.of_nat n) +:+ "," +:+ pretty (N.of_nat m) +:+ "}" +:+ s) = Some (N.of_nat n, Some (N.of_nat m), s).
Proof.
  intros Hn Hm. unfold parse_bounds. rewrite parse_int_pretty by (done || lia). cbn [mbind option_bind strip sapp_cons].
  rewrite sapp_cons, sapp_nil_l. cbn [strip]. rewrite Ascii.eqb_refl. replace ("," =? "}")%char with false by reflexivity.
  assert (strip "}" (pretty (N.of_nat m) +:+ "}" +:+ s) = None) as ->.
  { destruct (StrconvFacts.pretty_digits (N.of_nat m)) as (c & t & -> & Hc & _). rewrite sapp_cons. cbn [strip].
    destruct (Ascii.eqb_spec c "}"%char) as [->|]; [by destruct Hc|done]. }
  rewrite parse_int_pretty by (done || lia). reflexivity.
Qed.

(** ** Reading back what was written *)

Lemma steps_one p p' : p_rest p <> "" -> step p = Read p' -> steps p p'.
Proof. intros H1 H2. by apply rtc_once. Qed.
Lemma steps_first p p' p'' : step p = Read p' -> p_rest p <> "" -> steps p' p'' -> steps p p''.
Proof. intros H1 H2 H3. eapply rtc_l; [by split|done]. Qed.

Lemma closed_push e : closed (push e empty_frame) = e.
Proof. reflexivity. Qed.

(** What follows an expression is no question mark. *)
Definition reads (e : regex) : Prop := forall fs s, strip "?" s = None ->
  exists g b, steps (Parser empty_frame fs false (print e +:+ s)) (Parser g fs b s) /\ closed g = e.

Lemma reads_group e f fs b s : reads e ->
  steps (Parser f fs b (("(?:" +:+ print e +:+ ")") +:+ s)) (Parser (push e f) fs false s).
Proof.
  intros He. destruct (He (f :: fs) (")" +:+ s) eq_refl) as (g & b' & Hs & Hg).
  rewrite !sapp_assoc. apply (steps_first _ (Parser empty_frame (f :: fs) false (print e +:+ ")" +:+ s))); [done..|].
  etrans; [exact Hs|]. apply steps_one; [done|].
  change (Read (Parser (push (closed g) f) fs false s) = Read (Parser (push e f) fs false s)). by rewrite Hg.
Qed.

Lemma reads_repetition (op : regex -> regex) t a fs s : reads a -> repeat_is_valid (op a) 1000 = true ->
  strip "?" s = None -> t <> "" ->
  step (Parser (push a empty_frame) fs false (t +:+ s)) = repetition op (Parser (push a empty_frame) fs false (t +:+ s)) s ->
  exists g b, steps (Parser empty_frame fs false ((("(?:" +:+ print a +:+ ")") +:+ t) +:+ s)) (Parser g fs b s) /\ closed g = op a.
Proof.
  intros Ha Hv Hs Hne Hop. exists (Frame None None (Some (op a))), true. split; [|done].
  rewrite sapp_assoc. etrans; [by apply reads_group|]. apply steps_one; [by destruct t|].
  rewrite Hop. unfold repetition. cbn [p_repeated p_top f_last push f_alt f_cat p_outer empty_frame]. by rewrite Hv, Hs.
Qed.

Lemma reads_item e t fs s : t <> "" ->
  step (Parser empty_frame fs false (t +:+ s)) = item e (Parser empty_frame fs false (t +:+ s)) s ->
  exists g b, steps (Parser empty_frame fs false (t +:+ s)) (Parser g fs b s) /\ closed g = e.
Proof. intros Hne Hi. exists (push e empty_frame), false. split; [|done]. apply steps_one; [by destruct t|done]. Qed.

Lemma step_bounds p t (min : nat) (max : option nat) s :
  p_rest p = String "{" t -> parse_bounds t = Some (N.of_nat min, N.of_nat <$> max, s) -> min <= 1000 ->
  (forall m, max = Some m -> min <= m <= 1000) -> step p = repetition (RRepeat min max) p s.
Proof.
  intros Hp Hb Hmin Hmax. unfold step. rewrite Hp.
  change (match parse_bounds t with
  | None => item (RClass (single (code "{"))) p t
  | Some (min, max, t') =>
      if ((min <=? 1000) && match max with Some m => (m <=? 1000) && (min <=? m) | None => true end)%N
      then repetition (RRepeat (N.to_nat min) (option_map N.to_nat max)) p t' else Invalid
  end = repetition (RRepeat min max) p s).
  rewrite Hb, Nat2N.id. rewrite (proj2 (N.leb_le _ _)) by lia.
  destruct max as [m|]; cbn [fmap option_fmap option_map andb]; [|done]. specialize (Hmax m eq_refl).
  by rewrite !(proj2 (N.leb_le _ _)), Nat2N.id by lia.
Qed.

Lemma writable_reads e : writable e = true -> reads e.
Proof.
  induction e as [|k| | | | |a IHa b IHb|a IHa b IHb|a IHa|a IHa|a IHa|n [m|] a IHa]; intros Hw fs s Hs.
  - exists empty_frame, false. done.
  - destruct (parse_print_class k s Hw) as (t & Ht & Hk).
    apply reads_item; [by destruct k|]. change (print (RClass k)) with (print_class k). rewrite Ht.
    change (step (Parser empty_frame fs false (String "[" t)) ) with
      ('(k, t') ← parse_class t; item (RClass k) (Parser empty_frame fs false (String "[" t)) t'). by rewrite Hk.
  - by apply reads_item.
  - by apply reads_item.
  - by apply reads_item.
  - by apply reads_item.
  - simpl in Hw. apply andb_true_iff in Hw as [Ha%IHa Hb%IHb]. exists (push b (push a empty_frame)), false. split; [|done].
    cbn [print]. rewrite (sapp_assoc ("(?:" +:+ print a +:+ ")")). etrans; by apply reads_group.
  - simpl in Hw. apply andb_true_iff in Hw as [Ha%IHa Hb%IHb]. exists (push b (alternative (push a empty_frame))), false. split; [|done].
    cbn [print]. rewrite (sapp_assoc ("(?:" +:+ print a +:+ ")")). etrans; [by apply reads_group|].
    rewrite sapp_assoc, sapp_cons, sapp_nil_l.
    eapply steps_first; [reflexivity|done|]. by apply reads_group.
  - simpl in Hw. apply andb_true_iff in Hw as [Ha%IHa Hv]. by apply reads_repetition.
  - simpl in Hw. apply andb_true_iff in Hw as [Ha%IHa Hv]. by apply reads_repetition.
  - simpl in Hw. apply andb_true_iff in Hw as [Ha%IHa Hv]. by apply reads_repetition.
  - cbn [writable] in Hw. apply andb_true_iff in Hw as [[[Ha%IHa Hnm%Nat.leb_le]%andb_true_iff Hm%Nat.leb_le]%andb_true_iff Hv].
    apply reads_repetition; [done..|]. apply step_bounds with (1 := eq_refl); [|lia|intros ? [= <-]; lia].
    etrans; [|apply (parse_bounds_some n m s); lia]. f_equal. etrans; [apply sapp_assoc|].
    f_equal. apply (f_equal (String ",")), sapp_assoc.
  - cbn [writable] in Hw. apply andb_true_iff in Hw as [[Ha%IHa Hn%Nat.leb_le]%andb_true_iff Hv].
    apply reads_repetition; [done..|]. apply step_bounds with (1 := eq_refl); [|lia|done].
    etrans; [|by apply (parse_bounds_none n s)]. f_equal. apply sapp_assoc.
Qed.

Lemma parse_written e : writable e = true -> parse (String.length (print e)) (initial (print e)) = Read e.
Proof.
  intros Hw. destruct (writable_reads e Hw [] "" eq_refl) as (g & b & Hs & Hg). rewrite sapp_nil_r in Hs.
  etrans; [exact (parse_steps _ _ Hs)|]. cbn [p_rest parse p_outer p_top String.length]. by rewrite Hg.
Qed.
End RoundTrip.

(** ** What is written is ASCII *)

Section Ascii.
Lemma is_ascii_app s t : is_ascii (s +:+ t) = is_ascii s && is_ascii t.
Proof. induction s as [|c s IH]; [done|]. rewrite sapp_cons. cbn [is_ascii]. by rewrite IH, andb_assoc. Qed.

Lemma is_ascii_hex d : is_ascii (String (Net.hex_digit (Z.of_N (d mod 16))) "") = true.
Proof.
  assert (Hd : (d mod 16 < 16)%N) by (by apply N.mod_lt). revert Hd. generalize (d mod 16)%N as x. intros x Hx.
  assert (x ∈ [0; 1; 2; 3; 4; 5; 6; 7; 8; 9; 10; 11; 12; 13; 14; 15]%N) as Hin by (rewrite !elem_of_cons; lia).
  repeat (apply elem_of_cons in Hin as [->|Hin]; [reflexivity|]). by apply elem_of_nil in Hin.
Qed.

Lemma is_ascii_digits s : StrconvFacts.all_digits s -> is_ascii s = true.
Proof.
  induction s as [|c s IH]; [done|]. intros [[v Hv] Hs]. cbn [is_ascii]. rewrite IH, andb_true_r by done.
  destruct c as [[] [] [] [] [] [] [] []]; done.
Qed.
Lemma is_ascii_pretty (n : N) : is_ascii (pretty n) = true.
Proof. destruct (StrconvFacts.pretty_digits n) as (c & t & -> & H). by apply is_ascii_digits. Qed.

Lemma is_ascii_rune n : is_ascii (print_rune n) = true.
Proof. unfold print_rune. by rewrite !is_ascii_app, !is_ascii_hex. Qed.

Lemma is_ascii_class k : is_ascii (print_class k) = true.
Proof.
  destruct k as [negated rs]. unfold print_class. rewrite !is_ascii_app.
  assert (is_ascii (print_ranges rs) = true) as ->; [|by destruct negated].
  induction rs as [|r rs IH]; [done|]. cbn [print_ranges]. unfold print_range. by rewrite !is_ascii_app, !is_ascii_rune.
Qed.

Lemma is_ascii_print e : is_ascii (print e) = true.
Proof.
  induction e as [|k| | | | |a IHa b IHb|a IHa b IHb|a IHa|a IHa|a IHa|n [m|] a IHa]; cbn [print];
    rewrite ?is_ascii_app, ?IHa, ?IHb, ?is_ascii_pretty, ?is_ascii_class; reflexivity.
Qed.
End Ascii.

(** An expression that is written and read matches what it denotes. *)
Lemma compile_print elsewhere e : writable e = true -> String.length (print e) <= 500 ->
  Compile elsewhere (print e) = Some (MatchString e).
Proof.
  intros Hw Hl. unfold Compile, Parse. rewrite is_ascii_print, (proj2 (Nat.leb_le _ _) Hl). cbn [andb].
  by rewrite parse_written.
Qed.

(** ** Plain text *)

Section Plain.
Definition metacharacters : list ascii := ["("; "|"; ")"; "^"; "$"; "."; "["; "*"; "+"; "?"; "{"; "\"]%char.
Definition plain_char (c : ascii) : bool := (code c <? 128)%N && forallb (fun m => negb (c =? m)%char) metacharacters.
Fixpoint plain (t : string) : bool :=
  match t with EmptyString => true | String c t' => plain_char c && plain t' end.

(** A text, and whether it is bound to the begin and to the end. *)
Record pattern := Pattern { at_begin : bool; p_text : string; at_end : bool }.
Definition pattern_text (p : pattern) : string :=
  (if at_begin p then "^" else "") +:+ p_text p +:+ (if at_end p then "$" else "").
Definition occurs (p : pattern) (s : string) : Prop :=
  exists a b, s = a +:+ p_text p +:+ b /\ (at_begin p = true -> a = "") /\ (at_end p = true -> b = "").

Fixpoint pushes (t : string) (f : frame) : frame :=
  match t with EmptyString => f | String c t' => pushes t' (push (RClass (single (code c))) f) end.

Lemma step_plain c f fs t : plain_char c = true ->
  step (Parser f fs false (String c t)) = item (RClass (single (code c))) (Parser f fs false (String c t)) t.
Proof.
  unfold plain_char, metacharacters, step. cbn [p_rest forallb]. intros [_ H]%andb_true_iff.
  repeat (destruct (_ =? _)%char; [discriminate H|cbn [negb andb] in H]). done.
Qed.

Lemma steps_plain t f fs s : plain t = true -> steps (Parser f fs false (t +:+ s)) (Parser (pushes t f) fs false s).
Proof.
  revert f. induction t as [|c t IH]; intros f; [done|]. cbn [plain pushes]. intros [Hc Ht]%andb_true_iff.
  rewrite sapp_cons. eapply steps_first; [by apply step_plain|done|]. by apply IH.
Qed.

Definition pattern_frame (p : pattern) : frame :=
  let f := pushes (p_text p) (if at_begin p then push RBeginText empty_frame else empty_frame) in
  if at_end p then push REndText f else f.

Lemma parse_pattern p : plain (p_text p) = true ->
  parse (String.length (pattern_text p)) (initial (pattern_text p)) = Read (closed (pattern_frame p)).
Proof.
  destruct p as [b t e]. unfold pattern_text, pattern_frame. cbn [at_begin p_text at_end]. intros Ht.
  set (f := if b then push RBeginText empty_frame else empty_frame).
  assert (steps (initial ((if b then "^" else "") +:+ t +:+ (if e then "$" else "")))
    (Parser (if e then push REndText (pushes t f) else pushes t f) [] false "")) as Hs.
  { etrans; [|etrans; [apply (steps_plain t f [] (if e then "$" else "") Ht)|]].
    - destruct b; [by apply steps_one|done].
    - destruct e; [by apply steps_one|done]. }
  etrans; [exact (parse_steps _ _ Hs)|done].
Qed.

Lemma closed_branch f : f_alt f = None -> closed f = branch f.
Proof. intros H. unfold closed, alternative. cbn [f_alt]. by rewrite H. Qed.

Lemma pushes_alt t f : f_alt (pushes t f) = f_alt f.
Proof. revert f. induction t as [|c t IH]; intros f; [done|]. cbn [pushes]. by rewrite IH. Qed.

Lemma denotes_push w e f i j :
  denotes w (branch (push e f)) i j <-> exists k, denotes w (branch f) i k /\ denotes w e k j.
Proof.
  unfold branch, push. destruct f as [a [c|] [l|]]; simpl; [naive_solver..|].
  split; [|by intros (k & -> & ?)]. eauto.
Qed.

Fixpoint codes_of (t : string) : list N :=
  match t with EmptyString => [] | String c t' => code c :: codes_of t' end.

Lemma codes_of_app s t : codes_of (s +:+ t) = codes_of s ++ codes_of t.
Proof. induction s as [|c s IH]; [done|]. rewrite sapp_cons. simpl. by rewrite IH. Qed.

Lemma length_codes_of s : length (codes_of s) = String.length s.
Proof. induction s; simpl; by f_equal. Qed.

Lemma codes_of_split s l1 l2 : codes_of s = l1 ++ l2 -> exists a b, s = a +:+ b /\ codes_of a = l1 /\ codes_of b = l2.
Proof.
  revert l1. induction s as [|c s IH]; intros [|n l1] H; try done.
  - exists "", "". simpl in H. by subst.
  - exists "", (String c s). by subst.
  - injection H as Hc H. destruct (IH _ H) as (a & b & -> & <- & <-). exists (String c a), b. by subst.
Qed.

#[local] Instance codes_of_inj : Inj (=) (=) codes_of.
Proof.
  intros s. induction s as [|c s IH]; intros [|d t]; try done. intros [= Hc Ht]. f_equal; [|by apply IH].
  rewrite <- (ascii_N_embedding c), <- (ascii_N_embedding d). by f_equal.
Qed.

Lemma runes_of_ascii s : is_ascii s = true -> runes_of s = codes_of s.
Proof.
  unfold runes_of. induction s as [|c s IH]; [done|]. cbn [is_ascii]. intros [Hc Hs]%andb_true_iff.
  cbn [runes_from utf8_len codes_of]. rewrite Hc. cbn [codes decode_sequence Nat.pred]. by rewrite IH.
Qed.

Lemma in_single n c : in_class (single n) c = true <-> c = n.
Proof. unfold single. simpl. rewrite orb_false_r, andb_true_iff, !N.leb_le. lia. Qed.

Lemma denotes_pushes w t f i j : denotes w (branch (pushes t f)) i j <->
  exists k, denotes w (branch f) i k /\ exists rest, drop k w = codes_of t ++ rest /\ drop j w = rest /\ j = k + String.length t.
Proof.
  revert f. induction t as [|c t IH]; intros f; cbn [pushes codes_of String.length app].
  - split; [intros H; exists j; eauto 10|]. intros (k & H & rest & _ & _ & ->). by rewrite Nat.add_0_r.
  - rewrite IH. setoid_rewrite denotes_push. cbn [denotes]. setoid_rewrite in_single. split.
    + intros (k & (k' & Hk' & -> & n & Hn & ->) & rest & Hd & Hr & ->). exists k'. split; [done|]. exists rest.
      repeat split; [by rewrite (drop_S _ _ _ Hn), Hd|done|lia].
    + intros (k & Hk & rest & Hd & Hr & ->).
      assert (w !! k = Some (code c)) as Hc by (by rewrite <- (Nat.add_0_r k), <- lookup_drop, Hd).
      exists (S k). split; [exists k; eauto|]. exists rest. rewrite (drop_S _ _ _ Hc) in Hd. injection Hd as Hd.
      repeat split; [done|done|lia].
Qed.

Lemma denotes_pattern w p i j : denotes w (branch (pattern_frame p)) i j <->
  (at_begin p = true -> i = 0) /\ drop i w = codes_of (p_text p) ++ drop j w /\ j = i + String.length (p_text p) /\
  (at_end p = true -> j = length w).
Proof.
  destruct p as [b t e]. unfold pattern_frame. cbn [at_begin p_text at_end].
  set (f := if b then push RBeginText empty_frame else empty_frame).
  assert (Hf : forall k, denotes w (branch f) i k <-> k = i /\ (b = true -> i = 0)) by (intros k; destruct b; simpl; naive_solver).
  assert (Ht : denotes w (branch (pushes t f)) i j <->
    (b = true -> i = 0) /\ drop i w = codes_of t ++ drop j w /\ j = i + String.length t).
  { rewrite denotes_pushes. setoid_rewrite Hf. naive_solver. }
  destruct e; [|rewrite Ht; naive_solver].
  rewrite denotes_push. cbn [denotes]. split.
  - intros (k & Hk & -> & ->). rewrite Ht in Hk. naive_solver.
  - intros (H1 & H2 & H3 & H4). exists j. rewrite Ht. naive_solver.
Qed.

(** A pattern matches the texts it occurs in. *)
Lemma match_pattern p s : is_ascii s = true -> MatchString (closed (pattern_frame p)) s = true <-> occurs p s.
Proof.
  intros Hs. rewrite match_string_spec, runes_of_ascii by done.
  rewrite closed_branch by (destruct p as [[] t []]; cbn; by rewrite ?pushes_alt).
  setoid_rewrite denotes_pattern. unfold occurs. split.
  - intros (i & j & Hi & Hb & Hd & -> & He).
    pose proof (take_drop i (codes_of s)) as Hsplit. rewrite Hd in Hsplit. symmetry in Hsplit.
    apply codes_of_split in Hsplit as (a & r & -> & Ha & Hr). apply codes_of_split in Hr as (t & b & -> & ->%(inj codes_of) & Hb').
    exists a, b. repeat split.
    + intros ->%Hb. by destruct a.
    + intros He'%He. rewrite He', drop_all in Hb'. by destruct b.
  - intros (a & b & -> & Ha & Hb). exists (String.length a), (String.length a + String.length (p_text p)).
    rewrite !codes_of_app, !length_app, !length_codes_of. repeat split.
    + lia.
    + intros ->%Ha. done.
    + rewrite drop_app_length' by (by rewrite length_codes_of). f_equal.
      rewrite app_assoc, drop_app_length'; [done|]. by rewrite length_app, !length_codes_of.
    + intros ->%Hb. simpl. lia.
Qed.

(** [^t$] and the like, as [Compile] reads them. *)
Lemma compile_pattern elsewhere p : plain (p_text p) = true -> String.length (p_text p) <= 498 ->
  exists m, Compile elsewhere (pattern_text p) = Some m /\ forall s, is_ascii s = true -> m s = true <-> occurs p s.
Proof.
  intros Hp Hl. exists (MatchString (closed (pattern_frame p))). split; [|intros s; apply match_pattern].
  assert (Hascii : is_ascii (p_text p) = true).
  { clear Hl. induction (p_text p) as [|c t IH]; [done|]. cbn [plain is_ascii] in *.
    apply andb_true_iff in Hp as [[-> _]%andb_true_iff Ht]. by apply IH. }
  assert (is_ascii (pattern_text p) = true /\ String.length (pattern_text p) <= 500) as [Ha H500].
  { unfold pattern_text. rewrite !is_ascii_app, !NetFacts.length_sapp, Hascii.
    destruct (at_begin p), (at_end p); simpl; split; (done || lia). }
  unfold Compile, Parse. rewrite Ha, (proj2 (Nat.leb_le _ _) H500). cbn [andb]. by rewrite parse_pattern.
Qed.
End Plain.
End Regexp.
