(* ===== verification/GoUrl.v ===== *)
(** * [net/url]

    The scheme and the host [url.Parse] reads, for texts of letters, digits
    and the characters [.], [:], [/], [-] and [_].  Where the versions of Go
    differ (a colon in the first segment of a path, a port that is no number)
    and for other characters [Parse] asks its parameter. *)

From S2P Require Import Prelude GoStd GoJson.

Module Url.

Definition letter (c : ascii) : bool := within 65 90 c || within 97 122 c.
Definition digit (c : ascii) : bool := within 48 57 c.

Fixpoint all (p : ascii -> bool) (s : string) : bool :=
  match s with EmptyString => true | String c s' => p c && all p s' end.
Definition eqc (c d : ascii) : bool := (c =? d)%char.
Definition name_char (c : ascii) : bool := letter c || digit c || eqc c "." || eqc c "-" || eqc c "_".
Definition safe_char (c : ascii) : bool := name_char c || eqc c ":" || eqc c "/".

(** The text before the first [d], and from it on. *)
Fixpoint cut (d : ascii) (s : string) : string * string :=
  match s with
  | EmptyString => (EmptyString, EmptyString)
  | String c s' => if eqc c d then (EmptyString, s) else let '(a, b) := cut d s' in (String c a, b)
  end.

Inductive scheme := Scheme (s rest : string) | NoScheme | MissingScheme.

(** The loop of [getscheme], with what it has passed. *)
Fixpoint scan_scheme (seen s : string) : scheme :=
  match s with
  | EmptyString => NoScheme
  | String c s' =>
      if letter c then scan_scheme (seen +:+ String c "") s'
      else if digit c || eqc c "+" || eqc c "-" || eqc c "." then
        if decide (seen = "") then NoScheme else scan_scheme (seen +:+ String c "") s'
      else if eqc c ":" then if decide (seen = "") then MissingScheme else Scheme seen s'
      else NoScheme
  end.
Definition getscheme (s : string) : scheme := scan_scheme "" s.

(** A name or an IPv4 address, and a port. *)
Definition host_ok (h : string) : bool :=
  let '(name, port) := cut ":" h in
  all name_char name && match port with String _ p => all digit p | EmptyString => true end.

Section Parse.
Context (elsewhere : string -> res (string * string)).

(** [Scheme] and [Host]. *)
Definition Parse (s : string) : res (string * string) :=
  if all safe_char s then
    match getscheme s with
    | MissingScheme => elsewhere s
    | NoScheme =>
        match s with
        | String "/" (String "/" (String "/" _)) => Ok ("", "")
        | String "/" (String "/" rest) => let host := (cut "/" rest).1 in if host_ok host then Ok ("", host) else elsewhere s
        | String "/" _ => Ok ("", "")
        | _ => match (cut ":" (cut "/" s).1).2 with EmptyString => Ok ("", "") | _ => elsewhere s end
        end
    | Scheme scheme rest =>
        match rest with
        | String "/" (String "/" rest') =>
            let host := (cut "/" rest').1 in if host_ok host then Ok (Strings.ToLower scheme, host) else elsewhere s
        | _ => Ok (Strings.ToLower scheme, "")
        end
    end
  else elsewhere s.
End Parse.

(** ** Lemmas *)

Lemma all_app p s t : all p (s +:+ t) = all p s && all p t.
Proof. induction s as [|c s IH]; [done|]. rewrite sapp_cons. simpl. by rewrite IH, andb_assoc. Qed.
Lemma all_impl p q s : (forall c, p c = true -> q c = true) -> all p s = true -> all q s = true.
Proof. intros H. induction s as [|c s IH]; [done|]. simpl. intros [?%H ?%IH]%andb_true_iff. by apply andb_true_iff. Qed.

Lemma cut_app d s t : all (fun c => negb (eqc c d)) s = true -> cut d (s +:+ String d t) = (s, String d t).
Proof.
  induction s as [|c s IH]; simpl; [by unfold eqc; rewrite Ascii.eqb_refl|].
  intros [Hc%negb_true_iff Hs]%andb_true_iff. by rewrite Hc, (IH Hs).
Qed.
Lemma cut_none d s : all (fun c => negb (eqc c d)) s = true -> cut d s = (s, "").
Proof. induction s as [|c s IH]; simpl; [done|]. intros [Hc%negb_true_iff Hs]%andb_true_iff. by rewrite Hc, (IH Hs). Qed.

Lemma scan_letters seen s t : all letter s = true -> seen +:+ s <> "" ->
  scan_scheme seen (s +:+ String ":" t) = Scheme (seen +:+ s) t.
Proof.
  revert seen. induction s as [|c s IH]; intros seen Hs Hne.
  - rewrite sapp_nil_r in *. simpl. by rewrite decide_False.
  - simpl in Hs. apply andb_true_iff in Hs as [Hc Hs]. rewrite sapp_cons. cbn [scan_scheme]. rewrite Hc.
    rewrite IH by (rewrite ?sapp_assoc; done). by rewrite sapp_assoc.
Qed.

Lemma all_cut p d s : all p (cut d s).1 = true -> all p (cut d s).2 = true -> all p s = true.
Proof.
  induction s as [|c s IH]; simpl; [done|]. destruct (eqc c d); [done|]. destruct (cut d s) as [a b]. simpl.
  intros [Hc Ha]%andb_true_iff Hb. apply andb_true_iff. auto.
Qed.

Lemma host_chars (q : ascii -> bool) h : host_ok h = true ->
  (forall c, name_char c || digit c || eqc c ":" = true -> q c = true) -> all q h = true.
Proof.
  unfold host_ok. intros Hh Hq. apply (all_cut q ":"); destruct (cut ":" h) as [name port] eqn:Hcut;
    apply andb_true_iff in Hh as [Hn Hp]; simpl.
  - eapply all_impl; [|exact Hn]. intros c Hc. apply Hq. by rewrite Hc.
  - destruct port as [|d port]; [done|]. simpl. apply andb_true_iff. split.
    + assert (d = ":"%char) as ->; [|by apply Hq].
      clear -Hcut. revert name Hcut. induction h as [|c h IH]; simpl; intros name Hcut; [done|].
      destruct (Ascii.eqb_spec c ":"%char) as [->|Hc]; unfold eqc in *.
      * by injection Hcut.
      * rewrite (proj2 (Ascii.eqb_neq _ _) Hc) in Hcut. destruct (cut ":" h) as [a b]. injection Hcut as _ ->. by eapply IH.
    + eapply all_impl; [|exact Hp]. intros c Hc. apply Hq. rewrite Hc. by rewrite orb_true_r.
Qed.

(** [scheme://host/path]. *)
Lemma parse_address elsewhere scheme host path : scheme <> "" -> all letter scheme = true -> host_ok host = true ->
  all safe_char path = true -> (path = "" \/ exists p, path = String "/" p) ->
  Parse elsewhere (scheme +:+ "://" +:+ host +:+ path) = Ok (Strings.ToLower scheme, host).
Proof.
  intros Hne Hs Hh Hp Hpath. unfold Parse.
  assert (all safe_char (scheme +:+ "://" +:+ host +:+ path) = true) as ->.
  { rewrite !all_app, Hp, andb_true_r. apply andb_true_iff. split; [|apply andb_true_iff; split; [done|]].
    - eapply all_impl; [|exact Hs]. intros c Hc. unfold safe_char, name_char. by rewrite Hc.
    - apply (host_chars _ _ Hh). intros c. unfold safe_char, name_char.
      destruct (letter c), (digit c), (eqc c "."), (eqc c "-"), (eqc c "_"), (eqc c ":"); done. }
  unfold getscheme.
  change ("://" +:+ host +:+ path) with (String ":" (String "/" (String "/" (host +:+ path)))).
  rewrite scan_letters, sapp_nil_l by (rewrite ?sapp_nil_l; done).
  assert (Hslash : all (fun c => negb (eqc c "/")) host = true).
  { apply (host_chars _ _ Hh). intros c. destruct c as [[] [] [] [] [] [] [] []]; done. }
  assert ((cut "/" (host +:+ path)).1 = host) as ->.
  { destruct Hpath as [->|[p ->]]; [by rewrite sapp_nil_r, cut_none|by rewrite cut_app]. }
  by rewrite Hh.
Qed.

(** The address of the documentation. *)
Lemma documented_address elsewhere : Parse elsewhere "etcd://1.2.3.4:4001" = Ok ("etcd", "1.2.3.4:4001").
Proof. reflexivity. Qed.

(** Without a scheme there is no host: the name is taken for the scheme. *)
Lemma parse_bare elsewhere name port : name <> "" -> all letter name = true -> all digit port = true ->
  Parse elsewhere (name +:+ ":" +:+ port) = Ok (Strings.ToLower name, "").
Proof.
  intros Hne Hn Hp. unfold Parse.
  assert (all safe_char (name +:+ ":" +:+ port) = true) as ->.
  { rewrite !all_app. apply andb_true_iff. split; [|apply andb_true_iff; split; [done|]].
    - eapply all_impl; [|exact Hn]. intros c Hc. unfold safe_char, name_char. by rewrite Hc.
    - eapply all_impl; [|exact Hp]. intros c Hc. unfold safe_char, name_char. by rewrite Hc, orb_true_r. }
  unfold getscheme. change (":" +:+ port) with (String ":" port).
  rewrite scan_letters, sapp_nil_l by (rewrite ?sapp_nil_l; done).
  destruct port as [|c port]; [done|]. simpl in Hp. apply andb_true_iff in Hp as [Hc _].
  by destruct c as [[] [] [] [] [] [] [] []].
Qed.
End Url.
