(* ===== verification/GoTemplate.v ===== *)
(** * text/template

    The part of Go's [text/template] the built-in templates use: text, field
    chains, variables, [ne], [if], [range] and comments.  [parse] gives up
    ([None]) on a text outside of it.  A type system for templates shows that
    a well-typed one never fails. *)

From S2P Require Import Prelude GoStd.

(** ** Syntax *)

Inductive operand :=
| OField (path : list string)             (* .A.B *)
| OVar (x : string) (path : list string)  (* $x.A.B *)
| OStr (s : string).
Inductive pipe :=
| POp (o : operand)
| PNe (a b : operand).
#[warnings="-register-all"]
Inductive node :=
| NText (s : string)
| NAction (p : pipe)
| NIf (p : pipe) (thn els : list node)
| NRange (i : option string) (x : string) (p : pipe) (body : list node).

(** ** Reading a template *)

(** The text up to [mark], and what follows it. *)
Fixpoint cut (mark s : string) : option (string * string) :=
  if String.prefix mark s then Some ("", String.substring (String.length mark) (String.length s - String.length mark) s)
  else
    match s with
    | EmptyString => None
    | String c s' => '(a, b) ← cut mark s'; Some (String c a, b)
    end.

Inductive token :=
| TOp (o : operand)
| TIdent (s : string)
| TDeclare
| TComma.

Definition alphanumeric (c : ascii) : bool :=
  let n := N_of_ascii c in
  bool_decide ((48 <= n <= 57 \/ 65 <= n <= 90 \/ 97 <= n <= 122)%N \/ n = 95%N).
Fixpoint take_word (s : string) : string * string :=
  match s with
  | String c s' => if alphanumeric c then let '(w, r) := take_word s' in (String c w, r) else ("", s)
  | EmptyString => ("", "")
  end.
(** A chain of fields: every point is followed by a name. *)
Fixpoint take_path (fuel : nat) (s : string) : list string * string :=
  match fuel, s with
  | S fuel', String "."%char s' =>
      let '(w, r) := take_word s' in
      if decide (w = "") then ([], s) else let '(ws, r) := take_path fuel' r in (w :: ws, r)
  | _, _ => ([], s)
  end.

(** Spaces of an action. *)
Definition is_blank (c : ascii) : bool := bool_decide (c = " "%char \/ N_of_ascii c = 9%N).
(** Whether a token may end before [s]. *)
Definition terminated (s : string) : bool :=
  match s with EmptyString => true | String c _ => is_blank c || bool_decide (c = ","%char) end.

Fixpoint lex (fuel : nat) (s : string) : option (list token) :=
  match fuel with
  | O => None
  | S fuel' =>
      match s with
      | EmptyString => Some []
      | String c s' =>
          if is_blank c then lex fuel' s'
          else if decide (c = ","%char) then ts ← lex fuel' s'; Some (TComma :: ts)
          else if String.prefix ":=" s then ts ← lex fuel' (String.substring 2 (String.length s - 2) s); Some (TDeclare :: ts)
          else if decide (c = ascii_of_nat 34) then
            '(t, r) ← cut dquote s';
            if decide (is_Some (String.index 0 "\" t)) then None
            else if terminated r then ts ← lex fuel' r; Some (TOp (OStr t) :: ts) else None
          else if decide (c = "$"%char) then
            let '(w, r) := take_word s' in
            let '(path, r) := take_path (String.length r) r in
            if terminated r then ts ← lex fuel' r; Some (TOp (OVar w path) :: ts) else None
          else if decide (c = "."%char) then
            let '(path, r) := take_path (String.length s) s in
            if decide (path = []) then None
            else if terminated r then ts ← lex fuel' r; Some (TOp (OField path) :: ts) else None
          else
            let '(w, r) := take_word s in
            if decide (w = "") then None
            else if terminated r then ts ← lex fuel' r; Some (TIdent w :: ts) else None
      end
  end.

Definition parse_pipe (ts : list token) : option pipe :=
  match ts with
  | [TOp o] => Some (POp o)
  | [TIdent f; TOp a; TOp b] => if decide (f = "ne") then Some (PNe a b) else None
  | _ => None
  end.

(** The text of a template, cut at its actions. *)
Inductive item :=
| IText (s : string)
| IEnd
| IElse
| IIf (p : pipe)
| IRange (i : option string) (x : string) (p : pipe)
| IAction (p : pipe).

Definition parse_action (ts : list token) : option item :=
  match ts with
  | [TIdent w] => if decide (w = "end") then Some IEnd else if decide (w = "else") then Some IElse else None
  | TIdent w :: ts' =>
      if decide (w = "if") then p ← parse_pipe ts'; Some (IIf p)
      else if decide (w = "range") then
        match ts' with
        | TOp (OVar x []) :: TDeclare :: ts'' => p ← parse_pipe ts''; Some (IRange None x p)
        | TOp (OVar i []) :: TComma :: TOp (OVar x []) :: TDeclare :: ts'' =>
            p ← parse_pipe ts''; Some (IRange (Some i) x p)
        | _ => None
        end
      else p ← parse_pipe ts; Some (IAction p)
  | _ => p ← parse_pipe ts; Some (IAction p)
  end.

Fixpoint items (fuel : nat) (s : string) : option (list item) :=
  match fuel with
  | O => None
  | S fuel' =>
      match cut "{{" s with
      | None => Some [IText s]
      | Some (text, r) =>
          if String.prefix "/*" r then
            '(_, r) ← cut "*/}}" r;
            its ← items fuel' r; Some (IText text :: its)
          else
            '(a, r) ← cut "}}" r;
            ts ← lex (S (String.length a)) a;
            i ← parse_action ts;
            its ← items fuel' r; Some (IText text :: i :: its)
      end
  end.

Inductive terminator := AtEnd | AtElse | AtEof.

(** The nodes up to an [end] or an [else], or the end of the text. *)
Fixpoint parse_nodes (fuel : nat) (its : list item) : option (list node * terminator * list item) :=
  match fuel with
  | O => None
  | S fuel' =>
      match its with
      | [] => Some ([], AtEof, [])
      | IEnd :: its1 => Some ([], AtEnd, its1)
      | IElse :: its1 => Some ([], AtElse, its1)
      | IText s :: its1 =>
          '(ns, t, r) ← parse_nodes fuel' its1;
          Some (if decide (s = "") then ns else NText s :: ns, t, r)
      | IAction p :: its1 => '(ns, t, r) ← parse_nodes fuel' its1; Some (NAction p :: ns, t, r)
      | IIf p :: its1 =>
          '(thn, t, r) ← parse_nodes fuel' its1;
          match t with
          | AtEof => None
          | AtEnd => '(ns, t, r) ← parse_nodes fuel' r; Some (NIf p thn [] :: ns, t, r)
          | AtElse =>
              '(els, t, r) ← parse_nodes fuel' r;
              match t with
              | AtEnd => '(ns, t, r) ← parse_nodes fuel' r; Some (NIf p thn els :: ns, t, r)
              | _ => None
              end
          end
      | IRange i x p :: its1 =>
          '(body, t, r) ← parse_nodes fuel' its1;
          match t with
          | AtEnd => '(ns, t, r) ← parse_nodes fuel' r; Some (NRange i x p body :: ns, t, r)
          | _ => None
          end
      end
  end.

Definition parse (s : string) : option (list node) :=
  its ← items (S (String.length s)) s;
  '(ns, t, _) ← parse_nodes (S (length its)) its;
  match t with AtEof => Some ns | _ => None end.

(** ** Execution *)

(** What a template sees of a Go value: a pointer is what it points to, and
    a nil pointer keeps its type. *)
#[warnings="-register-all"]
Inductive value :=
| VStr (s : string)
| VInt (z : Z)
| VBool (b : bool)
| VList (l : list value)
| VStruct (fields : list (string * value))
| VNil (type : string).

(** The result of a step: [None] outside of the model, such as a field that
    is not in the value or the printing of a slice. *)
Abbreviation out := (option (res string)).

Definition cat (a b : out) : out :=
  match a, b with
  | Some (Ok s), Some (Ok t) => Some (Ok (s +:+ t))
  | Some (Ok _), _ => b
  | _, _ => a
  end.

Fixpoint field (name : string) (fields : list (string * value)) : option value :=
  match fields with
  | [] => None
  | (k, v) :: fields' => if decide (k = name) then Some v else field name fields'
  end.

Fixpoint eval_path (path : list string) (v : value) : option (res value) :=
  match path with
  | [] => Some (Ok v)
  | f :: path' =>
      match v with
      | VStruct fs => x ← field f fs; eval_path path' x
      | VNil ty => Some (Err (ErrorString ("nil pointer evaluating " +:+ ty +:+ "." +:+ f)))
      | _ => None
      end
  end.

Fixpoint lookup_var (x : string) (vars : list (string * value)) : option value :=
  match vars with
  | [] => None
  | (y, v) :: vars' => if decide (y = x) then Some v else lookup_var x vars'
  end.

Definition eval_operand (vars : list (string * value)) (dot : value) (o : operand) : option (res value) :=
  match o with
  | OField path => eval_path path dot
  | OVar x path => v ← lookup_var x vars; eval_path path v
  | OStr s => Some (Ok (VStr s))
  end.

Definition basic (v : value) : bool := match v with VStr _ | VInt _ | VBool _ => true | _ => false end.
(** [ne] on basic kinds. *)
Definition ne (a b : value) : option (res value) :=
  match a, b with
  | VStr s, VStr t => Some (Ok (VBool (bool_decide (s <> t))))
  | VInt x, VInt y => Some (Ok (VBool (bool_decide (x <> y))))
  | VBool x, VBool y => Some (Ok (VBool (bool_decide (x <> y))))
  | _, _ =>
      Some (Err (ErrorString (if basic a && basic b then "incompatible types for comparison"
                              else "invalid type for comparison")))
  end.

Definition eval (vars : list (string * value)) (dot : value) (p : pipe) : option (res value) :=
  match p with
  | POp o => eval_operand vars dot o
  | PNe a b =>
      x ← eval_operand vars dot a;
      y ← eval_operand vars dot b;
      match x, y with
      | Ok x, Ok y => ne x y
      | Err e, _ | _, Err e => Some (Err e)
      end
  end.

(** Whether [if] takes its first branch. *)
Definition truth (v : value) : bool :=
  match v with
  | VStr s => bool_decide (s <> "")
  | VInt z => bool_decide (z <> 0%Z)
  | VBool b => b
  | VList l => bool_decide (l <> [])
  | VStruct _ => true
  | VNil _ => false
  end.
#[local] Instance value_nil_dec (l : list value) : Decision (l = []).
Proof. destruct l; [by left|by right]. Defined.

Definition print (v : value) : out :=
  match v with
  | VStr s => Some (Ok s)
  | VInt z => Some (Ok (Strconv.Itoa z))
  | VBool b => Some (Ok (if b : bool then "true" else "false"))
  | _ => None
  end.

Definition bind_range (i : option string) (x : string) (k : nat) (v : value) (vars : list (string * value)) :
    list (string * value) :=
  (x, v) :: match i with Some i => (i, VInt (Z.of_nat k)) :: vars | None => vars end.

(** Executes the body of a [range] for each element, from the index [k]. *)
Fixpoint each (f : nat -> value -> out) (k : nat) (l : list value) : out :=
  match l with
  | [] => Some (Ok "")
  | v :: l' => cat (f k v) (each f (S k) l')
  end.

Fixpoint exec_node (vars : list (string * value)) (dot : value) (n : node) {struct n} : out :=
  let exec_list := fix exec_list (vars : list (string * value)) (dot : value) (ns : list node) : out :=
    match ns with
    | [] => Some (Ok "")
    | n :: ns' => cat (exec_node vars dot n) (exec_list vars dot ns')
    end in
  match n with
  | NText s => Some (Ok s)
  | NAction p =>
      match eval vars dot p with
      | Some (Ok v) => print v
      | Some (Err e) => Some (Err e)
      | None => None
      end
  | NIf p thn els =>
      match eval vars dot p with
      | Some (Ok v) => if truth v then exec_list vars dot thn else exec_list vars dot els
      | Some (Err e) => Some (Err e)
      | None => None
      end
  | NRange i x p body =>
      match eval vars dot p with
      | Some (Ok (VList l)) => each (fun k v => exec_list (bind_range i x k v vars) v body) 0 l
      | Some (Err e) => Some (Err e)
      | _ => None
      end
  end.
Fixpoint exec_list (vars : list (string * value)) (dot : value) (ns : list node) : out :=
  match ns with
  | [] => Some (Ok "")
  | n :: ns' => cat (exec_node vars dot n) (exec_list vars dot ns')
  end.

(** [tmpl.Execute] on a value. *)
Definition execute (ns : list node) (v : value) : out := exec_list [] v ns.

(** The steps of an execution. *)
Lemma exec_list_app vars dot l1 l2 : exec_list vars dot (l1 ++ l2) = cat (exec_list vars dot l1) (exec_list vars dot l2).
Proof.
  induction l1 as [|n l1 IH]; simpl; [by destruct (exec_list vars dot l2) as [[]|]|]. rewrite IH.
  destruct (exec_node vars dot n) as [[a|]|]; [|done..].
  destruct (exec_list vars dot l1) as [[b|]|]; [|done..]. simpl.
  destruct (exec_list vars dot l2) as [[c|]|]; [|done..]. by rewrite sapp_assoc.
Qed.
Lemma exec_list_cons vars dot n ns : exec_list vars dot (n :: ns) = cat (exec_node vars dot n) (exec_list vars dot ns).
Proof. reflexivity. Qed.
Lemma exec_if vars dot p thn els v :
  eval vars dot p = Some (Ok v) -> exec_node vars dot (NIf p thn els) = exec_list vars dot (if truth v then thn else els).
Proof. intros Hp. simpl. rewrite Hp. by destruct (truth v). Qed.
Lemma exec_range vars dot i x p body l :
  eval vars dot p = Some (Ok (VList l)) ->
  exec_node vars dot (NRange i x p body) = each (fun k v => exec_list (bind_range i x k v vars) v body) 0 l.
Proof. intros Hp. simpl. by rewrite Hp. Qed.

(** ** Types *)

(** [TStruct] lists the fields a struct has at least. *)
#[warnings="-register-all"]
Inductive ty :=
| TStr
| TInt
| TBool
| TList (t : ty)
| TStruct (fields : list (string * ty)).

Fixpoint has_type (t : ty) (v : value) {struct t} : Prop :=
  match t with
  | TStr => exists s, v = VStr s
  | TInt => exists z, v = VInt z
  | TBool => exists b, v = VBool b
  | TList t => exists l, v = VList l /\ Forall (has_type t) l
  | TStruct fts =>
      exists fs, v = VStruct fs /\
      (fix fields (fts : list (string * ty)) : Prop :=
         match fts with
         | [] => True
         | (k, t) :: fts' => (exists x, field k fs = Some x /\ has_type t x) /\ fields fts'
         end) fts
  end.

Fixpoint field_type (name : string) (fts : list (string * ty)) : option ty :=
  match fts with
  | [] => None
  | (k, t) :: fts' => if decide (k = name) then Some t else field_type name fts'
  end.

Lemma has_type_field fts fs k t :
  has_type (TStruct fts) (VStruct fs) -> field_type k fts = Some t -> exists x, field k fs = Some x /\ has_type t x.
Proof.
  intros (fs' & [= <-] & Hf). induction fts as [|[k' t'] fts IH]; intros Hk; [done|].
  destruct Hf as [Hx Hf]. simpl in Hk. case_decide; [by simplify_eq|by apply IH].
Qed.

Fixpoint type_path (path : list string) (t : ty) : option ty :=
  match path with
  | [] => Some t
  | f :: path' => match t with TStruct fts => t' ← field_type f fts; type_path path' t' | _ => None end
  end.
Fixpoint type_var (x : string) (env : list (string * ty)) : option ty :=
  match env with
  | [] => None
  | (y, t) :: env' => if decide (y = x) then Some t else type_var x env'
  end.
Definition type_operand (env : list (string * ty)) (dot : ty) (o : operand) : option ty :=
  match o with
  | OField path => type_path path dot
  | OVar x path => t ← type_var x env; type_path path t
  | OStr _ => Some TStr
  end.
Definition type_pipe (env : list (string * ty)) (dot : ty) (p : pipe) : option ty :=
  match p with
  | POp o => type_operand env dot o
  | PNe a b =>
      match type_operand env dot a, type_operand env dot b with
      | Some TStr, Some TStr | Some TInt, Some TInt | Some TBool, Some TBool => Some TBool
      | _, _ => None
      end
  end.

Definition bind_type (i : option string) (x : string) (t : ty) (env : list (string * ty)) : list (string * ty) :=
  (x, t) :: match i with Some i => (i, TInt) :: env | None => env end.

(** A template that prints only strings, integers and booleans, tests
    anything, and ranges over lists. *)
Fixpoint check_node (env : list (string * ty)) (dot : ty) (n : node) {struct n} : bool :=
  let check_list := fix check_list (env : list (string * ty)) (dot : ty) (ns : list node) : bool :=
    match ns with [] => true | n :: ns' => check_node env dot n && check_list env dot ns' end in
  match n with
  | NText _ => true
  | NAction p => match type_pipe env dot p with Some (TStr | TInt | TBool) => true | _ => false end
  | NIf p thn els => match type_pipe env dot p with Some _ => check_list env dot thn && check_list env dot els | None => false end
  | NRange i x p body =>
      match type_pipe env dot p with
      | Some (TList t) => check_list (bind_type i x t env) t body
      | _ => false
      end
  end.
Fixpoint check_list (env : list (string * ty)) (dot : ty) (ns : list node) : bool :=
  match ns with [] => true | n :: ns' => check_node env dot n && check_list env dot ns' end.

(** Variables of the types of an environment. *)
Definition has_types (env : list (string * ty)) (vars : list (string * value)) : Prop :=
  Forall2 (fun kt kv => kt.1 = kv.1 /\ has_type kt.2 kv.2) env vars.

Lemma type_path_sound path t v t' :
  has_type t v -> type_path path t = Some t' -> exists v', eval_path path v = Some (Ok v') /\ has_type t' v'.
Proof.
  revert t v. induction path as [|f path IH]; intros t v Hv Ht; [by simplify_eq/=; eexists|].
  simpl in Ht. destruct t as [| | | |fts]; try done. pose proof Hv as (fs & -> & _).
  destruct (field_type f fts) as [t1|] eqn:Hf; [|done].
  destruct (has_type_field _ _ _ _ Hv Hf) as (x & Hx & Hxt). simpl. rewrite Hx. by eapply IH.
Qed.

Lemma type_operand_sound env vars dot t o t' :
  has_types env vars -> has_type t dot -> type_operand env t o = Some t' ->
  exists v, eval_operand vars dot o = Some (Ok v) /\ has_type t' v.
Proof.
  intros Hvars Hdot. destruct o as [path|x path|s]; simpl; [by apply type_path_sound| |intros [= <-]; by eexists; split; [|eexists]].
  intros Ht. destruct (type_var x env) as [tx|] eqn:Hx; [|done]. simpl in Ht.
  assert (exists vx, lookup_var x vars = Some vx /\ has_type tx vx) as (vx & -> & Hvx).
  { induction Hvars as [|[k tk] [k' vk] env vars [Hk Hkt] _ IH]; [done|]. simpl in *. subst k'.
    case_decide; [simplify_eq; by eexists|by apply IH]. }
  simpl. by apply (type_path_sound path tx).
Qed.

Lemma type_pipe_sound env vars dot t p t' :
  has_types env vars -> has_type t dot -> type_pipe env t p = Some t' ->
  exists v, eval vars dot p = Some (Ok v) /\ has_type t' v.
Proof.
  intros Hvars Hdot. destruct p as [o|a b]; simpl; [by apply type_operand_sound|].
  destruct (type_operand env t a) as [ta|] eqn:Ha; [|done].
  destruct (type_operand env t b) as [tb|] eqn:Hb; [|by destruct ta].
  destruct (type_operand_sound _ _ _ _ _ _ Hvars Hdot Ha) as (va & -> & Hva).
  destruct (type_operand_sound _ _ _ _ _ _ Hvars Hdot Hb) as (vb & -> & Hvb).
  simpl. destruct ta, tb; try done; intros [= <-]; destruct Hva as [? ->], Hvb as [? ->]; simpl;
    eexists; (split; [reflexivity|by eexists]).
Qed.

(** That an execution yields a text. *)
Definition yields (o : out) : Prop := exists s, o = Some (Ok s).
Lemma yields_cat a b : yields a -> yields b -> yields (cat a b).
Proof. intros [s ->] [t ->]. by eexists. Qed.

Lemma yields_each f k l : (forall k v, v ∈ l -> yields (f k v)) -> yields (each f k l).
Proof.
  revert k. induction l as [|v l IH]; intros k Hf; [by eexists|]. simpl.
  apply yields_cat; [apply Hf; left|]. apply IH. intros. apply Hf. by right.
Qed.

Lemma has_types_bind i x t env vars k v :
  has_types env vars -> has_type t v -> has_types (bind_type i x t env) (bind_range i x k v vars).
Proof.
  intros Hvars Hv. constructor; [done|]. destruct i as [i|]; [|done]. constructor; [|done]. split; [done|by eexists].
Qed.

(** Induction on nodes and the lists they hold. *)
Section Induction.
Context (P : node -> Prop).
Context (Htext : forall s, P (NText s)) (Haction : forall p, P (NAction p)).
Context (Hif : forall p thn els, Forall P thn -> Forall P els -> P (NIf p thn els)).
Context (Hrange : forall i x p body, Forall P body -> P (NRange i x p body)).

Fixpoint node_nested_ind (n : node) : P n :=
  let all := fix all (ns : list node) : Forall P ns :=
    match ns with [] => List.Forall_nil P | n :: ns' => @List.Forall_cons _ P n ns' (node_nested_ind n) (all ns') end in
  match n with
  | NText s => Htext s
  | NAction p => Haction p
  | NIf p thn els => Hif p thn els (all thn) (all els)
  | NRange i x p body => Hrange i x p body (all body)
  end.
End Induction.

Definition node_sound (n : node) : Prop := forall env vars t dot,
  has_types env vars -> has_type t dot -> check_node env t n = true -> yields (exec_node vars dot n).

Lemma check_list_sound ns env vars t dot :
  Forall node_sound ns -> has_types env vars -> has_type t dot -> check_list env t ns = true ->
  yields (exec_list vars dot ns).
Proof.
  intros Hns Hvars Hdot. induction Hns as [|n ns Hn Hns IH]; [by eexists|].
  simpl. intros [Hc1 Hc2]%andb_prop. apply yields_cat; [by eapply Hn|by apply IH].
Qed.

Lemma check_node_sound n : node_sound n.
Proof.
  induction n as [s|p|p thn els Ht He|i x p body Hb] using node_nested_ind;
    intros env vars t dot Hvars Hdot Hc; [by eexists|..]; simpl in Hc;
    (destruct (type_pipe env t p) as [tp|] eqn:Hp; [|done]);
    destruct (type_pipe_sound _ _ _ _ _ _ Hvars Hdot Hp) as (v & Hv & Hvt).
  - simpl. rewrite Hv. destruct tp; try done; destruct Hvt as [? ->]; by eexists.
  - apply andb_prop in Hc as [Hc1 Hc2]. rewrite (exec_if _ _ _ _ _ v) by done.
    destruct (truth v); [by eapply (check_list_sound thn)|by eapply (check_list_sound els)].
  - destruct tp as [| | |te|]; try done. destruct Hvt as (l & -> & Hl).
    rewrite (exec_range _ _ _ _ _ _ l) by done. apply yields_each. intros k v' Hin.
    rewrite Forall_forall in Hl. eapply (check_list_sound body); [done| |by apply Hl|done].
    by apply has_types_bind; [|apply Hl].
Qed.

(** A well-typed template yields a text on every value of its type. *)
Theorem execute_yields ns t v : check_list [] t ns = true -> has_type t v -> yields (execute ns v).
Proof.
  intros Hc Hv. eapply check_list_sound; [|constructor|done|done].
  apply Forall_forall. intros n _. apply check_node_sound.
Qed.

(** ** Texts in the output *)

Definition contains (s x : string) : Prop := exists a b, s = a +:+ x +:+ b.

Lemma contains_l s t x : contains s x -> contains (s +:+ t) x.
Proof. intros (a & b & ->). exists a, (b +:+ t). by rewrite !sapp_assoc. Qed.
Lemma contains_r s t x : contains t x -> contains (s +:+ t) x.
Proof. intros (a & b & ->). exists (s +:+ a), b. by rewrite !sapp_assoc. Qed.

(** Every text an execution yields contains [x]. *)
Definition shows (o : out) (x : string) : Prop := forall s, o = Some (Ok s) -> contains s x.

Lemma shows_cat_l a b x : shows a x -> shows (cat a b) x.
Proof.
  intros Ha s. destruct a as [[a|]|]; [|done..]. destruct b as [[b|]|]; [|done..]. intros [= <-].
  by apply contains_l, Ha.
Qed.
Lemma shows_cat_r a b x : shows b x -> shows (cat a b) x.
Proof.
  intros Hb s. destruct a as [[a|]|]; [|done..]. destruct b as [[b|]|]; [|done..]. intros [= <-].
  by apply contains_r, Hb.
Qed.
Lemma shows_each f j l k v x : l !! k = Some v -> shows (f (j + k) v) x -> shows (each f j l) x.
Proof.
  revert j k. induction l as [|v' l IH]; intros j k Hk Hf; [done|]. simpl. destruct k as [|k].
  - simplify_eq/=. rewrite Nat.add_0_r in Hf. by apply shows_cat_l.
  - apply shows_cat_r, (IH _ k); [done|]. by rewrite Nat.add_succ_l, <- Nat.add_succ_r.
Qed.

(** [x] is in what the nodes yield: in that of the rest, of the branch
    taken, of an element, or it is what some nodes yield. *)
Lemma shows_later vars dot n ns x : shows (exec_list vars dot ns) x -> shows (exec_list vars dot (n :: ns)) x.
Proof. apply shows_cat_r. Qed.
Lemma shows_if vars dot p thn els ns v x :
  eval vars dot p = Some (Ok v) -> shows (exec_list vars dot (if truth v then thn else els)) x ->
  shows (exec_list vars dot (NIf p thn els :: ns)) x.
Proof. intros Hp Hx. rewrite exec_list_cons, (exec_if _ _ _ _ _ v) by done. by apply shows_cat_l. Qed.
Lemma shows_range vars dot i y p body ns l k v x :
  eval vars dot p = Some (Ok (VList l)) -> l !! k = Some v ->
  shows (exec_list (bind_range i y k v vars) v body) x -> shows (exec_list vars dot (NRange i y p body :: ns)) x.
Proof.
  intros Hp Hk Hx. rewrite exec_list_cons, (exec_range _ _ _ _ _ _ l) by done. by apply shows_cat_l, (shows_each _ _ _ k v).
Qed.
Lemma shows_here vars dot m ns s x :
  exec_list vars dot (take m ns) = Some (Ok s) -> contains s x -> shows (exec_list vars dot ns) x.
Proof.
  intros He Hx. rewrite <- (take_drop m ns), exec_list_app. apply shows_cat_l. intros s' Hs.
  rewrite He in Hs. by injection Hs as <-.
Qed.
