(* ===== verification/Docker.v ===== *)
(** * The Docker Engine API as the program sees it

    The types are those of [github.com/docker/engine-api/types], with the
    fields the program reads; a pointer the JSON of the daemon may leave nil
    is an [option].  The daemon is a parameter: a reply to a call is a
    function of the whole history of interactions before it, so a theorem
    about every [World] covers every daemon, however its state changes
    between two calls. *)

From S2P Require Import Prelude GoStd GoTime.

(** ** Data *)

(** Package [types/container]. *)
Module ctypes.
Record Config := {
  Hostname : string;
  Domainname : string;
  ExposedPorts : gmap string unit;
  Image : string;
  Labels : gmap string string;
}.
End ctypes.

(** Package [go-connections/nat]. *)
Module nat_.
Record PortBinding := { HostIP : string; HostPort : string }.
(** [PortMap], from ports such as "80/tcp" to their bindings. *)
Abbreviation PortMap := (gmap string (list PortBinding)).
End nat_.

(** Package [types]. *)
Module types.
(** An entry of the list of containers.  [c_Networks] is
    [NetworkSettings.Networks], whose values are not read. *)
Record Container := {
  c_ID : string;
  c_Names : list string;
  c_Labels : gmap string string;
  c_State : string;
  c_Ports : list Z;
  c_Networks : option (gmap string unit);
}.

(** What inspecting a container returns; [ci_Ports] is
    [NetworkSettings.Ports] and [ci_Networks] [NetworkSettings.Networks]. *)
Record NetworkSettings := {
  ci_Ports : nat_.PortMap;
  ci_Networks : gmap string unit;
}.
Record ContainerJSON := {
  ci_ID : string;
  ci_Name : string;
  ci_Config : option ctypes.Config;
  ci_NetworkSettings : option NetworkSettings;
}.

Record EndpointResource := { IPv4Address : string }.
Record NetworkResource := {
  n_Name : string;
  n_Containers : gmap string EndpointResource;
}.

(** The counters of a network, and the statistics of a container, in
    integers of 64 bits without sign. *)
Record NetworkStats := {
  RxBytes : Z; RxPackets : Z; RxErrors : Z; RxDropped : Z;
  TxBytes : Z; TxPackets : Z; TxErrors : Z; TxDropped : Z;
}.
Record StatsJSON := {
  CPU_TotalUsage : Z;
  Memory_Usage : Z;
  Memory_MaxUsage : Z;
  Memory_Limit : Z;
  s_Networks : gmap string NetworkStats;
}.
End types.

(** Package [influxdb/client/v2]: a point with one field. *)
Module influx.
Inductive value :=
| VInt (z : Z)
| VUint64 (z : Z)
| VFloat64 (x : Float64.t).
Record Point := {
  pt_name : string;
  pt_tags : gmap string string;
  pt_field : string;
  pt_value : value;
  pt_time : Z;
}.
End influx.

(** Package [types/events]. *)
Module etypes.
Record Message := {
  Status : string;
  ID : string;
  Type_ : string;
  Action : string;
  Actor_Attributes : gmap string string;
}.
End etypes.

(** ** Interactions *)

Inductive event :=
| EContainerList (All : bool)
| EContainerInspect (id : string)
| ENetworkInspect (network : string)
| ENetworkConnect (network id : string)
| ENetworkDisconnect (network id : string)
| ECopyToContainer (id path : string) (name data : string)
| EContainerKill (id signal : string)
| EContainerRestart (id : string) (timeout_ms : Z)
| ELookPath (file : string)
| ECommand (path : string) (args : list string)
| EReadFile (path : string)
| ESleep (ms : Z)
| ECacheGet (key : string)
| ECacheSet (key : string)
| EErrChan (e : error)
(* the rest of the daemon's API *)
| EImageList
| EVolumeList
| ENetworkList
| EContainerStats (id : string)
(* the clock and the file system *)
| ENow
| EStat (path : string)
(* the channels of the server and of the beacon *)
| EEventChan (m : option etypes.Message)
| EServerErr (e : error)
| EBeaconErr (e : error)
(* metrics: a gauge is named by its vector and its labels *)
| EGaugeSet (name : string) (labels : gmap string string) (v : Float64.t)
| EGaugeReset (name : string)
| ECounterInc (name : string)
| EPush (job instance url : string)
(* influxdb *)
| EInfluxClient (addr user password : string)
| EInfluxQuery (db cmd : string)
| EInfluxWrite (points : list influx.Point)
(* the web server *)
| EHandle (pattern : string)
| EPoller (interval : Z)
| EListen (addr : string)
(* the event stream of the daemon, and the channel that asks to open it *)
| EEvents
| ERestart.

(** The effectful code of the program. *)
Abbreviation M := (comp event).

(** The outside world: every reply it gives, as a function of the history. *)
Class World := {
  reply_ContainerList : list event -> bool -> res (list types.Container);
  reply_ContainerInspect : list event -> string -> res types.ContainerJSON;
  reply_NetworkInspect : list event -> string -> res types.NetworkResource;
  reply_NetworkConnect : list event -> string -> string -> option error;
  reply_NetworkDisconnect : list event -> string -> string -> option error;
  reply_CopyToContainer : list event -> string -> string -> option error;
  reply_ContainerKill : list event -> string -> string -> option error;
  reply_ContainerRestart : list event -> string -> option error;
  reply_LookPath : list event -> string -> res string;
  reply_Command : list event -> string -> list string -> option error;
  reply_ReadFile : list event -> string -> res string;
  reply_CacheGet : list event -> string -> bool;
  (* lists are not read but for their length *)
  reply_ImageList : list event -> res nat;
  reply_VolumeList : list event -> res nat;
  reply_NetworkList : list event -> res nat;
  reply_ContainerStats : list event -> string -> res string;
  reply_Now : list event -> Z;
  reply_NotExist : list event -> string -> bool;
  reply_Push : list event -> string -> option error;
  reply_InfluxClient : list event -> string -> option error;
  reply_InfluxQuery : list event -> string -> string -> option error;
  reply_InfluxWrite : list event -> list influx.Point -> option error;
  reply_Listen : list event -> string -> option error;
  (* the text the stream is to send until it is closed *)
  reply_Events : list event -> res string;
}.

(** ** Calls *)

Section Calls.
Context `{World}.

Definition ContainerList (All : bool) : M (res (list types.Container)) :=
  call (EContainerList All) (fun h => reply_ContainerList h All).
Definition ContainerInspect (id : string) : M (res types.ContainerJSON) :=
  call (EContainerInspect id) (fun h => reply_ContainerInspect h id).
Definition NetworkInspect (net : string) : M (res types.NetworkResource) :=
  call (ENetworkInspect net) (fun h => reply_NetworkInspect h net).
Definition NetworkConnect (net id : string) : M (option error) :=
  call (ENetworkConnect net id) (fun h => reply_NetworkConnect h net id).
Definition NetworkDisconnect (net id : string) : M (option error) :=
  call (ENetworkDisconnect net id) (fun h => reply_NetworkDisconnect h net id).
Definition CopyToContainer (id path name data : string) : M (option error) :=
  call (ECopyToContainer id path name data) (fun h => reply_CopyToContainer h id path).
Definition ContainerKill (id signal : string) : M (option error) :=
  call (EContainerKill id signal) (fun h => reply_ContainerKill h id signal).
Definition ContainerRestart (id : string) (timeout_ms : Z) : M (option error) :=
  call (EContainerRestart id timeout_ms) (fun h => reply_ContainerRestart h id).
Definition LookPath (file : string) : M (res string) :=
  call (ELookPath file) (fun h => reply_LookPath h file).
Definition Command (path : string) (args : list string) : M (option error) :=
  call (ECommand path args) (fun h => reply_Command h path args).
Definition ReadFile (path : string) : M (res string) :=
  call (EReadFile path) (fun h => reply_ReadFile h path).
Definition Sleep (ms : Z) : M unit := call (ESleep ms) (fun _ => tt).
Definition CacheGet (key : string) : M bool := call (ECacheGet key) (fun h => reply_CacheGet h key).
Definition CacheSet (key : string) : M unit := call (ECacheSet key) (fun _ => tt).
Definition SendErr (e : error) : M unit := call (EErrChan e) (fun _ => tt).

Definition ImageList : M (res nat) := call EImageList reply_ImageList.
Definition VolumeList : M (res nat) := call EVolumeList reply_VolumeList.
Definition NetworkList : M (res nat) := call ENetworkList reply_NetworkList.
Definition ContainerStats (id : string) : M (res string) :=
  call (EContainerStats id) (fun h => reply_ContainerStats h id).
Definition Now : M Z := call ENow reply_Now.
(** [os.IsNotExist] of the error of [os.Stat]. *)
Definition NotExist (path : string) : M bool := call (EStat path) (fun h => reply_NotExist h path).
Definition SendEvent (m : option etypes.Message) : M unit := call (EEventChan m) (fun _ => tt).
Definition SendServerErr (e : error) : M unit := call (EServerErr e) (fun _ => tt).
Definition SendBeaconErr (e : error) : M unit := call (EBeaconErr e) (fun _ => tt).
Definition GaugeSet (name : string) (labels : gmap string string) (v : Float64.t) : M unit :=
  call (EGaugeSet name labels v) (fun _ => tt).
Definition GaugeReset (name : string) : M unit := call (EGaugeReset name) (fun _ => tt).
Definition CounterInc (name : string) : M unit := call (ECounterInc name) (fun _ => tt).
Definition Push (job inst url : string) : M (option error) := call (EPush job inst url) (fun h => reply_Push h url).
Definition InfluxNewHTTPClient (addr user password : string) : M (option error) :=
  call (EInfluxClient addr user password) (fun h => reply_InfluxClient h addr).
(** The error of the query, or of its response. *)
Definition InfluxQuery (db cmd : string) : M (option error) :=
  call (EInfluxQuery db cmd) (fun h => reply_InfluxQuery h db cmd).
Definition InfluxWrite (points : list influx.Point) : M (option error) :=
  call (EInfluxWrite points) (fun h => reply_InfluxWrite h points).
Definition Handle (pattern : string) : M unit := call (EHandle pattern) (fun _ => tt).
Definition StartPoller (interval : Z) : M unit := call (EPoller interval) (fun _ => tt).
Definition ListenAndServe (addr : string) : M (option error) := call (EListen addr) (fun h => reply_Listen h addr).
Definition Events : M (res string) := call EEvents reply_Events.
Definition SendRestart : M unit := call ERestart (fun _ => tt).
End Calls.

(** ** A concrete world *)

(** A cluster whose state does not change: replies from finite tables, every
    command succeeds. *)
Definition snapshot (cs : list types.Container) (infos : gmap string types.ContainerJSON)
    (nets : gmap string types.NetworkResource) (files : gmap string string) : World := {|
  reply_ContainerList _ _ := Ok cs;
  reply_ContainerInspect _ id :=
    match infos !! id with Some c => Ok c | None => Err (ErrorString ("No such container: " +:+ id)) end;
  reply_NetworkInspect _ n :=
    match nets !! n with Some r => Ok r | None => Err (ErrorString ("network " +:+ n +:+ " not found")) end;
  reply_NetworkConnect _ _ _ := None;
  reply_NetworkDisconnect _ _ _ := None;
  reply_CopyToContainer _ _ _ := None;
  reply_ContainerKill _ _ _ := None;
  reply_ContainerRestart _ _ := None;
  reply_LookPath _ f := Ok ("/sbin/" +:+ f);
  reply_Command _ _ _ := None;
  reply_ReadFile _ p :=
    match files !! p with Some d => Ok d | None => Err (ErrorString ("open " +:+ p +:+ ": no such file or directory")) end;
  reply_CacheGet _ _ := false;
  reply_ImageList _ := Ok 1;
  reply_VolumeList _ := Ok 0;
  reply_NetworkList _ := Ok (size nets);
  reply_ContainerStats _ id := Ok "{}";
  reply_Now h := Z.of_nat (length h);
  reply_NotExist _ p := bool_decide (files !! p = None);
  reply_Push _ _ := None;
  reply_InfluxClient _ _ := None;
  reply_InfluxQuery _ _ _ := None;
  reply_InfluxWrite _ _ := None;
  reply_Listen _ _ := None;
  reply_Events _ := Ok "";
|}.

(** A small cluster: a web server with a published port and an alias, a
    server reached through an overlay network, and a proxy container. *)
Module Cluster.
Definition web_config : ctypes.Config := {|
  ctypes.Hostname := "web"; ctypes.Domainname := ""; ctypes.Image := "web:latest";
  ctypes.ExposedPorts := {["80/tcp" := tt]};
  ctypes.Labels := {["interlock.hostname" := "www"; "interlock.domain" := "example.com";
                     "interlock.alias_domain.0" := "example.org"]};
|}.
Definition web_info : types.ContainerJSON := {|
  types.ci_ID := "aaaaaaaaaaaa"; types.ci_Name := "/web"; types.ci_Config := Some web_config;
  types.ci_NetworkSettings := Some {|
    types.ci_Ports := {["80/tcp" := [{| nat_.HostIP := "10.0.0.1"; nat_.HostPort := "32768" |}]]};
    types.ci_Networks := {["bridge" := tt; "extra" := tt]};
  |};
|}.
Definition web : types.Container := {|
  types.c_ID := "aaaaaaaaaaaa"; types.c_Names := ["/web"]; types.c_Labels := ctypes.Labels web_config;
  types.c_State := "running"; types.c_Ports := [32768%Z]; types.c_Networks := Some {["bridge" := tt]};
|}.

Definition api_config : ctypes.Config := {|
  ctypes.Hostname := "api"; ctypes.Domainname := ""; ctypes.Image := "api:latest";
  ctypes.ExposedPorts := {["8080/tcp" := tt]};
  ctypes.Labels := {["interlock.domain" := "api.example.com"; "interlock.network" := "overlay"]};
|}.
Definition api_info : types.ContainerJSON := {|
  types.ci_ID := "bbbbbbbbbbbb"; types.ci_Name := "/api"; types.ci_Config := Some api_config;
  types.ci_NetworkSettings := Some {| types.ci_Ports := {["8080/tcp" := []]}; types.ci_Networks := {["overlay" := tt]} |};
|}.
Definition api : types.Container := {|
  types.c_ID := "bbbbbbbbbbbb"; types.c_Names := ["/api"]; types.c_Labels := ctypes.Labels api_config;
  types.c_State := "running"; types.c_Ports := []; types.c_Networks := Some {["overlay" := tt]};
|}.
Definition overlay : types.NetworkResource := {|
  types.n_Name := "overlay";
  types.n_Containers := {["bbbbbbbbbbbb" := {| types.IPv4Address := "10.1.0.5/24" |}]};
|}.

Definition proxy : types.Container := {|
  types.c_ID := "cccccccccccc"; types.c_Names := ["/proxy"];
  types.c_Labels := {["interlock.ext.name" := "nginx"]};
  types.c_State := "running"; types.c_Ports := [80%Z]; types.c_Networks := Some {["bridge" := tt]};
|}.

Definition cluster : World :=
  snapshot [web; api; proxy] {["aaaaaaaaaaaa" := web_info; "bbbbbbbbbbbb" := api_info]}
    {["overlay" := overlay]} ∅.
End Cluster.
