(* ===== verification/Labels.v ===== *)
(** * Container labels

    [ext/ext.go] and the label accessors of [ext/lb/utils]: how the labels
    of a container, as its inspection reports them, configure its service. *)

From S2P Require Import Prelude GoStd Docker.

(** ** Package ext *)

Module ext.
Definition InterlockAppLabel := "interlock.app".
Definition InterlockExtNameLabel := "interlock.ext.name".
Definition InterlockHostnameLabel := "interlock.hostname".
Definition InterlockNetworkLabel := "interlock.network".
Definition InterlockDomainLabel := "interlock.domain".
Definition InterlockSSLLabel := "interlock.ssl".
Definition InterlockSSLOnlyLabel := "interlock.ssl_only".
Definition InterlockSSLBackendLabel := "interlock.ssl_backend".
Definition InterlockSSLBackendTLSVerifyLabel := "interlock.ssl_backend_tls_verify".
Definition InterlockSSLCertLabel := "interlock.ssl_cert".
Definition InterlockSSLCertKeyLabel := "interlock.ssl_cert_key".
Definition InterlockPortLabel := "interlock.port".
Definition InterlockWebsocketEndpointLabel := "interlock.websocket_endpoint".
Definition InterlockAliasDomainLabel := "interlock.alias_domain".
Definition InterlockHealthCheckLabel := "interlock.health_check".
Definition InterlockHealthCheckIntervalLabel := "interlock.health_check_interval".
Definition InterlockBalanceAlgorithmLabel := "interlock.balance_algorithm".
Definition InterlockBackendOptionLabel := "interlock.backend_option".
Definition InterlockIPHashLabel := "interlock.ip_hash".
Definition InterlockContextRootLabel := "interlock.context_root".
Definition InterlockContextRootRewriteLabel := "interlock.context_root_rewrite".
End ext.

(** ** Package lb/utils *)

Module utils.
Definition Hostname (config : ctypes.Config) : string :=
  let hostname := ctypes.Hostname config in
  match ctypes.Labels config !! ext.InterlockHostnameLabel with
  | Some v => v
  | None => hostname
  end.

Definition Domain (config : ctypes.Config) : string :=
  let domain := ctypes.Domainname config in
  match ctypes.Labels config !! ext.InterlockDomainLabel with
  | Some v => v
  | None => domain
  end.

Definition ContextRoot (config : ctypes.Config) : string :=
  match ctypes.Labels config !! ext.InterlockContextRootLabel with
  | Some v => v
  | None => ""
  end.

(** Whether a label is there, whatever its value. *)
Definition has_label (config : ctypes.Config) (label : string) : bool :=
  bool_decide (is_Some (ctypes.Labels config !! label)).

Definition ContextRootRewrite (config : ctypes.Config) : bool :=
  has_label config ext.InterlockContextRootRewriteLabel.
Definition IPHash (config : ctypes.Config) : bool := has_label config ext.InterlockIPHashLabel.
Definition SSLEnabled (config : ctypes.Config) : bool := has_label config ext.InterlockSSLLabel.
Definition SSLOnly (config : ctypes.Config) : bool := has_label config ext.InterlockSSLOnlyLabel.
Definition SSLBackend (config : ctypes.Config) : bool := has_label config ext.InterlockSSLBackendLabel.

Definition SSLCertName (config : ctypes.Config) : string :=
  match ctypes.Labels config !! ext.InterlockSSLCertLabel with
  | Some v => v
  | None => ""
  end.

Definition SSLCertKey (config : ctypes.Config) : string :=
  match ctypes.Labels config !! ext.InterlockSSLCertKeyLabel with
  | Some v => v
  | None => ""
  end.

Definition DefaultSSLBackendTLSVerify := "none".
Definition SSLBackendTLSVerify (config : ctypes.Config) : string :=
  match ctypes.Labels config !! ext.InterlockSSLBackendTLSVerifyLabel with
  | Some v => v
  | None => DefaultSSLBackendTLSVerify
  end.

Definition DefaultBalanceAlgorithm := "roundrobin".
Definition BalanceAlgorithm (config : ctypes.Config) : string :=
  match ctypes.Labels config !! ext.InterlockBalanceAlgorithmLabel with
  | Some v => v
  | None => DefaultBalanceAlgorithm
  end.

Definition HealthCheck (config : ctypes.Config) : string :=
  match ctypes.Labels config !! ext.InterlockHealthCheckLabel with
  | Some v => v
  | None => ""
  end.

Definition DefaultHealthCheckInterval : Z := 5000.
Definition HealthCheckInterval (config : ctypes.Config) : res Z :=
  let checkInterval := DefaultHealthCheckInterval in
  match ctypes.Labels config !! ext.InterlockHealthCheckIntervalLabel with
  | Some v =>
      if decide (v <> "") then
        match Strconv.Atoi v with
        | Err e => Err e
        | Ok i => if decide (i <> 0%Z) then Ok i else Ok checkInterval
        end
      else Ok checkInterval
  | None => Ok checkInterval
  end.

Definition OverlayEnabled (config : ctypes.Config) : string * bool :=
  match ctypes.Labels config !! ext.InterlockNetworkLabel with
  | Some v => (v, true)
  | None => ("", false)
  end.

Section Ranged.
Context `{MapRange}.

(** The loop [AliasDomains], [BackendOptions] and [WebsocketEndpoints]
    share: the values of the labels whose name contains [label]. *)
Definition matching_labels (site : string) (n : nat) (config : ctypes.Config) (label : string) : list string :=
  fold_left
    (fun acc '(l, v) => if decide (Strings.Index l label > -1)%Z then acc ++ [v] else acc)
    (range site n (ctypes.Labels config)) [].

Definition AliasDomains (n : nat) (config : ctypes.Config) : list string :=
  matching_labels "AliasDomains" n config ext.InterlockAliasDomainLabel.
Definition BackendOptions (n : nat) (config : ctypes.Config) : list string :=
  matching_labels "BackendOptions" n config ext.InterlockBackendOptionLabel.
Definition WebsocketEndpoints (n : nat) (config : ctypes.Config) : list string :=
  matching_labels "WebsocketEndpoints" n config ext.InterlockWebsocketEndpointLabel.
End Ranged.
End utils.

(** ** Theorems *)

Section Facts.
(** The labels a loop looks for. *)
Definition labelled (config : ctypes.Config) (label : string) : list (string * string) :=
  filter (fun lv => (Strings.Index lv.1 label > -1)%Z) (map_to_list (ctypes.Labels config)).

Lemma matching_labels_perm `{MapRange} site n config label :
  utils.matching_labels site n config label ≡ₚ (labelled config label).*2.
Proof.
  unfold utils.matching_labels, labelled. rewrite <- (range_perm _ site n).
  set (f := fun acc _ => _).
  assert (fold_left f (range site n (ctypes.Labels config)) [] =
    (filter (fun lv : string * string => (Strings.Index lv.1 label > -1)%Z) (range site n (ctypes.Labels config))).*2) as ->;
    [|done].
  apply (fold_left_spec (fun acc => acc) f (fun l => (filter (fun lv : string * string => (Strings.Index lv.1 label > -1)%Z) l).*2));
    [done|].
  intros s l [k v] ->. unfold f. rewrite filter_app, fmap_app, filter_cons, filter_nil. simpl.
  case_decide; [done|]. simpl. by rewrite app_nil_r.
Qed.

Lemma elem_of_labelled config label k v :
  (k, v) ∈ labelled config label <->
  ctypes.Labels config !! k = Some v /\ exists a b, k = a +:+ label +:+ b.
Proof.
  unfold labelled. rewrite list_elem_of_filter, elem_of_map_to_list. simpl.
  rewrite StringsFacts.Index_contains. tauto.
Qed.

(** The alias domains are the values of the labels whose name contains
    "interlock.alias_domain", each once per label, and neither the order of
    the map nor the iteration changes them but for their order; the same
    holds of the websocket endpoints and the backend options. *)
Theorem label_lists (R1 R2 : MapRange) n1 n2 config :
  let values label l := forall v, v ∈ l <->
    exists k, ctypes.Labels config !! k = Some v /\ exists a b, k = a +:+ label +:+ b in
  @utils.AliasDomains R1 n1 config ≡ₚ @utils.AliasDomains R2 n2 config /\
  values ext.InterlockAliasDomainLabel (@utils.AliasDomains R1 n1 config) /\
  @utils.WebsocketEndpoints R1 n1 config ≡ₚ @utils.WebsocketEndpoints R2 n2 config /\
  values ext.InterlockWebsocketEndpointLabel (@utils.WebsocketEndpoints R1 n1 config) /\
  @utils.BackendOptions R1 n1 config ≡ₚ @utils.BackendOptions R2 n2 config /\
  values ext.InterlockBackendOptionLabel (@utils.BackendOptions R1 n1 config).
Proof.
  intros values.
  assert (Hv : forall site n label, values label (@utils.matching_labels R1 site n config label)).
  { intros site n label v. rewrite matching_labels_perm, list_elem_of_fmap. split.
    - intros ([k v'] & -> & Hk%elem_of_labelled). by exists k.
    - intros (k & Hk). exists (k, v). split; [done|]. by apply elem_of_labelled. }
  repeat split; try apply Hv; unfold utils.AliasDomains, utils.WebsocketEndpoints, utils.BackendOptions;
    by rewrite !matching_labels_perm.
Qed.

(** A health check interval is never zero and is an integer of 64 bits. *)
Theorem health_check_interval_bounds config i :
  utils.HealthCheckInterval config = Ok i -> i <> 0%Z /\ (- 2 ^ 63 <= i < 2 ^ 63)%Z.
Proof.
  unfold utils.HealthCheckInterval. destruct (_ !! _) as [v|]; [|intros [= <-]; by unfold utils.DefaultHealthCheckInterval].
  case_decide; [|intros [= <-]; by unfold utils.DefaultHealthCheckInterval].
  destruct (Strconv.Atoi v) as [j|] eqn:Hj; [|done].
  apply StrconvFacts.Atoi_bounds in Hj. case_decide; intros [= <-]; [done|]. by unfold utils.DefaultHealthCheckInterval.
Qed.

(** The interval written in the label is the one that is used; only zero and
    the empty label stand for the default. *)
Theorem health_check_interval_roundtrip config i :
  ctypes.Labels config !! ext.InterlockHealthCheckIntervalLabel = Some (Strconv.Itoa i) ->
  (- 2 ^ 63 <= i < 2 ^ 63)%Z ->
  utils.HealthCheckInterval config = Ok (if decide (i = 0)%Z then utils.DefaultHealthCheckInterval else i).
Proof.
  intros Hl Hi. unfold utils.HealthCheckInterval. rewrite Hl.
  pose proof (StrconvFacts.Atoi_Itoa i Hi) as Hr.
  destruct (decide (Strconv.Itoa i <> "")) as [|Hne].
  - rewrite Hr. repeat case_decide; done.
  - apply dec_stable in Hne. by rewrite Hne in Hr.
Qed.
End Facts.

(** ** Witnesses *)

Lemma health_check_interval_bounds_witness :
  utils.HealthCheckInterval Cluster.web_config = Ok 5000%Z /\ 5000%Z <> 0%Z /\ (- 2 ^ 63 <= 5000 < 2 ^ 63)%Z.
Proof.
  assert (H : utils.HealthCheckInterval Cluster.web_config = Ok 5000%Z) by reflexivity.
  split; [exact H|exact (health_check_interval_bounds Cluster.web_config 5000 H)].
Defined.

Lemma health_check_interval_roundtrip_witness :
  exists config, ctypes.Labels config !! ext.InterlockHealthCheckIntervalLabel = Some (Strconv.Itoa (-250)) /\
    utils.HealthCheckInterval config = Ok (-250)%Z.
Proof.
  exists {| ctypes.Hostname := ""; ctypes.Domainname := ""; ctypes.ExposedPorts := ∅; ctypes.Image := "";
            ctypes.Labels := {[ext.InterlockHealthCheckIntervalLabel := Strconv.Itoa (-250)]} |}.
  split; [reflexivity|].
  apply (health_check_interval_roundtrip _ (-250)); [reflexivity|lia].
Defined.
