(* ===== verification/Config.v ===== *)
(** * Package config

    The configuration of the program and of its extensions, with the
    defaults an extension gets.  The TOML decoder is a parameter. *)

From S2P Require Import Prelude.

Record Rule := { Rule_Type : string; Rule_Regex : string }.

Record ExtensionConfig := {
  Name : string;
  ConfigPath : string;
  ConfigBasePath : string;
  PidPath : string;
  TemplatePath : string;
  BackendOverrideAddress : string;
  ConnectTimeout : Z;
  ServerTimeout : Z;
  ClientTimeout : Z;
  MaxConn : Z;
  Port : Z;
  SyslogAddr : string;
  AdminUser : string;
  AdminPass : string;
  SSLCertPath : string;
  SSLCert : string;
  SSLPort : Z;
  SSLOpts : string;
  SSLDefaultDHParam : Z;
  SSLServerVerify : string;
  DHParam : bool;
  DHParamPath : string;
  NginxPlusEnabled : bool;
  User : string;
  WorkerProcesses : Z;
  RLimitNoFile : Z;
  ProxyConnectTimeout : Z;
  ProxySendTimeout : Z;
  ProxyReadTimeout : Z;
  SendTimeout : Z;
  SSLCiphers : string;
  SSLProtocols : string;
  StatsInterval : string;
  StatsBackendType : string;
  StatsPrometheusPushGatewayURL : string;
  StatsInfluxDBAddress : string;
  StatsInfluxDBUser : string;
  StatsInfluxDBPassword : string;
  StatsInfluxDBDatabase : string;
  StatsInfluxDBPrecision : string;
  Rules : gmap string Rule;
}.

Record Config := {
  ListenAddr : string;
  DockerURL : string;
  TLSCACert : string;
  TLSCert : string;
  TLSKey : string;
  AllowInsecure : bool;
  EnableMetrics : bool;
  PollInterval : string;
  Extensions : list ExtensionConfig;
  Config_Rules : gmap string Rule;
}.

(** [if x == 0 { x = d }] and [if x == "" { x = d }] *)
Definition or_int (x d : Z) : Z := if decide (x = 0%Z) then d else x.
Definition or_string (x d : string) : string := if decide (x = "") then d else x.

Definition SetHAProxyConfigDefaults (c : ExtensionConfig) : ExtensionConfig :=
  {|
    Name := Name c;
    ConfigPath := ConfigPath c;
    ConfigBasePath := ConfigBasePath c;
    PidPath := PidPath c;
    TemplatePath := TemplatePath c;
    BackendOverrideAddress := BackendOverrideAddress c;
    ConnectTimeout := or_int (ConnectTimeout c) 5000;
    ServerTimeout := or_int (ServerTimeout c) 10000;
    ClientTimeout := or_int (ClientTimeout c) 10000;
    MaxConn := MaxConn c;
    Port := Port c;
    SyslogAddr := SyslogAddr c;
    AdminUser := or_string (AdminUser c) "admin";
    AdminPass := or_string (AdminPass c) "";
    SSLCertPath := SSLCertPath c;
    SSLCert := SSLCert c;
    SSLPort := SSLPort c;
    SSLOpts := SSLOpts c;
    SSLDefaultDHParam := or_int (SSLDefaultDHParam c) 1024;
    SSLServerVerify := or_string (SSLServerVerify c) "required";
    DHParam := DHParam c;
    DHParamPath := DHParamPath c;
    NginxPlusEnabled := NginxPlusEnabled c;
    User := User c;
    WorkerProcesses := WorkerProcesses c;
    RLimitNoFile := RLimitNoFile c;
    ProxyConnectTimeout := ProxyConnectTimeout c;
    ProxySendTimeout := ProxySendTimeout c;
    ProxyReadTimeout := ProxyReadTimeout c;
    SendTimeout := SendTimeout c;
    SSLCiphers := SSLCiphers c;
    SSLProtocols := SSLProtocols c;
    StatsInterval := StatsInterval c;
    StatsBackendType := StatsBackendType c;
    StatsPrometheusPushGatewayURL := StatsPrometheusPushGatewayURL c;
    StatsInfluxDBAddress := StatsInfluxDBAddress c;
    StatsInfluxDBUser := StatsInfluxDBUser c;
    StatsInfluxDBPassword := StatsInfluxDBPassword c;
    StatsInfluxDBDatabase := StatsInfluxDBDatabase c;
    StatsInfluxDBPrecision := StatsInfluxDBPrecision c;
    Rules := Rules c;
  |}.

Definition SetNginxConfigDefaults (c : ExtensionConfig) : ExtensionConfig :=
  {|
    Name := Name c;
    ConfigPath := ConfigPath c;
    ConfigBasePath := ConfigBasePath c;
    PidPath := PidPath c;
    TemplatePath := TemplatePath c;
    BackendOverrideAddress := BackendOverrideAddress c;
    ConnectTimeout := ConnectTimeout c;
    ServerTimeout := ServerTimeout c;
    ClientTimeout := ClientTimeout c;
    MaxConn := MaxConn c;
    Port := Port c;
    SyslogAddr := SyslogAddr c;
    AdminUser := AdminUser c;
    AdminPass := AdminPass c;
    SSLCertPath := SSLCertPath c;
    SSLCert := SSLCert c;
    SSLPort := SSLPort c;
    SSLOpts := SSLOpts c;
    SSLDefaultDHParam := SSLDefaultDHParam c;
    SSLServerVerify := SSLServerVerify c;
    DHParam := DHParam c;
    DHParamPath := DHParamPath c;
    NginxPlusEnabled := NginxPlusEnabled c;
    User := or_string (User c) "www-data";
    WorkerProcesses := or_int (WorkerProcesses c) 2;
    RLimitNoFile := or_int (RLimitNoFile c) 65535;
    ProxyConnectTimeout := or_int (ProxyConnectTimeout c) 600;
    ProxySendTimeout := or_int (ProxySendTimeout c) 600;
    ProxyReadTimeout := or_int (ProxyReadTimeout c) 600;
    SendTimeout := or_int (SendTimeout c) 600;
    SSLCiphers := or_string (SSLCiphers c) "HIGH:!aNULL:!MD5";
    SSLProtocols := or_string (SSLProtocols c) "SSLv3 TLSv1 TLSv1.1 TLSv1.2";
    StatsInterval := StatsInterval c;
    StatsBackendType := StatsBackendType c;
    StatsPrometheusPushGatewayURL := StatsPrometheusPushGatewayURL c;
    StatsInfluxDBAddress := StatsInfluxDBAddress c;
    StatsInfluxDBUser := StatsInfluxDBUser c;
    StatsInfluxDBPassword := StatsInfluxDBPassword c;
    StatsInfluxDBDatabase := StatsInfluxDBDatabase c;
    StatsInfluxDBPrecision := StatsInfluxDBPrecision c;
    Rules := Rules c;
  |}.

Definition SetBeaconConfigDefaults (c : ExtensionConfig) : ExtensionConfig :=
  {|
    Name := Name c;
    ConfigPath := ConfigPath c;
    ConfigBasePath := ConfigBasePath c;
    PidPath := PidPath c;
    TemplatePath := TemplatePath c;
    BackendOverrideAddress := BackendOverrideAddress c;
    ConnectTimeout := ConnectTimeout c;
    ServerTimeout := ServerTimeout c;
    ClientTimeout := ClientTimeout c;
    MaxConn := MaxConn c;
    Port := Port c;
    SyslogAddr := SyslogAddr c;
    AdminUser := AdminUser c;
    AdminPass := AdminPass c;
    SSLCertPath := SSLCertPath c;
    SSLCert := SSLCert c;
    SSLPort := SSLPort c;
    SSLOpts := SSLOpts c;
    SSLDefaultDHParam := SSLDefaultDHParam c;
    SSLServerVerify := SSLServerVerify c;
    DHParam := DHParam c;
    DHParamPath := DHParamPath c;
    NginxPlusEnabled := NginxPlusEnabled c;
    User := User c;
    WorkerProcesses := WorkerProcesses c;
    RLimitNoFile := RLimitNoFile c;
    ProxyConnectTimeout := ProxyConnectTimeout c;
    ProxySendTimeout := ProxySendTimeout c;
    ProxyReadTimeout := ProxyReadTimeout c;
    SendTimeout := SendTimeout c;
    SSLCiphers := SSLCiphers c;
    SSLProtocols := SSLProtocols c;
    StatsInterval := or_string (StatsInterval c) "30s";
    StatsBackendType := StatsBackendType c;
    StatsPrometheusPushGatewayURL := StatsPrometheusPushGatewayURL c;
    StatsInfluxDBAddress := StatsInfluxDBAddress c;
    StatsInfluxDBUser := StatsInfluxDBUser c;
    StatsInfluxDBPassword := StatsInfluxDBPassword c;
    StatsInfluxDBDatabase := StatsInfluxDBDatabase c;
    StatsInfluxDBPrecision := or_string (StatsInfluxDBPrecision c) "s";
    Rules := Rules c;
  |}.

(** The head of [SetConfigDefaults]. *)
Definition set_common_defaults (c : ExtensionConfig) : ExtensionConfig :=
  {|
    Name := Name c;
    ConfigPath := ConfigPath c;
    ConfigBasePath := ConfigBasePath c;
    PidPath := PidPath c;
    TemplatePath := TemplatePath c;
    BackendOverrideAddress := BackendOverrideAddress c;
    ConnectTimeout := ConnectTimeout c;
    ServerTimeout := ServerTimeout c;
    ClientTimeout := ClientTimeout c;
    MaxConn := or_int (MaxConn c) 1024;
    Port := or_int (Port c) 80;
    SyslogAddr := SyslogAddr c;
    AdminUser := AdminUser c;
    AdminPass := AdminPass c;
    SSLCertPath := SSLCertPath c;
    SSLCert := SSLCert c;
    SSLPort := SSLPort c;
    SSLOpts := SSLOpts c;
    SSLDefaultDHParam := SSLDefaultDHParam c;
    SSLServerVerify := SSLServerVerify c;
    DHParam := DHParam c;
    DHParamPath := DHParamPath c;
    NginxPlusEnabled := NginxPlusEnabled c;
    User := User c;
    WorkerProcesses := WorkerProcesses c;
    RLimitNoFile := RLimitNoFile c;
    ProxyConnectTimeout := ProxyConnectTimeout c;
    ProxySendTimeout := ProxySendTimeout c;
    ProxyReadTimeout := ProxyReadTimeout c;
    SendTimeout := SendTimeout c;
    SSLCiphers := SSLCiphers c;
    SSLProtocols := SSLProtocols c;
    StatsInterval := StatsInterval c;
    StatsBackendType := StatsBackendType c;
    StatsPrometheusPushGatewayURL := StatsPrometheusPushGatewayURL c;
    StatsInfluxDBAddress := StatsInfluxDBAddress c;
    StatsInfluxDBUser := StatsInfluxDBUser c;
    StatsInfluxDBPassword := StatsInfluxDBPassword c;
    StatsInfluxDBDatabase := StatsInfluxDBDatabase c;
    StatsInfluxDBPrecision := StatsInfluxDBPrecision c;
    Rules := Rules c;
  |}.

(** [SetConfigDefaults] never fails. *)
Definition SetConfigDefaults (c : ExtensionConfig) : ExtensionConfig :=
  let c := set_common_defaults c in
  if decide (Name c = "haproxy") then SetHAProxyConfigDefaults c
  else if decide (Name c = "nginx") then SetNginxConfigDefaults c
  else if decide (Name c = "beacon") then SetBeaconConfigDefaults c
  else c.

(** [ext.Rules = rules] *)
Definition set_Rules (rules : gmap string Rule) (c : ExtensionConfig) : ExtensionConfig :=
  {|
    Name := Name c;
    ConfigPath := ConfigPath c;
    ConfigBasePath := ConfigBasePath c;
    PidPath := PidPath c;
    TemplatePath := TemplatePath c;
    BackendOverrideAddress := BackendOverrideAddress c;
    ConnectTimeout := ConnectTimeout c;
    ServerTimeout := ServerTimeout c;
    ClientTimeout := ClientTimeout c;
    MaxConn := MaxConn c;
    Port := Port c;
    SyslogAddr := SyslogAddr c;
    AdminUser := AdminUser c;
    AdminPass := AdminPass c;
    SSLCertPath := SSLCertPath c;
    SSLCert := SSLCert c;
    SSLPort := SSLPort c;
    SSLOpts := SSLOpts c;
    SSLDefaultDHParam := SSLDefaultDHParam c;
    SSLServerVerify := SSLServerVerify c;
    DHParam := DHParam c;
    DHParamPath := DHParamPath c;
    NginxPlusEnabled := NginxPlusEnabled c;
    User := User c;
    WorkerProcesses := WorkerProcesses c;
    RLimitNoFile := RLimitNoFile c;
    ProxyConnectTimeout := ProxyConnectTimeout c;
    ProxySendTimeout := ProxySendTimeout c;
    ProxyReadTimeout := ProxyReadTimeout c;
    SendTimeout := SendTimeout c;
    SSLCiphers := SSLCiphers c;
    SSLProtocols := SSLProtocols c;
    StatsInterval := StatsInterval c;
    StatsBackendType := StatsBackendType c;
    StatsPrometheusPushGatewayURL := StatsPrometheusPushGatewayURL c;
    StatsInfluxDBAddress := StatsInfluxDBAddress c;
    StatsInfluxDBUser := StatsInfluxDBUser c;
    StatsInfluxDBPassword := StatsInfluxDBPassword c;
    StatsInfluxDBDatabase := StatsInfluxDBDatabase c;
    StatsInfluxDBPrecision := StatsInfluxDBPrecision c;
    Rules := rules;
  |}.

Section Parse.
(** [toml.Decode] into a [Config]. *)
Context (Decode : string -> res Config).

Definition ParseConfig (data : string) : res Config :=
  match Decode data with
  | Err e => Err e
  | Ok cfg =>
      Ok {|
        ListenAddr := ListenAddr cfg;
        DockerURL := DockerURL cfg;
        TLSCACert := TLSCACert cfg;
        TLSCert := TLSCert cfg;
        TLSKey := TLSKey cfg;
        AllowInsecure := AllowInsecure cfg;
        EnableMetrics := EnableMetrics cfg;
        PollInterval := PollInterval cfg;
        Extensions :=
          map (fun ext => set_Rules (Config_Rules cfg) (SetConfigDefaults ext)) (Extensions cfg);
        Config_Rules := Config_Rules cfg;
      |}
  end.
End Parse.

(** [c.ConfigBasePath = path] *)
Definition set_ConfigBasePath (path : string) (c : ExtensionConfig) : ExtensionConfig :=
  {|
    Name := Name c;
    ConfigPath := ConfigPath c;
    ConfigBasePath := path;
    PidPath := PidPath c;
    TemplatePath := TemplatePath c;
    BackendOverrideAddress := BackendOverrideAddress c;
    ConnectTimeout := ConnectTimeout c;
    ServerTimeout := ServerTimeout c;
    ClientTimeout := ClientTimeout c;
    MaxConn := MaxConn c;
    Port := Port c;
    SyslogAddr := SyslogAddr c;
    AdminUser := AdminUser c;
    AdminPass := AdminPass c;
    SSLCertPath := SSLCertPath c;
    SSLCert := SSLCert c;
    SSLPort := SSLPort c;
    SSLOpts := SSLOpts c;
    SSLDefaultDHParam := SSLDefaultDHParam c;
    SSLServerVerify := SSLServerVerify c;
    DHParam := DHParam c;
    DHParamPath := DHParamPath c;
    NginxPlusEnabled := NginxPlusEnabled c;
    User := User c;
    WorkerProcesses := WorkerProcesses c;
    RLimitNoFile := RLimitNoFile c;
    ProxyConnectTimeout := ProxyConnectTimeout c;
    ProxySendTimeout := ProxySendTimeout c;
    ProxyReadTimeout := ProxyReadTimeout c;
    SendTimeout := SendTimeout c;
    SSLCiphers := SSLCiphers c;
    SSLProtocols := SSLProtocols c;
    StatsInterval := StatsInterval c;
    StatsBackendType := StatsBackendType c;
    StatsPrometheusPushGatewayURL := StatsPrometheusPushGatewayURL c;
    StatsInfluxDBAddress := StatsInfluxDBAddress c;
    StatsInfluxDBUser := StatsInfluxDBUser c;
    StatsInfluxDBPassword := StatsInfluxDBPassword c;
    StatsInfluxDBDatabase := StatsInfluxDBDatabase c;
    StatsInfluxDBPrecision := StatsInfluxDBPrecision c;
    Rules := Rules c;
  |}.

(** ** Theorems *)

(** The fields of each type. *)
Definition int_fields : list (ExtensionConfig -> Z) :=
  [ConnectTimeout; ServerTimeout; ClientTimeout; MaxConn; Port; SSLPort; SSLDefaultDHParam;
   WorkerProcesses; RLimitNoFile; ProxyConnectTimeout; ProxySendTimeout; ProxyReadTimeout; SendTimeout].
Definition string_fields : list (ExtensionConfig -> string) :=
  [Name; ConfigPath; ConfigBasePath; PidPath; TemplatePath; BackendOverrideAddress; SyslogAddr;
   AdminUser; AdminPass; SSLCertPath; SSLCert; SSLOpts; SSLServerVerify; DHParamPath; User; SSLCiphers;
   SSLProtocols; StatsInterval; StatsBackendType; StatsPrometheusPushGatewayURL; StatsInfluxDBAddress;
   StatsInfluxDBUser; StatsInfluxDBPassword; StatsInfluxDBDatabase; StatsInfluxDBPrecision].
Definition bool_fields : list (ExtensionConfig -> bool) := [DHParam; NginxPlusEnabled].

Lemma or_int_idem x d : or_int (or_int x d) d = or_int x d.
Proof. unfold or_int. repeat case_decide; done. Qed.
Lemma or_string_idem x d : or_string (or_string x d) d = or_string x d.
Proof. unfold or_string. repeat case_decide; done. Qed.

(** The numbers and the texts of an extension, each with the value it has when
    it is left out: zero and the empty text are those without a default. *)
Definition int_values (name : string) : list ((ExtensionConfig -> Z) * Z) :=
  let h d := if decide (name = "haproxy") then d else 0%Z in
  let n d := if decide (name = "nginx") then d else 0%Z in
  [(MaxConn, 1024); (Port, 80); (SSLPort, 0);
   (ConnectTimeout, h 5000); (ServerTimeout, h 10000); (ClientTimeout, h 10000); (SSLDefaultDHParam, h 1024);
   (WorkerProcesses, n 2); (RLimitNoFile, n 65535); (ProxyConnectTimeout, n 600); (ProxySendTimeout, n 600);
   (ProxyReadTimeout, n 600); (SendTimeout, n 600)]%Z.
Definition string_values (name : string) : list ((ExtensionConfig -> string) * string) :=
  let h d := if decide (name = "haproxy") then d else "" in
  let n d := if decide (name = "nginx") then d else "" in
  let b d := if decide (name = "beacon") then d else "" in
  [(AdminUser, h "admin"); (SSLServerVerify, h "required");
   (User, n "www-data"); (SSLCiphers, n "HIGH:!aNULL:!MD5"); (SSLProtocols, n "SSLv3 TLSv1 TLSv1.1 TLSv1.2");
   (StatsInterval, b "30s"); (StatsInfluxDBPrecision, b "s");
   (Name, ""); (ConfigPath, ""); (ConfigBasePath, ""); (PidPath, ""); (TemplatePath, ""); (BackendOverrideAddress, "");
   (SyslogAddr, ""); (AdminPass, ""); (SSLCertPath, ""); (SSLCert, ""); (SSLOpts, ""); (DHParamPath, "");
   (StatsBackendType, ""); (StatsPrometheusPushGatewayURL, ""); (StatsInfluxDBAddress, ""); (StatsInfluxDBUser, "");
   (StatsInfluxDBPassword, ""); (StatsInfluxDBDatabase, "")].

Lemma or_int_zero x : or_int x 0 = x.
Proof. unfold or_int. by case_decide. Qed.
Lemma or_string_empty x : or_string x "" = x.
Proof. unfold or_string. by case_decide. Qed.

(** C39: The defaults, field by field: a number or a text that is set is kept,
    one that is left out gets the value its extension has for it, which for
    the fields without a default is zero or the empty text; the booleans and
    the rules are kept. *)
Theorem config_defaults_exact c :
  Forall (fun '(f, d) => f (SetConfigDefaults c) = if decide (f c = 0%Z) then d else f c) (int_values (Name c)) /\
  Forall (fun '(f, d) => f (SetConfigDefaults c) = if decide (f c = "") then d else f c) (string_values (Name c)) /\
  Forall (fun f => f (SetConfigDefaults c) = f c) bool_fields /\
  Rules (SetConfigDefaults c) = Rules c.
Proof.
  unfold SetConfigDefaults, int_values, string_values. simpl. repeat case_decide; try congruence;
    repeat first [split | apply Forall_cons | apply Forall_nil]; cbn -[or_int or_string];
    first [done | by rewrite or_int_zero | by case_decide].
Qed.

(** The table has all the fields. *)
Lemma values_complete name :
  (map fst (int_values name) ≡ₚ int_fields) /\ (map fst (string_values name) ≡ₚ string_fields).
Proof. split; unfold int_values, string_values, int_fields, string_fields; simpl; solve_Permutation. Qed.

(** Configurations with the same fields are equal. *)
Lemma ExtensionConfig_ext a b :
  Forall (fun f => f a = f b) int_fields -> Forall (fun f => f a = f b) string_fields ->
  Forall (fun f => f a = f b) bool_fields -> Rules a = Rules b -> a = b.
Proof.
  destruct a, b. unfold int_fields, string_fields, bool_fields. rewrite !Forall_cons. simpl.
  intros Hi Hs Hb ->. decompose [and] Hi. decompose [and] Hs. decompose [and] Hb. by subst.
Qed.

(** The defaults of an extension of the given name. *)
Definition defaults_of (name : string) (c : ExtensionConfig) : ExtensionConfig :=
  let c := set_common_defaults c in
  if decide (name = "haproxy") then SetHAProxyConfigDefaults c
  else if decide (name = "nginx") then SetNginxConfigDefaults c
  else if decide (name = "beacon") then SetBeaconConfigDefaults c
  else c.

(** Field by field: none has its default set twice. *)
Ltac by_field :=
  repeat (apply Forall_cons; split; [first [apply or_int_idem | apply or_string_idem | reflexivity]|]); by apply Forall_nil.

Lemma defaults_of_idem name c : defaults_of name (defaults_of name c) = defaults_of name c.
Proof.
  unfold defaults_of. repeat case_decide; (apply ExtensionConfig_ext; [by_field..|reflexivity]).
Qed.
Lemma SetConfigDefaults_name c : Name (SetConfigDefaults c) = Name c.
Proof. unfold SetConfigDefaults. repeat case_decide; reflexivity. Qed.

Lemma SetConfigDefaults_idem c : SetConfigDefaults (SetConfigDefaults c) = SetConfigDefaults c.
Proof.
  assert (Hd : forall c, SetConfigDefaults c = defaults_of (Name c) c) by reflexivity.
  rewrite (Hd (SetConfigDefaults c)), SetConfigDefaults_name, Hd. apply defaults_of_idem.
Qed.

(** A parsed configuration: its extensions are those of the text, in order,
    by name; each has its defaults and the rules of the top level. *)
Theorem parse_config_extensions Decode data cfg :
  ParseConfig Decode data = Ok cfg ->
  exists raw, Decode data = Ok raw /\
    map Name (Extensions cfg) = map Name (Extensions raw) /\ PollInterval cfg = PollInterval raw /\
    Forall (fun e => SetConfigDefaults e = e /\ Rules e = Config_Rules cfg) (Extensions cfg).
Proof.
  unfold ParseConfig. destruct (Decode data) as [raw|]; [|done]. intros [= <-]. exists raw. simpl.
  assert (Hr : forall e r, SetConfigDefaults (set_Rules r e) = set_Rules r (SetConfigDefaults e)).
  { intros e r. unfold SetConfigDefaults. simpl. repeat case_decide; done. }
  split; [done|]. split; [|split; [done|]].
  - rewrite map_map. apply map_ext. intros e. simpl. apply SetConfigDefaults_name.
  - apply Forall_forall. intros e (e' & -> & _)%list_elem_of_fmap. split; [|done].
    by rewrite Hr, SetConfigDefaults_idem.
Qed.

(** ** Witnesses *)

Definition extension_of (name interval : string) : ExtensionConfig := {|
  Name := name; ConfigPath := "/etc/nginx/nginx.conf"; ConfigBasePath := ""; PidPath := ""; TemplatePath := "";
  BackendOverrideAddress := ""; ConnectTimeout := 0; ServerTimeout := 0; ClientTimeout := 0; MaxConn := 0; Port := 0;
  SyslogAddr := ""; AdminUser := ""; AdminPass := ""; SSLCertPath := ""; SSLCert := ""; SSLPort := 0; SSLOpts := "";
  SSLDefaultDHParam := 0; SSLServerVerify := ""; DHParam := false; DHParamPath := ""; NginxPlusEnabled := false;
  User := ""; WorkerProcesses := 0; RLimitNoFile := 0; ProxyConnectTimeout := 0; ProxySendTimeout := 0;
  ProxyReadTimeout := 0; SendTimeout := 0; SSLCiphers := ""; SSLProtocols := ""; StatsInterval := interval;
  StatsBackendType := "prometheus"; StatsPrometheusPushGatewayURL := ""; StatsInfluxDBAddress := ""; StatsInfluxDBUser := "";
  StatsInfluxDBPassword := ""; StatsInfluxDBDatabase := ""; StatsInfluxDBPrecision := ""; Rules := ∅;
|}.
Definition empty_extension (name : string) : ExtensionConfig := extension_of name "".
Definition small_config : Config := {|
  ListenAddr := ":8080"; DockerURL := "unix:///var/run/docker.sock"; TLSCACert := ""; TLSCert := ""; TLSKey := "";
  AllowInsecure := false; EnableMetrics := true; PollInterval := "";
  Extensions := [empty_extension "nginx"; empty_extension "beacon"];
  Config_Rules := {["r" := {| Rule_Type := "image"; Rule_Regex := ".*" |}]};
|}.

Lemma parse_config_extensions_witness :
  exists cfg, ParseConfig (fun _ => Ok small_config) "text" = Ok cfg /\
    map Name (Extensions cfg) = ["nginx"; "beacon"] /\
    Forall (fun e => SetConfigDefaults e = e /\ Rules e = Config_Rules cfg) (Extensions cfg).
Proof.
  eexists. split; [reflexivity|].
  destruct (parse_config_extensions (fun _ => Ok small_config) "text" _ eq_refl) as (raw & [= <-] & Hn & _ & Hf).
  exact (conj Hn Hf).
Defined.
