(* ===== verification/Network.v ===== *)
(** * Addresses of upstream servers

    [ext/lb/utils/network.go], and the part the two [GenerateProxyConfig]
    have in common: which domain a container serves and at which address. *)

From S2P Require Import Prelude GoStd Docker Labels.

Section Network.
Context `{MapRange}.

(** ** network.go *)

Definition BackendOverlayAddress (n : nat) (network : types.NetworkResource)
    (containerInfo : types.ContainerJSON) : outcome (res string) :=
  match types.n_Containers network !! types.ci_ID containerInfo with
  | None =>
      mret (Err (ErrorString ("container " +:+ types.ci_ID containerInfo +:+
                              " is not connected to network " +:+ types.n_Name network)))
  | Some c =>
      match Net.ParseCIDR (types.IPv4Address c) with
      | Err err => mret (Err err)
      | Ok ip =>
          settings ← deref (types.ci_NetworkSettings containerInfo);
          let ports := types.ci_Ports settings in
          let HostIP := Net.IP_String ip in
          (* parse the port *)
          HostPort ←
            match list_find (fun '(k, _) => k <> "") (range "BackendOverlayAddress" n ports) with
            | Some (_, (k, _)) => at_index (Strings.Split k "/"%char) 0
            | None => mret ""
            end;
          (* check for custom port *)
          config ← deref (types.ci_Config containerInfo);
          let HostPort :=
            match ctypes.Labels config !! ext.InterlockPortLabel with
            | Some v => v
            | None => HostPort
            end in
          mret (Ok (HostIP +:+ ":" +:+ HostPort))
      end
  end.

Definition BackendAddress (n : nat) (containerInfo : types.ContainerJSON)
    (backendOverrideAddress : string) : outcome (res string) :=
  settings ← deref (types.ci_NetworkSettings containerInfo);
  let ports := types.ci_Ports settings in
  (* parse the published port *)
  let portDef :=
    match list_find (fun '(_, v) => 0 < length v) (range "BackendAddress/published" n ports) with
    | Some (_, (_, b :: _)) => b
    | _ => {| nat_.HostIP := ""; nat_.HostPort := "" |}
    end in
  let HostIP :=
    if decide (backendOverrideAddress <> "") then backendOverrideAddress else nat_.HostIP portDef in
  (* check for custom port *)
  config ← deref (types.ci_Config containerInfo);
  HostPort ←
    match ctypes.Labels config !! ext.InterlockPortLabel with
    | Some interlockPort =>
        match list_find (fun '(k, _) => head (Strings.Split k "/"%char) = Some interlockPort)
                (range "BackendAddress/custom" n ports) with
        | Some (_, (_, x)) => port ← at_index x 0; mret (nat_.HostPort port)
        | None => mret (nat_.HostPort portDef)
        end
    | None => mret (nat_.HostPort portDef)
    end;
  mret (Ok (HostIP +:+ ":" +:+ HostPort)).

(** ** The routing part of GenerateProxyConfig *)

(** The domain a container serves: [None] when the loop skips it. *)
Definition service_domain (config : ctypes.Config) : option string :=
  let hostname := utils.Hostname config in
  let domain := utils.Domain config in
  (* context root *)
  let contextRoot := utils.ContextRoot config in
  let contextRootName := Strings.ReplaceAll contextRoot "/" "_" in
  if decide (domain = "" /\ contextRoot = "") then None
  else
    (* a context root overwrites the domain *)
    Some (if decide (contextRoot <> "") then contextRootName
          else if decide (hostname <> domain /\ hostname <> "") then hostname +:+ "." +:+ domain
          else domain).

(** Whether some port is published. *)
Definition ports_exposed (n : nat) (ports : nat_.PortMap) : bool :=
  bool_decide (is_Some (list_find (fun '(_, portBindings) => length portBindings <> 0)
                          (range "portsExposed" n ports))).

(** The address of a container, with the overlay network it is reached
    through if any: [None] when the loop skips the container. *)
Definition resolve_address `{World} (BackendOverrideAddress : string)
    (cInfo : types.ContainerJSON) (config : ctypes.Config) : M (option (string * option string)) :=
  match utils.OverlayEnabled config with
  | (n, true) =>
      network ← NetworkInspect n;
      match network with
      | Err _ => mret None
      | Ok network =>
          t ← tick;
          addr ← pure (BackendOverlayAddress t network cInfo);
          match addr with
          | Err _ => mret None
          | Ok addr => mret (Some (addr, Some n))
          end
      end
  | (_, false) =>
      t ← tick;
      settings ← pure (deref (types.ci_NetworkSettings cInfo));
      if ports_exposed t (types.ci_Ports settings) then
        addr ← pure (BackendAddress t cInfo BackendOverrideAddress);
        match addr with
        | Err _ => mret None
        | Ok addr => mret (Some (addr, None))
        end
      else mret None
  end.
End Network.

(** ** Routes

    The reference reading of the generators: each container of the list
    yields at most one route, and a configuration is a function of the
    routes. *)

(** What an iteration learns about a container it does not skip. *)
Record route := {
  rt_domain : string;
  rt_name : string;
  rt_config : ctypes.Config;
  rt_addr : option (string * option string);
  rt_options : list string;
  rt_tick : nat;
}.

Definition routes_of (k : string) (rs : list route) : list route :=
  filter (fun r => rt_domain r = k) rs.
(** A route is admitted when it has an address. *)
Definition admitted (r : route) : Prop := is_Some (rt_addr r).
#[export] Instance admitted_dec r : Decision (admitted r).
Proof. unfold admitted. apply _. Defined.
Definition admitted_of (k : string) (rs : list route) : list route :=
  filter admitted (routes_of k rs).
Definition addr_of (r : route) : list string :=
  match rt_addr r with Some (a, _) => [a] | None => [] end.
Definition networks_of (r : route) : list string :=
  match rt_addr r with Some (_, Some n) => [n] | _ => [] end.
Definition aliases_of `{MapRange} (r : route) : list string :=
  match rt_addr r with Some _ => utils.AliasDomains (rt_tick r) (rt_config r) | None => [] end.
(** Who sets the context root of [k]: a route of that domain, or an admitted
    route with [k] among its aliases. *)
Definition sets_root `{MapRange} (k : string) (r : route) : Prop := rt_domain r = k \/ k ∈ aliases_of r.
#[export] Instance sets_root_dec `{MapRange} k r : Decision (sets_root k r).
Proof. unfold sets_root. apply _. Defined.
(** The attribute [f] of the last route of the domain. *)
Definition last_flag {A} (f : ctypes.Config -> A) (k : string) (rs : list route) : option A :=
  last (map (f ∘ rt_config) (routes_of k rs)).

(** The domains with an admitted route. *)
Definition served_domains (rs : list route) : list string :=
  remove_dups (map rt_domain (filter admitted rs)).

Lemma elem_of_served k rs : k ∈ served_domains rs <-> flat_map addr_of (routes_of k rs) <> [].
Proof.
  unfold served_domains. rewrite elem_of_remove_dups, list_elem_of_fmap.
  assert (Hr : forall r, admitted r <-> exists a, a ∈ addr_of r).
  { intros r. unfold admitted, addr_of. destruct (rt_addr r) as [[a n]|].
    - split; [|by eauto]. intros _. exists a. set_solver.
    - split; [by intros []|]. set_solver. }
  split.
  - intros (r & -> & [Ha Hin]%list_elem_of_filter).
    apply Hr in Ha as [a Ha]. intros Hnil.
    apply (not_elem_of_nil a). rewrite <- Hnil. apply list_elem_of_In, in_flat_map.
    exists r. split; apply list_elem_of_In; [|done]. by apply list_elem_of_filter.
  - destruct (flat_map addr_of (routes_of k rs)) as [|a l] eqn:Hl; [done|]. intros _.
    assert (Hin : In a (flat_map addr_of (routes_of k rs))) by (rewrite Hl; by left).
    apply in_flat_map in Hin as (r & [Hd Hr']%list_elem_of_In%list_elem_of_filter & Ha%list_elem_of_In).
    exists r. split; [done|]. apply list_elem_of_filter. split; [|done]. apply Hr. eauto.
Qed.

Lemma routes_of_served k rs : k ∈ served_domains rs -> routes_of k rs <> [].
Proof. rewrite elem_of_served. intros Hn Hr. by rewrite Hr in Hn. Qed.

Lemma routes_of_snoc k rs r :
  routes_of k (rs ++ [r]) = routes_of k rs ++ (if decide (rt_domain r = k) then [r] else []).
Proof.
  unfold routes_of. rewrite filter_app. f_equal.
Qed.

Lemma admitted_of_snoc k rs r :
  admitted_of k (rs ++ [r]) =
  admitted_of k rs ++ (if decide (rt_domain r = k /\ admitted r) then [r] else []).
Proof.
  unfold admitted_of. rewrite routes_of_snoc, filter_app. f_equal.
  destruct (decide (rt_domain r = k)).
  - rewrite filter_cons. simpl. destruct (decide (admitted r)), (decide (rt_domain r = k /\ admitted r)); naive_solver.
  - rewrite decide_False; naive_solver.
Qed.

Lemma last_flag_snoc {A} (f : ctypes.Config -> A) k rs r :
  last_flag f k (rs ++ [r]) =
  if decide (rt_domain r = k) then Some (f (rt_config r)) else last_flag f k rs.
Proof.
  unfold last_flag. rewrite routes_of_snoc. case_decide.
  - rewrite map_app. simpl. by rewrite last_snoc.
  - by rewrite app_nil_r.
Qed.

(** Three kinds of maps a loop over routes fills, each from itself alone. *)
Section Loops.
Context {S A : Type} (p : S -> gmap string A) (step : S -> route -> S) (s0 : S).
Context (p_start : p s0 = ∅).

Lemma last_flag_loop (f : ctypes.Config -> A) rs k :
  (forall s r, p (step s r) = <[rt_domain r := f (rt_config r)]> (p s)) ->
  p (fold_left step rs s0) !! k = last_flag f k rs.
Proof.
  intros Hp. apply (fold_left_spec (fun s => p s !! k) step (fun rs => last_flag f k rs)).
  - by rewrite p_start.
  - intros s l r IH. by rewrite Hp, last_flag_snoc, lookup_insert, IH.
Qed.

Lemma last_value_loop (g : route -> list A) rs k :
  (forall s r, p (step s r) = fold_left (fun m v => <[rt_domain r := v]> m) (g r) (p s)) ->
  p (fold_left step rs s0) !! k = last (flat_map g (routes_of k rs)).
Proof.
  intros Hp.
  apply (fold_left_spec (fun s => p s !! k) step (fun rs => last (flat_map g (routes_of k rs)))).
  - by rewrite p_start.
  - intros s l r IH. rewrite Hp, routes_of_snoc, flat_map_app.
    rewrite lookup_insert_values, IH. case_decide; simpl.
    + rewrite app_nil_r, last_app. by destruct (last (g r)).
    + by rewrite app_nil_r.
Qed.

Lemma first_value_loop (g : route -> list A) rs k :
  (forall s r, p (step s r) =
    match g r with
    | [] => p s
    | v :: _ => match p s !! rt_domain r with Some _ => p s | None => <[rt_domain r := v]> (p s) end
    end) ->
  p (fold_left step rs s0) !! k = head (flat_map g (routes_of k rs)).
Proof.
  intros Hp.
  apply (fold_left_spec (fun s => p s !! k) step (fun rs => head (flat_map g (routes_of k rs)))).
  - by rewrite p_start.
  - intros s l r IH. rewrite Hp, routes_of_snoc, flat_map_app.
    destruct (decide (rt_domain r = k)) as [<-|Hne]; simpl.
    + rewrite app_nil_r. destruct (g r) as [|v vs]; [by rewrite app_nil_r|].
      destruct (p s !! rt_domain r) eqn:Hd; rewrite ?lookup_insert_eq, ?Hd;
        destruct (flat_map g (routes_of (rt_domain r) l)); naive_solver.
    + rewrite app_nil_r, <- IH. destruct (g r); [done|]. case_match; [done|].
      by rewrite lookup_insert_ne.
Qed.
End Loops.

Lemma append_loop {S A} (p : S -> gmap string (list A)) step s0 (g : route -> list A) rs k :
  p s0 = ∅ ->
  (forall s r, p (step s r) = fold_left (fun m v => append_at (rt_domain r) v m) (g r) (p s)) ->
  p (fold_left step rs s0) !! k = entry (flat_map g (routes_of k rs)).
Proof.
  intros Hp0 Hp.
  apply (fold_left_spec (fun s => p s !! k) step (fun rs => entry (flat_map g (routes_of k rs)))).
  - by rewrite Hp0.
  - intros s l r IH. rewrite Hp, routes_of_snoc, flat_map_app, lookup_append_all, IH.
    case_decide; simpl; rewrite app_nil_r; [|done].
    destruct (g r) eqn:Hg; [by rewrite app_nil_r|].
    rewrite default_entry, entry_app_cons; done.
Qed.

(** ** Addresses *)

Lemma Split_cons s sep : exists w ws, Strings.Split s sep = w :: ws.
Proof.
  destruct s as [|c s]; simpl; [by eauto|]. case_decide; [by eauto|].
  destruct (Strings.Split s sep); eauto.
Qed.

(** The number of a port such as "80/tcp". *)
Definition port_number (k : string) : string := default "" (head (Strings.Split k "/"%char)).

Lemma head_Split s sep : head (Strings.Split s sep) = Some (default "" (head (Strings.Split s sep))).
Proof. by destruct (Split_cons s sep) as (w & ws & ->). Qed.

(** The address published by a container: a port of the inspection with a
    binding, and its first binding. *)
Definition published (ports : nat_.PortMap) (k : string) (b : nat_.PortBinding) : Prop :=
  exists bs, ports !! k = Some (b :: bs).

(** What a custom port must name for the address to be defined: no exposed
    port with that number is left unpublished. *)
Definition custom_port_published (config : ctypes.Config) (ports : nat_.PortMap) : Prop :=
  forall p k bs, ctypes.Labels config !! ext.InterlockPortLabel = Some p ->
    ports !! k = Some bs -> port_number k = p -> bs <> [].

Section Addresses.
Context `{MapRange}.

Lemma list_find_range {A} (P : string * A -> Prop) `{forall x, Decision (P x)} site n (m : gmap string A) :
  match list_find P (range site n m) with
  | Some (_, (k, v)) => m !! k = Some v /\ P (k, v)
  | None => forall k v, m !! k = Some v -> ~ P (k, v)
  end.
Proof.
  destruct (list_find P _) as [[i [k v]]|] eqn:Hf.
  - apply list_find_Some in Hf as (Hi & HP & _). split; [|done].
    apply (elem_of_range site n). by eapply list_elem_of_lookup_2.
  - apply list_find_None in Hf. rewrite Forall_forall in Hf. intros k v Hk. apply Hf. by apply elem_of_range.
Qed.

(** The binding the address starts from: the first of some published port, or
    the empty one when no port is published. *)
Definition starting_binding (ports : nat_.PortMap) (b : nat_.PortBinding) : Prop :=
  (exists k, published ports k b) \/
  (b = {| nat_.HostIP := ""; nat_.HostPort := "" |} /\ forall k b', ~ published ports k b').

(** C36: Every outcome of [BackendAddress] on an inspected container, whatever
    the order of its ports.  The host part is the override, or the host
    address of a published port, or empty when no port is published.  Without
    the label, the port part is the host port of the same binding; with it, it
    is that of a published port of the number in the label, or, when no
    exposed port has that number, that of the same binding.  It panics only on
    a port that has the number of the label and is exposed but not published,
    and it does when all the ports of that number are. *)
Theorem backend_address_outcomes n c override config settings :
  types.ci_Config c = Some config -> types.ci_NetworkSettings c = Some settings ->
  let ports := types.ci_Ports settings in
  (exists p k, ctypes.Labels config !! ext.InterlockPortLabel = Some p /\ ports !! k = Some [] /\ port_number k = p /\
     BackendAddress n c override = Panic "index out of range") \/
  exists bh bp, starting_binding ports bh /\
    BackendAddress n c override =
      Val (Ok ((if decide (override <> "") then override else nat_.HostIP bh) +:+ ":" +:+ nat_.HostPort bp)) /\
    match ctypes.Labels config !! ext.InterlockPortLabel with
    | Some p =>
        (exists k, published ports k bp /\ port_number k = p) \/
        (bp = bh /\ forall k bs, ports !! k = Some bs -> port_number k <> p)
    | None => bp = bh
    end.
Proof.
  intros Hc Hs ports. unfold BackendAddress. rewrite Hs, Hc. cbn -[list_find].
  set (def := match list_find (fun '(_, v) => 0 < length v) _ with Some _ => _ | None => _ end).
  assert (Hdef : starting_binding ports def).
  { unfold def. pose proof (list_find_range (fun '(_, v) => 0 < length v) "BackendAddress/published" n (types.ci_Ports settings)) as Hpub.
    destruct (list_find _ _) as [[i [k [|b bs]]]|]; [simpl in Hpub; lia|left; exists k, bs; by destruct Hpub|].
    right. split; [done|]. intros k b [bs Hk]. specialize (Hpub _ _ Hk). simpl in Hpub. lia. }
  destruct (ctypes.Labels config !! ext.InterlockPortLabel) as [p|] eqn:Hp; [|right; by exists def, def].
  pose proof (list_find_range (fun '(k, _) => head (Strings.Split k "/"%char) = Some p)
    "BackendAddress/custom" n (types.ci_Ports settings)) as Hmatch.
  destruct (list_find (fun '(k, _) => _ = Some p) _) as [[j [kp vp]]|].
  - destruct Hmatch as [Hkp Hvp]. rewrite head_Split in Hvp. injection Hvp as Hvp.
    destruct vp as [|bp bsp]; [left; by exists p, kp|right].
    exists def, bp. split; [done|]. split; [done|]. left. exists kp. by split; [exists bsp|].
  - right. exists def, def. split; [done|]. split; [done|]. right. split; [done|].
    intros k bs Hk Hn. eapply Hmatch; [exact Hk|]. by rewrite head_Split; f_equal.
Qed.

(** A custom port that is exposed but not published makes [BackendAddress]
    panic, if it is the only port with that number. *)
Theorem backend_address_panics n c override config settings p :
  types.ci_Config c = Some config -> types.ci_NetworkSettings c = Some settings ->
  ctypes.Labels config !! ext.InterlockPortLabel = Some p ->
  (exists k, types.ci_Ports settings !! k = Some [] /\ port_number k = p) ->
  (forall k bs, types.ci_Ports settings !! k = Some bs -> port_number k = p -> bs = []) ->
  BackendAddress n c override = Panic "index out of range".
Proof.
  intros Hc Hs Hp (k & Hk & Hkp) Hall.
  unfold BackendAddress. rewrite Hs, Hc. cbn -[list_find]. rewrite Hp.
  pose proof (list_find_range (fun '(k, _) => head (Strings.Split k "/"%char) = Some p)
    "BackendAddress/custom" n (types.ci_Ports settings)) as Hmatch.
  destruct (list_find (fun '(k, _) => _ = Some p) _) as [[j [kp vp]]|].
  - destruct Hmatch as [Hkp' Hvp]. rewrite head_Split in Hvp. injection Hvp as Hvp.
    by rewrite (Hall _ _ Hkp' Hvp).
  - exfalso. eapply Hmatch; [exact Hk|]. by rewrite head_Split; f_equal.
Qed.

(** ** Soundness of an inspection *)

(** An inspection the generators cannot panic on: nothing is nil and a
    custom port is published. *)
Definition sound_info (c : types.ContainerJSON) : Prop :=
  exists config settings, types.ci_Config c = Some config /\ types.ci_NetworkSettings c = Some settings /\
    custom_port_published config (types.ci_Ports settings).

Lemma BackendAddress_returns n c override : sound_info c -> exists a, BackendAddress n c override = Val (Ok a).
Proof.
  intros (config & settings & Hc & Hs & Hcustom). unfold BackendAddress. rewrite Hs, Hc. cbn -[list_find].
  destruct (ctypes.Labels config !! ext.InterlockPortLabel) as [p|] eqn:Hp; [|eexists; reflexivity].
  pose proof (list_find_range (fun '(k, _) => head (Strings.Split k "/"%char) = Some p)
    "BackendAddress/custom" n (types.ci_Ports settings)) as Hmatch.
  destruct (list_find (fun '(k, _) => _ = Some p) _) as [[j [kp vp]]|]; [|eexists; reflexivity].
  destruct Hmatch as [Hkp Hvp]. rewrite head_Split in Hvp. injection Hvp as Hvp.
  destruct vp as [|bp bsp]; [by destruct (Hcustom p kp [] Hp Hkp Hvp)|]. eexists; reflexivity.
Qed.

Lemma BackendOverlayAddress_returns n network c :
  sound_info c -> exists a, BackendOverlayAddress n network c = Val a.
Proof.
  intros (config & settings & Hc & Hs & _). unfold BackendOverlayAddress. rewrite Hs, Hc.
  destruct (types.n_Containers network !! types.ci_ID c); [|by eexists].
  destruct (Net.ParseCIDR _); [|by eexists]. cbn -[list_find].
  destruct (list_find _ _) as [[i [k b]]|]; [|by eexists].
  unfold at_index. destruct (Split_cons k "/"%char) as (w & ws & ->). by eexists.
Qed.

Lemma resolve_address_returns `{World} override c config h :
  sound_info c -> wp (resolve_address override c config) h (fun o _ => exists a, o = Val a).
Proof.
  intros Hc. unfold resolve_address, NetworkInspect. destruct (utils.OverlayEnabled config) as [n []].
  - wp_step. destruct (reply_NetworkInspect _ _) as [network|]; [|wp_step; by eexists].
    wp_step. apply wp_bind, wp_pure. destruct (BackendOverlayAddress_returns (length ((h ++ [ENetworkInspect n]))) network c Hc) as [a ->].
    destruct a; wp_step; by eexists.
  - wp_step. apply wp_bind, wp_pure. destruct Hc as (config' & settings & Hc' & Hs & Hp). rewrite Hs. simpl.
    destruct (ports_exposed _ _); [|wp_step; by eexists].
    apply wp_bind, wp_pure. destruct (BackendAddress_returns (length h) c override) as [a ->]; [by exists config', settings|].
    wp_step. by eexists.
Qed.

(** The address of a container on an overlay network: its IPv4 address
    there, without the mask, and the label's port, or the number of some port
    the container exposes. *)
Theorem overlay_address n network c config settings ip1 ip2 ip3 ip4 bits :
  types.ci_Config c = Some config -> types.ci_NetworkSettings c = Some settings ->
  NetFacts.byte ip1 -> NetFacts.byte ip2 -> NetFacts.byte ip3 -> NetFacts.byte ip4 -> (0 <= bits <= 32)%Z ->
  types.n_Containers network !! types.ci_ID c =
    Some {| types.IPv4Address := NetFacts.dotted ip1 ip2 ip3 ip4 +:+ "/" +:+ Strconv.Itoa bits |} ->
  exists port,
    BackendOverlayAddress n network c = Val (Ok (NetFacts.dotted ip1 ip2 ip3 ip4 +:+ ":" +:+ port)) /\
    match ctypes.Labels config !! ext.InterlockPortLabel with
    | Some p => port = p
    | None =>
        (exists k bs, types.ci_Ports settings !! k = Some bs /\ k <> "" /\ port = port_number k) \/
        (port = "" /\ forall k bs, types.ci_Ports settings !! k = Some bs -> k = "")
    end.
Proof.
  intros Hc Hs H1 H2 H3 H4 Hbits Hn. unfold BackendOverlayAddress. rewrite Hn, Hs, Hc.
  cbn [types.IPv4Address]. rewrite NetFacts.ParseCIDR_dotted by done. rewrite NetFacts.IP_String_dotted by done.
  cbn -[list_find NetFacts.dotted].
  pose proof (list_find_range (fun '(k, _) => k <> "") "BackendOverlayAddress" n (types.ci_Ports settings)) as Hf.
  destruct (list_find _ _) as [[i [k bs]]|].
  - destruct Hf as [Hk Hne]. unfold at_index. destruct (Split_cons k "/"%char) as (w & ws & Hw). rewrite Hw.
    eexists. split; [reflexivity|].
    destruct (_ !! ext.InterlockPortLabel); [done|]. left. exists k, bs. unfold port_number. by rewrite Hw.
  - eexists. split; [reflexivity|].
    destruct (_ !! ext.InterlockPortLabel); [done|]. right. split; [done|].
    intros k bs Hk. specialize (Hf _ _ Hk). simpl in Hf. by destruct (decide (k = "")).
Qed.
End Addresses.

(** ** Witnesses *)

Section Witnesses.
Import Cluster.
Local Existing Instance sorted_range.

Definition web_settings : types.NetworkSettings :=
  {| types.ci_Ports := {["80/tcp" := [{| nat_.HostIP := "10.0.0.1"; nat_.HostPort := "32768" |}]]};
     types.ci_Networks := {["bridge" := tt; "extra" := tt]} |}.

Lemma backend_address_outcomes_witness :
  exists bh bp, BackendAddress 0 web_info "" = Val (Ok (nat_.HostIP bh +:+ ":" +:+ nat_.HostPort bp)) /\ bp = bh /\
    starting_binding (types.ci_Ports web_settings) bh.
Proof.
  destruct (backend_address_outcomes 0 web_info "" web_config web_settings eq_refl eq_refl)
    as [(p & k & Hp & _)|(bh & bp & Hh & Ha & Hp)].
  - discriminate Hp.
  - exists bh, bp. exact (conj Ha (conj Hp Hh)).
Defined.

(** The port named by the label is exposed but not published. *)
Definition unpublished : types.ContainerJSON := {|
  types.ci_ID := "dddddddddddd"; types.ci_Name := "/db";
  types.ci_Config := Some {|
    ctypes.Hostname := "db"; ctypes.Domainname := ""; ctypes.Image := "db"; ctypes.ExposedPorts := {["9000/tcp" := tt]};
    ctypes.Labels := {[ext.InterlockPortLabel := "9000"]} |};
  types.ci_NetworkSettings := Some {| types.ci_Ports := {["9000/tcp" := []]}; types.ci_Networks := ∅ |};
|}.

Lemma backend_address_panics_witness :
  exists c, c = unpublished /\ BackendAddress 0 c "" = Panic "index out of range".
Proof.
  exists unpublished. split; [reflexivity|].
  apply (backend_address_panics 0 unpublished "" _ _ "9000" eq_refl eq_refl eq_refl).
  - exists "9000/tcp". split; reflexivity.
  - intros k bs Hk _. simpl in Hk. apply lookup_singleton_Some in Hk as [_ <-]. reflexivity.
Defined.

Lemma overlay_address_witness :
  exists port, BackendOverlayAddress 0 overlay api_info = Val (Ok ("10.1.0.5:" +:+ port)) /\
    ((exists k bs, ({["8080/tcp" := []]} : nat_.PortMap) !! k = Some bs /\ k <> "" /\ port = port_number k) \/
     (port = "" /\ forall k bs, ({["8080/tcp" := []]} : nat_.PortMap) !! k = Some bs -> k = "")).
Proof.
  apply (overlay_address 0 overlay api_info api_config
    {| types.ci_Ports := {["8080/tcp" := []]}; types.ci_Networks := {["overlay" := tt]} |} 10 1 0 5 24
    eq_refl eq_refl); [unfold NetFacts.byte; lia..|lia|reflexivity].
Defined.
End Witnesses.

(** The inspections of the small cluster are sound. *)
Lemma cluster_sound h id c :
  @reply_ContainerInspect Cluster.cluster h id = Ok c -> sound_info c /\ 1 <= String.length (types.ci_Name c).
Proof.
  simpl. destruct (_ !! id) as [c'|] eqn:Hc; [|done]. intros [= <-]. revert id c' Hc.
  apply (map_Forall_insert_2 (fun _ c' => sound_info c' /\ 1 <= String.length (types.ci_Name c')));
    [|apply (map_Forall_singleton (fun _ c' => sound_info c' /\ 1 <= String.length (types.ci_Name c')))].
  all: split; [|simpl; lia]; eexists _, _; split; [reflexivity|]; split; [reflexivity|].
  all: intros p k bs Hp; discriminate Hp.
Qed.

(** Two context roots with one name: containers of "/a/b" and "/a_b" become
    servers of one host. *)
Example roots_collide :
  let config root := {| ctypes.Hostname := ""; ctypes.Domainname := ""; ctypes.Image := ""; ctypes.ExposedPorts := ∅;
                        ctypes.Labels := {[ext.InterlockContextRootLabel := root]} |} in
  service_domain (config "/a/b") = service_domain (config "/a_b") /\
  utils.ContextRoot (config "/a/b") <> utils.ContextRoot (config "/a_b").
Proof. by vm_compute. Qed.
