(* ===== verification/Nginx.v ===== *)
(** * The nginx load balancer

    [ext/lb/nginx]: the configuration generated from the containers of the
    cluster, and the reload of the proxy containers. *)

From S2P Require Import Prelude GoStd Docker Labels Config Network.

Module nginx.

(** ** config.go *)

Record Server := { Addr : string }.
Record Upstream_ := { Up_Name : string; Servers : list Server }.
Record ContextRoot_ := { CR_Name : string; CR_Path : string }.
Record Host := {
  ServerNames : list string;
  Port : Z;
  ContextRoot : option ContextRoot_;
  ContextRootRewrite : bool;
  SSLPort : Z;
  SSL : bool;
  SSLCert : string;
  SSLCertKey : string;
  SSLOnly : bool;
  SSLBackend : bool;
  Upstream : Upstream_;
  WebsocketEndpoints : list string;
  IPHash : bool;
}.
Record Config_ := {
  Hosts : list Host;
  Config : ExtensionConfig;
  Networks : gmap string string;
}.

(** ** generate.go *)

(** The maps [GenerateProxyConfig] fills. *)
Record tables := {
  upstreamServers : gmap string (list string);
  serverNames : gmap string (list string);
  hostContextRoots : gmap string ContextRoot_;
  hostContextRootRewrites : gmap string bool;
  hostSSL : gmap string bool;
  hostSSLCert : gmap string string;
  hostSSLCertKey : gmap string string;
  hostSSLOnly : gmap string bool;
  hostSSLBackend : gmap string bool;
  hostWebsocketEndpoints : gmap string (list string);
  hostIPHash : gmap string bool;
  networks : gmap string string;
}.
Definition no_tables : tables := {|
  upstreamServers := ∅; serverNames := ∅; hostContextRoots := ∅; hostContextRootRewrites := ∅;
  hostSSL := ∅; hostSSLCert := ∅; hostSSLCertKey := ∅; hostSSLOnly := ∅; hostSSLBackend := ∅;
  hostWebsocketEndpoints := ∅; hostIPHash := ∅; networks := ∅;
|}.

(** The assignments of an iteration before it looks for an address. *)
Definition set_flags (SSLCertPath domain : string) (config : ctypes.Config) (s : tables) : tables :=
  let contextRoot := utils.ContextRoot config in
  let contextRootName := Strings.ReplaceAll contextRoot "/"%char "_" in
  let certName := utils.SSLCertName config in
  let certKeyName := utils.SSLCertKey config in
  {|
    hostContextRoots :=
      <[domain := {| CR_Name := contextRootName; CR_Path := contextRoot |}]> (hostContextRoots s);
    hostContextRootRewrites := <[domain := utils.ContextRootRewrite config]> (hostContextRootRewrites s);
    serverNames :=
      match serverNames s !! domain with
      | Some _ => serverNames s
      | None => <[domain := [domain]]> (serverNames s)
      end;
    hostSSL := <[domain := utils.SSLEnabled config]> (hostSSL s);
    hostSSLOnly := <[domain := utils.SSLOnly config]> (hostSSLOnly s);
    hostIPHash := <[domain := utils.IPHash config]> (hostIPHash s);
    hostSSLBackend := <[domain := utils.SSLBackend config]> (hostSSLBackend s);
    hostSSLCert :=
      if decide (certName <> "")
      then <[domain := Path.Join [SSLCertPath; certName]]> (hostSSLCert s)
      else hostSSLCert s;
    hostSSLCertKey :=
      if decide (certKeyName <> "")
      then <[domain := Path.Join [SSLCertPath; certKeyName]]> (hostSSLCertKey s)
      else hostSSLCertKey s;
    upstreamServers := upstreamServers s;
    hostWebsocketEndpoints := hostWebsocketEndpoints s;
    networks := networks s;
  |}.

(** The assignments of an iteration that found an address: [ws] and
    [aliases] are the websocket endpoints and the alias domains. *)
Definition add_upstream (domain : string) (config : ctypes.Config) (ws aliases : list string)
    (addr : string) (network : option string) (s : tables) : tables :=
  let contextRoot := utils.ContextRoot config in
  let contextRootName := Strings.ReplaceAll contextRoot "/"%char "_" in
  {|
    networks := match network with Some n => <[n := ""]> (networks s) | None => networks s end;
    hostWebsocketEndpoints :=
      fold_left (fun m w => append_at domain w m) ws (hostWebsocketEndpoints s);
    serverNames := fold_left (fun m alias => append_at domain alias m) aliases (serverNames s);
    hostContextRoots :=
      fold_left (fun m alias => <[alias := {| CR_Name := contextRootName; CR_Path := contextRoot |}]> m)
        aliases (hostContextRoots s);
    upstreamServers := append_at domain addr (upstreamServers s);
    hostContextRootRewrites := hostContextRootRewrites s;
    hostSSL := hostSSL s;
    hostSSLCert := hostSSLCert s;
    hostSSLCertKey := hostSSLCertKey s;
    hostSSLOnly := hostSSLOnly s;
    hostSSLBackend := hostSSLBackend s;
    hostIPHash := hostIPHash s;
  |}.

(** The host built for the domain [k] with upstream addresses [v]; a map
    without the key yields the zero value. *)
Definition make_host (cfg : ExtensionConfig) (s : tables) (kv : string * list string) : Host :=
  let '(k, v) := kv in
  {|
    ServerNames := default [] (serverNames s !! k);
    Port := Config.Port cfg;
    ContextRoot := hostContextRoots s !! k;
    ContextRootRewrite := default false (hostContextRootRewrites s !! k);
    SSLPort := Config.SSLPort cfg;
    SSL := default false (hostSSL s !! k);
    SSLCert := default "" (hostSSLCert s !! k);
    SSLCertKey := default "" (hostSSLCertKey s !! k);
    SSLOnly := default false (hostSSLOnly s !! k);
    SSLBackend := default false (hostSSLBackend s !! k);
    Upstream := {| Up_Name := k; Servers := map (fun a => {| Addr := a |}) v |};
    WebsocketEndpoints := default [] (hostWebsocketEndpoints s !! k);
    IPHash := default false (hostIPHash s !! k);
  |}.

Section Generate.
Context `{MapRange} `{World}.
Context (cfg : ExtensionConfig).

(** One iteration of the loop over the containers. *)
Definition process (s : tables) (c : types.Container) : M tables :=
  cntId ← pure (Strings.prefix_slice (types.c_ID c) 12);
  (* load interlock data *)
  cInfo ← ContainerInspect (types.c_ID c);
  match cInfo with
  | Err _ => mret s
  | Ok cInfo =>
      config ← pure (deref (types.ci_Config cInfo));
      match service_domain config with
      | None => mret s
      | Some domain =>
          let s := set_flags (Config.SSLCertPath cfg) domain config s in
          addr ← resolve_address (Config.BackendOverrideAddress cfg) cInfo config;
          match addr with
          | None => mret s
          | Some (addr, network) =>
              t ← tick;
              let websocketEndpoints := utils.WebsocketEndpoints t config in
              let aliasDomains := utils.AliasDomains t config in
              mret (add_upstream domain config websocketEndpoints aliasDomains addr network s)
          end
      end
  end.

Definition GenerateProxyConfig (containers : list types.Container) : M (res Config_) :=
  s ← foldM process no_tables containers;
  t ← tick;
  mret (Ok {|
    Hosts := map (make_host cfg s) (range "nginx/upstreamServers" t (upstreamServers s));
    Config := cfg;
    Networks := networks s;
  |}).

(** ** nginx.go *)

Definition reload_container (cnt : types.Container) : M unit :=
  err ← ContainerKill (types.c_ID cnt) "HUP";
  match err with
  | Some _ => _ ← pure (Strings.prefix_slice (types.c_ID cnt) 12); mret tt
  | None =>
      _ ← pure (Strings.prefix_slice (types.c_ID cnt) 12);
      _ ← pure (at_index (types.c_Names cnt) 0);
      mret tt
  end.

Definition Reload (proxyContainers : list types.Container) : M (option error) :=
  _ ← forM reload_container proxyContainers;
  mret None.

(** ** Reference reading of generate.go *)

(** The calls of an iteration, without its assignments. *)
Definition observe (c : types.Container) : M (option route) :=
  cntId ← pure (Strings.prefix_slice (types.c_ID c) 12);
  cInfo ← ContainerInspect (types.c_ID c);
  match cInfo with
  | Err _ => mret None
  | Ok cInfo =>
      config ← pure (deref (types.ci_Config cInfo));
      match service_domain config with
      | None => mret None
      | Some domain =>
          addr ← resolve_address (Config.BackendOverrideAddress cfg) cInfo config;
          t ← tick;
          mret (Some {| rt_domain := domain; rt_name := types.ci_Name cInfo; rt_config := config;
                        rt_addr := addr; rt_options := []; rt_tick := t |})
      end
  end.

Definition websockets_of (r : route) : list string :=
  match rt_addr r with Some _ => utils.WebsocketEndpoints (rt_tick r) (rt_config r) | None => [] end.
Definition root_of (r : route) : ContextRoot_ :=
  {| CR_Name := Strings.ReplaceAll (utils.ContextRoot (rt_config r)) "/"%char "_";
     CR_Path := utils.ContextRoot (rt_config r) |}.
Definition cert_path (f : ctypes.Config -> string) (r : route) : list string :=
  if decide (f (rt_config r) <> "")
  then [Path.Join [Config.SSLCertPath cfg; f (rt_config r)]] else [].

(** The host of the domain [k], from the routes of the containers. *)
Definition spec_host (rs : list route) (k : string) : Host :=
  let flag f := default false (last_flag f k rs) in
  {|
    ServerNames := k :: flat_map aliases_of (routes_of k rs);
    Port := Config.Port cfg;
    ContextRoot := root_of <$> last (filter (sets_root k) rs);
    ContextRootRewrite := flag utils.ContextRootRewrite;
    SSLPort := Config.SSLPort cfg;
    SSL := flag utils.SSLEnabled;
    SSLCert := default "" (last (flat_map (cert_path utils.SSLCertName) (routes_of k rs)));
    SSLCertKey := default "" (last (flat_map (cert_path utils.SSLCertKey) (routes_of k rs)));
    SSLOnly := flag utils.SSLOnly;
    SSLBackend := flag utils.SSLBackend;
    Upstream := {| Up_Name := k; Servers := map Build_Server (flat_map addr_of (routes_of k rs)) |};
    WebsocketEndpoints := flat_map websockets_of (routes_of k rs);
    IPHash := flag utils.IPHash;
  |}.

(** The assignments of an iteration, as a function of the route. *)
Definition apply_route (s : tables) (r : route) : tables :=
  let s := set_flags (Config.SSLCertPath cfg) (rt_domain r) (rt_config r) s in
  match rt_addr r with
  | None => s
  | Some (addr, network) =>
      add_upstream (rt_domain r) (rt_config r)
        (utils.WebsocketEndpoints (rt_tick r) (rt_config r))
        (utils.AliasDomains (rt_tick r) (rt_config r)) addr network s
  end.
Definition apply_observation (s : tables) (o : option route) : tables :=
  match o with Some r => apply_route s r | None => s end.

(** ** Lemmas *)

Lemma nginx_process_observe s c h : process s c h = (o ← observe c; mret (apply_observation s o)) h.
Proof.
  unfold process, observe, mbind, mret, comp_bind, comp_ret, pure, tick.
  repeat (case_match; simplify_eq/=; try done).
Qed.

(** What the loop leaves in each map, from the routes it went through. *)
Definition after (rs : list route) : tables := fold_left apply_route rs no_tables.


Ltac by_cases_of_route :=
  intros s r; unfold apply_route, addr_of, websockets_of, cert_path;
  destruct (rt_addr r) as [[a [n|]]|]; simpl; repeat case_decide; done.

Lemma nginx_after_flags rs k :
  hostContextRootRewrites (after rs) !! k = last_flag utils.ContextRootRewrite k rs /\
  hostSSL (after rs) !! k = last_flag utils.SSLEnabled k rs /\
  hostSSLOnly (after rs) !! k = last_flag utils.SSLOnly k rs /\
  hostSSLBackend (after rs) !! k = last_flag utils.SSLBackend k rs /\
  hostIPHash (after rs) !! k = last_flag utils.IPHash k rs.
Proof. unfold after. repeat split; (apply last_flag_loop; [done|by_cases_of_route]). Qed.

Lemma after_certs rs k :
  hostSSLCert (after rs) !! k = last (flat_map (cert_path utils.SSLCertName) (routes_of k rs)) /\
  hostSSLCertKey (after rs) !! k = last (flat_map (cert_path utils.SSLCertKey) (routes_of k rs)).
Proof. unfold after. repeat split; (apply last_value_loop; [done|by_cases_of_route]). Qed.

Lemma after_appended rs k :
  upstreamServers (after rs) !! k = entry (flat_map addr_of (routes_of k rs)) /\
  hostWebsocketEndpoints (after rs) !! k = entry (flat_map websockets_of (routes_of k rs)).
Proof. unfold after. split; (apply append_loop; [done|by_cases_of_route]). Qed.

Lemma serverNames_step s r k :
  serverNames (apply_route s r) !! k =
  if decide (rt_domain r = k) then Some (default [k] (serverNames s !! k) ++ aliases_of r)
  else serverNames s !! k.
Proof.
  assert (Hf : forall c, serverNames (set_flags (Config.SSLCertPath cfg) (rt_domain r) c s) !! k =
    if decide (rt_domain r = k) then Some (default [k] (serverNames s !! k)) else serverNames s !! k).
  { intros c. simpl. destruct (serverNames s !! rt_domain r) eqn:Hd; case_decide; subst;
      rewrite ?lookup_insert_eq, ?lookup_insert_ne, ?Hd by done; done. }
  unfold apply_route, aliases_of.
  destruct (rt_addr r) as [[a n]|]; [|rewrite Hf; case_decide; by rewrite ?app_nil_r].
  unfold add_upstream. cbn [serverNames]. rewrite lookup_append_all, Hf. case_decide; [|done].
  simpl. case_match; by rewrite ?app_nil_r.
Qed.

Lemma after_serverNames rs k :
  serverNames (after rs) !! k =
  match routes_of k rs with
  | [] => None
  | rs' => Some (k :: flat_map aliases_of rs')
  end.
Proof.
  unfold after.
  apply (fold_left_spec (fun s => serverNames s !! k) apply_route
    (fun rs => match routes_of k rs with [] => None | rs' => Some (k :: flat_map aliases_of rs') end)); [done|].
  intros s l r IH. rewrite routes_of_snoc, serverNames_step, IH. case_decide; [|by rewrite app_nil_r].
  destruct (routes_of k l); simpl; by rewrite ?flat_map_app, ?app_nil_r; simpl; rewrite ?app_nil_r, ?app_assoc.
Qed.

Lemma nginx_hostContextRoots_step s r k :
  hostContextRoots (apply_route s r) !! k =
  if decide (sets_root k r) then Some (root_of r) else hostContextRoots s !! k.
Proof.
  transitivity (if decide (k ∈ aliases_of r) then Some (root_of r)
    else <[rt_domain r := root_of r]> (hostContextRoots s) !! k).
  - unfold apply_route, aliases_of.
    destruct (rt_addr r) as [[a n]|]; simpl; [by rewrite lookup_insert_all|done].
  - rewrite lookup_insert. unfold sets_root. destruct (decide (k ∈ aliases_of r)), (decide (rt_domain r = k)), (decide (rt_domain r = k \/ k ∈ aliases_of r)); tauto.
Qed.

Lemma nginx_after_hostContextRoots rs k :
  hostContextRoots (after rs) !! k = root_of <$> last (filter (sets_root k) rs).
Proof.
  unfold after.
  apply (fold_left_spec (fun s => hostContextRoots s !! k) apply_route
    (fun rs => root_of <$> last (filter (sets_root k) rs))); [done|].
  intros s l r IH. rewrite nginx_hostContextRoots_step, IH, filter_app, filter_cons. case_decide.
  - rewrite filter_nil. by rewrite last_snoc.
  - rewrite filter_nil. by rewrite app_nil_r.
Qed.

Lemma nginx_networks_step s r n :
  networks (apply_route s r) !! n = if decide (n ∈ networks_of r) then Some "" else networks s !! n.
Proof.
  unfold apply_route, networks_of. destruct (rt_addr r) as [[a [m|]]|]; simpl; [|done..].
  rewrite lookup_insert. repeat case_decide; set_solver.
Qed.

Lemma nginx_after_networks rs n :
  networks (after rs) !! n = if decide (n ∈ flat_map networks_of rs) then Some "" else None.
Proof.
  unfold after.
  apply (fold_left_spec (fun s => networks s !! n) apply_route
    (fun rs => if decide (n ∈ flat_map networks_of rs) then Some "" else None) rs no_tables); [done|].
  intros s l r IH. rewrite flat_map_app. simpl. rewrite app_nil_r, nginx_networks_step, IH.
  repeat case_decide; set_solver.
Qed.

Lemma nginx_make_host_spec rs k :
  k ∈ served_domains rs ->
  make_host cfg (after rs) (k, flat_map addr_of (routes_of k rs)) = spec_host rs k.
Proof.
  intros Hk%routes_of_served. unfold make_host, spec_host.
  destruct (nginx_after_flags rs k) as (-> & -> & -> & -> & ->).
  destruct (after_certs rs k) as (-> & ->).
  destruct (after_appended rs k) as (_ & ->).
  rewrite default_entry, after_serverNames, nginx_after_hostContextRoots.
  destruct (routes_of k rs); [done|reflexivity].
Qed.

Lemma nginx_apply_observations os s :
  fold_left apply_observation os s = fold_left apply_route (omap id os) s.
Proof. revert s. induction os as [|[r|] os IH]; intros s; simpl; [done|..]; apply IH. Qed.

Lemma nginx_hosts_spec site t rs :
  map (make_host cfg (after rs)) (range site t (upstreamServers (after rs))) ≡ₚ
  map (spec_host rs) (served_domains rs).
Proof.
  apply (map_range_perm _ _ _ (fun k => flat_map addr_of (routes_of k rs))).
  - apply NoDup_remove_dups.
  - intros k. apply elem_of_served.
  - intros k. apply after_appended.
  - intros k. apply nginx_make_host_spec.
Qed.

(** [GenerateProxyConfig], through the observations. *)
Lemma nginx_generate_at cs h :
  GenerateProxyConfig cs h =
  match mapM observe cs h with
  | (Val os, h') =>
      (Val (Ok {| Hosts := map (make_host cfg (after (omap id os)))
                             (range "nginx/upstreamServers" (length h') (upstreamServers (after (omap id os))));
                  Config := cfg; Networks := networks (after (omap id os)) |}), h')
  | (Panic w, h') => (Panic w, h')
  | (Exit w, h') => (Exit w, h')
  end.
Proof.
  unfold GenerateProxyConfig. rewrite bind_at.
  rewrite (foldM_mapM _ observe apply_observation) by apply nginx_process_observe.
  rewrite bind_at. destruct (mapM observe cs h) as [[os|w|w] h']; [|done..].
  cbn [mret comp_ret]. by rewrite nginx_apply_observations.
Qed.

(** A host of a configuration: it has a server, its first server name is its
    upstream's, it has a context root, and listens where the extension says. *)
Definition host_ok (hst : Host) : Prop :=
  Servers (Upstream hst) <> [] /\ head (ServerNames hst) = Some (Up_Name (Upstream hst)) /\
  is_Some (ContextRoot hst) /\ Port hst = Config.Port cfg /\ SSLPort hst = Config.SSLPort cfg.

Lemma nginx_spec_host_ok rs k : k ∈ served_domains rs -> host_ok (spec_host rs k).
Proof.
  intros Hk. repeat split; simpl.
  - intros Hs%map_eq_nil. by apply elem_of_served in Hk.
  - apply routes_of_served in Hk. apply fmap_is_Some.
    destruct (filter (sets_root k) rs) eqn:Hf; [|rewrite last_cons; destruct (last _); by eexists].
    exfalso. apply Hk. unfold routes_of. destruct (filter (fun r => rt_domain r = k) rs) as [|r l] eqn:Hr; [done|].
    assert (Hin : r ∈ filter (fun r => rt_domain r = k) rs) by (rewrite Hr; left).
    apply list_elem_of_filter in Hin as [Hd Hin].
    exfalso. apply (not_elem_of_nil r). rewrite <- Hf. apply list_elem_of_filter. split; [by left|done].
Qed.

Lemma nginx_process_returns s c :
  12 <= String.length (types.c_ID c) ->
  (forall h id c, reply_ContainerInspect h id = Ok c -> sound_info c) -> returns (process s c).
Proof.
  intros Hid Hsound. unfold process, Strings.prefix_slice. rewrite decide_True by done.
  apply returns_bind; [apply returns_pure|intros _].
  apply returns_call_bind. intros h. destruct (reply_ContainerInspect _ _) as [c'|] eqn:Hc; [|apply returns_ret].
  apply Hsound in Hc. pose proof Hc as (config & settings & -> & _).
  apply returns_bind; [apply returns_pure|intros config'].
  destruct (service_domain config'); [|apply returns_ret].
  apply returns_bind; [intros h'; by apply resolve_address_returns|].
  intros [[a n]|]; [|apply returns_ret]. apply returns_bind; [apply returns_tick|]. intros t. apply returns_ret.
Qed.

(** ** Theorems *)

(** C1: [GenerateProxyConfig] implements its reference reading, on every
    behaviour of the daemon and every order of the maps: it makes the calls
    of [observe] for each container in turn and nothing else, and returns the
    reference host of each served domain, once, with the overlay networks of
    the admitted containers; it panics exactly where the observations do. *)
Theorem nginx_generate_refines cs h :
  match mapM observe cs h with
  | (Val os, h') =>
      exists r, GenerateProxyConfig cs h = (Val (Ok r), h') /\
        Hosts r ≡ₚ map (spec_host (omap id os)) (served_domains (omap id os)) /\
        Config r = cfg /\
        forall n, Networks r !! n =
          if decide (n ∈ flat_map networks_of (omap id os)) then Some "" else None
  | (Panic w, h') => GenerateProxyConfig cs h = (Panic w, h')
  | (Exit w, h') => GenerateProxyConfig cs h = (Exit w, h')
  end.
Proof.
  rewrite nginx_generate_at. destruct (mapM observe cs h) as [[os|w|w] h']; [|done..].
  eexists. split; [reflexivity|]. split; [apply nginx_hosts_spec|]. split; [done|]. apply nginx_after_networks.
Qed.

(** The hosts of a configuration are well formed, with distinct upstreams. *)
Theorem nginx_hosts_ok cs h :
  match (GenerateProxyConfig cs h).1 with
  | Val (Ok r) => NoDup (map (fun hst => Up_Name (Upstream hst)) (Hosts r)) /\ Forall host_ok (Hosts r)
  | Val (Err _) => False
  | _ => True
  end.
Proof.
  rewrite nginx_generate_at. destruct (mapM observe cs h) as [[os|w|w] h']; [|done..]. simpl.
  pose proof (nginx_hosts_spec "nginx/upstreamServers" (length h') (omap id os)) as Hp.
  split.
  - rewrite (Permutation_map _ Hp), map_map. simpl. rewrite map_id. apply NoDup_remove_dups.
  - rewrite Hp. apply Forall_forall. intros hst (k & -> & Hk)%list_elem_of_fmap. by apply nginx_spec_host_ok.
Qed.

(** The generation returns a configuration if the daemon's inspections are
    sound, whatever fails. *)
Theorem nginx_generate_returns cs h :
  Forall (fun c => 12 <= String.length (types.c_ID c)) cs ->
  (forall h id c, reply_ContainerInspect h id = Ok c -> sound_info c) ->
  exists r h', GenerateProxyConfig cs h = (Val (Ok r), h').
Proof.
  intros Hids Hsound. unfold GenerateProxyConfig. rewrite bind_at. rewrite Forall_forall in Hids.
  destruct (returns_val (foldM process no_tables cs) h) as (s & new & ->); [|by eexists _, _].
  apply returns_foldM. intros s c Hc. apply nginx_process_returns; auto.
Qed.

Lemma reload_container_at c h :
  12 <= String.length (types.c_ID c) -> types.c_Names c <> [] ->
  reload_container c h = (Val tt, h ++ [EContainerKill (types.c_ID c) "HUP"]).
Proof.
  intros Hid Hn. unfold reload_container, ContainerKill, call, Strings.prefix_slice. rewrite bind_at, decide_True by done.
  destruct (reply_ContainerKill _ _ _); [done|]. by destruct (types.c_Names c).
Qed.

(** A reload sends the signal to each container once, in order, even after
    a failure. *)
Theorem nginx_reload_signals cs h :
  Forall (fun c => 12 <= String.length (types.c_ID c) /\ types.c_Names c <> []) cs ->
  Reload cs h = (Val None, h ++ map (fun c => EContainerKill (types.c_ID c) "HUP") cs).
Proof.
  intros Hcs. unfold Reload. rewrite bind_at.
  assert (Hl : forall h, forM reload_container cs h = (Val tt, h ++ map (fun c => EContainerKill (types.c_ID c) "HUP") cs)).
  { clear h. induction Hcs as [|c cs [Hid Hn] _ IH]; intros h; simpl; [by rewrite app_nil_r|].
    rewrite bind_at, reload_container_at, IH by done. by rewrite <- app_assoc. }
  by rewrite Hl.
Qed.
End Generate.
End nginx.

(** ** Witnesses *)

Section Witnesses.
Local Existing Instance sorted_range.
Local Existing Instance Cluster.cluster.

Lemma nginx_generate_returns_witness :
  exists r h', nginx.GenerateProxyConfig (empty_extension "nginx") [Cluster.web; Cluster.api; Cluster.proxy] [] =
    (Val (Ok r), h') /\ length h' = 4.
Proof.
  destruct (nginx.nginx_generate_returns (empty_extension "nginx") [Cluster.web; Cluster.api; Cluster.proxy] [])
    as (r & h' & Hr).
  - apply Forall_forall. intros c Hc. repeat (apply elem_of_cons in Hc as [->|Hc]; [simpl; lia|]). by apply elem_of_nil in Hc.
  - intros h id c Hc. exact (proj1 (cluster_sound h id c Hc)).
  - exists r, h'. split; [exact Hr|]. apply (f_equal (fun x => length x.2)) in Hr. by vm_compute in Hr.
Defined.

Lemma nginx_reload_signals_witness :
  nginx.Reload [Cluster.proxy] [] = (Val None, [EContainerKill "cccccccccccc" "HUP"]).
Proof.
  apply (nginx.nginx_reload_signals [Cluster.proxy] []). apply Forall_singleton. split; [simpl; lia|discriminate].
Defined.
End Witnesses.
