(* ===== verification/HAProxy.v ===== *)
(** * The haproxy load balancer

    [ext/lb/haproxy]: the configuration generated from the containers of the
    cluster, the packet filter rules around a restart, and the restart of
    the proxy containers. *)

From S2P Require Import Prelude GoStd Docker Labels Config Network.

Module haproxy.

(** ** config.go *)

Record ContextRoot_ := { CR_Name : string; CR_Path : string }.
Record Upstream := { Container : string; Addr : string; CheckInterval : Z }.
Record Host := {
  Name : string;
  ContextRoot : option ContextRoot_;
  ContextRootRewrite : bool;
  Domain : string;
  Check_ : string;
  BackendOptions : list string;
  Upstreams : list Upstream;
  SSLOnly : bool;
  SSLBackend : bool;
  SSLBackendTLSVerify : string;
  BalanceAlgorithm : string;
}.
Record Config_ := {
  Hosts : list Host;
  Config : ExtensionConfig;
  Networks : gmap string string;
}.

(** ** generate.go *)

(** The maps [GenerateProxyConfig] fills. *)
Record tables := {
  proxyUpstreams : gmap string (list Upstream);
  hostChecks : gmap string string;
  hostBalanceAlgorithms : gmap string string;
  hostContextRoots : gmap string ContextRoot_;
  hostContextRootRewrites : gmap string bool;
  hostBackendOptions : gmap string (list string);
  hostSSLOnly : gmap string bool;
  hostSSLBackend : gmap string bool;
  hostSSLBackendTLSVerify : gmap string string;
  networks : gmap string string;
}.
Definition no_tables : tables := {|
  proxyUpstreams := ∅; hostChecks := ∅; hostBalanceAlgorithms := ∅; hostContextRoots := ∅;
  hostContextRootRewrites := ∅; hostBackendOptions := ∅; hostSSLOnly := ∅; hostSSLBackend := ∅;
  hostSSLBackendTLSVerify := ∅; networks := ∅;
|}.

(** The assignments of an iteration before it reads the check interval. *)
Definition set_root (domain : string) (config : ctypes.Config) (s : tables) : tables :=
  let contextRoot := utils.ContextRoot config in
  let contextRootName := Strings.ReplaceAll contextRoot "/"%char "_" in
  {|
    hostContextRoots :=
      <[domain := {| CR_Name := contextRootName; CR_Path := contextRoot |}]> (hostContextRoots s);
    hostContextRootRewrites := <[domain := utils.ContextRootRewrite config]> (hostContextRootRewrites s);
    proxyUpstreams := proxyUpstreams s;
    hostChecks := hostChecks s;
    hostBalanceAlgorithms := hostBalanceAlgorithms s;
    hostBackendOptions := hostBackendOptions s;
    hostSSLOnly := hostSSLOnly s;
    hostSSLBackend := hostSSLBackend s;
    hostSSLBackendTLSVerify := hostSSLBackendTLSVerify s;
    networks := networks s;
  |}.

(** The assignments between the check interval and the address. *)
Definition set_flags (domain : string) (config : ctypes.Config) (backendOptions : list string)
    (s : tables) : tables :=
  let healthCheck := utils.HealthCheck config in
  {|
    hostChecks :=
      if decide (healthCheck <> "") then
        match hostChecks s !! domain with
        | Some _ => hostChecks s
        | None => <[domain := healthCheck]> (hostChecks s)
        end
      else hostChecks s;
    hostBalanceAlgorithms := <[domain := utils.BalanceAlgorithm config]> (hostBalanceAlgorithms s);
    hostBackendOptions :=
      if decide (0 < length backendOptions)
      then <[domain := backendOptions]> (hostBackendOptions s)
      else hostBackendOptions s;
    hostSSLOnly := <[domain := utils.SSLOnly config]> (hostSSLOnly s);
    hostSSLBackend := <[domain := utils.SSLBackend config]> (hostSSLBackend s);
    hostSSLBackendTLSVerify :=
      <[domain := utils.SSLBackendTLSVerify config]> (hostSSLBackendTLSVerify s);
    hostContextRoots := hostContextRoots s;
    hostContextRootRewrites := hostContextRootRewrites s;
    proxyUpstreams := proxyUpstreams s;
    networks := networks s;
  |}.

(** The assignments of an iteration that found an address. *)
Definition add_upstream (domain : string) (config : ctypes.Config) (aliases : list string)
    (up : Upstream) (network : option string) (s : tables) : tables :=
  let contextRoot := utils.ContextRoot config in
  let contextRootName := Strings.ReplaceAll contextRoot "/"%char "_" in
  {|
    networks := match network with Some n => <[n := ""]> (networks s) | None => networks s end;
    proxyUpstreams :=
      append_at domain up (fold_left (fun m alias => append_at alias up m) aliases (proxyUpstreams s));
    hostContextRoots :=
      fold_left (fun m alias => <[alias := {| CR_Name := contextRootName; CR_Path := contextRoot |}]> m)
        aliases (hostContextRoots s);
    hostChecks := hostChecks s;
    hostBalanceAlgorithms := hostBalanceAlgorithms s;
    hostBackendOptions := hostBackendOptions s;
    hostSSLOnly := hostSSLOnly s;
    hostSSLBackend := hostSSLBackend s;
    hostSSLBackendTLSVerify := hostSSLBackendTLSVerify s;
    hostContextRootRewrites := hostContextRootRewrites s;
  |}.

(** The host built for the key [k] with upstreams [v]; a map without the
    key yields the zero value. *)
Definition make_host (s : tables) (kv : string * list Upstream) : Host :=
  let '(k, v) := kv in
  {|
    Name := Strings.ReplaceAll k "."%char "_";
    ContextRoot := hostContextRoots s !! k;
    ContextRootRewrite := default false (hostContextRootRewrites s !! k);
    Domain := k;
    Upstreams := v;
    Check_ := default "" (hostChecks s !! k);
    BalanceAlgorithm := default "" (hostBalanceAlgorithms s !! k);
    BackendOptions := default [] (hostBackendOptions s !! k);
    SSLOnly := default false (hostSSLOnly s !! k);
    SSLBackend := default false (hostSSLBackend s !! k);
    SSLBackendTLSVerify := default "" (hostSSLBackendTLSVerify s !! k);
  |}.

Section Operations.
Context `{MapRange} `{World}.
Context (cfg : ExtensionConfig).

(** One iteration of the loop over the containers. *)
Definition process (s : tables) (cnt : types.Container) : M (res tables) :=
  cntId ← pure (Strings.prefix_slice (types.c_ID cnt) 12);
  (* load interlock data *)
  cInfo ← ContainerInspect cntId;
  match cInfo with
  | Err err => mret (Err err)
  | Ok cInfo =>
      config ← pure (deref (types.ci_Config cInfo));
      match service_domain config with
      | None => mret (Ok s)
      | Some domain =>
          let s := set_root domain config s in
          match utils.HealthCheckInterval config with
          | Err _ => mret (Ok s)
          | Ok healthCheckInterval =>
              t ← tick;
              let s := set_flags domain config (utils.BackendOptions t config) s in
              addr ← resolve_address (Config.BackendOverrideAddress cfg) cInfo config;
              match addr with
              | None => mret (Ok s)
              | Some (addr, network) =>
                  container_name ← pure (Strings.suffix_slice (types.ci_Name cInfo) 1);
                  let up := {| Addr := addr; Container := container_name;
                               CheckInterval := healthCheckInterval |} in
                  t ← tick;
                  mret (Ok (add_upstream domain config (utils.AliasDomains t config) up network s))
              end
          end
      end
  end.

Definition GenerateProxyConfig (containers : list types.Container) : M (res Config_) :=
  s ← foldE process no_tables containers;
  match s with
  | Err err => mret (Err err)
  | Ok s =>
      t ← tick;
      mret (Ok {|
        Hosts := map (make_host s) (range "haproxy/proxyUpstreams" t (proxyUpstreams s));
        Config := cfg;
        Networks := networks s;
      |})
  end.

(** ** iptables.go *)

Definition configIPTables (drop : bool) : M (option error) :=
  let ports := [Config.Port cfg] ++ (if decide (Config.SSLPort cfg <> 0%Z) then [Config.SSLPort cfg] else []) in
  let d := if drop then "-D" else "-I" in
  iptables ← LookPath "iptables";
  match iptables with
  | Err err => mret (Some err)
  | Ok iptables =>
      r ← foldE (fun _ port =>
            err ← Command iptables
                    [d; "INPUT"; "-p"; "tcp"; "--dport"; Strconv.Itoa port; "--syn"; "-j"; "DROP"];
            mret (match err with Some err => Err err | None => Ok tt end))
          tt ports;
      mret (match r with Err err => Some err | Ok _ => None end)
  end.

Definition dropSYN : M (option error) :=
  err ← configIPTables false;
  match err with
  | Some err => mret (Some err)
  | None =>
      (* pause to make clients drop *)
      _ ← Sleep 1000;
      mret None
  end.

Definition resumeSYN : M (option error) := configIPTables false.

(** ** haproxy.go *)

Definition restart (cnt : types.Container) : M unit :=
  err ← ContainerRestart (types.c_ID cnt) 1000;
  match err with
  | Some _ => _ ← pure (Strings.prefix_slice (types.c_ID cnt) 12); mret tt
  | None =>
      _ ← pure (Strings.prefix_slice (types.c_ID cnt) 12);
      _ ← pure (at_index (types.c_Names cnt) 0);
      mret tt
  end.

(** The errors of [dropSYN] and [resumeSYN] are only logged. *)
Definition Reload (proxyContainers : list types.Container) : M (option error) :=
  _ ← dropSYN;
  _ ← forM restart proxyContainers;
  _ ← resumeSYN;
  mret None.

(** ** Reference reading of generate.go *)

(** The calls of an iteration, without its assignments. *)
Definition observe (cnt : types.Container) : M (res (option route)) :=
  cntId ← pure (Strings.prefix_slice (types.c_ID cnt) 12);
  cInfo ← ContainerInspect cntId;
  match cInfo with
  | Err err => mret (Err err)
  | Ok cInfo =>
      config ← pure (deref (types.ci_Config cInfo));
      match service_domain config with
      | None => mret (Ok None)
      | Some domain =>
          match utils.HealthCheckInterval config with
          | Err _ =>
              mret (Ok (Some {| rt_domain := domain; rt_name := ""; rt_config := config;
                                rt_addr := None; rt_options := []; rt_tick := 0 |}))
          | Ok _ =>
              t1 ← tick;
              addr ← resolve_address (Config.BackendOverrideAddress cfg) cInfo config;
              container_name ←
                match addr with
                | Some _ => pure (Strings.suffix_slice (types.ci_Name cInfo) 1)
                | None => mret ""
                end;
              t2 ← tick;
              mret (Ok (Some {| rt_domain := domain; rt_name := container_name; rt_config := config;
                                rt_addr := addr; rt_options := utils.BackendOptions t1 config;
                                rt_tick := t2 |}))
          end
      end
  end.

Definition root_of (r : route) : ContextRoot_ :=
  {| CR_Name := Strings.ReplaceAll (utils.ContextRoot (rt_config r)) "/"%char "_";
     CR_Path := utils.ContextRoot (rt_config r) |}.
(** The attribute [f] of a route, when its check interval is well formed. *)
Definition flag_of {A} (f : ctypes.Config -> A) (r : route) : list A :=
  match utils.HealthCheckInterval (rt_config r) with Ok _ => [f (rt_config r)] | Err _ => [] end.
Definition check_of (r : route) : list string :=
  filter (fun c => c <> "") (flag_of utils.HealthCheck r).
Definition options_of (r : route) : list (list string) :=
  filter (fun o => 0 < length o) (flag_of (fun _ => rt_options r) r).
Definition upstream_of (r : route) : list Upstream :=
  match rt_addr r, utils.HealthCheckInterval (rt_config r) with
  | Some (a, _), Ok i => [{| Addr := a; Container := rt_name r; CheckInterval := i |}]
  | _, _ => []
  end.
(** The keys a route adds its upstream to: its aliases, then its domain. *)
Definition keys_of (r : route) : list string :=
  flat_map (fun _ => aliases_of r ++ [rt_domain r]) (upstream_of r).
(** The upstreams a route gives to [k]: one for each key that is [k]. *)
Definition upstreams_of (k : string) (r : route) : list Upstream :=
  flat_map (fun up => map (fun _ => up) (filter (fun k' => k' = k) (aliases_of r ++ [rt_domain r])))
    (upstream_of r).
Definition networks_of (r : route) : list string :=
  flat_map (fun _ => Network.networks_of r) (upstream_of r).
(** Who sets the context root of [k]. *)
Definition sets_root (k : string) (r : route) : Prop := rt_domain r = k \/ k ∈ keys_of r.
#[export] Instance sets_root_dec k r : Decision (sets_root k r).
Proof. unfold sets_root. apply _. Defined.

(** The host of the key [k], from the routes of the containers. *)
Definition spec_host (rs : list route) (k : string) : Host :=
  let flag {A} (d : A) f := default d (last (flat_map (flag_of f) (routes_of k rs))) in
  {|
    Name := Strings.ReplaceAll k "."%char "_";
    ContextRoot := root_of <$> last (filter (sets_root k) rs);
    ContextRootRewrite := default false (last_flag utils.ContextRootRewrite k rs);
    Domain := k;
    Check_ := default "" (head (flat_map check_of (routes_of k rs)));
    BackendOptions := default [] (last (flat_map options_of (routes_of k rs)));
    Upstreams := flat_map (upstreams_of k) rs;
    SSLOnly := flag false utils.SSLOnly;
    SSLBackend := flag false utils.SSLBackend;
    SSLBackendTLSVerify := flag "" utils.SSLBackendTLSVerify;
    BalanceAlgorithm := flag "" utils.BalanceAlgorithm;
  |}.

(** The keys with an upstream: the domains and aliases of admitted routes. *)
Definition served_keys (rs : list route) : list string := remove_dups (flat_map keys_of rs).

(** The assignments of an iteration, as a function of the route. *)
Definition apply_route (s : tables) (r : route) : tables :=
  let s := set_root (rt_domain r) (rt_config r) s in
  match utils.HealthCheckInterval (rt_config r) with
  | Err _ => s
  | Ok i =>
      let s := set_flags (rt_domain r) (rt_config r) (rt_options r) s in
      match rt_addr r with
      | None => s
      | Some (addr, network) =>
          add_upstream (rt_domain r) (rt_config r) (aliases_of r)
            {| Addr := addr; Container := rt_name r; CheckInterval := i |} network s
      end
  end.
Definition apply_observation (s : tables) (o : option route) : tables :=
  match o with Some r => apply_route s r | None => s end.

(** ** Lemmas *)

Lemma haproxy_process_observe s c h :
  process s c h =
  (r ← observe c; mret (match r with Ok o => Ok (apply_observation s o) | Err e => Err e end)) h.
Proof.
  unfold process, observe, mbind, mret, comp_bind, comp_ret, pure, tick.
  repeat (case_match; simplify_eq/=; try done; unfold apply_route, aliases_of; simpl; simplify_option_eq; try done).
Qed.

(** What the loop leaves in each map, from the routes it went through. *)
Definition after (rs : list route) : tables := fold_left apply_route rs no_tables.

Ltac by_cases_of_route :=
  intros s r; unfold apply_route, flag_of, check_of, options_of, flag_of;
  destruct (utils.HealthCheckInterval (rt_config r)) as [i|e]; simpl; [|done];
  destruct (rt_addr r) as [[a [n|]]|]; simpl;
  rewrite ?filter_cons, ?filter_nil; repeat case_decide; done.

Lemma after_rewrites rs k :
  hostContextRootRewrites (after rs) !! k = last_flag utils.ContextRootRewrite k rs.
Proof. apply last_flag_loop; [done|by_cases_of_route]. Qed.

Lemma haproxy_after_flags rs k :
  hostSSLOnly (after rs) !! k = last (flat_map (flag_of utils.SSLOnly) (routes_of k rs)) /\
  hostSSLBackend (after rs) !! k = last (flat_map (flag_of utils.SSLBackend) (routes_of k rs)) /\
  hostSSLBackendTLSVerify (after rs) !! k =
    last (flat_map (flag_of utils.SSLBackendTLSVerify) (routes_of k rs)) /\
  hostBalanceAlgorithms (after rs) !! k =
    last (flat_map (flag_of utils.BalanceAlgorithm) (routes_of k rs)) /\
  hostBackendOptions (after rs) !! k = last (flat_map options_of (routes_of k rs)).
Proof. repeat split; (apply last_value_loop; [done|by_cases_of_route]). Qed.

Lemma after_checks rs k : hostChecks (after rs) !! k = head (flat_map check_of (routes_of k rs)).
Proof. apply first_value_loop; [done|by_cases_of_route]. Qed.

Lemma proxyUpstreams_step s r k :
  proxyUpstreams (apply_route s r) !! k =
  match upstreams_of k r with
  | [] => proxyUpstreams s !! k
  | ups => Some (default [] (proxyUpstreams s !! k) ++ ups)
  end.
Proof.
  unfold apply_route, upstreams_of, upstream_of.
  destruct (utils.HealthCheckInterval (rt_config r)) as [i|e]; [|by destruct (rt_addr r) as [[a n]|]].
  destruct (rt_addr r) as [[a n]|]; [|done]. simpl. rewrite app_nil_r, <- lookup_append_keys.
  by rewrite fold_left_app.
Qed.

Lemma after_proxyUpstreams rs k : proxyUpstreams (after rs) !! k = entry (flat_map (upstreams_of k) rs).
Proof.
  apply (fold_left_spec (fun s => proxyUpstreams s !! k) apply_route
    (fun rs => entry (flat_map (upstreams_of k) rs))); [done|].
  intros s l r IH. rewrite proxyUpstreams_step, IH, flat_map_app. simpl. rewrite app_nil_r.
  destruct (upstreams_of k r); [by rewrite app_nil_r|]. by rewrite default_entry, entry_app_cons.
Qed.

Lemma haproxy_hostContextRoots_step s r k :
  hostContextRoots (apply_route s r) !! k =
  if decide (sets_root k r) then Some (root_of r) else hostContextRoots s !! k.
Proof.
  transitivity (if decide (k ∈ keys_of r) then Some (root_of r)
    else <[rt_domain r := root_of r]> (hostContextRoots s) !! k).
  - unfold apply_route, keys_of, upstream_of.
    destruct (utils.HealthCheckInterval (rt_config r)) as [i|e]; [|by destruct (rt_addr r) as [[a n]|]].
    destruct (rt_addr r) as [[a n]|]; [|done]. simpl. rewrite app_nil_r, lookup_insert_all.
    destruct (decide (k ∈ aliases_of r)), (decide (k ∈ aliases_of r ++ [rt_domain r])) as [Hk|]; [set_solver..| |done].
    apply elem_of_app in Hk as [| ->%list_elem_of_singleton]; [done|]. by rewrite lookup_insert_eq.
  - rewrite lookup_insert. unfold sets_root.
    destruct (decide (k ∈ keys_of r)), (decide (rt_domain r = k)), (decide (rt_domain r = k \/ k ∈ keys_of r)); tauto.
Qed.

Lemma haproxy_after_hostContextRoots rs k :
  hostContextRoots (after rs) !! k = root_of <$> last (filter (sets_root k) rs).
Proof.
  apply (fold_left_spec (fun s => hostContextRoots s !! k) apply_route
    (fun rs => root_of <$> last (filter (sets_root k) rs))); [done|].
  intros s l r IH. rewrite haproxy_hostContextRoots_step, IH, filter_app, filter_cons. case_decide.
  - rewrite filter_nil. by rewrite last_snoc.
  - rewrite filter_nil. by rewrite app_nil_r.
Qed.

Lemma haproxy_networks_step s r n :
  networks (apply_route s r) !! n = if decide (n ∈ networks_of r) then Some "" else networks s !! n.
Proof.
  unfold apply_route, networks_of, upstream_of, Network.networks_of.
  destruct (utils.HealthCheckInterval (rt_config r)) as [i|e]; [|by destruct (rt_addr r) as [[a m]|]].
  destruct (rt_addr r) as [[a [m|]]|]; simpl; [|done..].
  rewrite lookup_insert. repeat case_decide; set_solver.
Qed.

Lemma haproxy_after_networks rs n :
  networks (after rs) !! n = if decide (n ∈ flat_map networks_of rs) then Some "" else None.
Proof.
  apply (fold_left_spec (fun s => networks s !! n) apply_route
    (fun rs => if decide (n ∈ flat_map networks_of rs) then Some "" else None) rs no_tables); [done|].
  intros s l r IH. rewrite flat_map_app. simpl. rewrite app_nil_r, haproxy_networks_step, IH.
  repeat case_decide; set_solver.
Qed.

Lemma elem_of_served_keys k rs : k ∈ served_keys rs <-> flat_map (upstreams_of k) rs <> [].
Proof.
  unfold served_keys. rewrite elem_of_remove_dups.
  assert (Hr : forall r, k ∈ keys_of r <-> upstreams_of k r <> []).
  { intros r. unfold keys_of, upstreams_of. destruct (upstream_of r) as [|up ups] eqn:Hup.
    - simpl. set_solver.
    - assert (ups = []) as -> by (unfold upstream_of in Hup; repeat case_match; naive_solver).
      simpl. rewrite !app_nil_r. set (ks := aliases_of r ++ [rt_domain r]).
      induction ks as [|k' ks IH]; [set_solver|]. rewrite filter_cons, elem_of_cons, IH.
      case_decide; naive_solver. }
  induction rs as [|r rs IH]; [set_solver|]. simpl. rewrite elem_of_app, IH, Hr.
  destruct (upstreams_of k r); naive_solver.
Qed.

Lemma haproxy_make_host_spec rs k : make_host (after rs) (k, flat_map (upstreams_of k) rs) = spec_host rs k.
Proof.
  unfold make_host, spec_host.
  destruct (haproxy_after_flags rs k) as (-> & -> & -> & -> & ->).
  by rewrite after_rewrites, after_checks, haproxy_after_hostContextRoots.
Qed.

Lemma haproxy_apply_observations os s :
  fold_left apply_observation os s = fold_left apply_route (omap id os) s.
Proof. revert s. induction os as [|[r|] os IH]; intros s; simpl; [done|..]; apply IH. Qed.

Lemma haproxy_hosts_spec site t rs :
  map (make_host (after rs)) (range site t (proxyUpstreams (after rs))) ≡ₚ
  map (spec_host rs) (served_keys rs).
Proof.
  apply (map_range_perm _ _ _ (fun k => flat_map (upstreams_of k) rs)).
  - apply NoDup_remove_dups.
  - intros k. apply elem_of_served_keys.
  - intros k. apply after_proxyUpstreams.
  - intros k _. apply haproxy_make_host_spec.
Qed.

(** [GenerateProxyConfig], through the observations. *)
Lemma haproxy_generate_at cs h :
  GenerateProxyConfig cs h =
  match mapE observe cs h with
  | (Val (Ok os), h') =>
      (Val (Ok {| Hosts := map (make_host (after (omap id os)))
                             (range "haproxy/proxyUpstreams" (length h') (proxyUpstreams (after (omap id os))));
                  Config := cfg; Networks := networks (after (omap id os)) |}), h')
  | (Val (Err e), h') => (Val (Err e), h')
  | (Panic w, h') => (Panic w, h')
  | (Exit w, h') => (Exit w, h')
  end.
Proof.
  unfold GenerateProxyConfig. rewrite bind_at.
  rewrite (foldE_mapE _ observe apply_observation) by apply haproxy_process_observe.
  rewrite bind_at. destruct (mapE observe cs h) as [[[os|e]|w|w] h']; [|done..].
  cbn [mret comp_ret]. by rewrite haproxy_apply_observations.
Qed.

(** A host of a configuration: it has an upstream and a context root. *)
Definition host_ok (hst : Host) : Prop :=
  Upstreams hst <> [] /\ is_Some (ContextRoot hst) /\ Name hst = Strings.ReplaceAll (Domain hst) "."%char "_".

Lemma haproxy_spec_host_ok rs k : k ∈ served_keys rs -> host_ok (spec_host rs k).
Proof.
  intros Hk. repeat split; simpl; [by apply elem_of_served_keys|].
  unfold served_keys in Hk. rewrite elem_of_remove_dups in Hk.
  apply list_elem_of_In, in_flat_map in Hk as (r & Hr%list_elem_of_In & Hk%list_elem_of_In).
  apply fmap_is_Some. destruct (filter (sets_root k) rs) eqn:Hf; [|rewrite last_cons; destruct (last _); by eexists].
  exfalso. apply (not_elem_of_nil r). rewrite <- Hf. apply list_elem_of_filter. split; [by right|done].
Qed.

Lemma haproxy_process_returns s c :
  12 <= String.length (types.c_ID c) ->
  (forall h id c, reply_ContainerInspect h id = Ok c -> sound_info c /\ 1 <= String.length (types.ci_Name c)) ->
  returns (process s c).
Proof.
  intros Hid Hsound. unfold process, Strings.prefix_slice. rewrite decide_True by done.
  apply returns_bind; [apply returns_pure|intros id].
  apply returns_call_bind. intros h. destruct (reply_ContainerInspect _ _) as [c'|] eqn:Hc; [|apply returns_ret].
  apply Hsound in Hc as [Hc Hn]. pose proof Hc as (config & settings & -> & _).
  apply returns_bind; [apply returns_pure|intros config'].
  destruct (service_domain config'); [|apply returns_ret].
  destruct (utils.HealthCheckInterval _); [|apply returns_ret].
  apply returns_bind; [apply returns_tick|intros t].
  apply returns_bind; [intros h'; by apply resolve_address_returns|].
  intros [[a' n]|]; [|apply returns_ret]. unfold Strings.suffix_slice. rewrite decide_True by done.
  apply returns_bind; [apply returns_pure|intros name].
  apply returns_bind; [apply returns_tick|]. intros t'. apply returns_ret.
Qed.

(** A container that can be inspected is processed without an error. *)
Lemma haproxy_process_inspected s c h :
  (forall h, exists id info, Strings.prefix_slice (types.c_ID c) 12 = Val id /\
    reply_ContainerInspect h id = Ok info /\ sound_info info /\ 1 <= String.length (types.ci_Name info)) ->
  exists s' h', process s c h = (Val (Ok s'), h').
Proof.
  intros Hok. destruct (Hok h) as (id & info & Hid & Hi & Hc & Hn). pose proof Hc as (config & settings & Hcfg & _).
  unfold process. rewrite Hid, bind_at. unfold ContainerInspect, call. cbn [pure]. rewrite bind_at, Hi, bind_at, Hcfg. cbn [pure deref].
  destruct (service_domain config); [|by eexists _, _].
  destruct (utils.HealthCheckInterval _); [|by eexists _, _].
  rewrite bind_at. unfold tick at 1. rewrite bind_at.
  destruct (returns_val (resolve_address (Config.BackendOverrideAddress cfg) info config) (h ++ [EContainerInspect id])
    (fun h' => resolve_address_returns _ info config h' Hc)) as (r & new & ->).
  destruct r as [[addr net]|]; [|by eexists _, _].
  unfold Strings.suffix_slice. rewrite decide_True by done. rewrite bind_at. cbn [pure]. by eexists _, _.
Qed.

Lemma restart_at c h :
  12 <= String.length (types.c_ID c) -> types.c_Names c <> [] ->
  restart c h = (Val tt, h ++ [EContainerRestart (types.c_ID c) 1000]).
Proof.
  intros Hid Hn. unfold restart, ContainerRestart, call, Strings.prefix_slice. rewrite bind_at, decide_True by done.
  destruct (reply_ContainerRestart _ _); [done|]. by destruct (types.c_Names c).
Qed.

(** The packet filter calls: they insert rules, and delete none. *)
Definition inserts (e : event) : Prop :=
  match e with ECommand _ args => head args = Some "-I" | ELookPath _ => True | ESleep _ => True | _ => False end.

Lemma configIPTables_inserts : emits (Forall inserts) (configIPTables false).
Proof. unfold configIPTables, LookPath, Command. emits_auto; done. Qed.

Lemma dropSYN_inserts : emits (Forall inserts) dropSYN.
Proof. unfold dropSYN, Sleep. emits_auto; [apply configIPTables_inserts|done]. Qed.

Lemma configIPTables_returns drop : returns (configIPTables drop).
Proof.
  unfold configIPTables, LookPath, Command.
  apply returns_bind; [apply returns_call|intros [p|e]; [|apply returns_ret]].
  apply returns_bind; [|intros r; apply returns_ret].
  apply returns_foldE. intros s x _. apply returns_bind; [apply returns_call|intros; apply returns_ret].
Qed.

Lemma dropSYN_returns : returns dropSYN.
Proof.
  unfold dropSYN, Sleep. apply returns_bind; [apply configIPTables_returns|].
  intros [e|]; [apply returns_ret|]. apply returns_bind; [apply returns_call|intros; apply returns_ret].
Qed.

(** The rules of the packet filter, one for each port. *)
Definition filter_ports : list Z :=
  [Config.Port cfg] ++ (if decide (Config.SSLPort cfg <> 0%Z) then [Config.SSLPort cfg] else []).
Definition rule (action : string) (port : Z) : list string :=
  [action; "INPUT"; "-p"; "tcp"; "--dport"; Strconv.Itoa port; "--syn"; "-j"; "DROP"].

Lemma configIPTables_at drop path h :
  (forall h, reply_LookPath h "iptables" = Ok path) -> (forall h args, reply_Command h path args = None) ->
  configIPTables drop h =
  (Val None, h ++ ELookPath "iptables" ::
    map (fun p => ECommand path (rule (if drop then "-D" else "-I") p)) filter_ports).
Proof.
  intros Hp Hc. unfold configIPTables, LookPath, call. rewrite bind_at, Hp. fold filter_ports. cbn beta iota zeta.
  set (f := fun (_ : unit) (port : Z) => _ : M (res unit)).
  assert (Hf : forall p h, f tt p h = (Val (Ok tt), h ++ [ECommand path (rule (if drop then "-D" else "-I") p)])).
  { intros p h'. unfold f, Command, call. rewrite bind_at. by rewrite Hc. }
  assert (Hl : forall ports h, foldE f tt ports h =
    (Val (Ok tt), h ++ map (fun p => ECommand path (rule (if drop then "-D" else "-I") p)) ports)).
  { clear h. intros ports. induction ports as [|p ports IH]; intros h; simpl; [by rewrite app_nil_r|].
    rewrite bind_at, Hf, IH.
    by rewrite <- app_assoc. }
  rewrite bind_at, Hl. by rewrite <- app_assoc.
Qed.

(** ** Theorems *)

(** C2: [GenerateProxyConfig] implements its reference reading, on every
    behaviour of the daemon and every order of the maps: it makes the calls
    of [observe] for each container until an inspection fails, whose error it
    returns, and otherwise returns the reference host of each domain and
    alias of an admitted container, once, with the overlay networks of the
    admitted containers; it panics exactly where the observations do. *)
Theorem haproxy_generate_refines cs h :
  match mapE observe cs h with
  | (Val (Ok os), h') =>
      exists r, GenerateProxyConfig cs h = (Val (Ok r), h') /\
        Hosts r ≡ₚ map (spec_host (omap id os)) (served_keys (omap id os)) /\
        Config r = cfg /\
        forall n, Networks r !! n =
          if decide (n ∈ flat_map networks_of (omap id os)) then Some "" else None
  | (Val (Err e), h') => GenerateProxyConfig cs h = (Val (Err e), h')
  | (Panic w, h') => GenerateProxyConfig cs h = (Panic w, h')
  | (Exit w, h') => GenerateProxyConfig cs h = (Exit w, h')
  end.
Proof.
  rewrite haproxy_generate_at. destruct (mapE observe cs h) as [[[os|e]|w|w] h']; [|done..].
  eexists. split; [reflexivity|]. split; [apply haproxy_hosts_spec|]. split; [done|]. apply haproxy_after_networks.
Qed.

(** The hosts of a configuration are well formed, with distinct domains. *)
Theorem haproxy_hosts_ok cs h :
  match (GenerateProxyConfig cs h).1 with
  | Val (Ok r) => NoDup (map Domain (Hosts r)) /\ Forall host_ok (Hosts r)
  | _ => True
  end.
Proof.
  rewrite haproxy_generate_at. destruct (mapE observe cs h) as [[[os|e]|w|w] h']; [|done..]. simpl.
  pose proof (haproxy_hosts_spec "haproxy/proxyUpstreams" (length h') (omap id os)) as Hp.
  split.
  - rewrite (Permutation_map _ Hp), map_map. simpl. rewrite map_id. apply NoDup_remove_dups.
  - rewrite Hp. apply Forall_forall. intros hst (k & -> & Hk)%list_elem_of_fmap. by apply haproxy_spec_host_ok.
Qed.

(** The generation returns, a configuration or an error, if the daemon's
    inspections are sound. *)
Theorem haproxy_generate_returns cs h :
  Forall (fun c => 12 <= String.length (types.c_ID c)) cs ->
  (forall h id c, reply_ContainerInspect h id = Ok c -> sound_info c /\ 1 <= String.length (types.ci_Name c)) ->
  exists r h', GenerateProxyConfig cs h = (Val r, h').
Proof.
  intros Hids Hsound. unfold GenerateProxyConfig. rewrite bind_at. rewrite Forall_forall in Hids.
  destruct (returns_val (foldE process no_tables cs) h) as (s & new & ->).
  - apply returns_foldE. intros s c Hc. apply haproxy_process_returns; auto.
  - destruct s; by eexists _, _.
Qed.

(** The host of an alias that is the domain of no container has no balance
    algorithm, no check and no backend options, whatever its containers ask. *)
Theorem haproxy_alias_unset cs h :
  match mapE observe cs h, (GenerateProxyConfig cs h).1 with
  | (Val (Ok os), _), Val (Ok r) =>
      Forall (fun hst => routes_of (Domain hst) (omap id os) <> [] \/
        (BalanceAlgorithm hst = "" /\ Check_ hst = "" /\ BackendOptions hst = [] /\
         SSLOnly hst = false /\ SSLBackend hst = false /\ ContextRootRewrite hst = false)) (Hosts r)
  | _, _ => True
  end.
Proof.
  rewrite haproxy_generate_at. destruct (mapE observe cs h) as [[[os|e]|w|w] h']; [|done..]. simpl.
  rewrite haproxy_hosts_spec. apply Forall_forall. intros hst (k & -> & _)%list_elem_of_fmap. simpl.
  destruct (routes_of k (omap id os)) eqn:Hr; [right|by left].
  unfold last_flag. by rewrite Hr.
Qed.

Lemma restarts_at cs h :
  Forall (fun c => 12 <= String.length (types.c_ID c) /\ types.c_Names c <> []) cs ->
  forM restart cs h = (Val tt, h ++ map (fun c => EContainerRestart (types.c_ID c) 1000) cs).
Proof.
  intros Hcs. revert h. induction Hcs as [|c cs [Hid Hn] _ IH]; intros h; simpl; [by rewrite app_nil_r|].
  rewrite bind_at, restart_at, IH by done. by rewrite <- app_assoc.
Qed.

(** A reload restarts each container once, in order, whatever the daemon and
    the packet filter answer; around the restarts it only inserts rules. *)
Theorem haproxy_reload_restarts cs h :
  Forall (fun c => 12 <= String.length (types.c_ID c) /\ types.c_Names c <> []) cs ->
  exists pre post, Forall inserts pre /\ Forall inserts post /\
    Reload cs h = (Val None, h ++ pre ++ map (fun c => EContainerRestart (types.c_ID c) 1000) cs ++ post).
Proof.
  intros Hcs. unfold Reload.
  destruct (wp_and _ h _ _ (dropSYN_inserts h) (dropSYN_returns h)) as (pre & Hh & Hpre & e & He).
  rewrite bind_at. destruct (dropSYN h) as [o h1]. simpl in *. subst o h1. rewrite bind_at, restarts_at, bind_at by done.
  set (h2 := _ ++ map _ _).
  destruct (wp_and _ h2 _ _ (configIPTables_inserts h2) (configIPTables_returns false h2)) as (post & Hh & Hpost & e' & He').
  unfold resumeSYN. destruct (configIPTables false h2) as [o h3]. simpl in *. subst o h3.
  exists pre, post. split; [done|]. split; [done|]. unfold h2. by rewrite <- !app_assoc.
Qed.

(** The calls that insert the rule of each port. *)
Definition insertions (path : string) : list event :=
  ELookPath "iptables" :: map (fun p => ECommand path (rule "-I" p)) filter_ports.

(** C38: When the packet filter works, a reload inserts the rule of each port,
    pauses, restarts each proxy once and in order, whether the daemon succeeds
    or not, and then inserts the rules again: it deletes none. *)
Theorem haproxy_reload_rules path cs h :
  (forall h, reply_LookPath h "iptables" = Ok path) -> (forall h args, reply_Command h path args = None) ->
  Forall (fun c => 12 <= String.length (types.c_ID c) /\ types.c_Names c <> []) cs ->
  Reload cs h =
  (Val None, h ++ insertions path ++ [ESleep 1000] ++ map (fun c => EContainerRestart (types.c_ID c) 1000) cs ++
    insertions path).
Proof.
  intros Hp Hc Hcs. unfold Reload, dropSYN, resumeSYN, Sleep, call.
  rewrite !bind_at, (configIPTables_at false path) by done. cbn [mret comp_ret]. rewrite bind_at.
  cbn [mret comp_ret]. rewrite bind_at, restarts_at, bind_at, (configIPTables_at false path) by done.
  cbn [mret comp_ret]. unfold insertions. by rewrite <- !app_assoc.
Qed.
End Operations.
End haproxy.

(** ** Witnesses *)

Section Witnesses.
Local Existing Instance sorted_range.
Local Existing Instance Cluster.cluster.

Lemma haproxy_generate_returns_witness :
  exists r h', haproxy.GenerateProxyConfig (empty_extension "haproxy") [Cluster.web; Cluster.api] [] =
    (Val (Ok r), h') /\ length h' = 3.
Proof.
  destruct (haproxy.haproxy_generate_returns (empty_extension "haproxy") [Cluster.web; Cluster.api] [])
    as (r & h' & Hr).
  - apply Forall_forall. intros c Hc. repeat (apply elem_of_cons in Hc as [->|Hc]; [simpl; lia|]). by apply elem_of_nil in Hc.
  - exact cluster_sound.
  - destruct r as [r|e]; [|exfalso; apply (f_equal fst) in Hr; vm_compute in Hr; discriminate Hr].
    exists r, h'. split; [exact Hr|]. apply (f_equal (fun x => length x.2)) in Hr. by vm_compute in Hr.
Defined.

Lemma haproxy_reload_restarts_witness :
  exists pre post, Forall haproxy.inserts pre /\ Forall haproxy.inserts post /\
    haproxy.Reload (empty_extension "haproxy") [Cluster.proxy] [] =
    (Val None, pre ++ [EContainerRestart "cccccccccccc" 1000] ++ post).
Proof.
  apply (haproxy.haproxy_reload_restarts (empty_extension "haproxy") [Cluster.proxy] []).
  apply Forall_singleton. split; [simpl; lia|discriminate].
Defined.

Lemma haproxy_reload_rules_witness :
  (haproxy.Reload (SetConfigDefaults (empty_extension "haproxy")) [Cluster.proxy] []).2 =
  [ELookPath "iptables"; ECommand "/sbin/iptables" (haproxy.rule "-I" 80); ESleep 1000;
   EContainerRestart "cccccccccccc" 1000; ELookPath "iptables"; ECommand "/sbin/iptables" (haproxy.rule "-I" 80)].
Proof.
  rewrite (haproxy.haproxy_reload_rules (SetConfigDefaults (empty_extension "haproxy")) "/sbin/iptables" [Cluster.proxy] []).
  - reflexivity.
  - intros h. reflexivity.
  - intros h args. reflexivity.
  - apply Forall_singleton. split; [simpl; lia|discriminate].
Defined.
End Witnesses.
