(* ===== verification/Agree.v ===== *)
(** * The two generators agree

    [ext/lb/nginx/generate.go] and [ext/lb/haproxy/generate.go] are two
    copies of one loop that have grown apart.  On containers that can be
    inspected, whose check interval can be read and whose address does not
    depend on when it is looked up, the two configurations have the same
    upstream addresses, flags and networks; an alias of a domain is a server
    name of its host in nginx, and a host of its own in haproxy. *)

From S2P Require Import Prelude GoStd Docker Labels Config Network Nginx HAProxy.

Section Agree.
Context `{MapRange} `{World} (cfg : ExtensionConfig).

(** What an inspection of a container shows both generators. *)
Record shown (c : types.Container) (config : ctypes.Config) : Prop := {
  shown_info : exists id info, Strings.prefix_slice (types.c_ID c) 12 = Val id /\
    (forall h, reply_ContainerInspect h (types.c_ID c) = Ok info /\ reply_ContainerInspect h id = Ok info) /\
    types.ci_Config info = Some config /\ 1 <= String.length (types.ci_Name info) /\
    exists a, forall h, (resolve_address (Config.BackendOverrideAddress cfg) info config h).1 = Val a;
  shown_interval : exists i, utils.HealthCheckInterval config = Ok i;
}.

(** The same container, seen by the two loops. *)
Definition same_route (r1 r2 : route) : Prop :=
  rt_domain r1 = rt_domain r2 /\ rt_config r1 = rt_config r2 /\ rt_addr r1 = rt_addr r2 /\
  exists i, utils.HealthCheckInterval (rt_config r2) = Ok i.

Lemma observe_agree c config h1 h2 :
  shown c config ->
  exists o1 h1' o2 h2', nginx.observe cfg c h1 = (Val o1, h1') /\ haproxy.observe cfg c h2 = (Val (Ok o2), h2') /\
    option_Forall2 (fun r1 r2 => same_route r1 r2 /\ rt_config r1 = config) o1 o2.
Proof.
  intros [(id & info & Hid & Hinfo & Hcfg & Hname & a & Ha) [i Hi]].
  assert (Hres : forall h, exists h', resolve_address (Config.BackendOverrideAddress cfg) info config h = (Val a, h')).
  { intros h. specialize (Ha h). destruct (resolve_address _ _ _ _) as [o h']. simpl in Ha. subst. by eexists. }
  assert (Hn : exists n, Strings.suffix_slice (types.ci_Name info) 1 = Val n).
  { unfold Strings.suffix_slice. rewrite decide_True by done. by eexists. }
  destruct Hn as [n Hn].
  unfold nginx.observe, haproxy.observe, ContainerInspect, call, pure, tick.
  rewrite !bind_at, !Hid, !bind_at, (proj1 (Hinfo _)), (proj2 (Hinfo _)), !bind_at, !Hcfg. simpl.
  destruct (service_domain config) as [d|]; [|by eexists _, _, _, _; repeat split; constructor].
  rewrite Hi, !bind_at. cbv beta iota.
  destruct (Hres (h1 ++ [EContainerInspect (types.c_ID c)])) as [h1' ->].
  destruct (Hres (h2 ++ [EContainerInspect id])) as [h2' Hr2]. rewrite bind_at, Hr2, !bind_at.
  destruct a; rewrite ?Hn; eexists _, _, _, _; (split; [reflexivity|]; split; [reflexivity|]);
    constructor; repeat split; simpl; by eauto.
Qed.

(** The routes of a list. *)
Lemma observations_agree cs h1 h2 :
  Forall (fun c => exists config, shown c config) cs ->
  exists os1 h1' os2 h2', mapM (nginx.observe cfg) cs h1 = (Val os1, h1') /\
    mapE (haproxy.observe cfg) cs h2 = (Val (Ok os2), h2') /\
    Forall2 (fun r1 r2 => same_route r1 r2 /\ exists c, c ∈ cs /\ shown c (rt_config r1)) (omap id os1) (omap id os2).
Proof.
  intros Hcs. revert h1 h2. induction Hcs as [|c cs [config Hc] _ IH]; intros h1 h2.
  - eexists [], _, [], _. by repeat split; try constructor.
  - destruct (observe_agree c config h1 h2 Hc) as (o1 & h1' & o2 & h2' & H1 & H2 & Ho).
    destruct (IH h1' h2') as (os1 & h1'' & os2 & h2'' & H3 & H4 & Hos).
    exists (o1 :: os1), h1'', (o2 :: os2), h2''. simpl. rewrite !bind_at, H1, H2, !bind_at, H3, H4.
    split; [done|]. split; [done|].
    assert (Hl : Forall2 (fun r1 r2 => same_route r1 r2 /\ exists c', c' ∈ c :: cs /\ shown c' (rt_config r1)) (omap id os1) (omap id os2)).
    { apply (Forall2_impl _ _ _ _ Hos). intros r1 r2 [Hs (c' & Hin & Hc')]. split; [done|]. exists c'. split; [by right|done]. }
    destruct Ho as [r1 r2 [Hs <-]|]; simpl; [|exact Hl]. constructor; [|exact Hl].
    split; [done|]. exists c. split; [by left|done].
Qed.

(** ** The hosts *)

(** The upstreams a route gives to a key: one for its domain. *)
Lemma same_upstreams k r1 r2 : same_route r1 r2 ->
  (if decide (rt_domain r1 = k) then addr_of r1 else []) `sublist_of` map haproxy.Addr (haproxy.upstreams_of k r2) /\
  (k ∉ aliases_of r2 -> (if decide (rt_domain r1 = k) then addr_of r1 else []) = map haproxy.Addr (haproxy.upstreams_of k r2)).
Proof.
  intros (Hd & _ & Ha & i & Hi). unfold addr_of, haproxy.upstreams_of, haproxy.upstream_of. rewrite Ha, Hi.
  destruct (rt_addr r2) as [[a n]|]; simpl; [|by case_decide].
  rewrite app_nil_r, map_map, filter_app, map_app, filter_cons, filter_nil. simpl. split.
  - rewrite Hd. case_decide; [by apply sublist_inserts_l|apply sublist_nil_l].
  - intros Hk. assert (filter (fun k' => k' = k) (aliases_of r2) = []) as ->.
    { destruct (filter _ _) as [|x l] eqn:Hf; [done|]. destruct Hk.
      assert (Hx : x ∈ filter (fun k' => k' = k) (aliases_of r2)) by (rewrite Hf; by left).
      by apply list_elem_of_filter in Hx as [<- Hx]. }
    simpl. rewrite Hd. by case_decide.
Qed.

Lemma same_aliases k r1 r2 : same_route r1 r2 -> k ∈ aliases_of r1 <-> k ∈ aliases_of r2.
Proof.
  intros (_ & Hc & Ha & _). unfold aliases_of. rewrite Ha, Hc. destruct (rt_addr r2); [|done].
  unfold utils.AliasDomains. by rewrite !matching_labels_perm.
Qed.
Lemma same_sets_root k r1 r2 : same_route r1 r2 -> sets_root k r1 <-> haproxy.sets_root k r2.
Proof.
  intros Hr. pose proof (same_aliases k r1 r2 Hr) as Hal. destruct Hr as (Hd & Hc & Ha & i & Hi).
  unfold sets_root, haproxy.sets_root, haproxy.keys_of, haproxy.upstream_of. rewrite Hal, Hi, Hd.
  unfold aliases_of. destruct (rt_addr r2) as [[a n]|]; simpl; [|set_solver].
  rewrite app_nil_r. set_solver.
Qed.

Section Routes.
Context (rs1 rs2 : list route) (Hrs : Forall2 same_route rs1 rs2).

Lemma same_routes_of k : Forall2 same_route (routes_of k rs1) (routes_of k rs2).
Proof.
  unfold routes_of. revert Hrs. clear. induction 1 as [|r1 r2 l1 l2 Hr Hl IH]; [constructor|].
  rewrite !filter_cons. pose proof (proj1 Hr) as Hd. rewrite Hd. case_decide; [by constructor|done].
Qed.

Lemma same_last_flag {A} (f : ctypes.Config -> A) k :
  last_flag f k rs1 = last (flat_map (haproxy.flag_of f) (routes_of k rs2)) /\ last_flag f k rs1 = last_flag f k rs2.
Proof.
  unfold last_flag. assert (He : map (f ∘ rt_config) (routes_of k rs1) = flat_map (haproxy.flag_of f) (routes_of k rs2) /\
    map (f ∘ rt_config) (routes_of k rs1) = map (f ∘ rt_config) (routes_of k rs2)); [|by destruct He as [<- <-]].
  induction (same_routes_of k) as [|r1 r2 l1 l2 (_ & Hc & _ & i & Hi) _ [IH1 IH2]]; [done|].
  simpl. unfold haproxy.flag_of at 1. rewrite Hi. simpl. by rewrite <- IH1, <- IH2, Hc.
Qed.

Lemma same_networks : flat_map networks_of rs1 = flat_map haproxy.networks_of rs2.
Proof.
  revert Hrs. clear. induction 1 as [|r1 r2 l1 l2 (_ & _ & Ha & i & Hi) _ IH]; [done|].
  simpl. rewrite IH. f_equal. unfold haproxy.networks_of, haproxy.upstream_of, networks_of. rewrite Ha, Hi.
  destruct (rt_addr r2) as [[? []]|]; simpl; by rewrite ?app_nil_r.
Qed.

Lemma routes_of_addrs k rs :
  flat_map addr_of (routes_of k rs) = flat_map (fun r => if decide (rt_domain r = k) then addr_of r else []) rs.
Proof.
  unfold routes_of. induction rs as [|r rs IH]; [done|]. rewrite filter_cons. simpl. case_decide; simpl; by rewrite IH.
Qed.
Lemma same_addresses k :
  flat_map addr_of (routes_of k rs1) `sublist_of` map haproxy.Addr (flat_map (haproxy.upstreams_of k) rs2) /\
  (Forall (fun r => k ∉ aliases_of r) rs2 ->
   flat_map addr_of (routes_of k rs1) = map haproxy.Addr (flat_map (haproxy.upstreams_of k) rs2)).
Proof.
  rewrite routes_of_addrs. revert Hrs. clear.
  induction 1 as [|r1 r2 l1 l2 Hr Hl [IH1 IH2]]; [by split|]. simpl. rewrite map_app.
  destruct (same_upstreams k r1 r2 Hr) as [H1 H2]. split; [by apply sublist_app|].
  intros [Hk Hks]%Forall_cons. by rewrite H2, IH2.
Qed.

(** The context root of a key is set by the same containers. *)
Lemma same_root k :
  nginx.CR_Path <$> (nginx.root_of <$> last (filter (sets_root k) rs1)) =
  haproxy.CR_Path <$> (haproxy.root_of <$> last (filter (haproxy.sets_root k) rs2)).
Proof.
  assert (Hl : Forall2 same_route (filter (sets_root k) rs1) (filter (haproxy.sets_root k) rs2)).
  { revert Hrs. clear. induction 1 as [|r1 r2 l1 l2 Hr _ IH]; [constructor|]. rewrite !filter_cons.
    pose proof (same_sets_root k r1 r2 Hr) as He.
    destruct (decide (sets_root k r1)), (decide (haproxy.sets_root k r2)); try tauto. by constructor. }
  assert (Hlast : option_Forall2 same_route (last (filter (sets_root k) rs1)) (last (filter (haproxy.sets_root k) rs2))).
  { induction Hl as [|r1 r2 l1 l2 Hr Hl IH]; [constructor|]. rewrite !last_cons. destruct IH; by constructor. }
  destruct Hlast as [r1 r2 (_ & Hc & _)|]; [|done]. simpl. by rewrite Hc.
Qed.
End Routes.

(** ** The configurations *)

Definition nginx_addrs (hst : nginx.Host) : list string := map nginx.Addr (nginx.Servers (nginx.Upstream hst)).
Definition haproxy_addrs (hst : haproxy.Host) : list string := map haproxy.Addr (haproxy.Upstreams hst).

(** An alias of one of the containers. *)
Definition alias_in (cs : list types.Container) (k : string) : Prop :=
  exists c config t, c ∈ cs /\ shown c config /\ k ∈ utils.AliasDomains t config.

(** The hosts of one domain. *)
Record same_host (cs : list types.Container) (hn : nginx.Host) (hp : haproxy.Host) : Prop := {
  same_domain : nginx.Up_Name (nginx.Upstream hn) = haproxy.Domain hp;
  same_servers : nginx_addrs hn `sublist_of` haproxy_addrs hp;
  same_servers_unless : ~ alias_in cs (haproxy.Domain hp) -> nginx_addrs hn = haproxy_addrs hp;
  same_path : nginx.CR_Path <$> nginx.ContextRoot hn = haproxy.CR_Path <$> haproxy.ContextRoot hp;
  same_rewrite : nginx.ContextRootRewrite hn = haproxy.ContextRootRewrite hp;
  same_ssl_only : nginx.SSLOnly hn = haproxy.SSLOnly hp;
  same_ssl_backend : nginx.SSLBackend hn = haproxy.SSLBackend hp;
}.

(** The hosts of one key. *)
Lemma spec_hosts_agree cs rs1 rs2 k :
  Forall2 (fun r1 r2 => same_route r1 r2 /\ exists c, c ∈ cs /\ shown c (rt_config r1)) rs1 rs2 ->
  same_host cs (nginx.spec_host cfg rs1 k) (haproxy.spec_host rs2 k) /\
  (alias_in cs k \/ flat_map addr_of (routes_of k rs1) = map haproxy.Addr (flat_map (haproxy.upstreams_of k) rs2)).
Proof.
  intros Hall. assert (Hrs : Forall2 same_route rs1 rs2) by (apply (Forall2_impl _ _ _ _ Hall); tauto).
  assert (Hal : alias_in cs k \/ Forall (fun r => k ∉ aliases_of r) rs2).
  { destruct (decide (Forall (fun r => k ∉ aliases_of r) rs2)) as [?|He%not_Forall_Exists]; [by right| |apply _].
    left. apply Exists_exists in He as (r2 & Hin & Hk%dec_stable).
    apply list_elem_of_lookup_1 in Hin as [i Hi].
    destruct (Forall2_lookup_r _ _ _ _ _ Hall Hi) as (r1 & _ & (_ & Hc & Ha & _) & c & Hcin & Hsh).
    unfold aliases_of in Hk. destruct (rt_addr r2); [|by apply not_elem_of_nil in Hk].
    exists c, (rt_config r1), (rt_tick r2). rewrite Hc in *. done. }
  destruct (same_addresses rs1 rs2 Hrs k) as [Hsub Heq].
  assert (Hn : nginx_addrs (nginx.spec_host cfg rs1 k) = flat_map addr_of (routes_of k rs1)).
  { unfold nginx_addrs. simpl. by rewrite map_map, map_id. }
  split; [|destruct Hal; [by left|right; by apply Heq]].
  constructor; rewrite ?Hn; simpl; [done|exact Hsub| |by apply same_root|..].
  - intros Hna. destruct Hal; [done|]. by apply Heq.
  - by rewrite (proj2 (same_last_flag rs1 rs2 Hrs utils.ContextRootRewrite k)).
  - by rewrite (proj1 (same_last_flag rs1 rs2 Hrs utils.SSLOnly k)).
  - by rewrite (proj1 (same_last_flag rs1 rs2 Hrs utils.SSLBackend k)).
Qed.

(** C12: The two generators agree on containers whose inspection both can use:
    both return a configuration, with the same overlay networks; each host of
    nginx has a host of the same domain in haproxy, with the same context
    root and flags, and with the same upstream addresses in the same order,
    unless the domain is also an alias, when haproxy has those of the alias
    besides; and each host of haproxy is a domain of nginx or an alias. *)
Theorem generators_agree cs h1 h2 :
  Forall (fun c => exists config, shown c config) cs ->
  exists n h1' p h2',
    nginx.GenerateProxyConfig cfg cs h1 = (Val (Ok n), h1') /\
    haproxy.GenerateProxyConfig cfg cs h2 = (Val (Ok p), h2') /\
    nginx.Networks n = haproxy.Networks p /\
    (forall hn, hn ∈ nginx.Hosts n -> exists hp, hp ∈ haproxy.Hosts p /\ same_host cs hn hp) /\
    (forall hp, hp ∈ haproxy.Hosts p ->
      alias_in cs (haproxy.Domain hp) \/ exists hn, hn ∈ nginx.Hosts n /\ same_host cs hn hp).
Proof.
  intros Hcs. destruct (observations_agree cs h1 h2 Hcs) as (os1 & h1' & os2 & h2' & Hm1 & Hm2 & Hos).
  rewrite nginx.nginx_generate_at, Hm1, haproxy.haproxy_generate_at, Hm2.
  eexists _, _, _, _. split; [reflexivity|]. split; [reflexivity|]. simpl.
  set (rs1 := omap id os1) in *. set (rs2 := omap id os2) in *.
  assert (Hrs : Forall2 same_route rs1 rs2) by (apply (Forall2_impl _ _ _ _ Hos); tauto).
  split; [|split].
  - apply map_eq. intros x. by rewrite nginx.nginx_after_networks, haproxy.haproxy_after_networks, (same_networks rs1 rs2 Hrs).
  - intros hn. rewrite nginx.nginx_hosts_spec. intros (k & -> & Hk)%list_elem_of_fmap.
    destruct (spec_hosts_agree cs rs1 rs2 k Hos) as [Hh _]. exists (haproxy.spec_host rs2 k). split; [|done].
    rewrite haproxy.haproxy_hosts_spec. apply list_elem_of_fmap_2, haproxy.elem_of_served_keys.
    apply elem_of_served in Hk. intros Hnil. pose proof (proj1 (same_addresses rs1 rs2 Hrs k)) as Hsub.
    rewrite Hnil in Hsub. by apply sublist_nil_r in Hsub.
  - intros hp. rewrite haproxy.haproxy_hosts_spec. intros (k & -> & Hk)%list_elem_of_fmap.
    destruct (spec_hosts_agree cs rs1 rs2 k Hos) as [Hh [Ha|Heq]]; [by left|right].
    exists (nginx.spec_host cfg rs1 k). split; [|done].
    rewrite nginx.nginx_hosts_spec. apply list_elem_of_fmap_2, elem_of_served. rewrite Heq.
    apply haproxy.elem_of_served_keys in Hk. by destruct (flat_map _ rs2).
Qed.
End Agree.

(** ** Witness *)

Section Witnesses.
Import Cluster.
#[local] Existing Instance cluster.
#[local] Existing Instance sorted_range.

Lemma cluster_shown : Forall (fun c => exists config, shown (empty_extension "nginx") c config) [web; api].
Proof.
  constructor; [exists web_config|constructor; [exists api_config|constructor]]; constructor; [|by eexists| |by eexists].
  - eexists _, web_info. split; [reflexivity|]. split; [done|]. split; [reflexivity|]. split; [vm_compute; lia|].
    eexists. intros h. vm_compute. reflexivity.
  - eexists _, api_info. split; [reflexivity|]. split; [done|]. split; [reflexivity|]. split; [vm_compute; lia|].
    eexists. intros h. vm_compute. reflexivity.
Qed.

Lemma generators_agree_witness :
  exists n h1' p h2', nginx.GenerateProxyConfig (empty_extension "nginx") [web; api] [] = (Val (Ok n), h1') /\
    haproxy.GenerateProxyConfig (empty_extension "nginx") [web; api] [EEvents] = (Val (Ok p), h2') /\
    nginx.Networks n = haproxy.Networks p.
Proof.
  destruct (generators_agree (empty_extension "nginx") [web; api] [] [EEvents] cluster_shown)
    as (n & h1' & p & h2' & Hn & Hp & Hnet & _).
  exists n, h1', p, h2'. split; [exact Hn|]. split; [exact Hp|exact Hnet].
Defined.
End Witnesses.
