(* ===== verification/NodeID.v ===== *)
(** * Package utils: the identifier of the container the program runs in

    [utils/node_id.go] reads it from the control groups of the process. *)

From S2P Require Import Prelude GoStd Docker.

Definition cgroup : string := "/proc/self/cgroup".

(** One line of the file: [None] when the loop goes on to the next one. *)
Definition line_id (l : string) : option string :=
  let parts := Strings.Split l ":"%char in
  if decide (length parts < 3) then None
  else
    data ← parts !! 2;
    let dataParts := Strings.Split data "/"%char in
    if decide (length dataParts < 3) then None
    else
      id ← dataParts !! 2;
      if decide (id <> "") then Some (Strings.TrimSpace id) else None.

Fixpoint first_id (lines : list string) : option string :=
  match lines with
  | [] => None
  | l :: lines' =>
      match line_id l with
      | Some id => Some id
      | None => first_id lines'
      end
  end.

Definition GetContainerID `{World} : M (res string) :=
  f ← ReadFile cgroup;
  match f with
  | Err err =>
      mret (Err (ErrorString
        ("unable to detect cgroup.  are you sure you are in a container? error: " +:+ Error err)))
  | Ok f =>
      match first_id (Bufio.Scan f) with
      | Some id => mret (Ok id)
      | None =>
          content ← ReadFile cgroup;
          match content with
          | Err err => mret (Err err)
          | Ok content => mret (Err (ErrorString ("unable to get container id: " +:+ content)))
          end
      end
  end.
