(* ===== verification/Backends.v ===== *)
(** * Backends of the load balancer

    The interface [LoadBalancerBackend] of [ext/lb/lb.go], its two
    implementations, and the laws the load balancer relies on. *)

From S2P Require Import Prelude GoStd Docker Labels Config Network Nginx HAProxy.

(** ** The interface and its implementations *)

(** The dynamic type behind the [interface{}] of [GenerateProxyConfig]. *)
Inductive ProxyConfig :=
| NginxConfig (c : nginx.Config_)
| HAProxyConfig (c : haproxy.Config_).

Class LoadBalancerBackend := {
  Name : string;
  ConfigPath : string;
  GenerateProxyConfig : list types.Container -> M (res ProxyConfig);
  Template : M string;
  Reload : list types.Container -> M (option error);
}.

(** [cfg.( *nginx.Config)] and [cfg.( *haproxy.Config)] *)
Definition as_nginx (c : ProxyConfig) : outcome nginx.Config_ :=
  match c with NginxConfig c => Val c | _ => Panic "interface conversion" end.
Definition as_haproxy (c : ProxyConfig) : outcome haproxy.Config_ :=
  match c with HAProxyConfig c => Val c | _ => Panic "interface conversion" end.

Section Backends.
Context `{MapRange} `{World}.

(** The methods of a backend whose built-in template is [builtin]: the
    error of a template file that cannot be read is used as the template. *)
Definition template_of (cfg : ExtensionConfig) (builtin : string) : M string :=
  if decide (TemplatePath cfg <> "") then
    d ← ReadFile (TemplatePath cfg);
    mret (match d with Ok d => d | Err err => Error err end)
  else mret builtin.

Definition NginxBackend (cfg : ExtensionConfig) (plain plus : string) : LoadBalancerBackend := {|
  Name := "nginx";
  ConfigPath := Config.ConfigPath cfg;
  GenerateProxyConfig cs :=
    r ← nginx.GenerateProxyConfig cfg cs;
    mret (match r with Ok c => Ok (NginxConfig c) | Err e => Err e end);
  Template := template_of cfg (if NginxPlusEnabled cfg then plus else plain);
  Reload := nginx.Reload;
|}.

Definition HAProxyBackend (cfg : ExtensionConfig) (builtin : string) : LoadBalancerBackend := {|
  Name := "haproxy";
  ConfigPath := Config.ConfigPath cfg;
  GenerateProxyConfig cs :=
    r ← haproxy.GenerateProxyConfig cfg cs;
    mret (match r with Ok c => Ok (HAProxyConfig c) | Err e => Err e end);
  Template := template_of cfg builtin;
  Reload := haproxy.Reload cfg;
|}.
End Backends.

(** ** Kinds of interactions *)

(** Interactions that only look at the cluster. *)
Definition reads (e : event) : Prop :=
  match e with
  | EContainerList _ | EContainerInspect _ | ENetworkInspect _ | EReadFile _ | ECacheGet _ => True
  | _ => False
  end.

(** What a reload of the containers [cs] may do. *)
Definition reloads (cs : list types.Container) (e : event) : Prop :=
  match e with
  | EContainerKill id _ | EContainerRestart id _ => id ∈ map types.c_ID cs
  | ELookPath _ | ECommand _ _ | ESleep _ => True
  | _ => False
  end.

(** The container an interaction changes. *)
Definition target (e : event) : option string :=
  match e with
  | ENetworkConnect _ id | ENetworkDisconnect _ id | ECopyToContainer id _ _ _
  | EContainerKill id _ | EContainerRestart id _ => Some id
  | _ => None
  end.

(** ** Laws *)

(** The type assertion of the load balancer succeeds. *)
Definition matches_name (name : string) (c : ProxyConfig) : Prop :=
  match c with
  | NginxConfig _ => name = "nginx"
  | HAProxyConfig _ => name = "haproxy"
  end.

Class LawfulBackend (b : LoadBalancerBackend) : Prop := {
  generate_reads : forall cs, emits (Forall reads) (GenerateProxyConfig cs);
  generate_matches : forall cs h, wp (GenerateProxyConfig cs) h (fun o _ =>
    match o with Val (Ok c) => matches_name Name c | _ => True end);
  template_reads : emits (Forall reads) Template;
  reload_reloads : forall cs, emits (Forall (reloads cs)) (Reload cs);
  reload_succeeds : forall cs h, wp (Reload cs) h (fun o _ =>
    match o with Val err => err = None | _ => True end);
}.

Section Laws.
Context `{MapRange} `{World}.

Lemma resolve_address_reads addr cInfo config : emits (Forall reads) (resolve_address addr cInfo config).
Proof. unfold resolve_address, NetworkInspect. emits_auto; done. Qed.

Lemma nginx_generate_reads cfg cs : emits (Forall reads) (nginx.GenerateProxyConfig cfg cs).
Proof.
  unfold nginx.GenerateProxyConfig, nginx.process, ContainerInspect.
  emits_auto; try done. apply resolve_address_reads.
Qed.

Lemma haproxy_generate_reads cfg cs : emits (Forall reads) (haproxy.GenerateProxyConfig cfg cs).
Proof.
  unfold haproxy.GenerateProxyConfig, haproxy.process, ContainerInspect.
  emits_auto; try done. apply resolve_address_reads.
Qed.

Lemma template_of_reads cfg builtin : emits (Forall reads) (template_of cfg builtin).
Proof. unfold template_of, ReadFile. emits_auto; done. Qed.

Lemma nginx_reload_reloads cs : emits (Forall (reloads cs)) (nginx.Reload cs).
Proof.
  unfold nginx.Reload, nginx.reload_container, ContainerKill.
  emits_auto; simpl; by apply list_elem_of_fmap_2.
Qed.

Lemma configIPTables_reloads cfg drop cs : emits (Forall (reloads cs)) (haproxy.configIPTables cfg drop).
Proof. unfold haproxy.configIPTables, LookPath, Command. emits_auto; done. Qed.

Lemma haproxy_reload_reloads cfg cs : emits (Forall (reloads cs)) (haproxy.Reload cfg cs).
Proof.
  unfold haproxy.Reload, haproxy.dropSYN, haproxy.resumeSYN, haproxy.restart, ContainerRestart, Sleep.
  emits_auto; try apply configIPTables_reloads; simpl; try done. by apply list_elem_of_fmap_2.
Qed.

Lemma nginx_reload_succeeds cs h :
  wp (nginx.Reload cs) h (fun o _ => match o with Val err => err = None | _ => True end).
Proof.
  unfold nginx.Reload. apply (wp_then (fun _ => True)); [|intros; by apply wp_ret].
  eapply emits_weaken; [|done]. apply (emits_all_forM (fun _ => True)). intros x _.
  unfold nginx.reload_container, ContainerKill. emits_auto; done.
Qed.

Lemma haproxy_reload_succeeds cfg cs h :
  wp (haproxy.Reload cfg cs) h (fun o _ => match o with Val err => err = None | _ => True end).
Proof.
  unfold haproxy.Reload.
  apply (wp_then (Forall (reloads cs))).
  { unfold haproxy.dropSYN, Sleep. emits_auto; try done; apply configIPTables_reloads. }
  intros _ h1. apply (wp_then (Forall (reloads cs))).
  { unfold haproxy.restart, ContainerRestart. emits_auto; simpl; by apply list_elem_of_fmap_2. }
  intros _ h2. apply (wp_then (Forall (reloads cs))); [apply configIPTables_reloads|].
  intros _ h3. by apply wp_ret.
Qed.

#[export] Instance nginx_lawful cfg plain plus : LawfulBackend (NginxBackend cfg plain plus).
Proof.
  split; simpl.
  - intros cs. apply emits_all_bind; [apply nginx_generate_reads|].
    intros [c|e]; apply emits_ret; constructor.
  - intros cs h. apply (wp_then (Forall reads) _ _
      (fun r => match r with Ok c => matches_name "nginx" c | Err _ => True end)); [apply nginx_generate_reads|].
    intros [c|e] h'; by apply wp_ret.
  - apply template_of_reads.
  - apply nginx_reload_reloads.
  - apply nginx_reload_succeeds.
Qed.

#[export] Instance haproxy_lawful cfg builtin : LawfulBackend (HAProxyBackend cfg builtin).
Proof.
  split; simpl.
  - intros cs. apply emits_all_bind; [apply haproxy_generate_reads|].
    intros [c|e]; apply emits_ret; constructor.
  - intros cs h. apply (wp_then (Forall reads) _ _
      (fun r => match r with Ok c => matches_name "haproxy" c | Err _ => True end)); [apply haproxy_generate_reads|].
    intros [c|e] h'; by apply wp_ret.
  - apply template_of_reads.
  - apply haproxy_reload_reloads.
  - apply haproxy_reload_succeeds.
Qed.
End Laws.
