(* ===== verification/LoadBalancer.v ===== *)
(** * The load balancer extension

    [ext/lb/lb.go]: the reaction to an event, the update of the proxies, and
    the share of the proxies each instance of the program restarts. *)

From S2P Require Import Prelude GoStd Docker Labels Config Network Nginx HAProxy Backends.

(** ** Sharing the restarts *)

(** The loop of [proxyContainersToRestart]: each node but the last takes
    [sub] containers from the end, and the last node the rest. *)
Fixpoint split_work (nodes : list types.Container) (sub : nat) (proxyContainers : list types.Container)
    (work : gmap string (list types.Container)) : outcome (gmap string (list types.Container)) :=
  match nodes with
  | [] => Panic "index out of range"
  | [n] => mret (<[types.c_ID n := proxyContainers]> work)
  | n :: nodes' =>
      if decide (sub <= length proxyContainers) then
        let k := length proxyContainers - sub in
        split_work nodes' sub (take k proxyContainers)
          (<[types.c_ID n := drop k proxyContainers]> work)
      else Panic "slice bounds out of range"
  end.

(** [for _, c := range cs { ids = append(ids, c.ID[:8]) }] *)
Fixpoint short_ids (cs : list types.Container) : outcome (list string) :=
  match cs with
  | [] => mret []
  | c :: cs' => id ← Strings.prefix_slice (types.c_ID c) 8; ids ← short_ids cs'; mret (id :: ids)
  end.

Definition proxyContainersToRestart (nodeID : string) (nodes proxyContainers : list types.Container) :
    outcome (list types.Container) :=
  let numNodes := length nodes in
  if decide (numNodes = 0) then mret proxyContainers
  else if decide (numNodes = 1) then mret proxyContainers
  else
    let sub := length proxyContainers / numNodes in
    work ← split_work nodes sub proxyContainers ∅;
    let containersToRestart := default [] (work !! nodeID) in
    ids ← short_ids containersToRestart;
    mret containersToRestart.

Section LoadBalancer.
Context `{MapRange} `{World}.
(** [text/template]: a template, as a function to the text or the error of
    its execution. *)
Context (Parse : string -> res (ProxyConfig -> res string)).
(** The fields [nodeID] and [backend] of a [LoadBalancer]. *)
Context (nodeID : string) `{LoadBalancerBackend}.

Definition ProxyContainers : M (res (list types.Container)) :=
  containers ← ContainerList true;
  match containers with
  | Err err => mret (Err err)
  | Ok containers =>
      (* find interlock proxy containers *)
      mret (Ok (filter (fun cnt => types.c_Labels cnt !! ext.InterlockExtNameLabel = Some Name) containers))
  end.

(** Writing the archive to a buffer does not fail. *)
Definition SaveConfig (cfg : ProxyConfig) (proxyContainers : list types.Container) : M (option error) :=
  confTmpl ← Template;
  match Parse confTmpl with
  | Err err => mret (Some err)
  | Ok tmpl =>
      (* cast to config type *)
      data ←
        (if decide (Name = "nginx") then config ← pure (as_nginx cfg); mret (tmpl (NginxConfig config))
         else if decide (Name = "haproxy") then
           config ← pure (as_haproxy cfg); mret (tmpl (HAProxyConfig config))
         else mret (Err (ErrorString ("unknown backend type: " +:+ Name))));
      match data with
      | Err err => mret (Some err)
      | Ok data =>
          let fName := Path.Base ConfigPath in
          let proxyConfigPath := Path.Dir ConfigPath in
          (* copy to proxy nodes *)
          _ ← forM (fun cnt =>
                 _ ← CopyToContainer (types.c_ID cnt) proxyConfigPath fName data; mret tt)
                proxyContainers;
          mret None
      end
  end.

Definition isExposedContainer (id : string) : M bool :=
  c ← ContainerInspect id;
  match c with
  | Err _ => mret false
  | Ok c =>
      config ← pure (deref (types.ci_Config c));
      (* ignore proxy containers *)
      if decide (is_Some (ctypes.Labels config !! ext.InterlockExtNameLabel)) then mret false
      else if decide (is_Some (ctypes.Labels config !! ext.InterlockAppLabel)) then mret false
      (* ignore containers without exposed ports *)
      else if decide (size (ctypes.ExposedPorts config) = 0) then mret false
      else mret true
  end.

Definition isContainerConnected (id net : string) : M (res bool) :=
  network ← NetworkInspect net;
  mret (match network with
        | Err err => Err err
        | Ok network => Ok (bool_decide (is_Some (types.n_Containers network !! id)))
        end).

(** The loop of [HandleEvent] that waits for the network, [n] tries. *)
Fixpoint wait_connected (n : nat) (id net : string) : M (res unit) :=
  match n with
  | O => mret (Ok tt)
  | S n' =>
      connected ← isContainerConnected id net;
      match connected with
      | Err err => mret (Err err)
      | Ok true => mret (Ok tt)
      | Ok false => _ ← Sleep 500; wait_connected n' id net
      end
  end.

Definition HandleEvent (event : etypes.Message) : M (option error) :=
  (* container event *)
  reload ←
    (if decide (etypes.Status event = "start") then isExposedContainer (etypes.ID event)
     else if decide (etypes.Status event = "stop") then
       reload ← isExposedContainer (etypes.ID event);
       (* wait for container to stop *)
       _ ← Sleep 250;
       mret reload
     else if decide (etypes.Status event ∈ ["interlock-start"; "interlock-restart"; "destroy"]) then
       mret true
     else mret false);
  (* network event *)
  r ←
    (if decide (etypes.Action event ∈ ["connect"; "disconnect"]) then
       match etypes.Actor_Attributes event !! "container" with
       | None => mret (Err (ErrorString "unable to detect container id for network event"))
       | Some id =>
           match etypes.Actor_Attributes event !! "name" with
           | None => mret (Err (ErrorString "unable to detect container network name for network event"))
           | Some net =>
               w ← wait_connected 5 id net;
               match w with
               | Err err => mret (Err err)
               | Ok _ => reload ← isExposedContainer id; mret (Ok reload)
               end
           end
       end
     else mret (Ok reload));
  match r with
  | Err err => mret (Some err)
  | Ok reload =>
      if reload : bool then _ ← CacheSet "reload"; mret None else mret None
  end.

(** ** The handler of lbUpdateChan *)

(** Connects a proxy container to the networks it lacks. *)
Definition connect_networks (t : nat) (proxyNetworks : gmap string string) (cnt : types.Container) : M unit :=
  forM (fun '(net, _) =>
      nets ← pure (deref (types.c_Networks cnt));
      match nets !! net with
      | Some _ => mret tt
      | None => _ ← NetworkConnect net (types.c_ID cnt); mret tt
      end)
    (range ("connect " +:+ types.c_ID cnt) t proxyNetworks).

(** One container of the list: is it an instance of the program? *)
Definition add_interlock_node (interlockNodes : list types.Container) (cnt : types.Container) :
    M (list types.Container) :=
  (* always include self container *)
  if decide (types.c_ID cnt = nodeID /\ types.c_State cnt = "running") then mret (interlockNodes ++ [cnt])
  else
    cInfo ← ContainerInspect (types.c_ID cnt);
    match cInfo with
    | Err _ => mret interlockNodes
    | Ok cInfo =>
        config ← pure (deref (types.ci_Config cInfo));
        if decide (Strings.Index (ctypes.Image config) "interlock" > 0)%Z then
          if decide (is_Some (ctypes.Labels config !! ext.InterlockAppLabel))
          then mret (interlockNodes ++ [cnt])
          else mret interlockNodes
        else mret interlockNodes
    end.

(** The networks of the configuration, by the name of the backend. *)
Definition proxy_networks (cfg : ProxyConfig) : outcome (res (gmap string string)) :=
  if decide (Name = "nginx") then c ← as_nginx cfg; mret (Ok (nginx.Networks c))
  else if decide (Name = "haproxy") then c ← as_haproxy cfg; mret (Ok (haproxy.Networks c))
  else mret (Err (ErrorString ("unable to connect to networks; unknown backend: " +:+ Name))).

(** The part of the handler after the configuration is saved. *)
Definition apply_config (containers : list types.Container) (cfg : ProxyConfig)
    (proxyContainers : list types.Container) : M unit :=
  proxyNetworks ← pure (proxy_networks cfg);
  match proxyNetworks with
  | Err err => SendErr err
  | Ok proxyNetworks =>
      _ ← forM (fun cnt => t ← tick; connect_networks t proxyNetworks cnt) proxyContainers;
      (* get interlock nodes *)
      interlockNodes ← foldM add_interlock_node [] containers;
      toRestart ← pure (proxyContainersToRestart nodeID interlockNodes proxyContainers);
      (* pause to ensure file write sync *)
      _ ← Sleep 1000;
      err ← Reload toRestart;
      match err with
      | Some err => SendErr err
      | None => mret tt
      end
  end.

(** One message on [lbUpdateChan]. *)
Definition handle_update : M unit :=
  v ← CacheGet "reload";
  if v : bool then mret tt (* too many requests *)
  else
    containers ← ContainerList true;
    match containers with
    | Err err => SendErr err
    | Ok containers =>
        (* generate proxy config *)
        cfg ← GenerateProxyConfig containers;
        match cfg with
        | Err err => SendErr err
        | Ok cfg =>
            proxyContainers ← ProxyContainers;
            match proxyContainers with
            | Err err => SendErr err
            | Ok proxyContainers =>
                (* save config *)
                err ← SaveConfig cfg proxyContainers;
                match err with
                | Some err => SendErr err
                | None => apply_config containers cfg proxyContainers
                end
            end
        end
    end.

(** ** The handler of proxyNetworkCleanupChan *)

Record proxyContainerNetworkConfig := {
  ContainerID : string;
  ProxyNetworks : gmap string string;
}.

Fixpoint disconnect (retries : nat) (net cID : string) : M unit :=
  match retries with
  | O => mret tt
  | S n =>
      err ← NetworkDisconnect net cID;
      match err with
      | None => mret tt
      | Some _ =>
          (* wait for network to disconnect *)
          _ ← Sleep 2000;
          disconnect n net cID
      end
  end.

Definition cleanup_container (c : proxyContainerNetworkConfig) : M unit :=
  cnt ← ContainerInspect (ContainerID c);
  match cnt with
  | Err _ => mret tt
  | Ok cnt =>
      t ← tick;
      settings ← pure (deref (types.ci_NetworkSettings cnt));
      forM (fun '(net, _) =>
          if decide (net = "bridge") then mret tt
          else
            match ProxyNetworks c !! net with
            | Some _ => mret tt
            | None => disconnect 5 net (ContainerID c)
            end)
        (range "cleanup" t (types.ci_Networks settings))
  end.
Definition cleanup (nc : list proxyContainerNetworkConfig) : M unit := forM cleanup_container nc.
End LoadBalancer.

(** ** Lemmas on the shares *)

(** The shares [split_work] deals, in the order of the nodes. *)
Fixpoint shares (n sub : nat) (cs : list types.Container) : list (list types.Container) :=
  match n with
  | O => []
  | S O => [cs]
  | S n' => drop (length cs - sub) cs :: shares n' sub (take (length cs - sub) cs)
  end.

Lemma concat_rev_shares n sub cs : 0 < n -> concat (rev (shares n sub cs)) = cs.
Proof.
  revert cs. induction n as [|n IH]; intros cs Hn; [lia|].
  destruct n as [|n]; [simpl; by rewrite app_nil_r|].
  change (shares (S (S n)) sub cs) with
    (drop (length cs - sub) cs :: shares (S n) sub (take (length cs - sub) cs)).
  cbn [rev]. rewrite concat_app, IH by lia. cbn [concat]. by rewrite app_nil_r, take_drop.
Qed.

Lemma length_shares n sub cs : length (shares n sub cs) = n.
Proof.
  revert cs. induction n as [|n IH]; intros cs; [done|].
  destruct n as [|n]; [done|]. simpl. f_equal. apply IH.
Qed.

Lemma shares_at_least n sub cs : n * sub <= length cs -> Forall (fun s => sub <= length s) (shares n sub cs).
Proof.
  revert cs. induction n as [|n IH]; intros cs Hn; [constructor|].
  destruct n as [|n]; [simpl in *; constructor; [lia|constructor]|].
  change (shares (S (S n)) sub cs) with
    (drop (length cs - sub) cs :: shares (S n) sub (take (length cs - sub) cs)).
  constructor; [rewrite length_drop; lia|]. apply IH. rewrite length_take. lia.
Qed.

Lemma split_work_cons n n' nodes sub cs work :
  split_work (n :: n' :: nodes) sub cs work =
  if decide (sub <= length cs) then
    split_work (n' :: nodes) sub (take (length cs - sub) cs)
      (<[types.c_ID n := drop (length cs - sub) cs]> work)
  else Panic "slice bounds out of range".
Proof. reflexivity. Qed.

Lemma split_work_shares nodes sub cs work :
  nodes <> [] -> length nodes * sub <= length cs ->
  split_work nodes sub cs work =
  Val (fold_left (fun w '(n, s) => <[types.c_ID n := s]> w) (zip nodes (shares (length nodes) sub cs)) work).
Proof.
  revert cs work. induction nodes as [|n nodes IH]; intros cs work Hne Hsub; [done|].
  destruct nodes as [|n' nodes]; [done|].
  simpl length in Hsub. rewrite split_work_cons.
  rewrite decide_True by lia. rewrite IH; [|done|rewrite length_take; simpl length; lia].
  done.
Qed.

Lemma lookup_dealt (nodes : list types.Container) (ss : list (list types.Container))
    (work : gmap string (list types.Container)) n s i :
  NoDup (map types.c_ID nodes) -> nodes !! i = Some n -> ss !! i = Some s ->
  fold_left (fun w '(n, s) => <[types.c_ID n := s]> w) (zip nodes ss) work !! types.c_ID n = Some s.
Proof.
  revert ss work i. induction nodes as [|n' nodes IH]; intros ss work i Hnd Hn Hs; [done|].
  destruct ss as [|s' ss]; [done|]. simpl in Hnd. apply NoDup_cons in Hnd as [Hnotin Hnd].
  destruct i as [|i]; simplify_eq/=; [|by eapply IH].
  enough (forall w : gmap string (list types.Container), w !! types.c_ID n = Some s ->
    fold_left (fun w '(n, s) => <[types.c_ID n := s]> w) (zip nodes ss) w !! types.c_ID n = Some s) as Hk
    by (apply Hk, lookup_insert_eq).
  clear -Hnotin. revert ss. induction nodes as [|n' nodes IH]; intros ss w Hw; [by destruct ss|].
  destruct ss as [|s' ss]; [done|]. simpl in *. apply IH; [set_solver|].
  rewrite lookup_insert_ne; [done|set_solver].
Qed.

Lemma short_ids_val cs : Forall (fun c => 8 <= String.length (types.c_ID c)) cs -> exists ids, short_ids cs = Val ids.
Proof.
  induction 1 as [|c cs Hc Hcs [ids IH]]; simpl; [by eexists|].
  unfold Strings.prefix_slice. rewrite decide_True by done. simpl. rewrite IH. by eexists.
Qed.

(** ** Theorems *)

(** C16: The instances of the program that see the same proxies and the same
    instances, whose identifiers are distinct, restart every proxy exactly
    once between them, and each at least its fair share; no slice is out of
    bounds. *)
Theorem restart_partition nodes cs :
  nodes <> [] -> NoDup (map types.c_ID nodes) ->
  Forall (fun c => 8 <= String.length (types.c_ID c)) cs ->
  exists ss,
    Forall2 (fun n s => proxyContainersToRestart (types.c_ID n) nodes cs = Val s) nodes ss /\
    concat (rev ss) = cs /\
    Forall (fun s => length cs / length nodes <= length s) ss.
Proof.
  intros Hne Hnd Hids. exists (shares (length nodes) (length cs / length nodes) cs).
  assert (0 < length nodes) by (destruct nodes; simpl; [done|lia]).
  assert (length nodes * (length cs / length nodes) <= length cs) by (apply Nat.Div0.mul_div_le).
  split; [|split; [by apply concat_rev_shares|by apply shares_at_least]].
  apply Forall2_same_length_lookup_2; [by rewrite length_shares|].
  intros i n s Hn Hs. unfold proxyContainersToRestart.
  rewrite decide_False by lia. case_decide as H1.
  - rewrite H1 in Hs. simpl in Hs. apply list_lookup_singleton_Some in Hs as [_ <-]. done.
  - rewrite split_work_shares by done. simpl.
    rewrite (lookup_dealt _ _ _ n s i) by done. simpl.
    destruct (short_ids_val s) as [ids ->]; [|done].
    rewrite Forall_forall in Hids |- *. intros c Hc. apply Hids.
    rewrite <- (concat_rev_shares (length nodes) (length cs / length nodes) cs) by done.
    apply list_elem_of_In, in_concat. exists s. split; [|by apply list_elem_of_In].
    apply in_rev. rewrite rev_involutive. apply list_elem_of_In. by eapply list_elem_of_lookup_2.
Qed.

(** ** The reaction to an event *)

(** Whether the inspection of a container makes its events matter. *)
Definition exposed (c : res types.ContainerJSON) : outcome bool :=
  match c with
  | Err _ => mret false
  | Ok c =>
      config ← deref (types.ci_Config c);
      mret (bool_decide (ctypes.Labels config !! ext.InterlockExtNameLabel = None /\
                         ctypes.Labels config !! ext.InterlockAppLabel = None /\
                         ctypes.ExposedPorts config <> ∅))
  end.

(** The milliseconds an interaction pauses for. *)
Definition pause (e : event) : Z := match e with ESleep ms => ms | _ => 0%Z end.

Section Events.
Context `{MapRange} `{World} `{LoadBalancerBackend}.

Lemma isExposedContainer_at id h :
  isExposedContainer id h = (exposed (reply_ContainerInspect h id), h ++ [EContainerInspect id]).
Proof.
  unfold isExposedContainer, ContainerInspect, call, exposed. rewrite bind_at. simpl.
  destruct (reply_ContainerInspect h id) as [c|e]; [|done]. rewrite bind_at. unfold pure.
  destruct (types.ci_Config c) as [config|]; [|done]. simpl. unfold mret, comp_ret, outcome_ret.
  repeat case_decide; case_bool_decide as Hb; try done; exfalso.
  all: rewrite ?map_size_empty_iff in *; unfold is_Some in *;
    destruct (ctypes.Labels config !! ext.InterlockExtNameLabel) eqn:?,
             (ctypes.Labels config !! ext.InterlockAppLabel) eqn:?; naive_solver.
Qed.

(** C20: The handling of a container event, on every branch: an event that
    forces a reload, one that needs an inspection, and any other. *)
Theorem handle_container_event ev h :
  etypes.Action ev ∉ ["connect"; "disconnect"] ->
  HandleEvent ev h =
  if decide (etypes.Status ev ∈ ["interlock-start"; "interlock-restart"; "destroy"]) then
    (Val None, h ++ [ECacheSet "reload"])
  else if decide (etypes.Status ev ∈ ["start"; "stop"]) then
    match exposed (reply_ContainerInspect h (etypes.ID ev)) with
    | Val b =>
        (Val None,
         h ++ [EContainerInspect (etypes.ID ev)]
           ++ (if decide (etypes.Status ev = "stop") then [ESleep 250] else [])
           ++ (if b : bool then [ECacheSet "reload"] else []))
    | Panic w => (Panic w, h ++ [EContainerInspect (etypes.ID ev)])
    | Exit w => (Exit w, h ++ [EContainerInspect (etypes.ID ev)])
    end
  else (Val None, h).
Proof.
  intros Hact.
  assert (Htail : forall b h, (r ← (mret (Ok b) : M (res bool));
    match r with
    | Err err => mret (Some err)
    | Ok reload => if reload : bool then _ ← CacheSet "reload"; mret None else mret None
    end) h = (Val None, h ++ (if b : bool then [ECacheSet "reload"] else [])) :> outcome (option error) * _).
  { intros [] h'; rewrite bind_at; [done|]. by rewrite app_nil_r. }
  unfold HandleEvent. rewrite bind_at.
  destruct (decide (etypes.Status ev = "start")) as [Hs|Hs];
    [|destruct (decide (etypes.Status ev = "stop")) as [Hs'|Hs']].
  - rewrite isExposedContainer_at, Hs. rewrite decide_False by set_solver.
    rewrite decide_True by set_solver. rewrite (decide_False (P := "start" = "stop")) by done.
    destruct (exposed _) as [b|w|w]; [|done..]. rewrite (decide_False _ _ Hact), Htail.
    by rewrite <- app_assoc.
  - rewrite bind_at, isExposedContainer_at, Hs'. rewrite decide_False by set_solver.
    rewrite !decide_True by set_solver.
    destruct (exposed _) as [b|w|w]; [|done..]. unfold Sleep, call. rewrite bind_at. cbn [mret comp_ret].
    rewrite (decide_False _ _ Hact), Htail. by rewrite <- !app_assoc.
  - destruct (decide (_ ∈ ["interlock-start"; _; _])) as [Hin|Hin]; cbn [mret comp_ret];
      rewrite (decide_False _ _ Hact), Htail; [done|].
    rewrite decide_False by set_solver. by rewrite app_nil_r.
Qed.

Lemma wait_connected_costs n id net :
  emits (costs pause (2 * n) (500 * Z.of_nat n)) (wait_connected n id net).
Proof.
  induction n as [|n IH]; [by apply emits_ret, costs_nil|].
  simpl wait_connected. unfold isContainerConnected, NetworkInspect, Sleep.
  eapply emits_weaken.
  - eapply (emits_costs_bind pause 1 0 (2 * n + 1) (500 * Z.of_nat (S n))); [| |lia].
    + intros h. wp_step. wp_step. split; simpl; lia.
    + intros [[]|e]; [apply emits_ret, costs_nil; lia| |apply emits_ret, costs_nil; lia].
      eapply emits_weaken.
      * eapply (emits_costs_bind pause 1 500); [|intros; apply IH|lia]. apply emits_call. split; simpl; lia.
      * unfold costs. intros l. lia.
  - unfold costs. intros l. lia.
Qed.

Lemma isExposedContainer_costs id : emits (costs pause 1 0) (isExposedContainer id).
Proof.
  intros h. exists [EContainerInspect id]. rewrite isExposedContainer_at. split; [done|]. split; simpl; lia.
Qed.

(** Handling an event ends after at most 14 interactions, and pauses for at
    most 2.75 seconds. *)
Theorem handle_event_bounded ev : emits (costs pause 14 2750) (HandleEvent ev).
Proof.
  unfold HandleEvent.
  eapply emits_weaken; [apply (emits_costs_bind pause 2 250 12 2500); [| |lia]|done].
  - repeat case_decide; try (by apply emits_ret, costs_nil).
    + eapply emits_weaken; [apply isExposedContainer_costs|]. unfold costs. lia.
    + eapply (emits_costs_bind pause 1 0 1 250); [apply isExposedContainer_costs| |lia].
      intros b h. unfold Sleep. repeat wp_step. split; simpl; lia.
  - intros b. eapply emits_weaken; [apply (emits_costs_bind pause 11 2500 1 0); [| |lia]|done].
    + case_decide; [|by apply emits_ret, costs_nil].
      destruct (_ !! "container") as [id|]; [|by apply emits_ret, costs_nil].
      destruct (_ !! "name") as [net|]; [|by apply emits_ret, costs_nil].
      eapply (emits_costs_bind pause 10 2500 1 0); [apply wait_connected_costs| |lia].
      intros [[]|e]; [|by apply emits_ret, costs_nil].
      intros h. apply wp_bind. eapply wp_mono; [apply isExposedContainer_costs|].
      intros [b'|w|w] n Hn; [|done..]. wp_step. by rewrite app_nil_r.
    + intros [[]|e]; [|by apply emits_ret, costs_nil..].
      intros h. unfold CacheSet. repeat wp_step. split; simpl; lia.
Qed.

(** The history after [k] tries that have not seen the container on the
    network. *)
Fixpoint tried (k : nat) (net : string) (h : list event) : list event :=
  match k with
  | O => h
  | S k' => tried k' net (h ++ [ENetworkInspect net; ESleep 500])
  end.

(** The first [k] tries are answered, without the container. *)
Definition unconnected (id net : string) (h : list event) (k : nat) : Prop :=
  forall j, j < k -> exists network,
    reply_NetworkInspect (tried j net h) net = Ok network /\ types.n_Containers network !! id = None.

Lemma wait_tries id net h k m :
  unconnected id net h k -> wait_connected (k + m) id net h = wait_connected m id net (tried k net h).
Proof.
  revert h. induction k as [|k IH]; intros h Hun; [done|]. simpl.
  destruct (Hun 0) as (network & Hr & Hn); [lia|]. simpl in Hr.
  unfold isContainerConnected, NetworkInspect, Sleep, call. rewrite !bind_at, Hr. cbn [mret comp_ret].
  rewrite bool_decide_eq_false_2 by (rewrite Hn; by intros []). rewrite bind_at, <- app_assoc. apply IH.
  intros j Hj. apply (Hun (S j)). lia.
Qed.

(** What follows the wait: the container is inspected, and the proxies are
    reloaded if it is exposed. *)
Definition inspected (id : string) (h : list event) : outcome (option error) * list event :=
  match exposed (reply_ContainerInspect h id) with
  | Val b => (Val None, h ++ [EContainerInspect id] ++ (if b : bool then [ECacheSet "reload"] else []))
  | Panic w => (Panic w, h ++ [EContainerInspect id])
  | Exit w => (Exit w, h ++ [EContainerInspect id])
  end.

(** The statuses [HandleEvent] knows. *)
Definition statuses : list string := ["start"; "stop"; "interlock-start"; "interlock-restart"; "destroy"].

Lemma network_event_at ev h :
  etypes.Status ev ∉ statuses -> etypes.Action ev ∈ ["connect"; "disconnect"] ->
  HandleEvent ev h =
  match etypes.Actor_Attributes ev !! "container", etypes.Actor_Attributes ev !! "name" with
  | None, _ => (Val (Some (ErrorString "unable to detect container id for network event")), h)
  | Some _, None => (Val (Some (ErrorString "unable to detect container network name for network event")), h)
  | Some id, Some net =>
      match wait_connected 5 id net h with
      | (Val (Ok _), h1) => inspected id h1
      | (Val (Err e), h1) => (Val (Some e), h1)
      | (Panic w, h1) => (Panic w, h1)
      | (Exit w, h1) => (Exit w, h1)
      end
  end.
Proof.
  intros Hst Hact. unfold HandleEvent, statuses in *. rewrite bind_at.
  rewrite !decide_False by set_solver. cbn [mret comp_ret]. rewrite (decide_True _ _ Hact).
  destruct (_ !! "container") as [id|]; [|done]. destruct (_ !! "name") as [net|]; [|done].
  rewrite !bind_at. destruct (wait_connected 5 id net h) as [[[[]|e]|w|w] h1]; [|done..].
  rewrite bind_at, isExposedContainer_at. unfold inspected.
  destruct (exposed _) as [[]|w|w]; [..|done|done]; cbn [mret comp_ret]; [|done].
  unfold CacheSet, call. rewrite bind_at. cbn [mret comp_ret]. by rewrite <- app_assoc.
Qed.

(** C21: The handling of a network event: without the attributes of the
    container and of the network it fails and asks the daemon for nothing;
    otherwise the network is inspected up to five times, half a second apart.
    A try that fails ends the handling with its error and no request; a try
    that finds the container connected is the last, and the proxies are
    reloaded if the container is exposed. *)
Theorem handle_network_event ev h :
  etypes.Status ev ∉ statuses -> etypes.Action ev ∈ ["connect"; "disconnect"] ->
  match etypes.Actor_Attributes ev !! "container", etypes.Actor_Attributes ev !! "name" with
  | None, _ => HandleEvent ev h = (Val (Some (ErrorString "unable to detect container id for network event")), h)
  | Some _, None =>
      HandleEvent ev h = (Val (Some (ErrorString "unable to detect container network name for network event")), h)
  | Some id, Some net =>
      forall k, k < 5 -> unconnected id net h k ->
      let h1 := tried k net h ++ [ENetworkInspect net] in
      match reply_NetworkInspect (tried k net h) net with
      | Err e => HandleEvent ev h = (Val (Some e), h1)
      | Ok network => is_Some (types.n_Containers network !! id) -> HandleEvent ev h = inspected id h1
      end
  end.
Proof.
  intros Hst Hact. rewrite network_event_at by done.
  destruct (_ !! "container") as [id|]; [|done]. destruct (_ !! "name") as [net|]; [|done].
  intros k Hk Hun h1. replace 5 with (k + S (4 - k)) by lia. rewrite wait_tries by done. simpl.
  unfold isContainerConnected, NetworkInspect, call. rewrite !bind_at. cbn [mret comp_ret]. fold h1.
  destruct (reply_NetworkInspect _ _) as [network|e]; [|done]. intros Hc. by rewrite bool_decide_eq_true_2.
Qed.

(** A container that no try finds on the network is not given up: it is
    inspected like any other, and the proxies may be reloaded. *)
Theorem unconfirmed_network_event ev h id net :
  etypes.Status ev ∉ statuses -> etypes.Action ev ∈ ["connect"; "disconnect"] ->
  etypes.Actor_Attributes ev !! "container" = Some id -> etypes.Actor_Attributes ev !! "name" = Some net ->
  unconnected id net h 5 -> HandleEvent ev h = inspected id (tried 5 net h).
Proof.
  intros Hst Hact Hid Hnet Hun. rewrite network_event_at, Hid, Hnet by done.
  by rewrite (wait_tries _ _ _ 5 0).
Qed.
End Events.

(** ** The update of the proxies *)

Section Update.
Context `{MapRange} `{World} (Parse : string -> res (ProxyConfig -> res string)) (nodeID : string).
Context {b : LoadBalancerBackend} {Hb : LawfulBackend b}.

(** The proxies of a list of containers. *)
Definition proxies (cs : list types.Container) : list types.Container :=
  filter (fun cnt => types.c_Labels cnt !! ext.InterlockExtNameLabel = Some Name) cs.

Definition copy_event (data : string) (cnt : types.Container) : event :=
  ECopyToContainer (types.c_ID cnt) (Path.Dir ConfigPath) (Path.Base ConfigPath) data.

(** Interactions once the configuration is on the proxies [cs]: looking,
    connecting them to networks, reloading them. *)
Definition applies (cs : list types.Container) (e : event) : Prop :=
  reads e \/ reloads cs e \/ match e with ENetworkConnect _ id => id ∈ map types.c_ID cs | _ => False end.

(** The history when an update that is not skipped has its first listing. *)
Definition starts (h : list event) : list event := h ++ [ECacheGet "reload"; EContainerList true].

(** The configuration of an update, from its first listing. *)
Record generated (h : list event) (cs : list types.Container) (cfg : ProxyConfig) (h2 : list event) : Prop := {
  not_skipped : reply_CacheGet h "reload" = false;
  first_listing : reply_ContainerList (h ++ [ECacheGet "reload"]) true = Ok cs;
  generation : GenerateProxyConfig cs (starts h) = (Val (Ok cfg), h2);
}.

(** An update fails with the error of a listing, of the generation, or of the
    template; then it has only looked. *)
Inductive failed (h : list event) : error -> list event -> Prop :=
| listing_fails e :
    reply_ContainerList (h ++ [ECacheGet "reload"]) true = Err e -> failed h e (starts h)
| generation_fails cs e h2 :
    reply_ContainerList (h ++ [ECacheGet "reload"]) true = Ok cs ->
    GenerateProxyConfig cs (starts h) = (Val (Err e), h2) -> failed h e h2
| proxies_fail cs cfg h2 e :
    generated h cs cfg h2 -> reply_ContainerList h2 true = Err e -> failed h e (h2 ++ [EContainerList true])
| saving_fails cs cfg h2 cs2 e h3 :
    generated h cs cfg h2 -> reply_ContainerList h2 true = Ok cs2 ->
    SaveConfig Parse cfg (proxies cs2) (h2 ++ [EContainerList true]) = (Val (Some e), h3) -> failed h e h3.

(** What [handle_update] comes to at the history [h]. *)
Inductive update_case (h : list event) : outcome unit * list event -> Prop :=
| case_skipped : reply_CacheGet h "reload" = true -> update_case h (Val tt, h ++ [ECacheGet "reload"])
| case_failed e h' : failed h e h' -> update_case h (Val tt, h' ++ [EErrChan e])
| case_panicked o l : o <> Val tt -> Forall reads l -> update_case h (o, h ++ l)
| case_saved cs cfg h2 cs2 h3 :
    generated h cs cfg h2 -> reply_ContainerList h2 true = Ok cs2 ->
    SaveConfig Parse cfg (proxies cs2) (h2 ++ [EContainerList true]) = (Val None, h3) ->
    update_case h (apply_config nodeID cs cfg (proxies cs2) h3).

(** The text of a configuration, by the template, which may be a file. *)
Definition rendered (cfg : ProxyConfig) (h lt : list event) (data : string) : Prop :=
  exists tmpl render, Template h = (Val tmpl, h ++ lt) /\ Parse tmpl = Ok render /\ render cfg = Ok data.

(** The end of an update: the instances of the program among the containers
    listed first, and the reload of this one's share of the proxies [cs]. *)
Definition reloaded (containers cs : list types.Container) (h h' : list event) : Prop :=
  exists h3 h4 nodes toRestart, h `prefix_of` h3 /\
    foldM (add_interlock_node nodeID) [] containers h3 = (Val nodes, h4) /\
    proxyContainersToRestart nodeID nodes cs = Val toRestart /\
    Reload toRestart (h4 ++ [ESleep 1000]) = (Val None, h').

(** The course of an update: it only looks at the cluster, and reports at most
    one error, or it puts the text of the configuration of its first listing
    on every proxy of the second, in order, and only then connects and reloads
    proxies of that listing. *)
Definition update_course (h : list event) (o : outcome unit) (new : list event) : Prop :=
  (Forall reads new /\ (o = Val tt -> reply_CacheGet h "reload" = true /\ new = [ECacheGet "reload"])) \/
  (exists l e, new = l ++ [EErrChan e] /\ Forall reads l /\ o = Val tt /\ failed h e (h ++ l)) \/
  exists cs cfg lg cs2 lt data l3,
    generated h cs cfg (starts h ++ lg) /\ Forall reads lg /\
    reply_ContainerList (starts h ++ lg) true = Ok cs2 /\
    rendered cfg ((starts h ++ lg) ++ [EContainerList true]) lt data /\ Forall reads lt /\
    let copied := ([ECacheGet "reload"; EContainerList true] ++ lg ++ [EContainerList true] ++ lt) ++
      map (copy_event data) (proxies cs2) in
    new = copied ++ l3 /\ Forall (applies (proxies cs2)) l3 /\
    (o = Val tt -> reloaded cs (proxies cs2) (h ++ copied) (h ++ new)).

(** What is saved is the text of the configuration. *)
Lemma SaveConfig_course cfg cs h :
  wp (SaveConfig Parse cfg cs) h (fun o new =>
    match o with
    | Val None => exists lt data, new = lt ++ map (copy_event data) cs /\ Forall reads lt /\ rendered cfg h lt data
    | _ => Forall reads new
    end).
Proof.
  unfold SaveConfig. destruct (template_reads h) as (n & Hh & Hn). destruct (Template h) as [o h1] eqn:Ht.
  simpl in Hh, Hn. subst h1. apply wp_bind. exists n. rewrite Ht. split; [done|]. simpl.
  destruct o as [tmpl|w|w]; [|done..].
  destruct (Parse tmpl) as [render|e] eqn:Hp; [|apply wp_ret; by rewrite app_nil_r].
  assert (Hend : forall data h1, (forall d, data = Ok d -> render cfg = Ok d) -> wp
    (match data with
     | Err err => mret (Some err)
     | Ok data =>
         let fName := Path.Base ConfigPath in
         let proxyConfigPath := Path.Dir ConfigPath in
         _ ← forM (fun cnt => _ ← CopyToContainer (types.c_ID cnt) proxyConfigPath fName data; mret tt) cs;
         mret None
     end : M (option error)) h1 (fun o n' =>
      match o with
      | Val None => exists lt data, n ++ n' = lt ++ map (copy_event data) cs /\ Forall reads lt /\ rendered cfg h lt data
      | _ => Forall reads (n ++ n')
      end)).
  { intros [data|e] h1 Hd; [|apply wp_ret; by rewrite app_nil_r].
    apply wp_bind, (wp_forM_calls _ (copy_event data)); [done|].
    apply wp_ret. rewrite app_nil_r. exists n, data. split; [done|]. split; [done|].
    exists tmpl, render. auto. }
  apply wp_bind. repeat case_decide; [..|by apply wp_ret, (Hend (Err (ErrorString ("unknown backend type: " +:+ Name))))].
  all: destruct cfg; simpl; apply wp_bind, wp_pure;
    first [by apply wp_ret, (Hend (render _)) | by rewrite !app_nil_r].
Qed.

Lemma split_work_subset nodes sub cs work work' all :
  split_work nodes sub cs work = Val work' -> cs ⊆ all ->
  (forall k s, work !! k = Some s -> s ⊆ all) -> forall k s, work' !! k = Some s -> s ⊆ all.
Proof.
  revert cs work. induction nodes as [|n [|n' nodes] IH]; intros cs work Hs Hcs Hw k s; [done|..].
  - injection Hs as <-. rewrite lookup_insert. case_decide; [|by apply Hw]. by intros [= <-].
  - rewrite split_work_cons in Hs.
    case_decide; [|done]. eapply IH; [exact Hs|..].
    + etrans; [apply subseteq_take|done].
    + intros k' s'. rewrite lookup_insert. destruct (decide _); [|by apply Hw].
      intros [= <-]. etrans; [apply subseteq_drop|done].
Qed.

Lemma restart_subset nodes cs r : proxyContainersToRestart nodeID nodes cs = Val r -> r ⊆ cs.
Proof.
  unfold proxyContainersToRestart. repeat (case_decide; [by intros [= ->]|]).
  destruct (split_work _ _ _ _) as [work|w|w] eqn:Hs; [|done..]. simpl.
  destruct (short_ids _); [|done..]. intros [= <-].
  destruct (work !! nodeID) as [s|] eqn:Hl; simpl; [|set_solver].
  eapply split_work_subset; [exact Hs|done| |exact Hl]. intros k s'. by rewrite lookup_empty.
Qed.

Lemma apply_config_applies containers cfg cs :
  matches_name Name cfg -> emits (Forall (applies cs)) (apply_config nodeID containers cfg cs).
Proof.
  intros Hm. unfold apply_config.
  assert (exists nets, proxy_networks cfg = Val (Ok nets)) as [nets ->].
  { unfold proxy_networks. destruct cfg; simpl in *; rewrite Hm; simpl; eauto. }
  assert (Hr : forall toRestart, toRestart ⊆ cs -> emits (Forall (applies cs)) (
    _ ← Sleep 1000; err ← Reload toRestart;
    match err with Some err => SendErr err | None => mret tt end)).
  { intros toRestart Hsub. apply emits_all_bind; [apply emits_all_call; right; by left|]. intros _ h.
    apply wp_bind. eapply wp_mono; [apply wp_and; [apply reload_reloads|apply reload_succeeds]|].
    intros o n [Hn Ho].
    assert (Forall (applies cs) n).
    { eapply Forall_impl; [exact Hn|]. intros e He. right; left. destruct e; simpl in *; try done.
      all: apply list_elem_of_fmap in He as (c & -> & Hc); apply list_elem_of_fmap_2; by apply Hsub. }
    destruct o as [[e|]|w|w]; [done|..]; try done. apply wp_ret. by rewrite app_nil_r. }
  intros h. apply wp_bind, wp_pure. rewrite app_nil_r.
  apply emits_all_bind; [|intros _; apply emits_all_bind].
  - apply emits_all_forM. intros cnt Hc. apply emits_all_bind; [apply emits_tick; constructor|].
    intros t. unfold connect_networks, NetworkConnect. emits_auto. right; right. simpl.
    by apply list_elem_of_fmap_2.
  - unfold add_interlock_node, ContainerInspect. emits_auto. by left.
  - intros nodes h'. apply wp_bind, wp_pure.
    destruct (proxyContainersToRestart _ _ _) as [r|w|w] eqn:Hrs; [|by constructor..].
    rewrite app_nil_r. by apply Hr, (restart_subset nodes).
Qed.

(** When the configuration has been applied, the share has been reloaded. *)
Lemma apply_config_reloads containers cfg cs h h' :
  matches_name Name cfg -> apply_config nodeID containers cfg cs h = (Val tt, h') -> reloaded containers cs h h'.
Proof.
  intros Hm. unfold apply_config. rewrite bind_at.
  assert (exists nets, proxy_networks cfg = Val (Ok nets)) as [nets ->].
  { unfold proxy_networks. destruct cfg; simpl in *; rewrite Hm; simpl; eauto. }
  unfold pure. rewrite bind_at.
  assert (Hc : emits (Forall (fun _ => True)) (forM (fun cnt => t ← tick; connect_networks t nets cnt) cs)).
  { apply emits_all_forM. intros cnt _.
    apply emits_all_bind; [apply emits_tick; constructor|]. intros t. unfold connect_networks, NetworkConnect. by emits_auto. }
  destruct (Hc h) as (new & Hnew & _). destruct (forM _ cs h) as [[[]|w|w] h3]; [|done..]. simpl in Hnew. subst h3.
  rewrite bind_at. destruct (foldM _ [] containers (h ++ new)) as [[nodes|w|w] h4] eqn:Hn; [|done..].
  rewrite bind_at. destruct (proxyContainersToRestart _ _ _) as [r|w|w] eqn:Hr; [|done..].
  unfold Sleep, call. rewrite !bind_at.
  destruct (reload_succeeds r (h4 ++ [ESleep 1000])) as (lr & _ & Ho).
  destruct (Reload r (h4 ++ [ESleep 1000])) as [[err|w|w] h5] eqn:Hl; [|done..]. simpl in Ho. subst err.
  intros [= <-]. exists (h ++ new), h4, nodes, r. split; [by eexists|]. done.
Qed.

Lemma handle_update_case h : update_case h (handle_update Parse nodeID h).
Proof.
  unfold handle_update, CacheGet, ProxyContainers, ContainerList, SendErr, call.
  rewrite bind_at. destruct (reply_CacheGet h "reload") eqn:Hc; [by apply case_skipped|].
  rewrite bind_at. rewrite <- (app_assoc h). change (h ++ [ECacheGet "reload"] ++ [EContainerList true]) with (starts h).
  destruct (reply_ContainerList (h ++ [ECacheGet "reload"]) true) as [cs|e] eqn:Hl.
  2: { by apply case_failed, listing_fails. }
  rewrite bind_at. destruct (generate_reads cs (starts h)) as (lg & Hh & Hg).
  destruct (GenerateProxyConfig cs (starts h)) as [[[cfg|e]|w|w] h2] eqn:Hgen; simpl in Hh.
  2: { by eapply case_failed, generation_fails. }
  2-3: subst h2; unfold starts; rewrite <- app_assoc; apply case_panicked; [done|by repeat constructor].
  assert (Hgd : generated h cs cfg h2) by done.
  rewrite !bind_at. destruct (reply_ContainerList h2 true) as [cs2|e] eqn:Hl2; cbn [mret comp_ret].
  2: { by eapply case_failed, proxies_fail. }
  fold (proxies cs2). rewrite bind_at.
  destruct (SaveConfig_course cfg (proxies cs2) (h2 ++ [EContainerList true])) as (ls & Hs & Hr).
  destruct (SaveConfig Parse cfg (proxies cs2) (h2 ++ [EContainerList true])) as [[[e|]|w|w] h3] eqn:Hsave; simpl in Hs, Hr.
  - by eapply case_failed, saving_fails.
  - by eapply case_saved.
  - subst h3 h2. unfold starts. rewrite <- !app_assoc. apply case_panicked; [done|].
    repeat (apply Forall_app; split); try done; by repeat constructor.
  - subst h3 h2. unfold starts. rewrite <- !app_assoc. apply case_panicked; [done|].
    repeat (apply Forall_app; split); try done; by repeat constructor.
Qed.

(** What fails has only looked. *)
Lemma failed_reads h e h' : failed h e h' -> exists l, h' = h ++ l /\ Forall reads l.
Proof.
  assert (Hgr : forall cs cfg h2, generated h cs cfg h2 -> exists l, h2 = h ++ l /\ Forall reads l).
  { intros cs cfg h2 [_ _ Hg]. destruct (generate_reads cs (starts h)) as (lg & Hh & Hr). rewrite Hg in Hh. simpl in Hh.
    eexists. unfold starts in Hh. rewrite <- app_assoc in Hh. split; [exact Hh|]. by repeat constructor. }
  intros [e0 Hl|cs e0 h2 Hl Hg|cs cfg h2 e0 Hg Hl|cs cfg h2 cs2 e0 h3 Hg Hl Hs].
  - eexists. split; [reflexivity|]. by repeat constructor.
  - destruct (generate_reads cs (starts h)) as (lg & Hh & Hr). rewrite Hg in Hh. simpl in Hh.
    eexists. unfold starts in Hh. rewrite <- app_assoc in Hh. split; [exact Hh|]. by repeat constructor.
  - destruct (Hgr _ _ _ Hg) as (l & -> & Hr). eexists. rewrite <- app_assoc. split; [reflexivity|].
    apply Forall_app. split; [done|by repeat constructor].
  - destruct (Hgr _ _ _ Hg) as (l & -> & Hr).
    destruct (SaveConfig_course cfg (proxies cs2) ((h ++ l) ++ [EContainerList true])) as (ls & Hh & Hc).
    rewrite Hs in Hh, Hc. simpl in Hh, Hc. eexists. rewrite <- !app_assoc in Hh. split; [exact Hh|].
    apply Forall_app. split; [done|]. apply Forall_app. split; [by repeat constructor|done].
Qed.

Lemma handle_update_course h : wp (handle_update Parse nodeID) h (fun o new => update_course h o new).
Proof.
  unfold wp. destruct (handle_update_case h) as [Hc|e h' Hf|o l Ho Hl|cs cfg h2 cs2 h3 Hg Hl Hs]; simpl.
  - eexists. split; [reflexivity|]. left. split; [by repeat constructor|done].
  - destruct (failed_reads h e h' Hf) as (l & -> & Hl). exists (l ++ [EErrChan e]). split; [by rewrite <- app_assoc|].
    right; left. eauto 10.
  - exists l. split; [done|]. left. split; [done|]. by intros ->.
  - destruct Hg as [Hc Hl1 Hg]. destruct (generate_reads cs (starts h)) as (lg & Hh & Hr).
    pose proof (generate_matches cs (starts h)) as (lg' & _ & Hm). rewrite Hg in Hh, Hm. simpl in Hh, Hm. subst h2.
    destruct (SaveConfig_course cfg (proxies cs2) ((starts h ++ lg) ++ [EContainerList true])) as (ls & Hsl & Hsc).
    rewrite Hs in Hsl, Hsc. simpl in Hsl, Hsc. destruct Hsc as (lt & data & -> & Hlt & Hd).
    destruct (apply_config_applies cs cfg (proxies cs2) Hm h3) as (l3 & Ha & Hl3).
    set (copied := ([ECacheGet "reload"; EContainerList true] ++ lg ++ [EContainerList true] ++ lt) ++ map (copy_event data) (proxies cs2)).
    assert (Hcopied : h3 = h ++ copied) by (rewrite Hsl; unfold starts, copied; by rewrite <- !app_assoc).
    exists (copied ++ l3). split; [by rewrite Ha, Hcopied, <- app_assoc|].
    right; right. exists cs, cfg, lg, cs2, lt, data, l3. split_and!; try done.
    cbv zeta. fold copied. split_and!; try done. intros Ho. rewrite app_assoc, <- Hcopied, <- Ha.
    apply (apply_config_reloads cs cfg); [done|]. destruct (apply_config _ _ _ _ h3) as [o h5]. simpl in *. by subst o.
Qed.

(** C15: The course of an update: it is skipped with the look into the cache
    alone; or it panics, having only looked; or it only looks and reports the
    one error, of a listing, of the generation or of the template, it fails
    with; or it generates the configuration from the first listing, copies its
    text, the template's, to every proxy of the second listing, in its order,
    and only then connects proxies of that listing, lists the instances of the
    first one, and reloads, after a second, this instance's share. *)
Theorem update_course_holds h : wp (handle_update Parse nodeID) h (fun o new => update_course h o new).
Proof. apply handle_update_course. Qed.
End Update.

(** ** The removal of networks *)

Section Cleanup.
Context `{MapRange} `{World}.

(** The networks a proxy container has beyond its configuration. *)
Definition stale (c : proxyContainerNetworkConfig) (nets : gmap string unit) : gset string :=
  dom nets ∖ dom (ProxyNetworks c) ∖ {["bridge"]}.

(** What the removal may do for the configurations [nc]. *)
Definition cleans (nc : list proxyContainerNetworkConfig) (e : event) : Prop :=
  match e with
  | EContainerInspect id => id ∈ map ContainerID nc
  | ENetworkDisconnect net id =>
      net <> "bridge" /\ exists c, c ∈ nc /\ ContainerID c = id /\ ProxyNetworks c !! net = None
  | ESleep ms => ms = 2000%Z
  | _ => False
  end.

Lemma disconnect_cleans n net c nc :
  c ∈ nc -> net <> "bridge" -> ProxyNetworks c !! net = None ->
  emits (Forall (cleans nc)) (disconnect n net (ContainerID c)).
Proof.
  intros Hc Hne Hl. induction n as [|n IH]; simpl; unfold NetworkDisconnect, Sleep; emits_auto; try done.
  simpl. eauto 10.
Qed.

(** C40: The removal never detaches a proxy from the default bridge or from a
    network of its configuration, whatever fails. *)
Theorem cleanup_keeps nc : emits (Forall (cleans nc)) (cleanup nc).
Proof.
  unfold cleanup. apply emits_all_forM. intros c Hc. unfold cleanup_container, ContainerInspect.
  emits_auto; [by apply list_elem_of_fmap_2|]. by apply disconnect_cleans.
Qed.

Lemma disconnect_at n net id h :
  0 < n -> (forall h net id, reply_NetworkDisconnect h net id = None) ->
  disconnect n net id h = (Val tt, h ++ [ENetworkDisconnect net id]).
Proof. intros Hn Hok. destruct n; [lia|]. simpl. rewrite bind_at. unfold NetworkDisconnect, call. by rewrite Hok. Qed.

Lemma forM_calls_filter {A} (f : A -> M unit) (P : A -> Prop) `{forall x, Decision (P x)} (e : A -> event) l h :
  (forall x h, f x h = (Val tt, h ++ if decide (P x) then [e x] else [])) ->
  forM f l h = (Val tt, h ++ map e (filter P l)).
Proof.
  intros Hf. revert h. induction l as [|x l IH]; intros h; simpl; [by rewrite app_nil_r|].
  rewrite bind_at, Hf, IH, filter_cons, <- app_assoc. by case_decide.
Qed.

(** When the daemon accepts, each stale network of the container is removed
    exactly once. *)
Theorem cleanup_container_removes c cnt settings h :
  (forall h net id, reply_NetworkDisconnect h net id = None) ->
  reply_ContainerInspect h (ContainerID c) = Ok cnt -> types.ci_NetworkSettings cnt = Some settings ->
  exists nets, nets ≡ₚ elements (stale c (types.ci_Networks settings)) /\
    cleanup_container c h =
    (Val tt, h ++ EContainerInspect (ContainerID c) :: map (fun net => ENetworkDisconnect net (ContainerID c)) nets).
Proof.
  intros Hok Hi Hs. set (h1 := h ++ [EContainerInspect (ContainerID c)]).
  set (P := fun x : string * unit => x.1 <> "bridge" /\ ProxyNetworks c !! x.1 = None).
  set (nets := range "cleanup" (length h1) (types.ci_Networks settings)).
  exists (filter P nets).*1. split.
  - apply NoDup_Permutation.
    + eapply sublist_NoDup; [apply (NoDup_range_fst "cleanup" (length h1) (types.ci_Networks settings))|].
      apply fmap_sublist, sublist_filter.
    + apply NoDup_elements.
    + intros net. rewrite elem_of_elements, list_elem_of_fmap. unfold stale. split.
      * intros ([n u] & -> & [[Hb Hc] Hin]%list_elem_of_filter). apply elem_of_range in Hin.
        rewrite !elem_of_difference, elem_of_singleton, not_elem_of_dom, elem_of_dom. eauto.
      * rewrite !elem_of_difference, elem_of_singleton, not_elem_of_dom, elem_of_dom.
        intros [[[u Hu] Hc] Hb]. exists (net, u). split; [done|]. apply list_elem_of_filter.
        split; [done|]. by apply elem_of_range.
  - unfold cleanup_container, ContainerInspect, call, tick, pure. rewrite bind_at, Hi, bind_at, bind_at, Hs. simpl.
    fold h1 nets. rewrite (forM_calls_filter _ P (fun x => ENetworkDisconnect x.1 (ContainerID c))).
    + unfold h1. rewrite <- app_assoc. simpl. by rewrite map_map.
    + intros [net u] h'. unfold P. simpl. destruct (decide (net = "bridge")).
      * rewrite decide_False by tauto. by rewrite app_nil_r.
      * destruct (ProxyNetworks c !! net) eqn:?.
        { rewrite decide_False by (intros []; congruence). by rewrite app_nil_r. }
        rewrite decide_True by done. by apply (disconnect_at 5); [lia|].
Qed.
End Cleanup.

(** ** Witnesses *)

Section Witnesses.
Local Existing Instance sorted_range.
Local Existing Instance Cluster.cluster.
Import Cluster.

Lemma restart_partition_witness :
  exists ss,
    Forall2 (fun n s => proxyContainersToRestart (types.c_ID n) [web; api] [proxy; web; api] = Val s) [web; api] ss /\
    concat (rev ss) = [proxy; web; api] /\ Forall (fun s => 1 <= length s) ss.
Proof.
  apply (restart_partition [web; api] [proxy; web; api]); [discriminate|by apply (bool_decide_unpack _)|].
  apply Forall_forall. intros c Hc. repeat (apply elem_of_cons in Hc as [->|Hc]; [simpl; lia|]). by apply elem_of_nil in Hc.
Defined.

(** The event of the status [status] for the web server. *)
Definition container_event (status : string) : etypes.Message := {|
  etypes.Status := status; etypes.ID := "aaaaaaaaaaaa"; etypes.Type_ := "container"; etypes.Action := status;
  etypes.Actor_Attributes := ∅ |}.

Lemma handle_container_event_witness :
  HandleEvent (container_event "stop") [] =
  (Val None, [EContainerInspect "aaaaaaaaaaaa"; ESleep 250; ECacheSet "reload"]).
Proof. rewrite (handle_container_event (container_event "stop") []) by set_solver. reflexivity. Defined.

Definition network_event (id : string) : etypes.Message := {|
  etypes.Status := ""; etypes.ID := ""; etypes.Type_ := "network"; etypes.Action := "connect";
  etypes.Actor_Attributes := {["container" := id; "name" := "overlay"]} |}.

(** The server is on the network at the first try, and the proxies are
    reloaded. *)
Lemma handle_network_event_witness :
  HandleEvent (network_event "bbbbbbbbbbbb") [] =
  (Val None, [ENetworkInspect "overlay"; EContainerInspect "bbbbbbbbbbbb"; ECacheSet "reload"]).
Proof.
  assert (Hs : etypes.Status (network_event "bbbbbbbbbbbb") ∉ statuses) by (apply (bool_decide_unpack _); reflexivity).
  assert (Ha : etypes.Action (network_event "bbbbbbbbbbbb") ∈ ["connect"; "disconnect"]) by
    (apply (bool_decide_unpack _); reflexivity).
  refine (eq_trans (handle_network_event (network_event "bbbbbbbbbbbb") [] Hs Ha 0 _ _ _) eq_refl);
    [lia|intros j Hj; lia|by eexists].
Defined.

(** The web server is not on the network, and the proxies are reloaded after
    the five tries. *)
Lemma unconfirmed_network_event_witness : length (HandleEvent (network_event "aaaaaaaaaaaa") []).2 = 12.
Proof.
  rewrite (unconfirmed_network_event (network_event "aaaaaaaaaaaa") [] "aaaaaaaaaaaa" "overlay"); try reflexivity.
  1-2: by apply (bool_decide_unpack _).
  intros j Hj. by eexists.
Defined.

Definition nginx_backend : LoadBalancerBackend :=
  NginxBackend (SetConfigDefaults (empty_extension "nginx")) "plain" "plus".

Lemma update_course_holds_witness :
  wp (@handle_update sorted_range cluster (fun t => Ok (fun _ => Ok t)) "node" nginx_backend) []
    (fun o new => @update_course cluster (fun t => Ok (fun _ => Ok t)) "node" nginx_backend [] o new).
Proof. apply (update_course_holds (b := nginx_backend) (fun t => Ok (fun _ => Ok t)) "node" []). Defined.

Lemma cleanup_container_removes_witness :
  exists nets, nets ≡ₚ elements ({["extra"]} : gset string) /\
    cleanup_container {| ContainerID := "aaaaaaaaaaaa"; ProxyNetworks := ∅ |} [] =
    (Val tt, EContainerInspect "aaaaaaaaaaaa" :: map (fun net => ENetworkDisconnect net "aaaaaaaaaaaa") nets).
Proof.
  destruct (cleanup_container_removes {| ContainerID := "aaaaaaaaaaaa"; ProxyNetworks := ∅ |} web_info web_settings [])
    as (nets & Hp & Hc); [done..|].
  exists nets. split; [|exact Hc]. rewrite Hp. reflexivity.
Defined.
End Witnesses.
