(* ===== verification/Templates.v ===== *)
(** * The built-in templates

    [ext/lb/nginx/template.go], [template_nginxplus.go] and
    [ext/lb/haproxy/template.go], as they are in the source but for the
    double quotes, written as backquotes, what a template sees of a
    configuration, and what the three templates render. *)

From S2P Require Import Prelude GoStd Docker Labels Config Network Nginx HAProxy Backends LoadBalancer GoTemplate.

(** Backquotes stand for double quotes. *)
Fixpoint quotes (s : string) : string :=
  match s with
  | EmptyString => EmptyString
  | String c s' => String (if decide (c = "`"%char) then ascii_of_nat 34 else c) (quotes s')
  end.

Definition nginxConfTemplate : string := quotes "# managed by interlock
user  {{ .Config.User }};
worker_processes  {{ .Config.WorkerProcesses }};
worker_rlimit_nofile {{ .Config.RLimitNoFile }};

error_log  /var/log/error.log warn;
pid        {{ .Config.PidPath }};


events {
    worker_connections  {{ .Config.MaxConn }};
}


http {
    include       /etc/nginx/mime.types;
    default_type  application/octet-stream;
    server_names_hash_bucket_size 128;
    client_max_body_size 2048M;

    log_format  main  '$remote_addr - $remote_user [$time_local] `$request` '
                      '$status $body_bytes_sent `$http_referer` '
                      '`$http_user_agent` `$http_x_forwarded_for`';

    access_log  /var/log/nginx/access.log  main;

    sendfile        on;
    #tcp_nopush     on;

    keepalive_timeout  65;

    # If we receive X-Forwarded-Proto, pass it through; otherwise, pass along the
    # scheme used to connect to this server
    map $http_x_forwarded_proto $proxy_x_forwarded_proto {
      default $http_x_forwarded_proto;
      ''      $scheme;
    }

    #gzip  on;
    proxy_connect_timeout {{ .Config.ProxyConnectTimeout }};
    proxy_send_timeout {{ .Config.ProxySendTimeout }};
    proxy_read_timeout {{ .Config.ProxyReadTimeout }};
    proxy_set_header        X-Real-IP         $remote_addr;
    proxy_set_header        X-Forwarded-For   $proxy_add_x_forwarded_for;
    proxy_set_header        X-Forwarded-Proto $proxy_x_forwarded_proto;
    proxy_set_header        Host              $http_host;
    send_timeout {{ .Config.SendTimeout }};

    # ssl
    ssl_prefer_server_ciphers on;
    ssl_ciphers {{ .Config.SSLCiphers }};
    ssl_protocols {{ .Config.SSLProtocols }};
    {{ if .Config.DHParam}}ssl_dhparam {{ .Config.DHParamPath }};{{ end }}

    map $http_upgrade $connection_upgrade {
        default upgrade;
        ''      close;
    }

    # default host return 503
    server {
            listen {{ .Config.Port }};
            server_name _;

            location / {
                return 503;
            }

	    {{ range $host := .Hosts }}
	    {{ if ne $host.ContextRoot.Path `` }}
	    location {{ $host.ContextRoot.Path }} {
		{{ if $host.ContextRootRewrite }}rewrite ^([^.]*[^/])$ $1/ permanent;
		rewrite  ^{{ $host.ContextRoot.Path }}/(.*)  /$1 break;{{ end }}
		proxy_pass http://ctx{{ $host.ContextRoot.Name }};
	    }
	    {{ end }}
	    {{ end }}
            location /nginx_status {
                stub_status on;
                access_log off;
            }
    }

    {{ range $host := .Hosts }}
    {{ if ne $host.ContextRoot.Path `` }}
    upstream ctx{{ $host.ContextRoot.Name }} {
        zone ctx{{ $host.Upstream.Name }}_backend 64k;

        {{ range $up := $host.Upstream.Servers }}server {{ $up.Addr }};
        {{ end }}
    }{{ else }}
    upstream {{ $host.Upstream.Name }} {
        {{ if $host.IPHash }}ip_hash; {{else}}zone {{ $host.Upstream.Name }}_backend 64k;{{ end }}

        {{ range $up := $host.Upstream.Servers }}server {{ $up.Addr }};
        {{ end }}
    }
    server {
        listen {{ $host.Port }};

        server_name{{ range $name := $host.ServerNames }} {{ $name }}{{ end }};
        {{ if $host.SSLOnly }}return 302 https://$server_name$request_uri;{{ else }}
        location / {
            {{ if $host.SSLBackend }}proxy_pass https://{{ $host.Upstream.Name }};{{ else }}proxy_pass http://{{ $host.Upstream.Name }};{{ end }}
        }

        {{ range $ws := $host.WebsocketEndpoints }}
        location {{ $ws }} {
            {{ if $host.SSLBackend }}proxy_pass https://{{ $host.Upstream.Name }};{{ else }}proxy_pass http://{{ $host.Upstream.Name }};{{ end }}
            proxy_http_version 1.1;
            proxy_set_header Upgrade $http_upgrade;
            proxy_set_header Connection $connection_upgrade;
        }

        location /nginx_status {
            stub_status on;
            access_log off;
        }

        {{ end }}
        {{ end }}
    }
    {{ if $host.SSL }}
    server {
        listen {{ $host.SSLPort }};
        ssl on;
        ssl_certificate {{ $host.SSLCert }};
        ssl_certificate_key {{ $host.SSLCertKey }};
        server_name{{ range $name := $host.ServerNames }} {{ $name }}{{ end }};

        location / {
            {{ if $host.SSLBackend }}proxy_pass https://{{ $host.Upstream.Name }};{{ else }}proxy_pass http://{{ $host.Upstream.Name }};{{ end }}
        }

        {{ range $ws := $host.WebsocketEndpoints }}
        location {{ $ws }} {
            {{ if $host.SSLBackend }}proxy_pass https://{{ $host.Upstream.Name }};{{ else }}proxy_pass http://{{ $host.Upstream.Name }};{{ end }}
            proxy_http_version 1.1;
            proxy_set_header Upgrade $http_upgrade;
            proxy_set_header Connection $connection_upgrade;
        }

        location /nginx_status {
            stub_status on;
            access_log off;
        }
        {{ end }}
    }
    {{ end }}

    {{ end }} {{/* end context root */}}
    {{ end }} {{/* end host range */}}

    include {{ .Config.ConfigBasePath }}/conf.d/*.conf;
}
".

Definition nginxPlusConfTemplate : string := quotes "# managed by interlock
user  {{ .Config.User }};
worker_processes  {{ .Config.WorkerProcesses }};
worker_rlimit_nofile {{ .Config.RLimitNoFile }};

error_log  /var/log/error.log warn;
pid        {{ .Config.PidPath }};


events {
    worker_connections  {{ .Config.MaxConn }};
}


http {
    include       /etc/nginx/mime.types;
    default_type  application/octet-stream;
    server_names_hash_bucket_size 128;
    client_max_body_size 2048M;

    log_format  main  '$remote_addr - $remote_user [$time_local] `$request` '
                      '$status $body_bytes_sent `$http_referer` '
                      '`$http_user_agent` `$http_x_forwarded_for`';

    access_log  /var/log/nginx/access.log  main;

    sendfile        on;
    #tcp_nopush     on;

    keepalive_timeout  65;

    # If we receive X-Forwarded-Proto, pass it through; otherwise, pass along the
    # scheme used to connect to this server
    map $http_x_forwarded_proto $proxy_x_forwarded_proto {
      default $http_x_forwarded_proto;
      ''      $scheme;
    }

    #gzip  on;
    proxy_connect_timeout {{ .Config.ProxyConnectTimeout }};
    proxy_send_timeout {{ .Config.ProxySendTimeout }};
    proxy_read_timeout {{ .Config.ProxyReadTimeout }};
    proxy_set_header        X-Real-IP         $remote_addr;
    proxy_set_header        X-Forwarded-For   $proxy_add_x_forwarded_for;
    proxy_set_header        X-Forwarded-Proto $proxy_x_forwarded_proto;
    proxy_set_header        Host              $http_host;
    send_timeout {{ .Config.SendTimeout }};

    # ssl
    ssl_prefer_server_ciphers on;
    ssl_ciphers {{ .Config.SSLCiphers }};
    ssl_protocols {{ .Config.SSLProtocols }};
    {{ if .Config.DHParam}}ssl_dhparam {{ .Config.DHParamPath }};{{ end }}

    map $http_upgrade $connection_upgrade {
        default upgrade;
        ''      close;
    }

    # default host return 503
    server {
            listen {{ .Config.Port }};
            server_name _;

	    root /usr/share/nginx/html;

	    # nginxplus
    	    location = / {
    	        return 301 /status.html;
    	    }
    	    location = /status.html { }
	    # end nginxplus

    	    location /status {
    	        status;
    	    }
	    {{ range $host := .Hosts }}
	    {{ if ne $host.ContextRoot.Path `` }}
	    location {{ $host.ContextRoot.Path }} {
		{{ if $host.ContextRootRewrite }}rewrite ^([^.]*[^/])$ $1/ permanent;
		rewrite  ^{{ $host.ContextRoot.Path }}/(.*)  /$1 break;{{ end }}
		proxy_pass http://ctx{{ $host.ContextRoot.Name }};
	    }
	    {{ end }}
	    {{ end }}
    }

    {{ range $host := .Hosts }}
    {{ if ne $host.ContextRoot.Path `` }}
    upstream ctx{{ $host.ContextRoot.Name }} {
        zone ctx{{ $host.Upstream.Name }}_backend 64k;

        {{ range $up := $host.Upstream.Servers }}server {{ $up.Addr }};
        {{ end }}
    }{{ else }}
    upstream {{ $host.Upstream.Name }} {
        {{ if $host.IPHash }}ip_hash; {{else}}zone {{ $host.Upstream.Name }}_backend 64k;{{ end }}

        {{ range $up := $host.Upstream.Servers }}server {{ $up.Addr }};
        {{ end }}
    }
    server {
        listen {{ $host.Port }};

        server_name{{ range $name := $host.ServerNames }} {{ $name }}{{ end }};
        {{ if $host.SSLOnly }}return 302 https://$server_name$request_uri;{{ else }}
        location / {
            {{ if $host.SSLBackend }}proxy_pass https://{{ $host.Upstream.Name }};{{ else }}proxy_pass http://{{ $host.Upstream.Name }};{{ end }}
        }

        status_zone {{ $host.Upstream.Name }}_backend;

        {{ range $ws := $host.WebsocketEndpoints }}
        location {{ $ws }} {
            {{ if $host.SSLBackend }}proxy_pass https://{{ $host.Upstream.Name }};{{ else }}proxy_pass http://{{ $host.Upstream.Name }};{{ end }}
            proxy_http_version 1.1;
            proxy_set_header Upgrade $http_upgrade;
            proxy_set_header Connection $connection_upgrade;
        }

    	location /status {
    	    status;
    	}

        {{ end }}
        {{ end }}
    }
    {{ if $host.SSL }}
    server {
        listen {{ $host.SSLPort }};
        ssl on;
        ssl_certificate {{ $host.SSLCert }};
        ssl_certificate_key {{ $host.SSLCertKey }};
        server_name{{ range $name := $host.ServerNames }} {{ $name }}{{ end }};

        location / {
            {{ if $host.SSLBackend }}proxy_pass https://{{ $host.Upstream.Name }};{{ else }}proxy_pass http://{{ $host.Upstream.Name }};{{ end }}
        }

        {{ range $ws := $host.WebsocketEndpoints }}
        location {{ $ws }} {
            {{ if $host.SSLBackend }}proxy_pass https://{{ $host.Upstream.Name }};{{ else }}proxy_pass http://{{ $host.Upstream.Name }};{{ end }}
            proxy_http_version 1.1;
            proxy_set_header Upgrade $http_upgrade;
            proxy_set_header Connection $connection_upgrade;
        }

        location /nginx_status {
            stub_status on;
            access_log off;
        }
        {{ end }}
    }
    {{ end }}

    {{ end }} {{/* end context root */}}
    {{ end }} {{/* end host range */}}

    include {{ .Config.ConfigBasePath }}/conf.d/*.conf;
}
".

Definition haproxyConfTemplate : string := quotes "# managed by interlock
global
	log 127.0.0.1 local0
	log 127.0.0.1 local1 notice
    {{ if .Config.SyslogAddr }}log {{ .Config.SyslogAddr }} local0
    log-send-hostname{{ end }}
    maxconn {{ .Config.MaxConn }}
    pidfile {{ .Config.PidPath }}
    ssl-server-verify {{ .Config.SSLServerVerify }}
    tune.ssl.default-dh-param {{ .Config.SSLDefaultDHParam }}

defaults
    mode http
    retries 3
    option redispatch
    option httplog
    option dontlognull
    option http-server-close
    option forwardfor
    timeout connect {{ .Config.ConnectTimeout }}
    timeout client {{ .Config.ClientTimeout }}
    timeout server {{ .Config.ServerTimeout }}

frontend http-default
    bind *:{{ .Config.Port }}
    {{ if .Config.SSLCert }}bind *:{{ .Config.SSLPort }} ssl crt {{ .Config.SSLCert }} {{ .Config.SSLOpts }}{{ end }}
    monitor-uri /haproxy?monitor
    {{ if .Config.AdminUser }}stats realm Stats
    stats auth {{ .Config.AdminUser }}:{{ .Config.AdminPass}}{{ end }}
    stats enable
    stats uri /haproxy?stats
    stats refresh 5s
    {{ range $host := .Hosts }}{{ if ne $host.ContextRoot.Path `` }}acl url{{ $host.ContextRoot.Name }} path_beg {{ $host.ContextRoot.Path }}
    use_backend ctx{{ $host.ContextRoot.Name }} if url{{ $host.ContextRoot.Name }}{{ else }}
    acl is_{{ $host.Name }} hdr_beg(host) {{ $host.Domain }}
    use_backend {{ $host.Name }} if is_{{ $host.Name }}
    {{ end }}
    {{ end }}

{{ range $host := .Hosts }}{{ if ne $host.ContextRoot.Path `` }}backend ctx{{ $host.ContextRoot.Name }}
    acl missing_slash path_reg ^{{ $host.ContextRoot.Path }}[^/]*$
    redirect code 301 prefix / drop-query append-slash if missing_slash
    {{ if $host.ContextRootRewrite }}reqrep ^([^\ :]*)\ {{ $host.ContextRoot.Path }}/(.*)     \1\ /\2{{ end }}{{ else }}
    backend {{ $host.Name }}{{ end }}
    http-response add-header X-Request-Start %Ts.%ms
    http-request set-header X-Forwarded-Port %[dst_port]
    http-request add-header X-Forwarded-Proto https if { ssl_fc }
    balance {{ $host.BalanceAlgorithm }}
    {{ range $option := $host.BackendOptions }}option {{ $option }}
    {{ end }}
    {{ if $host.Check }}option {{ $host.Check }}{{ end }}
    {{ if $host.SSLOnly }}redirect scheme https code 301 if !{ ssl_fc }{{ end }}
	{{ if $host.SSLOnly }}http-response set-header Strict-Transport-Security `max-age=16000000; includeSubDomains; preload;`{{ end }}
    {{ range $i,$up := $host.Upstreams }}server {{ $up.Container }} {{ $up.Addr }} check inter {{ $up.CheckInterval }}{{ if $host.SSLBackend }} ssl verify {{ $host.SSLBackendTLSVerify }} sni req.hdr(Host){{ end }}
    {{ end }}
{{ end }}
".

(** ** What a template sees *)

(** All fields but the rules. *)
Definition extension_value (c : ExtensionConfig) : value :=
  VStruct
    [("Name", VStr (Config.Name c));
     ("ConfigPath", VStr (Config.ConfigPath c));
     ("ConfigBasePath", VStr (Config.ConfigBasePath c));
     ("PidPath", VStr (Config.PidPath c));
     ("TemplatePath", VStr (Config.TemplatePath c));
     ("BackendOverrideAddress", VStr (Config.BackendOverrideAddress c));
     ("ConnectTimeout", VInt (Config.ConnectTimeout c));
     ("ServerTimeout", VInt (Config.ServerTimeout c));
     ("ClientTimeout", VInt (Config.ClientTimeout c));
     ("MaxConn", VInt (Config.MaxConn c));
     ("Port", VInt (Config.Port c));
     ("SyslogAddr", VStr (Config.SyslogAddr c));
     ("AdminUser", VStr (Config.AdminUser c));
     ("AdminPass", VStr (Config.AdminPass c));
     ("SSLCertPath", VStr (Config.SSLCertPath c));
     ("SSLCert", VStr (Config.SSLCert c));
     ("SSLPort", VInt (Config.SSLPort c));
     ("SSLOpts", VStr (Config.SSLOpts c));
     ("SSLDefaultDHParam", VInt (Config.SSLDefaultDHParam c));
     ("SSLServerVerify", VStr (Config.SSLServerVerify c));
     ("DHParam", VBool (Config.DHParam c));
     ("DHParamPath", VStr (Config.DHParamPath c));
     ("NginxPlusEnabled", VBool (Config.NginxPlusEnabled c));
     ("User", VStr (Config.User c));
     ("WorkerProcesses", VInt (Config.WorkerProcesses c));
     ("RLimitNoFile", VInt (Config.RLimitNoFile c));
     ("ProxyConnectTimeout", VInt (Config.ProxyConnectTimeout c));
     ("ProxySendTimeout", VInt (Config.ProxySendTimeout c));
     ("ProxyReadTimeout", VInt (Config.ProxyReadTimeout c));
     ("SendTimeout", VInt (Config.SendTimeout c));
     ("SSLCiphers", VStr (Config.SSLCiphers c));
     ("SSLProtocols", VStr (Config.SSLProtocols c));
     ("StatsInterval", VStr (Config.StatsInterval c));
     ("StatsBackendType", VStr (Config.StatsBackendType c));
     ("StatsPrometheusPushGatewayURL", VStr (Config.StatsPrometheusPushGatewayURL c));
     ("StatsInfluxDBAddress", VStr (Config.StatsInfluxDBAddress c));
     ("StatsInfluxDBUser", VStr (Config.StatsInfluxDBUser c));
     ("StatsInfluxDBPassword", VStr (Config.StatsInfluxDBPassword c));
     ("StatsInfluxDBDatabase", VStr (Config.StatsInfluxDBDatabase c));
     ("StatsInfluxDBPrecision", VStr (Config.StatsInfluxDBPrecision c))].

Definition nginx_root (r : option nginx.ContextRoot_) : value :=
  match r with
  | Some r => VStruct [("Name", VStr (nginx.CR_Name r)); ("Path", VStr (nginx.CR_Path r))]
  | None => VNil "*nginx.ContextRoot"
  end.
Definition nginx_upstream (u : nginx.Upstream_) : value :=
  VStruct [("Name", VStr (nginx.Up_Name u));
           ("Servers", VList (map (fun s => VStruct [("Addr", VStr (nginx.Addr s))]) (nginx.Servers u)))].
Definition nginx_host (h : nginx.Host) : value :=
  VStruct
    [("ServerNames", VList (map VStr (nginx.ServerNames h))); ("Port", VInt (nginx.Port h));
     ("ContextRoot", nginx_root (nginx.ContextRoot h)); ("ContextRootRewrite", VBool (nginx.ContextRootRewrite h));
     ("SSLPort", VInt (nginx.SSLPort h)); ("SSL", VBool (nginx.SSL h)); ("SSLCert", VStr (nginx.SSLCert h));
     ("SSLCertKey", VStr (nginx.SSLCertKey h)); ("SSLOnly", VBool (nginx.SSLOnly h));
     ("SSLBackend", VBool (nginx.SSLBackend h)); ("Upstream", nginx_upstream (nginx.Upstream h));
     ("WebsocketEndpoints", VList (map VStr (nginx.WebsocketEndpoints h))); ("IPHash", VBool (nginx.IPHash h))].
Definition nginx_value (c : nginx.Config_) : value :=
  VStruct [("Hosts", VList (map nginx_host (nginx.Hosts c))); ("Config", extension_value (nginx.Config c))].

Definition haproxy_root (r : option haproxy.ContextRoot_) : value :=
  match r with
  | Some r => VStruct [("Name", VStr (haproxy.CR_Name r)); ("Path", VStr (haproxy.CR_Path r))]
  | None => VNil "*haproxy.ContextRoot"
  end.
Definition haproxy_upstream (u : haproxy.Upstream) : value :=
  VStruct [("Container", VStr (haproxy.Container u)); ("Addr", VStr (haproxy.Addr u));
           ("CheckInterval", VInt (haproxy.CheckInterval u))].
Definition haproxy_host (h : haproxy.Host) : value :=
  VStruct
    [("Name", VStr (haproxy.Name h)); ("ContextRoot", haproxy_root (haproxy.ContextRoot h));
     ("ContextRootRewrite", VBool (haproxy.ContextRootRewrite h)); ("Domain", VStr (haproxy.Domain h));
     ("Check", VStr (haproxy.Check_ h)); ("BackendOptions", VList (map VStr (haproxy.BackendOptions h)));
     ("Upstreams", VList (map haproxy_upstream (haproxy.Upstreams h))); ("SSLOnly", VBool (haproxy.SSLOnly h));
     ("SSLBackend", VBool (haproxy.SSLBackend h)); ("SSLBackendTLSVerify", VStr (haproxy.SSLBackendTLSVerify h));
     ("BalanceAlgorithm", VStr (haproxy.BalanceAlgorithm h))].
Definition haproxy_value (c : haproxy.Config_) : value :=
  VStruct [("Hosts", VList (map haproxy_host (haproxy.Hosts c))); ("Config", extension_value (haproxy.Config c))].

Definition config_value (c : ProxyConfig) : value :=
  match c with NginxConfig c => nginx_value c | HAProxyConfig c => haproxy_value c end.

(** [template.New("lb").Parse] and [Execute]: [other] is what they do on the
    templates of users that are outside of the model. *)
Definition Parse (other : string -> res (ProxyConfig -> res string)) (text : string) : res (ProxyConfig -> res string) :=
  match parse text with
  | None => other text
  | Some ns =>
      Ok (fun c =>
        match execute ns (config_value c) with
        | Some r => r
        | None => match other text with Ok f => f c | Err e => Err e end
        end)
  end.

(** ** Types of the configurations *)

Definition extension_type : ty :=
  TStruct
    [("Name", TStr); ("ConfigPath", TStr); ("ConfigBasePath", TStr); ("PidPath", TStr);
     ("TemplatePath", TStr); ("BackendOverrideAddress", TStr); ("ConnectTimeout", TInt); ("ServerTimeout", TInt);
     ("ClientTimeout", TInt); ("MaxConn", TInt); ("Port", TInt); ("SyslogAddr", TStr);
     ("AdminUser", TStr); ("AdminPass", TStr); ("SSLCertPath", TStr); ("SSLCert", TStr);
     ("SSLPort", TInt); ("SSLOpts", TStr); ("SSLDefaultDHParam", TInt); ("SSLServerVerify", TStr);
     ("DHParam", TBool); ("DHParamPath", TStr); ("NginxPlusEnabled", TBool); ("User", TStr);
     ("WorkerProcesses", TInt); ("RLimitNoFile", TInt); ("ProxyConnectTimeout", TInt); ("ProxySendTimeout", TInt);
     ("ProxyReadTimeout", TInt); ("SendTimeout", TInt); ("SSLCiphers", TStr); ("SSLProtocols", TStr);
     ("StatsInterval", TStr); ("StatsBackendType", TStr); ("StatsPrometheusPushGatewayURL", TStr); ("StatsInfluxDBAddress", TStr);
     ("StatsInfluxDBUser", TStr); ("StatsInfluxDBPassword", TStr); ("StatsInfluxDBDatabase", TStr); ("StatsInfluxDBPrecision", TStr)].
Definition root_type : ty := TStruct [("Name", TStr); ("Path", TStr)].
Definition nginx_host_type : ty :=
  TStruct
       [("ServerNames", TList TStr); ("Port", TInt); ("ContextRoot", root_type); ("ContextRootRewrite", TBool);
        ("SSLPort", TInt); ("SSL", TBool); ("SSLCert", TStr); ("SSLCertKey", TStr); ("SSLOnly", TBool);
        ("SSLBackend", TBool);
        ("Upstream", TStruct [("Name", TStr); ("Servers", TList (TStruct [("Addr", TStr)]))]);
        ("WebsocketEndpoints", TList TStr); ("IPHash", TBool)].
Definition nginx_type : ty := TStruct [("Hosts", TList nginx_host_type); ("Config", extension_type)].
Definition haproxy_host_type : ty :=
  TStruct
       [("Name", TStr); ("ContextRoot", root_type); ("ContextRootRewrite", TBool); ("Domain", TStr); ("Check", TStr);
        ("BackendOptions", TList TStr);
        ("Upstreams", TList (TStruct [("Container", TStr); ("Addr", TStr); ("CheckInterval", TInt)]));
        ("SSLOnly", TBool); ("SSLBackend", TBool); ("SSLBackendTLSVerify", TStr); ("BalanceAlgorithm", TStr)].
Definition haproxy_type : ty := TStruct [("Hosts", TList haproxy_host_type); ("Config", extension_type)].

(** The nodes of the built-in templates. *)
Definition nginx_nodes : list node := Eval vm_compute in default [] (parse nginxConfTemplate).
Definition plus_nodes : list node := Eval vm_compute in default [] (parse nginxPlusConfTemplate).
Definition haproxy_nodes : list node := Eval vm_compute in default [] (parse haproxyConfTemplate).

Lemma nginx_parsed : parse nginxConfTemplate = Some nginx_nodes.
Proof. vm_compute. reflexivity. Qed.
Lemma plus_parsed : parse nginxPlusConfTemplate = Some plus_nodes.
Proof. vm_compute. reflexivity. Qed.
Lemma haproxy_parsed : parse haproxyConfTemplate = Some haproxy_nodes.
Proof. vm_compute. reflexivity. Qed.

Lemma nginx_checks : check_list [] nginx_type nginx_nodes = true.
Proof. vm_compute. reflexivity. Qed.
Lemma plus_checks : check_list [] nginx_type plus_nodes = true.
Proof. vm_compute. reflexivity. Qed.
Lemma haproxy_checks : check_list [] haproxy_type haproxy_nodes = true.
Proof. vm_compute. reflexivity. Qed.

(** The type of a structure, field by field. *)
Ltac typed :=
  lazymatch goal with
  | |- has_type TStr (VStr _) => by eexists
  | |- has_type TInt (VInt _) => by eexists
  | |- has_type TBool (VBool _) => by eexists
  | |- has_type (TList _) (VList (map _ _)) =>
      eexists; split; [reflexivity|apply Forall_map, Forall_true; intros; unfold compose; cbv beta; typed]
  | |- has_type (TStruct _) (VStruct _) =>
      eexists; split; [reflexivity|repeat (split; [eexists; split; [reflexivity|typed]|]); exact I]
  end.

Lemma extension_has_type c : has_type extension_type (extension_value c).
Proof. unfold extension_value, extension_type. typed. Qed.

(** Hosts whose context root is not nil. *)
Definition nginx_rooted (c : nginx.Config_) : Prop := Forall (fun h => is_Some (nginx.ContextRoot h)) (nginx.Hosts c).
Definition haproxy_rooted (c : haproxy.Config_) : Prop := Forall (fun h => is_Some (haproxy.ContextRoot h)) (haproxy.Hosts c).

Lemma nginx_has_type c : nginx_rooted c -> has_type nginx_type (nginx_value c).
Proof.
  intros Hc. eexists. split; [reflexivity|]. split.
  - eexists. split; [reflexivity|]. eexists. split; [reflexivity|]. apply Forall_map.
    eapply Forall_impl; [exact Hc|]. intros h [r Hr]. unfold compose, nginx_host. rewrite Hr.
    cbn [nginx_root]. unfold nginx_host_type, nginx_upstream, root_type. typed.
  - split; [|exact I]. eexists. split; [reflexivity|]. apply extension_has_type.
Qed.
Lemma haproxy_has_type c : haproxy_rooted c -> has_type haproxy_type (haproxy_value c).
Proof.
  intros Hc. eexists. split; [reflexivity|]. split.
  - eexists. split; [reflexivity|]. eexists. split; [reflexivity|]. apply Forall_map.
    eapply Forall_impl; [exact Hc|]. intros h [r Hr]. unfold compose, haproxy_host. rewrite Hr.
    cbn [haproxy_root]. unfold haproxy_host_type, haproxy_upstream, root_type. typed.
  - split; [|exact I]. eexists. split; [reflexivity|]. apply extension_has_type.
Qed.

(** What the template of a backend renders. *)
Definition nginx_render (plus : bool) (c : nginx.Config_) : out :=
  execute (if plus then plus_nodes else nginx_nodes) (nginx_value c).
Definition haproxy_render (c : haproxy.Config_) : out := execute haproxy_nodes (haproxy_value c).

Lemma nginx_render_yields plus c : nginx_rooted c -> yields (nginx_render plus c).
Proof.
  intros Hc. unfold nginx_render. apply execute_yields with nginx_type; [|by apply nginx_has_type].
  destruct plus; [apply plus_checks|apply nginx_checks].
Qed.
Lemma haproxy_render_yields c : haproxy_rooted c -> yields (haproxy_render c).
Proof. intros Hc. apply execute_yields with haproxy_type; [apply haproxy_checks|by apply haproxy_has_type]. Qed.

(** ** What is in the text *)

(** The end of a line. *)
Definition newline : string := String (ascii_of_nat 10) EmptyString.

(** The first [m] nodes yield the text, between [a] and [b]. *)
Ltac shown m a b :=
  eapply (shows_here _ _ m); [reflexivity|]; exists a, b; rewrite !sapp_assoc; reflexivity.

Section Shown.
Context (c : nginx.Config_).

Context (plus : bool) (h : nginx.Host) (r : nginx.ContextRoot_).
Context (Hin : h ∈ nginx.Hosts c) (Hr : nginx.ContextRoot h = Some r).
Local Abbreviation vars := [("host", nginx_host h)].

(** The two loops over the hosts. *)
Definition loop_body (m : nat) (ns : list node) : list node :=
  match ns !! m with Some (NRange _ _ _ body) => body | _ => [] end.

Lemma nginx_shows_loop m x :
  m = 27 \/ m = 29 ->
  shows (exec_list vars (nginx_host h) (loop_body m (if plus then plus_nodes else nginx_nodes))) x ->
  shows (nginx_render plus c) x.
Proof.
  apply list_elem_of_lookup_1 in Hin as [i Hi].
  intros Hm Hx. unfold nginx_render, execute.
  destruct Hm as [-> | ->]; destruct plus; [do 27 apply shows_later|do 27 apply shows_later|do 29 apply shows_later..];
    (eapply (shows_range _ _ _ _ _ _ _ _ i (nginx_host h)); [reflexivity|by rewrite list_lookup_fmap, Hi|exact Hx]).
Qed.

Lemma eval_root dot :
  eval vars dot (PNe (OVar "host" ["ContextRoot"; "Path"]) (OStr "")) =
  Some (Ok (VBool (bool_decide (nginx.CR_Path r <> "")))).
Proof. unfold nginx_host. rewrite Hr. reflexivity. Qed.

(** The lines of the servers of a host, under either kind of upstream. *)
Lemma nginx_shows_server srv :
  srv ∈ nginx.Servers (nginx.Upstream h) -> shows (nginx_render plus c) ("server " +:+ nginx.Addr srv +:+ ";").
Proof.
  intros [j Hj]%list_elem_of_lookup_1. apply (nginx_shows_loop 29); [by right|].
  destruct plus; apply shows_later; (eapply shows_if; [apply eval_root|]); cbn [truth];
    case_bool_decide; do 5 apply shows_later;
    (eapply (shows_range _ _ _ _ _ _ _ _ j); [reflexivity|by rewrite list_lookup_fmap, Hj|]).
  all: shown 3 "" (newline +:+ "        ").
Qed.

(** The server of a host without a context root: its upstream and the line
    of its names. *)
Lemma nginx_shows_upstream :
  nginx.CR_Path r = "" -> shows (nginx_render plus c) ("upstream " +:+ nginx.Up_Name (nginx.Upstream h) +:+ " {").
Proof.
  intros Hroot. apply (nginx_shows_loop 29); [by right|].
  destruct plus; apply shows_later; (eapply shows_if; [apply eval_root|]); rewrite bool_decide_eq_false_2 by tauto; cbn [truth].
  all: shown 3 (newline +:+ "    ") (newline +:+ "        ").
Qed.

Definition names_line (names : list string) : string :=
  "server_name" +:+ fold_right (fun n t => " " +:+ n +:+ t) ";" names.

Lemma each_names k l vs :
  each (fun k v => exec_list (bind_range None "name" k v vs) v [NText " "; NAction (POp (OVar "name" []))]) k (map VStr l) =
  Some (Ok (fold_right (fun n t => " " +:+ n +:+ t) "" l)).
Proof.
  revert k. induction l as [|n l IH]; intros k; [done|]. cbn [map each fold_right]. rewrite IH. simpl.
  by rewrite sapp_nil_r, sapp_assoc.
Qed.
Lemma names_end l t : fold_right (fun n t => " " +:+ n +:+ t) "" l +:+ t = fold_right (fun n t => " " +:+ n +:+ t) t l.
Proof. induction l as [|n l IH]; [done|]. cbn [fold_right]. by rewrite !sapp_assoc, IH. Qed.

Lemma nginx_shows_names :
  nginx.CR_Path r = "" -> shows (nginx_render plus c) (names_line (nginx.ServerNames h)).
Proof.
  intros Hroot. apply (nginx_shows_loop 29); [by right|].
  destruct plus; apply shows_later; (eapply shows_if; [apply eval_root|]); rewrite bool_decide_eq_false_2 by tauto; cbn [truth];
    do 8 apply shows_later.
  all: eapply (shows_here _ _ 3);
    [cbn [take]; rewrite !exec_list_cons, (exec_range _ _ _ _ _ _ (map VStr (nginx.ServerNames h))) by reflexivity;
     rewrite each_names; reflexivity|].
  all: unfold names_line; exists (";" +:+ newline +:+ newline +:+ "        "), (newline +:+ "        ").
  all: rewrite <- (names_end _ ";"), !sapp_assoc; reflexivity.
Qed.

(** The location of a host with a context root. *)
Definition tab : string := String (ascii_of_nat 9) EmptyString.
Lemma nginx_shows_location :
  nginx.CR_Path r <> "" -> shows (nginx_render plus c) ("location " +:+ nginx.CR_Path r +:+ " {").
Proof.
  intros Hroot. apply (nginx_shows_loop 27); [by left|].
  destruct plus; apply shows_later; (eapply shows_if; [apply eval_root|]); rewrite bool_decide_eq_true_2 by done; cbn [truth].
  all: eapply (shows_here _ _ 3); [unfold nginx_host; rewrite Hr; reflexivity|];
    exists (newline +:+ tab +:+ "    "), (newline +:+ tab +:+ tab); rewrite !sapp_assoc; reflexivity.
Qed.
End Shown.

(** What the text of a host has, in either built-in template. *)
Definition nginx_host_text (h : nginx.Host) (text : string) : Prop :=
  (forall srv, srv ∈ nginx.Servers (nginx.Upstream h) -> contains text ("server " +:+ nginx.Addr srv +:+ ";")) /\
  exists r, nginx.ContextRoot h = Some r /\
    if decide (nginx.CR_Path r = "") then
      contains text ("upstream " +:+ nginx.Up_Name (nginx.Upstream h) +:+ " {") /\
      contains text (names_line (nginx.ServerNames h))
    else contains text ("location " +:+ nginx.CR_Path r +:+ " {").

Lemma nginx_rendered plus c :
  nginx_rooted c -> exists text, nginx_render plus c = Some (Ok text) /\ Forall (fun h => nginx_host_text h text) (nginx.Hosts c).
Proof.
  intros Hc. destruct (nginx_render_yields plus c Hc) as [text Ht]. exists text. split; [done|].
  apply Forall_forall. intros h Hh. unfold nginx_rooted in Hc. rewrite Forall_forall in Hc.
  destruct (Hc h Hh) as [r Hr]. split.
  - intros srv Hsrv. by apply (nginx_shows_server c plus h r Hh Hr srv Hsrv).
  - exists r. split; [done|]. case_decide.
    + split; [by eapply nginx_shows_upstream|by eapply nginx_shows_names].
    + by eapply nginx_shows_location.
Qed.

Section HAProxyShown.
Context (c : haproxy.Config_) (h : haproxy.Host) (r : haproxy.ContextRoot_).
Context (Hin : h ∈ haproxy.Hosts c) (Hr : haproxy.ContextRoot h = Some r).
Local Abbreviation vars := [("host", haproxy_host h)].

Lemma haproxy_shows_loop m x :
  m = 23 \/ m = 25 ->
  shows (exec_list vars (haproxy_host h) (loop_body m haproxy_nodes)) x -> shows (haproxy_render c) x.
Proof.
  apply list_elem_of_lookup_1 in Hin as [i Hi]. intros Hm Hx. unfold haproxy_render, execute.
  destruct Hm as [-> | ->]; [do 23 apply shows_later|do 25 apply shows_later];
    (eapply (shows_range _ _ _ _ _ _ _ _ i (haproxy_host h)); [reflexivity|by rewrite list_lookup_fmap, Hi|exact Hx]).
Qed.

Lemma haproxy_eval_root dot :
  eval vars dot (PNe (OVar "host" ["ContextRoot"; "Path"]) (OStr "")) =
  Some (Ok (VBool (bool_decide (haproxy.CR_Path r <> "")))).
Proof. unfold haproxy_host. rewrite Hr. reflexivity. Qed.

(** The branch of a host without a context root, or with one. *)
Ltac at_root Hroot :=
  eapply shows_if; [apply haproxy_eval_root|];
  first [rewrite bool_decide_eq_false_2 by tauto | rewrite bool_decide_eq_true_2 by done]; cbn [truth].

Definition server_line (up : haproxy.Upstream) : string :=
  "server " +:+ haproxy.Container up +:+ " " +:+ haproxy.Addr up +:+ " check inter " +:+ Strconv.Itoa (haproxy.CheckInterval up).

Lemma haproxy_shows_server up : up ∈ haproxy.Upstreams h -> shows (haproxy_render c) (server_line up).
Proof.
  intros [j Hj]%list_elem_of_lookup_1. apply (haproxy_shows_loop 25); [by right|].
  do 12 apply shows_later.
  eapply (shows_range _ _ _ _ _ _ _ _ j); [reflexivity|by rewrite list_lookup_fmap, Hj|].
  unfold server_line. shown 6 "" "".
Qed.
Lemma haproxy_shows_balance : shows (haproxy_render c) ("balance " +:+ haproxy.BalanceAlgorithm h +:+ newline).
Proof.
  apply (haproxy_shows_loop 25); [by right|]. apply shows_later.
  eapply (shows_here _ _ 3); [reflexivity|].
  lazymatch goal with |- contains (?t +:+ _) _ => exists (String.substring 0 (String.length t - 8) t), "    " end.
  rewrite !sapp_assoc. reflexivity.
Qed.
Lemma haproxy_shows_acl :
  haproxy.CR_Path r = "" ->
  shows (haproxy_render c) ("acl is_" +:+ haproxy.Name h +:+ " hdr_beg(host) " +:+ haproxy.Domain h +:+ newline +:+
    "    use_backend " +:+ haproxy.Name h +:+ " if is_" +:+ haproxy.Name h +:+ newline).
Proof.
  intros Hroot. apply (haproxy_shows_loop 23); [by left|]. at_root Hroot.
  shown 9 (newline +:+ "    ") "    ".
Qed.
Lemma haproxy_shows_backend :
  haproxy.CR_Path r = "" -> shows (haproxy_render c) ("backend " +:+ haproxy.Name h).
Proof.
  intros Hroot. apply (haproxy_shows_loop 25); [by right|]. at_root Hroot.
  shown 2 (newline +:+ "    ") "".
Qed.
Lemma haproxy_shows_path :
  haproxy.CR_Path r <> "" ->
  shows (haproxy_render c) ("acl url" +:+ haproxy.CR_Name r +:+ " path_beg " +:+ haproxy.CR_Path r +:+ newline +:+
    "    use_backend ctx" +:+ haproxy.CR_Name r +:+ " if url" +:+ haproxy.CR_Name r).
Proof.
  intros Hroot. apply (haproxy_shows_loop 23); [by left|]. at_root Hroot.
  eapply (shows_here _ _ 8); [unfold haproxy_host; rewrite Hr; reflexivity|];
    exists "", ""; rewrite !sapp_assoc; reflexivity.
Qed.
End HAProxyShown.

Definition haproxy_host_text (h : haproxy.Host) (text : string) : Prop :=
  (forall up, up ∈ haproxy.Upstreams h -> contains text (server_line up)) /\
  contains text ("balance " +:+ haproxy.BalanceAlgorithm h +:+ newline) /\
  exists r, haproxy.ContextRoot h = Some r /\
    if decide (haproxy.CR_Path r = "") then
      contains text ("backend " +:+ haproxy.Name h) /\
      contains text ("acl is_" +:+ haproxy.Name h +:+ " hdr_beg(host) " +:+ haproxy.Domain h +:+ newline +:+
        "    use_backend " +:+ haproxy.Name h +:+ " if is_" +:+ haproxy.Name h +:+ newline)
    else
      contains text ("acl url" +:+ haproxy.CR_Name r +:+ " path_beg " +:+ haproxy.CR_Path r +:+ newline +:+
        "    use_backend ctx" +:+ haproxy.CR_Name r +:+ " if url" +:+ haproxy.CR_Name r).

Lemma haproxy_rendered c :
  haproxy_rooted c -> exists text, haproxy_render c = Some (Ok text) /\ Forall (fun h => haproxy_host_text h text) (haproxy.Hosts c).
Proof.
  intros Hc. destruct (haproxy_render_yields c Hc) as [text Ht]. exists text. split; [done|].
  apply Forall_forall. intros h Hh. unfold haproxy_rooted in Hc. rewrite Forall_forall in Hc.
  destruct (Hc h Hh) as [r Hr]. split; [|split].
  - intros up Hup. by apply (haproxy_shows_server c h Hh up Hup).
  - by apply (haproxy_shows_balance c h Hh).
  - exists r. split; [done|]. case_decide.
    + split; [by eapply haproxy_shows_backend|by eapply haproxy_shows_acl].
    + by eapply haproxy_shows_path.
Qed.

(** ** Generated configurations *)

Section Generated.
Context `{MapRange} `{World}.

Lemma SaveConfig_text (parse_text : string -> res (ProxyConfig -> res string)) (b : LoadBalancerBackend)
    (c : ProxyConfig) tmpl render text proxies h :
  matches_name Name c -> Template h = (Val tmpl, h) -> parse_text tmpl = Ok render -> render c = Ok text ->
  SaveConfig parse_text c proxies h = (Val None, h ++ map (copy_event text) proxies).
Proof.
  intros Hm Ht Hp Hr. unfold SaveConfig. rewrite bind_at, Ht, Hp.
  assert (Hd : forall A (f : res string -> M A) h,
    ((if decide (Name = "nginx") then config ← pure (as_nginx c); mret (render (NginxConfig config))
      else if decide (Name = "haproxy") then config ← pure (as_haproxy c); mret (render (HAProxyConfig config))
      else mret (Err (ErrorString ("unknown backend type: " +:+ Name)))) ≫= f) h = f (Ok text) h).
  { intros A f h'. rewrite bind_at. destruct c as [c|c]; simpl in Hm; rewrite Hm.
    - rewrite decide_True by done. rewrite bind_at. unfold pure. simpl. by rewrite Hr.
    - rewrite decide_False, decide_True by done. rewrite bind_at. unfold pure. simpl. by rewrite Hr. }
  rewrite Hd. cbv zeta. rewrite bind_at.
  rewrite (forM_calls _ (copy_event text)); [done|]. intros cnt h'. rewrite bind_at. done.
Qed.

(** The built-in templates on configurations whose hosts have a context root. *)
Lemma nginx_builtin_saved other cfg c :
  nginx_rooted c -> TemplatePath cfg = "" ->
  exists text, Forall (fun hst => nginx_host_text hst text) (nginx.Hosts c) /\
    let b := NginxBackend cfg nginxConfTemplate nginxPlusConfTemplate in
    forall proxies h, SaveConfig (Parse other) (NginxConfig c) proxies h =
      (Val None, h ++ map (copy_event text) proxies).
Proof.
  intros Hc Hpath. destruct (nginx_rendered (NginxPlusEnabled cfg) c Hc) as (text & Ht & Hh).
  exists text. split; [done|]. intros b proxies h.
  assert (Htm : @Template b h = (Val (if NginxPlusEnabled cfg then nginxPlusConfTemplate else nginxConfTemplate), h)).
  { unfold b, Template, NginxBackend, template_of. by rewrite decide_False by tauto. }
  unfold nginx_render in Ht. destruct (NginxPlusEnabled cfg); (eapply SaveConfig_text; [done|exact Htm| |]).
  - unfold Parse. rewrite plus_parsed. reflexivity.
  - cbv beta. simpl in Ht |- *. by rewrite Ht.
  - unfold Parse. rewrite nginx_parsed. reflexivity.
  - cbv beta. simpl in Ht |- *. by rewrite Ht.
Qed.

Lemma haproxy_builtin_saved other cfg c :
  haproxy_rooted c -> TemplatePath cfg = "" ->
  exists text, Forall (fun hst => haproxy_host_text hst text) (haproxy.Hosts c) /\
    let b := HAProxyBackend cfg haproxyConfTemplate in
    forall proxies h, SaveConfig (Parse other) (HAProxyConfig c) proxies h =
      (Val None, h ++ map (copy_event text) proxies).
Proof.
  intros Hc Hpath. destruct (haproxy_rendered c Hc) as (text & Ht & Hh).
  exists text. split; [done|]. intros b proxies h. eapply SaveConfig_text; [done| | |].
  - unfold b, Template, HAProxyBackend, template_of. by rewrite decide_False by tauto.
  - unfold Parse. rewrite haproxy_parsed. reflexivity.
  - cbv beta. unfold haproxy_render in Ht. simpl in Ht |- *. by rewrite Ht.
Qed.

End Generated.

(** ** Witnesses *)

Section Witnesses.
Local Existing Instance sorted_range.
Local Existing Instance Cluster.cluster.
Import Cluster.

Definition nginx_cfg : ExtensionConfig := SetConfigDefaults (empty_extension "nginx").
Definition haproxy_cfg : ExtensionConfig := SetConfigDefaults (empty_extension "haproxy").
Definition no_other (_ : string) : res (ProxyConfig -> res string) := Err (ErrorString "template").

(** How often a text occurs. *)
Fixpoint occurrences (x s : string) : nat :=
  (if String.prefix x s then 1 else 0) + match s with EmptyString => 0 | String _ s' => occurrences x s' end.

(** A host with two websocket endpoints: its server has the location of the
    status page twice (the third one is that of the default server), which
    nginx refuses. *)
Definition two_sockets : nginx.Host := {|
  nginx.ServerNames := ["www.example.com"]; nginx.Port := 80;
  nginx.ContextRoot := Some {| nginx.CR_Name := ""; nginx.CR_Path := "" |}; nginx.ContextRootRewrite := false;
  nginx.SSLPort := 443; nginx.SSL := false; nginx.SSLCert := ""; nginx.SSLCertKey := ""; nginx.SSLOnly := false;
  nginx.SSLBackend := false;
  nginx.Upstream := {| nginx.Up_Name := "www.example.com"; nginx.Servers := [{| nginx.Addr := "10.0.0.1:80" |}] |};
  nginx.WebsocketEndpoints := ["/a"; "/b"]; nginx.IPHash := false |}.
Example status_twice :
  match nginx_render false {| nginx.Hosts := [two_sockets]; nginx.Config := nginx_cfg; nginx.Networks := ∅ |} with
  | Some (Ok text) => occurrences "location /nginx_status" text = 3
  | _ => False
  end.
Proof. vm_compute. reflexivity. Qed.
End Witnesses.
