(* ===== verification/EndToEnd.v ===== *)
(** * From the cluster to the text on the proxies

    [handle_update] of [ext/lb/lb.go] with the generators and the built-in
    templates: what an update copies to the proxies serves the containers it
    has seen. *)

From S2P Require Import Prelude GoStd Docker Labels Config Network Nginx HAProxy Backends LoadBalancer GoTemplate Templates.

(** An interaction that puts a file on a container. *)
Definition copies (e : event) : Prop := match e with ECopyToContainer _ _ _ _ => True | _ => False end.

(** A list without one. *)
Definition no_copy (l : list event) : Prop := Forall (fun e => ~ copies e) l.

Lemma reads_no_copy l : Forall reads l -> no_copy l.
Proof. intros Hl. eapply Forall_impl; [exact Hl|]. intros []; simpl; tauto. Qed.
Lemma applies_no_copy cs l : Forall (applies cs) l -> no_copy l.
Proof. intros Hl. eapply Forall_impl; [exact Hl|]. intros [] [H|[H|H]]; simpl in *; tauto. Qed.

Section Update.
Context `{MapRange} `{World}.
Context (parse_text : string -> res (ProxyConfig -> res string)) (nodeID : string).
Context {b : LoadBalancerBackend} {Hb : LawfulBackend b}.

(** What is known of every text that is copied, from the containers listed
    and the history when the generation starts. *)
Context (P : list types.Container -> list event -> string -> Prop).
Context (Hgen : forall cs h1 c h2, GenerateProxyConfig cs h1 = (Val (Ok c), h2) ->
  exists text, P cs h1 text /\
    forall proxies h', SaveConfig parse_text c proxies h' = (Val None, h' ++ map (copy_event text) proxies)).

Definition all_copies_ok (h new : list event) : Prop :=
  forall id dir name data, ECopyToContainer id dir name data ∈ new ->
    [ECacheGet "reload"; EContainerList true] `prefix_of` new /\
    exists cs, reply_ContainerList (h ++ [ECacheGet "reload"]) true = Ok cs /\
      P cs (h ++ [ECacheGet "reload"; EContainerList true]) data.

Lemma no_copy_ok h new : no_copy new -> all_copies_ok h new.
Proof. intros Hn id dir name data Hin. unfold no_copy in Hn. rewrite Forall_forall in Hn. by destruct (Hn _ Hin). Qed.

Lemma some_copies_ok h l1 text cs proxies l2 :
  [ECacheGet "reload"; EContainerList true] `prefix_of` l1 -> no_copy l1 -> no_copy l2 -> reply_ContainerList (h ++ [ECacheGet "reload"]) true = Ok cs ->
  P cs (h ++ [ECacheGet "reload"; EContainerList true]) text ->
  all_copies_ok h (l1 ++ map (copy_event text) proxies ++ l2).
Proof.
  unfold no_copy. rewrite !Forall_forall. intros Hl1 H1 H2 Hcs HP id dir name data Hin.
  split; [by apply prefix_app_r|]. revert Hin. intros [Hin|[Hin|Hin]%elem_of_app]%elem_of_app.
  - by destruct (H1 _ Hin).
  - apply list_elem_of_fmap in Hin as (cnt & Heq & _). injection Heq as -> -> -> ->. by exists cs.
  - by destruct (H2 _ Hin).
Qed.

Lemma update_copies h : wp (handle_update parse_text nodeID) h (fun _ new => all_copies_ok h new).
Proof.
  unfold handle_update, ProxyContainers, CacheGet, ContainerList, SendErr.
  assert (Hstop : forall new, no_copy new -> all_copies_ok h new) by apply no_copy_ok.
  wp_step. destruct (reply_CacheGet _ _); [wp_step; apply Hstop; repeat constructor; auto|].
  wp_step. destruct (reply_ContainerList _ _) as [containers|e] eqn:Hl; [|wp_step; apply Hstop; repeat constructor; auto].
  rewrite <- app_assoc. change ([ECacheGet "reload"] ++ [EContainerList true]) with [ECacheGet "reload"; EContainerList true].
  set (h1 := h ++ [ECacheGet "reload"; EContainerList true]).
  pose proof (generate_reads containers h1) as (new & Hh & Hnew). apply reads_no_copy in Hnew.
  pose proof (generate_matches containers h1) as (new' & _ & Hm).
  destruct (GenerateProxyConfig containers h1) as [o h2] eqn:Hg. simpl in Hh, Hm. subst h2.
  assert (Hold : no_copy ([ECacheGet "reload"; EContainerList true] ++ new)).
  { apply Forall_app. split; [repeat constructor; auto|done]. }
  apply wp_bind. exists new. rewrite Hg. split; [done|]. simpl.
  destruct o as [[c|e]|w|w]; [|wp_step; apply Hstop|by apply Hstop..].
  2: { apply (proj2 (Forall_app _ (_ :: _ :: new) _)). split; [done|]. repeat constructor; auto. }
  destruct (Hgen _ _ _ _ Hg) as (text & HP & Hs).
  apply wp_bind. wp_step. destruct (reply_ContainerList (h1 ++ new) true) as [cs|e]; wp_step.
  2: { wp_step. apply Hstop. apply (proj2 (Forall_app _ (_ :: _ :: new) _)). split; [done|]. repeat constructor; auto. }
  fold (proxies cs). apply wp_bind. eexists. rewrite Hs. split; [reflexivity|]. simpl.
  eapply wp_mono; [by apply apply_config_applies|].
  intros o n Hn. apply applies_no_copy in Hn.
  replace (_ :: _ :: _) with
    (([ECacheGet "reload"; EContainerList true] ++ new ++ [EContainerList true]) ++ map (copy_event text) (proxies cs) ++ n)
    by (by rewrite <- !app_assoc).
  apply (some_copies_ok h _ text containers); [by apply prefix_app_r| |done..].
  rewrite app_assoc. apply Forall_app. split; [done|]. repeat constructor; auto.
Qed.

(** An update that is applied: from its start at [h] to its outcome [o] at
    [h'], it makes a text from its first listing, copies it to the proxies of
    its second listing, each once and in order, and, unless it panics, reloads
    its share of them. *)
Definition applied (h : list event) (o : outcome unit) (h' : list event) : Prop :=
  exists cs cs2 h2 text,
    reply_ContainerList (h ++ [ECacheGet "reload"]) true = Ok cs /\ starts h `prefix_of` h2 /\ P cs (starts h) text /\
    reply_ContainerList h2 true = Ok cs2 /\
    let h3 := h2 ++ EContainerList true :: map (copy_event text) (proxies cs2) in
    h3 `prefix_of` h' /\ (o = Val tt -> reloaded nodeID cs (proxies cs2) h3 h').

Lemma saved_applied h cs c h2 cs2 h3 :
  generated h cs c h2 -> reply_ContainerList h2 true = Ok cs2 ->
  SaveConfig parse_text c (proxies cs2) (h2 ++ [EContainerList true]) = (Val None, h3) ->
  applied h (apply_config nodeID cs c (proxies cs2) h3).1 (apply_config nodeID cs c (proxies cs2) h3).2.
Proof.
  intros [_ Hl Hg] Hl2 Hs. destruct (Hgen _ _ _ _ Hg) as (text & HP & Hsave). rewrite Hsave in Hs. injection Hs as <-.
  pose proof (generate_matches cs (starts h)) as (new & Hnew & Hm). rewrite Hg in Hnew, Hm. simpl in Hnew, Hm.
  exists cs, cs2, h2, text. split_and!; [done|rewrite Hnew; by eexists|done..|].
  rewrite <- app_assoc. simpl. set (h3 := h2 ++ _).
  destruct (apply_config_applies nodeID cs c (proxies cs2) Hm h3) as (rest & Hrest & _).
  split; [rewrite Hrest; by eexists|]. intros Ho. apply (apply_config_reloads nodeID cs c); [done|].
  destruct (apply_config nodeID cs c (proxies cs2) h3) as [o h4]. simpl in *. by subst o.
Qed.

(** An update that is not skipped and does not panic is applied, or has
    reported the error it fails with. *)
Lemma update_outcome h h' :
  reply_CacheGet h "reload" = false -> handle_update parse_text nodeID h = (Val tt, h') ->
  applied h (Val tt) h' \/ exists e hf, failed parse_text h e hf /\ h' = hf ++ [EErrChan e].
Proof.
  intros Hc Hu. pose proof (handle_update_case parse_text nodeID h) as Hcase. rewrite Hu in Hcase.
  remember (Val tt, h') as r eqn:Hr. destruct Hcase as [Hc'|e hf Hf|o l Ho Hl|cs c h2 cs2 h3 Hg Hl Hs].
  - congruence.
  - injection Hr as <-. eauto.
  - injection Hr as -> _. done.
  - left. pose proof (saved_applied h cs c h2 cs2 h3 Hg Hl Hs) as Ha. by rewrite Hr in Ha.
Qed.

(** It is applied, if its listings and its generation succeed. *)
Lemma update_reaches h cs c h2 cs2 :
  generated h cs c h2 -> reply_ContainerList h2 true = Ok cs2 ->
  applied h (handle_update parse_text nodeID h).1 (handle_update parse_text nodeID h).2.
Proof.
  intros Hg Hl2. destruct (Hgen _ _ _ _ (generation _ _ _ _ Hg)) as (text & HP & Hs).
  pose proof (saved_applied h cs c h2 cs2 _ Hg Hl2 (Hs (proxies cs2) (h2 ++ [EContainerList true]))) as Ha.
  destruct Hg as [Hc Hl Hgc]. enough (handle_update parse_text nodeID h =
    apply_config nodeID cs c (proxies cs2) ((h2 ++ [EContainerList true]) ++ map (copy_event text) (proxies cs2))) as -> by done.
  unfold handle_update, ProxyContainers, CacheGet, ContainerList, SendErr, call.
  rewrite bind_at, Hc. rewrite bind_at, Hl. rewrite <- (app_assoc h).
  change (h ++ [ECacheGet "reload"] ++ [EContainerList true]) with (starts h).
  rewrite bind_at, Hgc, !bind_at, Hl2. simpl. fold (proxies cs2). by rewrite bind_at, Hs.
Qed.
End Update.

(** ** nginx *)

Section Served.
Context `{MapRange} `{World}.
Context (other : string -> res (ProxyConfig -> res string)) (cfg : ExtensionConfig).
Context (Hpath : TemplatePath cfg = "").

(** The text serves the routes seen in the containers from [h] on. *)
Definition nginx_serves (cs : list types.Container) (h : list event) (text : string) : Prop :=
  exists os h', mapM (nginx.observe cfg) cs h = (Val os, h') /\
    forall r, r ∈ omap id os -> forall a, a ∈ addr_of r ->
      rt_domain r ∈ served_domains (omap id os) /\
      contains text ("server " +:+ a +:+ ";") /\
      nginx_host_text (nginx.spec_host cfg (omap id os) (rt_domain r)) text.

Lemma nginx_serves_text os cs h h' text :
  mapM (nginx.observe cfg) cs h = (Val os, h') ->
  Forall (fun k => nginx_host_text (nginx.spec_host cfg (omap id os) k) text) (served_domains (omap id os)) ->
  nginx_serves cs h text.
Proof.
  intros Hm Ht. exists os, h'. split; [done|]. intros r Hr a Ha.
  assert (Hin : a ∈ flat_map addr_of (routes_of (rt_domain r) (omap id os))).
  { apply list_elem_of_In, in_flat_map. exists r. rewrite <- !list_elem_of_In. split; [|done].
    by apply list_elem_of_filter. }
  assert (Hk : rt_domain r ∈ served_domains (omap id os)).
  { apply elem_of_served. intros Hn. rewrite Hn in Hin. by apply elem_of_nil in Hin. }
  rewrite Forall_forall in Ht. pose proof (Ht _ Hk) as Hh. split; [done|]. split; [|done].
  apply (proj1 Hh {| nginx.Addr := a |}). simpl. by apply list_elem_of_fmap_2.
Qed.

#[local] Abbreviation nginx_builtin := (NginxBackend cfg nginxConfTemplate nginxPlusConfTemplate).

Lemma nginx_generated_rooted cs h c h' :
  @GenerateProxyConfig nginx_builtin cs h = (Val (Ok c), h') -> exists c', c = NginxConfig c' /\ nginx_rooted c'.
Proof.
  simpl. rewrite bind_at, nginx.nginx_generate_at.
  destruct (mapM (nginx.observe cfg) cs h) as [[os|w|w] h1]; intros [= <- <-]. eexists. split; [reflexivity|].
  unfold nginx_rooted. simpl. rewrite nginx.nginx_hosts_spec. apply Forall_map, Forall_forall. intros k Hk.
  by apply (nginx.nginx_spec_host_ok cfg).
Qed.

Lemma nginx_generated cs h c h' :
  @GenerateProxyConfig nginx_builtin cs h = (Val (Ok c), h') ->
  exists text, nginx_serves cs h text /\
    let b := nginx_builtin in
    forall proxies h2, SaveConfig (Parse other) c proxies h2 = (Val None, h2 ++ map (copy_event text) proxies).
Proof.
  intros Hg. destruct (nginx_generated_rooted _ _ _ _ Hg) as (c' & -> & Hc'). revert Hg.
  simpl. rewrite bind_at, nginx.nginx_generate_at.
  destruct (mapM (nginx.observe cfg) cs h) as [[os|w|w] h1] eqn:Hm; intros [= <- <-].
  set (c := nginx.Build_Config_ _ _ _) in *.
  pose proof (nginx.nginx_hosts_spec cfg "nginx/upstreamServers" (length h1) (omap id os)) as Hp.
  destruct (nginx_builtin_saved other cfg c) as (text & Hh & Hs); [done|done|].
  exists text. split; [|exact Hs]. eapply nginx_serves_text; [done|].
  unfold c in Hh. simpl in Hh. rewrite Hp in Hh. by apply Forall_map in Hh.
Qed.

(** A configuration can be generated if the inspections are sound. *)
Lemma nginx_generates cs h :
  Forall (fun c => 12 <= String.length (types.c_ID c)) cs ->
  (forall h id c, reply_ContainerInspect h id = Ok c -> sound_info c) ->
  exists c h', @GenerateProxyConfig nginx_builtin cs h = (Val (Ok c), h').
Proof.
  intros Hids Hsound. rewrite Forall_forall in Hids.
  destruct (returns_val (foldM (nginx.process cfg) nginx.no_tables cs) h) as (s & new & Hf).
  { apply returns_foldM. intros s c Hin. apply nginx.nginx_process_returns; auto. }
  rewrite (foldM_mapM _ (nginx.observe cfg) (nginx.apply_observation cfg)) in Hf by apply nginx.nginx_process_observe.
  rewrite bind_at in Hf. simpl. rewrite bind_at, nginx.nginx_generate_at.
  destruct (mapM (nginx.observe cfg) cs h) as [[os|w|w] h2]; [by eexists _, _|done..].
Qed.

(** ** haproxy *)

(** The same, for the domains and the aliases of a route. *)
Definition haproxy_serves (cs : list types.Container) (h : list event) (text : string) : Prop :=
  exists os h', mapE (haproxy.observe cfg) cs h = (Val (Ok os), h') /\
    forall r, r ∈ omap id os -> forall k up, up ∈ haproxy.upstreams_of k r ->
      k ∈ haproxy.served_keys (omap id os) /\
      contains text (server_line up) /\
      haproxy_host_text (haproxy.spec_host (omap id os) k) text.

#[local] Abbreviation haproxy_builtin := (HAProxyBackend cfg haproxyConfTemplate).

Lemma haproxy_serves_text os cs h h' text :
  mapE (haproxy.observe cfg) cs h = (Val (Ok os), h') ->
  Forall (fun k => haproxy_host_text (haproxy.spec_host (omap id os) k) text) (haproxy.served_keys (omap id os)) ->
  haproxy_serves cs h text.
Proof.
  intros Hm Ht. exists os, h'. split; [done|]. intros r Hr k up Hup.
  assert (Hin : up ∈ flat_map (haproxy.upstreams_of k) (omap id os)).
  { apply list_elem_of_In, in_flat_map. exists r. by rewrite <- !list_elem_of_In. }
  assert (Hk : k ∈ haproxy.served_keys (omap id os)).
  { apply haproxy.elem_of_served_keys. intros Hn. rewrite Hn in Hin. by apply elem_of_nil in Hin. }
  rewrite Forall_forall in Ht. pose proof (Ht _ Hk) as Hh. split; [done|]. split; [|done].
  by apply (proj1 Hh up).
Qed.

Lemma haproxy_generated_rooted cs h c h' :
  @GenerateProxyConfig haproxy_builtin cs h = (Val (Ok c), h') -> exists c', c = HAProxyConfig c' /\ haproxy_rooted c'.
Proof.
  simpl. rewrite bind_at, haproxy.haproxy_generate_at.
  destruct (mapE (haproxy.observe cfg) cs h) as [[[os|e]|w|w] h1]; intros [= <- <-]. eexists. split; [reflexivity|].
  unfold haproxy_rooted. simpl. rewrite haproxy.haproxy_hosts_spec. apply Forall_map, Forall_forall. intros k Hk.
  by apply haproxy.haproxy_spec_host_ok.
Qed.

Lemma haproxy_generated cs h c h' :
  @GenerateProxyConfig haproxy_builtin cs h = (Val (Ok c), h') ->
  exists text, haproxy_serves cs h text /\
    let b := haproxy_builtin in
    forall proxies h2, SaveConfig (Parse other) c proxies h2 = (Val None, h2 ++ map (copy_event text) proxies).
Proof.
  intros Hg. destruct (haproxy_generated_rooted _ _ _ _ Hg) as (c' & -> & Hc'). revert Hg.
  simpl. rewrite bind_at, haproxy.haproxy_generate_at.
  destruct (mapE (haproxy.observe cfg) cs h) as [[[os|e]|w|w] h1] eqn:Hm; intros [= <- <-].
  set (c := haproxy.Build_Config_ _ _ _) in *.
  pose proof (haproxy.haproxy_hosts_spec "haproxy/proxyUpstreams" (length h1) (omap id os)) as Hp.
  destruct (haproxy_builtin_saved other cfg c) as (text & Hh & Hs); [done|done|].
  exists text. split; [|exact Hs]. eapply haproxy_serves_text; [done|].
  unfold c in Hh. simpl in Hh. rewrite Hp in Hh. by apply Forall_map in Hh.
Qed.

(** A configuration can be generated if every container can be inspected. *)
Lemma haproxy_generates cs h :
  (forall h c, c ∈ cs -> exists id info, Strings.prefix_slice (types.c_ID c) 12 = Val id /\
    reply_ContainerInspect h id = Ok info /\ sound_info info /\ 1 <= String.length (types.ci_Name info)) ->
  exists c h', @GenerateProxyConfig haproxy_builtin cs h = (Val (Ok c), h').
Proof.
  intros Hok.
  assert (Hf : forall s h, exists s' h', foldE (haproxy.process cfg) s cs h = (Val (Ok s'), h')).
  { induction cs as [|c cs IH]; intros s h1; [by eexists _, _|].
    simpl. rewrite bind_at. destruct (haproxy.haproxy_process_inspected cfg s c h1) as (s' & h2 & ->).
    - intros h'. apply Hok. left.
    - apply IH. intros h' c' Hc. apply Hok. by right. }
  destruct (Hf haproxy.no_tables h) as (s & h' & Hs).
  simpl. rewrite bind_at. unfold haproxy.GenerateProxyConfig. rewrite bind_at, Hs. by eexists _, _.
Qed.

(** ** Types *)

(** The configuration has the type, and the template renders it. *)
Definition renders (t : ty) (c : ProxyConfig) (tmpl : string) : Prop :=
  has_type t (config_value c) /\ exists render text, Parse other tmpl = Ok render /\ render c = Ok text.

Lemma renders_parsed t ns c tmpl :
  parse tmpl = Some ns -> check_list [] t ns = true -> has_type t (config_value c) -> renders t c tmpl.
Proof.
  intros Hp Hc Ht. split; [done|]. destruct (execute_yields ns t (config_value c) Hc Ht) as [text He].
  eexists _, text. unfold Parse. rewrite Hp. split; [reflexivity|]. cbv beta. by rewrite He.
Qed.

(** C13: The built-in templates are well typed: every configuration
    [GenerateProxyConfig] returns, from any daemon, is a value of the type its
    template is checked against, so that the two templates of nginx, and that
    of haproxy, are parsed and executed on it without an error. *)
Theorem built_in_templates_typed cs h c h' :
  (@GenerateProxyConfig nginx_builtin cs h = (Val (Ok c), h') ->
   Forall (renders nginx_type c) [nginxConfTemplate; nginxPlusConfTemplate]) /\
  (@GenerateProxyConfig haproxy_builtin cs h = (Val (Ok c), h') -> renders haproxy_type c haproxyConfTemplate).
Proof.
  split; intros Hg.
  - apply nginx_generated_rooted in Hg as (c' & -> & Hc). apply nginx_has_type in Hc.
    apply Forall_cons_2; [apply (renders_parsed _ _ (NginxConfig c') _ nginx_parsed nginx_checks Hc)|].
    apply Forall_cons_2; [apply (renders_parsed _ _ (NginxConfig c') _ plus_parsed plus_checks Hc)|apply Forall_nil_2].
  - apply haproxy_generated_rooted in Hg as (c' & -> & Hc). apply haproxy_has_type in Hc.
    apply (renders_parsed _ _ (HAProxyConfig c') _ haproxy_parsed haproxy_checks Hc).
Qed.
End Served.

Section Witnesses.
Import Cluster.
#[local] Existing Instance cluster.
#[local] Existing Instance sorted_range.

Lemma built_in_templates_typed_witness : exists c h',
  @GenerateProxyConfig (NginxBackend nginx_cfg nginxConfTemplate nginxPlusConfTemplate) [web] [] = (Val (Ok c), h') /\
  Forall (renders no_other nginx_type c) [nginxConfTemplate; nginxPlusConfTemplate].
Proof.
  eexists _, _. split; [reflexivity|].
  eapply (proj1 (built_in_templates_typed no_other nginx_cfg [web] [] _ _)). reflexivity.
Defined.
End Witnesses.
