(* ===== verification/Returns.v ===== *)
(** * The load balancer does not panic

    On a daemon whose answers have what the code reads without a check
    (identifiers of twelve characters, a name, the networks of a listed
    container, the configuration, the settings and the name of an inspected
    one, and a binding of every exposed port that its [interlock.port] label
    names), [HandleEvent] and the handler of [lbUpdateChan] return, whatever
    else it answers.  These are assumptions on the daemon and on the labels of
    the users: [Network.backend_address_panics] shows what happens without the
    last. *)

From S2P Require Import Prelude GoStd Docker Labels Config Network Nginx HAProxy Backends LoadBalancer.

(** A container of a list that the code reads without a check. *)
Record listed (c : types.Container) : Prop := {
  listed_id : 12 <= String.length (types.c_ID c);
  listed_name : types.c_Names c <> [];
  listed_networks : is_Some (types.c_Networks c);
}.

(** What the code assumes of the daemon without checking it. *)
Class SoundDaemon (W : World) : Prop := {
  sound_list : forall h all cs, reply_ContainerList h all = Ok cs -> Forall listed cs;
  (* an inspected container has a configuration, settings and a name *)
  sound_fields : forall h id c, reply_ContainerInspect h id = Ok c ->
    is_Some (types.ci_Config c) /\ is_Some (types.ci_NetworkSettings c) /\ 1 <= String.length (types.ci_Name c);
  (* no exposed port that the label [interlock.port] names is left
     unpublished: [network.go:82] reads the first binding of such a port *)
  sound_ports : forall h id c config settings, reply_ContainerInspect h id = Ok c ->
    types.ci_Config c = Some config -> types.ci_NetworkSettings c = Some settings ->
    custom_port_published config (types.ci_Ports settings);
}.

Lemma sound_inspect {W : World} {HW : SoundDaemon W} h id c :
  reply_ContainerInspect h id = Ok c -> sound_info c /\ 1 <= String.length (types.ci_Name c).
Proof.
  intros Hc. destruct (sound_fields _ _ _ Hc) as ([config Hconfig] & [settings Hs] & Hn). split; [|done].
  exists config, settings. split_and!; [done..|]. by eapply sound_ports.
Qed.

(** What a backend promises the load balancer. *)
Class ReturningBackend (b : LoadBalancerBackend) : Prop := {
  generate_returns : forall cs, Forall listed cs -> returns (GenerateProxyConfig cs);
  template_returns : returns Template;
  reload_returns : forall cs, Forall listed cs -> returns (Reload cs);
}.

(** ** The backends *)

Section Backends.
Context `{MapRange} {W : World} {HW : SoundDaemon W}.

Lemma template_of_returns cfg builtin : returns (template_of cfg builtin).
Proof.
  unfold template_of. case_decide; [|apply returns_ret].
  apply returns_bind; [apply returns_call|intros; apply returns_ret].
Qed.

#[export] Instance nginx_returning cfg plain plus : ReturningBackend (NginxBackend cfg plain plus).
Proof.
  split; simpl.
  - intros cs Hcs. apply returns_bind; [|intros [c|e]; apply returns_ret].
    apply returns_bind; [|intros s; apply returns_bind; [apply returns_tick|intros; apply returns_ret]].
    apply returns_foldM. intros s c Hc. rewrite Forall_forall in Hcs.
    apply nginx.nginx_process_returns; [apply Hcs, Hc|apply sound_inspect].
  - apply template_of_returns.
  - intros cs Hcs. apply returns_bind; [|intros; apply returns_ret].
    apply returns_forM. intros c Hc h. rewrite Forall_forall in Hcs. destruct (Hcs c Hc).
    exists [EContainerKill (types.c_ID c) "HUP"]. rewrite nginx.reload_container_at by done. split; [done|by eexists].
Qed.

#[export] Instance haproxy_returning cfg builtin : ReturningBackend (HAProxyBackend cfg builtin).
Proof.
  split; simpl.
  - intros cs Hcs. apply returns_bind; [|intros [c|e]; apply returns_ret].
    apply returns_bind; [|intros [s|e]; [apply returns_bind; [apply returns_tick|intros; apply returns_ret]|apply returns_ret]].
    apply returns_foldE. intros s c Hc. rewrite Forall_forall in Hcs.
    apply haproxy.haproxy_process_returns; [apply Hcs, Hc|apply sound_inspect].
  - apply template_of_returns.
  - intros cs Hcs. apply returns_bind; [apply haproxy.dropSYN_returns|intros _].
    apply returns_bind; [|intros _; apply returns_bind; [apply haproxy.configIPTables_returns|intros; apply returns_ret]].
    apply returns_forM. intros c Hc h. rewrite Forall_forall in Hcs. destruct (Hcs c Hc).
    exists [EContainerRestart (types.c_ID c) 1000]. rewrite haproxy.restart_at by done. split; [done|by eexists].
Qed.
End Backends.

(** ** The shares *)

(** A share has only containers of the list. *)
Lemma split_work_members nodes sub cs work w id s :
  split_work nodes sub cs work = Val w -> w !! id = Some s -> work !! id = Some s \/ s ⊆ cs.
Proof.
  revert cs work. induction nodes as [|n nodes IH]; intros cs work Hs Hw.
  - done.
  - assert (Hin : forall s' work', split_work nodes sub (take (length cs - sub) cs) (<[types.c_ID n:=s']> work') = Val w ->
      s' ⊆ cs -> work' !! id = Some s \/ s ⊆ cs).
    { intros s' work' Hs' Hsub. destruct (IH _ _ Hs' Hw) as [Hl|Hl].
      - apply lookup_insert_Some in Hl as [[_ ->]|[_ Hl]]; [by right|by left].
      - right. intros x Hx%Hl. rewrite <- (take_drop (length cs - sub) cs). apply elem_of_app. by left. }
    destruct nodes as [|n' nodes].
    + change (Val (<[types.c_ID n:=cs]> work) = Val w) in Hs. injection Hs as <-. apply lookup_insert_Some in Hw as [[_ ->]|[_ Hw]]; [by right|by left].
    + rewrite split_work_cons in Hs. case_decide; [|done]. eapply Hin; [exact Hs|].
      intros x Hx. rewrite <- (take_drop (length cs - sub) cs). apply elem_of_app. by right.
Qed.

Lemma to_restart_returns nodeID nodes cs :
  Forall (fun c => 8 <= String.length (types.c_ID c)) cs ->
  exists r, proxyContainersToRestart nodeID nodes cs = Val r /\ r ⊆ cs.
Proof.
  intros Hids. unfold proxyContainersToRestart. case_decide as H0; [by exists cs|]. case_decide as H1; [by exists cs|].
  assert (length nodes * (length cs / length nodes) <= length cs) by (apply Nat.Div0.mul_div_le).
  pose proof (split_work_shares nodes (length cs / length nodes) cs ∅) as Hs.
  rewrite Hs by (by destruct nodes). simpl. set (w := fold_left _ _ _) in *.
  assert (Hsub : default [] (w !! nodeID) ⊆ cs).
  { destruct (w !! nodeID) as [s|] eqn:Hw; [|by intros x Hx%not_elem_of_nil].
    destruct (split_work_members nodes (length cs / length nodes) cs ∅ w nodeID s) as [He|He]; [by apply Hs; destruct nodes|done|done|done]. }
  destruct (short_ids_val (default [] (w !! nodeID))) as [ids Hi].
  { rewrite Forall_forall in Hids |- *. auto. }
  rewrite Hi. by eexists.
Qed.

(** ** The handlers *)

Section Handlers.
Context `{MapRange} {W : World} {HW : SoundDaemon W}.

Lemma isExposedContainer_returns id : returns (isExposedContainer id).
Proof.
  intros h. exists [EContainerInspect id]. rewrite isExposedContainer_at. split; [done|]. unfold exposed.
  destruct (reply_ContainerInspect h id) as [c|e] eqn:Hc; [|by eexists].
  apply sound_inspect in Hc as [(config & settings & Hconfig & _) _]. rewrite Hconfig. by eexists.
Qed.

Lemma wait_connected_returns n id net : returns (wait_connected n id net).
Proof.
  induction n as [|n IH]; simpl; [apply returns_ret|].
  apply returns_bind; [apply returns_bind; [apply returns_call|intros; apply returns_ret]|].
  intros [[]|e]; [apply returns_ret| |apply returns_ret]. apply returns_bind; [apply returns_call|done].
Qed.

(** The handling of an event returns. *)
Lemma HandleEvent_returns ev : returns (HandleEvent ev).
Proof.
  unfold HandleEvent. apply returns_bind.
  - repeat case_decide; try apply returns_ret; [apply isExposedContainer_returns|].
    apply returns_bind; [apply isExposedContainer_returns|intros r].
    apply returns_bind; [apply returns_call|intros; apply returns_ret].
  - intros r. apply returns_bind.
    + case_decide; [|apply returns_ret].
      destruct (etypes.Actor_Attributes ev !! "container") as [id|]; [|apply returns_ret].
      destruct (etypes.Actor_Attributes ev !! "name") as [net|]; [|apply returns_ret].
      apply returns_bind; [apply wait_connected_returns|intros [[]|e]; [|apply returns_ret]].
      apply returns_bind; [apply isExposedContainer_returns|intros; apply returns_ret].
    + intros [[]|e]; try apply returns_ret. apply returns_bind; [apply returns_call|intros; apply returns_ret].
Qed.

Context (Parse : string -> res (ProxyConfig -> res string)) (nodeID : string).
Context {b : LoadBalancerBackend} {Hb : LawfulBackend b} {Hr : ReturningBackend b}.

(** The type assertion succeeds on a configuration of the backend. *)
Lemma proxy_networks_val c : matches_name Name c -> exists r, proxy_networks c = Val r.
Proof. intros Hc. unfold proxy_networks. destruct c; simpl in Hc; rewrite Hc; by eexists. Qed.

Lemma SaveConfig_returns c cs : matches_name Name c -> returns (SaveConfig Parse c cs).
Proof.
  intros Hc. unfold SaveConfig. apply returns_bind; [apply template_returns|intros tmpl].
  destruct (Parse tmpl) as [render|e]; [|apply returns_ret].
  apply returns_bind.
  - destruct c; simpl in Hc; rewrite Hc; (apply returns_bind; [apply returns_pure|intros; apply returns_ret]).
  - intros [data|e]; [|apply returns_ret]. apply returns_bind; [|intros; apply returns_ret].
    apply returns_forM. intros x _. apply returns_bind; [apply returns_call|intros; apply returns_ret].
Qed.

Lemma add_interlock_node_returns nodes c : returns (add_interlock_node nodeID nodes c).
Proof.
  unfold add_interlock_node. case_decide; [apply returns_ret|].
  apply returns_call_bind. intros h. destruct (reply_ContainerInspect _ _) as [info|] eqn:Hc; [|apply returns_ret].
  apply sound_inspect in Hc as [(config & settings & Hconfig & _) _]. rewrite Hconfig.
  apply returns_bind; [apply returns_pure|intros config']. repeat case_decide; apply returns_ret.
Qed.

Lemma returns_val_bind {A B} (a : A) (f : A -> M B) : returns (f a) -> returns (pure (Val a) ≫= f).
Proof. done. Qed.

Lemma connect_networks_returns t nets c : listed c -> returns (connect_networks t nets c).
Proof.
  intros Hc. destruct (listed_networks c Hc) as [ns Hns]. unfold connect_networks. apply returns_forM.
  intros [net v] _. rewrite Hns. apply returns_val_bind. destruct (ns !! net); [apply returns_ret|].
  apply returns_bind; [apply returns_call|intros; apply returns_ret].
Qed.

Lemma apply_config_returns cs c proxied :
  matches_name Name c -> Forall listed proxied -> returns (apply_config nodeID cs c proxied).
Proof.
  intros Hc Hp. unfold apply_config. destruct (proxy_networks_val c Hc) as [nets Hn]. rewrite Hn.
  apply returns_val_bind. destruct nets as [nets|e]; [|apply returns_call].
  assert (Hin : forall x, x ∈ proxied -> listed x) by (by apply Forall_forall).
  apply returns_bind; [|intros _].
  { apply returns_forM. intros x Hx. apply returns_bind; [apply returns_tick|]. intros t. apply connect_networks_returns. auto. }
  apply returns_bind; [apply returns_foldM; intros; apply add_interlock_node_returns|intros nodes].
  destruct (to_restart_returns nodeID nodes proxied) as (r & Hrs & Hsub).
  { apply Forall_forall. intros x Hx%Hin. pose proof (listed_id x Hx). lia. }
  rewrite Hrs. apply returns_val_bind. apply returns_bind; [apply returns_call|intros _].
  apply returns_bind; [|intros [e|]; [apply returns_call|apply returns_ret]].
  apply reload_returns, Forall_forall. auto.
Qed.

Lemma ProxyContainers_listed h :
  wp ProxyContainers h (fun o _ => exists r, o = Val r /\ match r with Ok cs => Forall listed cs | Err _ => True end).
Proof.
  unfold ProxyContainers. apply wp_bind, wp_call. destruct (reply_ContainerList h true) as [cs|e] eqn:Hcs.
  - apply wp_ret. eexists. split; [reflexivity|]. apply sound_list in Hcs.
    rewrite Forall_forall in Hcs |- *. intros c [_ Hc]%list_elem_of_filter. auto.
  - apply wp_ret. by eexists.
Qed.

(** An update returns. *)
Lemma handle_update_returns : returns (handle_update Parse nodeID).
Proof.
  unfold handle_update. apply returns_bind; [apply returns_call|intros []; [apply returns_ret|]].
  apply returns_call_bind. intros h. destruct (reply_ContainerList h true) as [cs|e] eqn:Hcs; [|apply returns_call].
  apply sound_list in Hcs. intros h1. apply wp_bind.
  eapply wp_mono; [apply (wp_and _ _ _ _ (generate_returns cs Hcs h1) (generate_matches cs h1))|].
  intros o new [[c ->] Hm]. destruct c as [c|e]; [|apply returns_call].
  apply wp_bind. eapply wp_mono; [apply ProxyContainers_listed|]. intros o new' (r & -> & Hp).
  destruct r as [proxied|e]; [|apply returns_call].
  revert Hm Hp. generalize (h1 ++ new). intros h2 Hm Hp.
  enough (Hret : returns (err ← SaveConfig Parse c proxied;
    match err with Some err => SendErr err | None => apply_config nodeID cs c proxied end)) by apply Hret.
  apply returns_bind; [by apply SaveConfig_returns|]. intros [e|]; [apply returns_call|by apply apply_config_returns].
Qed.
End Handlers.
