(* ===== verification/Progress.v ===== *)
(** * Progress in infinite runs

    Properties of the positions of an infinite run, and the rules by which a
    fair step leads from one to the next: as in the logics for fair
    transition systems, but each gives the position it leads to. *)

From S2P Require Import Prelude.

Section Progress.
Context (P Q : nat -> Prop) (n : nat).
(** [P] is kept until [Q]. *)
Context (Hkeep : forall k, n <= k -> P k -> P (S k) \/ Q (S k)).

Lemma kept m : n <= m -> P n -> (exists k, n <= k /\ Q k) \/ P m.
Proof.
  intros Hm HP. induction Hm as [|m Hm [IH|IH]]; [by right|by left|].
  destruct (Hkeep m Hm IH) as [?|HQ]; [by right|left]. exists (S m). split; [lia|done].
Qed.

(** A step that is enabled while [P] holds, and leads to [Q], is taken if it
    is not put off for ever. *)
Lemma ensures (enabled taken : nat -> Prop) :
  P n -> (forall k, n <= k -> P k -> enabled k) -> (forall k, n <= k -> P k -> taken k -> Q (S k)) ->
  (exists m, n <= m /\ (~ enabled m \/ taken m)) -> exists m, n <= m /\ Q m.
Proof.
  intros HP He Ht (m & Hm & Hf). destruct (kept m Hm HP) as [?|HPm]; [done|].
  destruct Hf as [Hf|Hf]; [destruct Hf; by apply He|]. exists (S m). split; [lia|by apply Ht].
Qed.
End Progress.

(** A measure that goes down in the end. *)
Lemma descends (P Q : nat -> Prop) (f : nat -> nat) :
  (forall k, P k -> exists m, k <= m /\ (Q m \/ (P m /\ f m < f k))) ->
  forall k, P k -> exists m, k <= m /\ Q m.
Proof.
  intros Hd k. remember (f k) as x eqn:Hx. revert k Hx.
  induction x as [x IH] using lt_wf_ind. intros k -> HP.
  destruct (Hd k HP) as (m & Hm & [HQ|[HPm Hlt]]); [by exists m|].
  destruct (IH (f m) Hlt m eq_refl HPm) as (m' & Hm' & HQ). exists m'. split; [lia|done].
Qed.
