(* ===== verification/Debounce.v ===== *)
(** * Requests for an update

    How an event becomes an update of the proxies: [HandleEvent] sets a key
    of a cache ([ttlcache], vendored), the ticker of the cache removes it
    once it is [ReloadThreshold] old and calls back, and the callback sends
    on [lbUpdateChan], which the handler of [NewLoadBalancer] reads.  The
    goroutines are the steps of a transition system; channels are not
    buffered, so a send and its receive are one step. *)

From S2P Require Import Prelude.

(** Milliseconds. *)
Definition ReloadThreshold : Z := 2000.

(** ** Package ttlcache *)

Module ttlcache.
(** The keys, with the time of their last update; the values are not read. *)
Definition Set_ (key : string) (now : Z) (data : gmap string Z) : gmap string Z := <[key := now]> data.
Definition Get (key : string) (data : gmap string Z) : option Z := data !! key.
(** The body of the loop of [reap] for one key. *)
Definition expired (ttl now updated : Z) : bool := bool_decide (ttl <= now - updated)%Z.
End ttlcache.

(** ** State *)

(** One [LoadBalancer], as its goroutines share it. *)
Record instance := {
  cache : gmap string Z;
  (* the channel the callback of the cache is blocked on *)
  reaping : option nat;
  (* the channel the handler ranges over, once it has started *)
  handler : option nat;
  (* the handler is in an update *)
  busy : bool;
}.

Record state := {
  now : Z;
  (* the package variable, and how many channels were made *)
  lbUpdateChan : nat;
  channels : nat;
  instances : list instance;
}.

Definition start_state (t : Z) : state := {| now := t; lbUpdateChan := 0; channels := 0; instances := [] |}.

Definition set_cache c (x : instance) := {| cache := c; reaping := reaping x; handler := handler x; busy := busy x |}.
Definition set_reaping r (x : instance) := {| cache := cache x; reaping := r; handler := handler x; busy := busy x |}.
Definition set_handler c (x : instance) := {| cache := cache x; reaping := reaping x; handler := Some c; busy := busy x |}.
Definition set_busy b (x : instance) := {| cache := cache x; reaping := reaping x; handler := handler x; busy := b |}.
Definition set_instances l (s : state) :=
  {| now := now s; lbUpdateChan := lbUpdateChan s; channels := channels s; instances := l |}.
Definition on (i : nat) (f : instance -> instance) (s : state) : state :=
  set_instances (alter f i (instances s)) s.

(** ** Steps *)

Inductive label :=
| LWait (ms : Z)
| LCreate                (* NewLoadBalancer *)
| LStart (i : nat)       (* the handler evaluates its range expression *)
| LEvent (i : nat)       (* HandleEvent requests a reload *)
| LTick (i : nat)        (* the ticker of the cache *)
| LUpdate (t : Z) (i j : nat)  (* i's callback reaches j's handler, which updates *)
| LSkip (i j : nat)      (* the same, and the handler finds a newer request *)
| LFinish (j : nat).

#[export] Instance label_eq_dec : EqDecision label.
Proof. solve_decision. Defined.

(** What a tick does to an instance that is not in a callback. *)
Definition tick_instance (s : state) (x : instance) : instance :=
  match ttlcache.Get "reload" (cache x) with
  | Some u =>
      if ttlcache.expired ReloadThreshold (now s) u
      then set_reaping (Some (lbUpdateChan s)) (set_cache (delete "reload" (cache x)) x)
      else x
  | None => x
  end.

Inductive step : state -> label -> state -> Prop :=
| step_wait s ms : (0 <= ms)%Z ->
    step s (LWait ms)
      {| now := now s + ms; lbUpdateChan := lbUpdateChan s; channels := channels s; instances := instances s |}
| step_create s :
    step s LCreate
      {| now := now s; lbUpdateChan := channels s; channels := S (channels s);
         instances := instances s ++ [{| cache := ∅; reaping := None; handler := None; busy := false |}] |}
| step_start s i x : instances s !! i = Some x -> handler x = None ->
    step s (LStart i) (on i (set_handler (lbUpdateChan s)) s)
| step_event s i x : instances s !! i = Some x ->
    step s (LEvent i) (on i (fun x => set_cache (ttlcache.Set_ "reload" (now s) (cache x)) x) s)
| step_tick s i x : instances s !! i = Some x -> reaping x = None ->
    step s (LTick i) (on i (tick_instance s) s)
| step_update s i j c x y : instances s !! i = Some x -> instances s !! j = Some y ->
    reaping x = Some c -> handler y = Some c -> busy y = false -> ttlcache.Get "reload" (cache y) = None ->
    step s (LUpdate (now s) i j) (on j (set_busy true) (on i (set_reaping None) s))
| step_skip s i j c x y u : instances s !! i = Some x -> instances s !! j = Some y ->
    reaping x = Some c -> handler y = Some c -> busy y = false -> ttlcache.Get "reload" (cache y) = Some u ->
    step s (LSkip i j) (on i (set_reaping None) s)
| step_finish s j y : instances s !! j = Some y -> busy y = true ->
    step s (LFinish j) (on j (set_busy false) s).

Inductive steps : state -> list label -> state -> Prop :=
| steps_nil s : steps s [] s
| steps_snoc s tr s' l s'' : steps s tr s' -> step s' l s'' -> steps s (tr ++ [l]) s''.
#[export] Hint Constructors step steps : go.

(** An event that no update has followed yet. *)
Definition owed (tr : list label) : bool :=
  fold_left (fun o l => match l with LEvent _ => true | LUpdate _ _ _ => false | _ => o end) tr false.

(** The time of the last update. *)
Definition last_update (tr : list label) : option Z :=
  fold_left (fun o l => match l with LUpdate t _ _ => Some t | _ => o end) tr None.
Definition creations (tr : list label) : nat :=
  length (filter (fun l => l = LCreate) tr).

(** ** One load balancer *)

(** What holds of the only instance [x] after the steps [tr]. *)
Record single (tr : list label) (s : state) (x : instance) : Prop := {
  single_instances : instances s = [x];
  single_owed : owed tr = true -> is_Some (ttlcache.Get "reload" (cache x)) \/ is_Some (reaping x);
  single_key : forall u, ttlcache.Get "reload" (cache x) = Some u -> (u <= now s)%Z;
  single_last : forall t, last_update tr = Some t -> (t <= now s)%Z /\
    (forall u, ttlcache.Get "reload" (cache x) = Some u -> (t <= u)%Z) /\
    (is_Some (reaping x) -> (t + ReloadThreshold <= now s)%Z);
  single_channel : lbUpdateChan s = 0 /\ channels s = 1 /\
    (forall c, handler x = Some c -> c = 0) /\ (forall c, reaping x = Some c -> c = 0);
}.

Definition none_yet (tr : list label) (s : state) : Prop :=
  instances s = [] /\ owed tr = false /\ last_update tr = None /\ channels s = 0.

Lemma owed_snoc tr l :
  owed (tr ++ [l]) = match l with LEvent _ => true | LUpdate _ _ _ => false | _ => owed tr end.
Proof. unfold owed. by rewrite fold_left_app. Qed.
Lemma last_update_snoc tr l :
  last_update (tr ++ [l]) = match l with LUpdate t _ _ => Some t | _ => last_update tr end.
Proof. unfold last_update. by rewrite fold_left_app. Qed.
Lemma creations_snoc tr l : creations (tr ++ [l]) = creations tr + (if decide (l = LCreate) then 1 else 0).
Proof. unfold creations. rewrite filter_app, length_app, filter_cons, filter_nil. by case_decide. Qed.

(** An instance found in a list of one. *)
Lemma lookup_single {A} (l : list A) x i y : l = [x] -> l !! i = Some y -> i = 0 /\ y = x.
Proof. intros -> H. destruct i; [by injection H|by destruct i]. Qed.

Lemma tick_cases s x :
  tick_instance s x = x \/
  exists u, ttlcache.Get "reload" (cache x) = Some u /\ (ReloadThreshold <= now s - u)%Z /\
    tick_instance s x = set_reaping (Some (lbUpdateChan s)) (set_cache (delete "reload" (cache x)) x).
Proof.
  unfold tick_instance. destruct (ttlcache.Get _ _) as [u|]; [|by left].
  unfold ttlcache.expired. case_bool_decide; [right; eauto|by left].
Qed.

Ltac only_one :=
  repeat match goal with
  | Hi : instances ?s = [?x], H : instances ?s !! ?i = Some ?y |- _ =>
      pose proof (lookup_single _ _ _ _ Hi H) as [? ?]; clear H; subst i; subst y
  end.

Lemma single_step tr s l s' x :
  single tr s x -> step s l s' -> l <> LCreate -> exists x', single (tr ++ [l]) s' x'.
Proof.
  intros [Hi Ho Hk Hl (Hc1 & Hc2 & Hc3 & Hc4)] Hs Hne. destruct Hs; only_one; try done.
  - exists x. split; simpl; rewrite ?owed_snoc, ?last_update_snoc; auto.
    + intros u Hu. specialize (Hk u Hu). lia.
    + intros t Ht. destruct (Hl t Ht) as (H1 & H2 & H3). split_and!; [lia|done|]. intros Hr. specialize (H3 Hr). lia.
  - exists (set_handler (lbUpdateChan s) x). split; simpl; rewrite ?Hi, ?owed_snoc, ?last_update_snoc; auto.
    split_and!; auto. congruence.
  - exists (set_cache (ttlcache.Set_ "reload" (now s) (cache x)) x).
    split; simpl; rewrite ?Hi, ?owed_snoc, ?last_update_snoc; unfold ttlcache.Get, ttlcache.Set_; auto.
    + intros _. left. by rewrite lookup_insert_eq.
    + intros u. rewrite lookup_insert_eq. intros [= <-]. lia.
    + intros t Ht. destruct (Hl t Ht) as (H1 & H2 & H3). split_and!; [done| |done].
      intros u. rewrite lookup_insert_eq. by intros [= <-].
  - exists (tick_instance s x).
    assert (Hin : instances (on 0 (tick_instance s) s) = [tick_instance s x]) by (simpl; by rewrite Hi).
    destruct (tick_cases s x) as [Ht|(u & Hg & He & Ht)]; rewrite Ht in Hin |- *;
      (split; [exact Hin|..]); simpl; rewrite ?owed_snoc, ?last_update_snoc; unfold ttlcache.Get in *; eauto.
    + intros u'. by rewrite lookup_delete_eq.
    + intros t Hla. destruct (Hl t Hla) as (H1 & H2 & H3). split_and!; [done| |].
      * intros u'. by rewrite lookup_delete_eq.
      * intros _. specialize (H2 u Hg). lia.
    + split_and!; auto. congruence.
  - exists (set_busy true (set_reaping None x)).
    split; simpl; rewrite ?Hi, ?owed_snoc, ?last_update_snoc; simpl; auto; try done.
    intros t [= <-]. split_and!; [done|congruence|by intros []].
  - exists (set_reaping None x).
    split; simpl; rewrite ?Hi, ?owed_snoc, ?last_update_snoc; simpl; auto.
    + intros t Ht. destruct (Hl t Ht) as (H1' & H2' & H3'). split_and!; [done|done|by intros []].
    + split_and!; auto. done.
  - exists (set_busy false x). split; simpl; rewrite ?Hi, ?owed_snoc, ?last_update_snoc; auto.
Qed.

Lemma steps_single t0 tr s :
  steps (start_state t0) tr s ->
  (creations tr = 0 -> none_yet tr s) /\ (creations tr = 1 -> exists x, single tr s x).
Proof.
  intros Hs. remember (start_state t0) as s0 eqn:H0. induction Hs as [s|s tr s' l s'' Hs IH Hst]; subst.
  - split; [by repeat split|done].
  - specialize (IH eq_refl) as [IH0 IH1]. rewrite creations_snoc. case_decide as Hl.
    + subst l. split; [lia|]. intros Hc. assert (creations tr = 0) as Hc0 by lia.
      destruct (IH0 Hc0) as (Hi & Ho & Hla & Hch). inversion Hst; subst.
      eexists. split; simpl; rewrite ?Hi, ?owed_snoc, ?last_update_snoc, ?Ho, ?Hla, ?Hch; try done.
    + rewrite Nat.add_0_r. split.
      * intros Hc. destruct (IH0 Hc) as (Hi & Ho & Hla & Hch).
        inversion Hst; subst; try done; unfold none_yet; rewrite ?owed_snoc, ?last_update_snoc; try done;
          exfalso; by rewrite Hi in *.
      * intros Hc. destruct (IH1 Hc) as [x Hx]. by eapply single_step.
Qed.

Lemma steps_snoc_inv s tr l s'' : steps s (tr ++ [l]) s'' -> exists s', steps s tr s' /\ step s' l s''.
Proof.
  intros Hs. remember (tr ++ [l]) as tr' eqn:Heq. destruct Hs as [s|s tr1 s' l' s'' Hs Hl]; [by destruct tr|].
  apply app_inj_tail in Heq as [-> ->]. eauto.
Qed.

Lemma steps_trans s tr s' tr' s'' : steps s tr s' -> steps s' tr' s'' -> steps s (tr ++ tr') s''.
Proof.
  intros H1 H2. induction H2 as [s'|s' tr' s1 l s'' H2 IH Hl]; [by rewrite app_nil_r|].
  rewrite app_assoc. econstructor; eauto.
Qed.

Lemma step_steps s l s' : step s l s' -> steps s [l] s'.
Proof. intros H. apply (steps_snoc s [] s l s'); [constructor|done]. Qed.

(** No request is lost: while one has had no update, it is in the cache or in
    the callback. *)
Theorem no_lost_reload t0 tr s :
  steps (start_state t0) tr s -> creations tr = 1 -> owed tr = true ->
  exists x, instances s = [x] /\ (is_Some (ttlcache.Get "reload" (cache x)) \/ is_Some (reaping x)).
Proof.
  intros Hs Hc Ho. apply steps_single in Hs as [_ H1]. destruct (H1 Hc) as [x [Hi Hx _ _ _]]. eauto.
Qed.

(** C22: Two updates in a row start at least [ReloadThreshold] apart. *)
Theorem updates_spaced t0 tr t t' i j s :
  steps (start_state t0) (tr ++ [LUpdate t' i j]) s -> creations tr = 1 -> last_update tr = Some t ->
  (t + ReloadThreshold <= t')%Z.
Proof.
  intros Hs Hc Ht. apply steps_snoc_inv in Hs as (s' & Hs & Hl).
  apply steps_single in Hs as [_ H1]. destruct (H1 Hc) as [x [Hi _ _ Hla _]].
  inversion Hl; subst. only_one. destruct (Hla _ Ht) as (_ & _ & H3). apply H3. by eexists.
Qed.

(** Steps other than a request, an update or the creation of a load balancer. *)
Definition quiet (l : label) : Prop := match l with LEvent _ | LCreate | LUpdate _ _ _ => False | _ => True end.

(** The state of one load balancer. *)
Definition one (t : Z) (x : instance) : state :=
  {| now := t; lbUpdateChan := 0; channels := 1; instances := [x] |}.

Section Serve.
(** Some quiet steps from the state [one t x], and at most [d] milliseconds. *)
Definition leads (t : Z) (x : instance) (d : Z) (t' : Z) (x' : instance) : Prop :=
  exists tr, steps (one t x) tr (one t' x') /\ Forall quiet tr /\ (t' <= t + d)%Z.

Lemma leads_step t x l t' x' d : step (one t x) l (one t' x') -> quiet l -> (t' <= t + d)%Z -> leads t x d t' x'.
Proof. intros Hs Hq Hd. exists [l]. split; [by apply step_steps|]. by repeat constructor. Qed.

Lemma leads_trans t x d1 t1 x1 d2 t2 x2 :
  leads t x d1 t1 x1 -> leads t1 x1 d2 t2 x2 -> leads t x (d1 + d2) t2 x2.
Proof.
  intros (tr1 & H1 & Hq1 & Hd1) (tr2 & H2 & Hq2 & Hd2). exists (tr1 ++ tr2).
  split; [by eapply steps_trans|]. split; [by apply Forall_app|lia].
Qed.

Lemma leads_refl t x : leads t x 0 t x.
Proof. exists []. split; [constructor|]. split; [constructor|lia]. Qed.

(** The handler gets ready. *)
Lemma leads_ready t x :
  (forall c, handler x = Some c -> c = 0) ->
  exists x', leads t x 0 t x' /\ handler x' = Some 0 /\ busy x' = false /\ cache x' = cache x /\ reaping x' = reaping x.
Proof.
  intros Hh.
  assert (exists x', leads t x 0 t x' /\ handler x' = Some 0 /\ busy x' = busy x /\ cache x' = cache x /\ reaping x' = reaping x)
    as (x1 & H1 & Hh1 & Hb1 & Hc1 & Hr1).
  { destruct (handler x) as [c|] eqn:Hx.
    - assert (c = 0) as -> by (by apply Hh). exists x. split; [apply leads_refl|done].
    - exists (set_handler 0 x). split; [|done]. eapply (leads_step _ _ (LStart 0)); [|done|lia].
      by apply (step_start (one t x) 0 x). }
  destruct (busy x1) eqn:Hb; [|by exists x1].
  exists (set_busy false x1). split; [|done]. apply (leads_trans _ _ 0 t x1 0); [done|].
  eapply (leads_step _ _ (LFinish 0)); [|done|lia]. by apply (step_finish (one t x1) 0 x1).
Qed.

(** A pending callback is received: it starts an update, or a newer request
    is in the cache. *)
Lemma leads_wait t x u :
  ttlcache.Get "reload" (cache x) = Some u -> reaping x = None -> (u <= t)%Z ->
  exists t' x', leads t x ReloadThreshold t' x' /\
    reaping x' = Some 0 /\ cache x' = delete "reload" (cache x) /\ handler x' = handler x /\ busy x' = busy x.
Proof.
  intros Hu Hr Hut. assert (exists t', (u + ReloadThreshold <= t' /\ t <= t' <= t + ReloadThreshold)%Z) as (t' & Ht1 & Ht2).
  { exists (Z.max t (u + ReloadThreshold)). unfold ReloadThreshold. lia. }
  exists t', (set_reaping (Some 0) (set_cache (delete "reload" (cache x)) x)). split; [|done].
  replace ReloadThreshold with (ReloadThreshold + 0)%Z by lia. apply (leads_trans _ _ ReloadThreshold t' x 0).
  - eapply (leads_step _ _ (LWait (t' - t))); [|done|lia].
    replace (one t' x) with {| now := now (one t x) + (t' - t); lbUpdateChan := 0; channels := 1; instances := [x] |}
      by (unfold one; simpl; f_equal; lia).
    apply (step_wait (one t x)). lia.
  - eapply (leads_step _ _ (LTick 0)); [|done|lia].
    assert (tick_instance (one t' x) x = set_reaping (Some 0) (set_cache (delete "reload" (cache x)) x)) as <-.
    { unfold tick_instance. rewrite Hu. unfold ttlcache.expired. rewrite bool_decide_eq_true_2; [done|simpl; lia]. }
    by apply (step_tick (one t' x) 0 x).
Qed.
End Serve.

(** A request leads to an update. *)
Lemma owed_leads_to_update t0 tr s :
  steps (start_state t0) tr s -> creations tr = 1 -> owed tr = true ->
  exists tr' s' t, steps s (tr' ++ [LUpdate t 0 0]) s' /\ Forall quiet tr' /\ (t <= now s + ReloadThreshold)%Z.
Proof.
  intros Hs Hc Ho. apply steps_single in Hs as [_ H1].
  destruct (H1 Hc) as [x [Hi Hx Hk _ (Hc1 & Hc2 & Hh & Hr)]]. specialize (Hx Ho).
  assert (s = one (now s) x) as -> by (destruct s; simpl in *; by subst).
  set (t := now s) in *. clearbody t. simpl in *.
  destruct (leads_ready t x Hh) as (x1 & L1 & Hh1 & Hb1 & Hca1 & Hr1).
  assert (exists t2 x2, leads t x1 ReloadThreshold t2 x2 /\ reaping x2 = Some 0 /\
    ttlcache.Get "reload" (cache x2) = None /\ handler x2 = Some 0 /\ busy x2 = false)
    as (t2 & x2 & L2 & Hr2 & Hg2 & Hh2 & Hb2).
  { assert (Hwait : forall x1 u, handler x1 = Some 0 -> busy x1 = false -> ttlcache.Get "reload" (cache x1) = Some u ->
      reaping x1 = None -> (u <= t)%Z -> exists t2 x2, leads t x1 ReloadThreshold t2 x2 /\ reaping x2 = Some 0 /\
      ttlcache.Get "reload" (cache x2) = None /\ handler x2 = Some 0 /\ busy x2 = false).
    { intros y u Hhy Hby Hg Hry Hut. destruct (leads_wait t y u Hg Hry Hut) as (t2 & x2 & L & E1 & E2 & E3 & E4).
      exists t2, x2. rewrite E2, E3, E4. split_and!; try done. unfold ttlcache.Get. by rewrite lookup_delete_eq. }
    destruct (ttlcache.Get "reload" (cache x1)) as [u|] eqn:Hg.
    - destruct (reaping x1) as [c|] eqn:Hrx; [|apply (Hwait x1 u); auto; apply Hk; by rewrite <- Hca1].
      assert (c = 0) as -> by (apply Hr; congruence).
      destruct (Hwait (set_reaping None x1) u) as (t2 & x2 & L & E); auto; [apply Hk; by rewrite <- Hca1|].
      exists t2, x2. split; [|done]. apply (leads_trans _ _ 0 t (set_reaping None x1) ReloadThreshold); [|done].
      eapply (leads_step _ _ (LSkip 0 0)); [|done|lia]. by eapply (step_skip (one t x1) 0 0 0 x1 x1).
    - destruct Hx as [[u Hu]|[c Hcx]]; [rewrite Hca1 in Hg; congruence|].
      exists t, x1. split; [exists []; split; [constructor|]; split; [constructor|unfold ReloadThreshold; lia]|].
      assert (c = 0) as -> by auto. by rewrite Hr1. }
  destruct (leads_trans _ _ _ _ _ _ _ _ L1 L2) as (tr' & Hs' & Hq & Ht).
  exists tr', (on 0 (set_busy true) (on 0 (set_reaping None) (one t2 x2))), t2.
  split; [|split; [done|lia]]. eapply steps_snoc; [exact Hs'|].
  by apply (step_update (one t2 x2) 0 0 0 x2 x2).
Qed.

(** Every request can be served: from any state that owes an update, without
    another request or update, some steps that take at most [ReloadThreshold] reach an
    update, so the goroutines never deadlock on a request. *)
Theorem reload_can_happen t0 tr s :
  steps (start_state t0) tr s -> creations tr = 1 -> owed tr = true ->
  exists tr' s' t, steps s (tr' ++ [LUpdate t 0 0]) s' /\ Forall quiet tr' /\ (t <= now s + ReloadThreshold)%Z.
Proof. apply owed_leads_to_update. Qed.

(** ** Requests that keep coming *)

Definition is_event (l : label) : bool := match l with LEvent _ => true | _ => false end.
Definition is_tick (l : label) : bool := match l with LTick _ => true | _ => false end.
Definition count (p : label -> bool) (tr : list label) : nat := length (filter (fun l => p l = true) tr).

Lemma count_app p tr tr' : count p (tr ++ tr') = count p tr + count p tr'.
Proof. unfold count. by rewrite filter_app, length_app. Qed.

Definition pressed (t : Z) : instance :=
  {| cache := {["reload" := t]}; reaping := None; handler := Some 0; busy := false |}.

Definition fresh (h : option nat) : instance := {| cache := ∅; reaping := None; handler := h; busy := false |}.

Lemma pressed_start t0 : steps (start_state t0) [LCreate; LStart 0; LEvent 0] (one t0 (pressed t0)).
Proof.
  apply (steps_snoc _ [LCreate; LStart 0] (one t0 (fresh (Some 0)))); [|by apply (step_event (one t0 (fresh (Some 0))) 0 (fresh (Some 0)))].
  apply (steps_snoc _ [LCreate] (one t0 (fresh None))); [|by apply (step_start (one t0 (fresh None)) 0 (fresh None))].
  apply step_steps, (step_create (start_state t0)).
Qed.

Lemma wait_one t x d t' : (0 <= d)%Z -> t' = (t + d)%Z -> step (one t x) (LWait d) (one t' x).
Proof. intros Hd ->. by apply (step_wait (one t x)). Qed.

Lemma pressed_tick t u : (t - u < ReloadThreshold)%Z -> step (one t (pressed u)) (LTick 0) (one t (pressed u)).
Proof.
  intros Hu. assert (tick_instance (one t (pressed u)) (pressed u) = pressed u) as Hn.
  { unfold tick_instance, ttlcache.Get, pressed. simpl. rewrite lookup_singleton_eq. unfold ttlcache.expired.
    rewrite bool_decide_eq_false_2; [done|simpl; lia]. }
  pose proof (step_tick (one t (pressed u)) 0 (pressed u) eq_refl eq_refl) as Hst.
  unfold on in Hst. simpl in Hst. by rewrite Hn in Hst.
Qed.

Lemma pressed_round t u :
  steps (one t (pressed u)) [LWait 1000; LEvent 0; LWait 1000; LTick 0] (one (t + 2000) (pressed (t + 1000))).
Proof.
  apply (steps_snoc _ [LWait 1000; LEvent 0; LWait 1000] (one (t + 2000) (pressed (t + 1000))));
    [|apply pressed_tick; unfold ReloadThreshold; lia].
  apply (steps_snoc _ [LWait 1000; LEvent 0] (one (t + 1000) (pressed (t + 1000)))); [|apply wait_one; lia].
  apply (steps_snoc _ [LWait 1000] (one (t + 1000) (pressed u)));
    [apply step_steps, wait_one; lia|by apply (step_event (one (t + 1000) (pressed u)) 0 (pressed u))].
Qed.

Lemma pressed_run n t0 :
  exists tr t, steps (start_state t0) tr (one (t0 + 2000 * Z.of_nat n) (pressed t)) /\
    creations tr = 1 /\ count is_event tr = S n /\ count is_tick tr = n /\ last_update tr = None /\ owed tr = true.
Proof.
  induction n as [|n (tr & t & Hs & Hc & He & Ht & Hl & Ho)].
  - exists [LCreate; LStart 0; LEvent 0], t0. split; [|done].
    replace (t0 + 2000 * Z.of_nat 0)%Z with t0 by lia. apply pressed_start.
  - eexists _, _. split; [eapply steps_trans; [exact Hs|]|].
    + replace (t0 + 2000 * Z.of_nat (S n))%Z with (t0 + 2000 * Z.of_nat n + 2000)%Z by lia. apply pressed_round.
    + rewrite !count_app, He, Ht. unfold creations, last_update, owed in *.
      rewrite filter_app, length_app, !fold_left_app, Hl, Ho, Hc.
      split_and!; [reflexivity| | |reflexivity..].
      * by rewrite Nat.add_comm.
      * by rewrite Nat.add_comm.
Qed.

(** A request every two seconds, a second before each tick, and the key never
    gets old: for any [n] there is a run of [2 n] seconds with [n] ticks, [n + 1]
    requests and no update. *)
Theorem requests_starve_updates n t0 :
  exists tr s, steps (start_state t0) tr s /\ creations tr = 1 /\ count is_event tr = S n /\ count is_tick tr = n /\
    now s = (t0 + 2000 * Z.of_nat n)%Z /\ last_update tr = None /\ owed tr = true.
Proof. destruct (pressed_run n t0) as (tr & t & Hs & Hc & He & Ht & Hl & Ho). eexists tr, _. by split_and!. Qed.

(** ** Two load balancers *)

(** Two load balancers, created one after the other: the handler of the first
    has started, on the first channel, before the second is created, and that
    of the second starts on the second channel. *)
Definition two_created : list label := [LCreate; LStart 0; LCreate; LStart 1].

Definition split_channels (s : state) : Prop :=
  exists x y, instances s = [x; y] /\ lbUpdateChan s = 1 /\ handler x = Some 0 /\ handler y = Some 1 /\
    (forall c, reaping x = Some c -> c = 1) /\ (forall c, reaping y = Some c -> c = 1) /\ busy x = false.

Lemma lookup_pair {A} (l : list A) x y i z : l = [x; y] -> l !! i = Some z -> (i = 0 /\ z = x) \/ (i = 1 /\ z = y).
Proof. intros -> H. destruct i as [|[|i]]; simpl in H; simplify_eq; auto. Qed.

Lemma tick_reaping s x c :
  lbUpdateChan s = 1 -> reaping x = None -> reaping (tick_instance s x) = Some c -> c = 1.
Proof.
  intros Hc Hr. destruct (tick_cases s x) as [->|(u & _ & _ & ->)]; simpl; congruence.
Qed.
Lemma tick_handler s x : handler (tick_instance s x) = handler x /\ busy (tick_instance s x) = busy x.
Proof. by destruct (tick_cases s x) as [->|(u & _ & _ & ->)]. Qed.

Lemma split_step s l s' :
  split_channels s -> step s l s' -> l <> LCreate ->
  split_channels s' /\ (forall t i, l <> LUpdate t i 0).
Proof.
  intros (x & y & Hi & Hch & Hx & Hy & Hrx & Hry & Hb) Hs Hne.
  destruct Hs as [s ms|s|s i z Hz Hn|s i z Hz|s i z Hz Hn|s i j c z w Hz Hw Hr Hh Hbw Hg|s i j c z w u Hz Hw Hr Hh Hbw Hg|s j w Hw Hbw];
    try done; unfold split_channels, on; simpl; rewrite ?Hi.
  - split; [|done]. by exists x, y.
  - destruct (lookup_pair _ _ _ _ _ Hi Hz) as [[-> ->]|[-> ->]]; congruence.
  - split; [|done]. destruct (lookup_pair _ _ _ _ _ Hi Hz) as [[-> ->]|[-> ->]]; simpl; by eexists _, _.
  - split; [|done]. destruct (lookup_pair _ _ _ _ _ Hi Hz) as [[-> ->]|[-> ->]]; simpl.
    + exists (tick_instance s x), y. destruct (tick_handler s x) as [-> ->]. split_and!; eauto using tick_reaping.
    + exists x, (tick_instance s y). destruct (tick_handler s y) as [-> _]. split_and!; eauto using tick_reaping.
  - assert (c = 1) as -> by (destruct (lookup_pair _ _ _ _ _ Hi Hz) as [[-> ->]|[-> ->]]; auto).
    destruct (lookup_pair _ _ _ _ _ Hi Hw) as [[-> ->]|[-> ->]]; [congruence|].
    split; [|intros t i' [= _ _]; done].
    destruct (lookup_pair _ _ _ _ _ Hi Hz) as [[-> ->]|[-> ->]]; simpl; eexists _, _; split_and!; try done.
  - split; [|done].
    destruct (lookup_pair _ _ _ _ _ Hi Hz) as [[-> ->]|[-> ->]]; simpl; eexists _, _; split_and!; try done.
  - split; [|done]. destruct (lookup_pair _ _ _ _ _ Hi Hw) as [[-> ->]|[-> ->]]; [congruence|].
    simpl. eexists _, _; split_and!; try done.
Qed.

(** C31: With two load balancers, if the handler of the first has started on its
    channel before the second is created, and that of the second starts then,
    the first handler never updates, whatever follows: both callbacks send on
    the channel of the second, since [lbUpdateChan] is one variable. *)
Theorem first_of_two_never_updates t0 tr s :
  steps (start_state t0) (two_created ++ tr) s -> LCreate ∉ tr -> forall t i, LUpdate t i 0 ∉ tr.
Proof.
  intros Hs Hc.
  assert (Hinv : split_channels s /\ forall t i, LUpdate t i 0 ∉ tr); [|tauto].
  revert s Hs Hc. induction tr as [|l tr IH] using rev_ind; intros s Hs Hc.
  - split; [|set_solver]. rewrite app_nil_r in Hs.
    apply (steps_snoc_inv _ [LCreate; LStart 0; LCreate]) in Hs as (s3 & Hs & H4).
    apply (steps_snoc_inv _ [LCreate; LStart 0]) in Hs as (s2 & Hs & H3).
    apply (steps_snoc_inv _ [LCreate]) in Hs as (s1 & Hs & H2).
    apply (steps_snoc_inv _ []) in Hs as (s0 & Hs & H1).
    inversion Hs; subst; [|by destruct tr].
    inversion H1; subst. inversion H2; subst. inversion H3; subst. inversion H4; subst.
    simpl in *. by eexists _, _.
  - rewrite app_assoc in Hs. apply steps_snoc_inv in Hs as (s' & Hs & Hl).
    destruct (IH s' Hs) as [Hsp Hno]; [set_solver|].
    destruct (split_step s' l s Hsp Hl) as [Hsp' Hl']; [set_solver|].
    split; [done|]. intros t i Hin. apply elem_of_app in Hin as [Hin|Hin]; [by eapply Hno|].
    apply list_elem_of_singleton in Hin. by eapply Hl'.
Qed.

(** ** Running the steps *)

(** The step of a label, when it is enabled. *)
Definition exec (s : state) (l : label) : option state :=
  match l with
  | LWait ms =>
      if decide (0 <= ms)%Z then
        Some {| now := now s + ms; lbUpdateChan := lbUpdateChan s; channels := channels s; instances := instances s |}
      else None
  | LCreate =>
      Some {| now := now s; lbUpdateChan := channels s; channels := S (channels s);
              instances := instances s ++ [{| cache := ∅; reaping := None; handler := None; busy := false |}] |}
  | LStart i =>
      x ← instances s !! i;
      if decide (handler x = None) then Some (on i (set_handler (lbUpdateChan s)) s) else None
  | LEvent i =>
      x ← instances s !! i;
      Some (on i (fun x => set_cache (ttlcache.Set_ "reload" (now s) (cache x)) x) s)
  | LTick i =>
      x ← instances s !! i;
      if decide (reaping x = None) then Some (on i (tick_instance s) s) else None
  | LUpdate t i j =>
      x ← instances s !! i; y ← instances s !! j; c ← reaping x;
      if decide (t = now s /\ handler y = Some c /\ busy y = false /\ ttlcache.Get "reload" (cache y) = None)
      then Some (on j (set_busy true) (on i (set_reaping None) s)) else None
  | LSkip i j =>
      x ← instances s !! i; y ← instances s !! j; c ← reaping x; u ← ttlcache.Get "reload" (cache y);
      if decide (handler y = Some c /\ busy y = false) then Some (on i (set_reaping None) s) else None
  | LFinish j =>
      y ← instances s !! j;
      if decide (busy y = true) then Some (on j (set_busy false) s) else None
  end.

Fixpoint run (s : state) (tr : list label) : option state :=
  match tr with
  | [] => Some s
  | l :: tr' => s' ← exec s l; run s' tr'
  end.

Lemma step_exec s l s' : step s l s' -> exec s l = Some s'.
Proof.
  destruct 1; simpl; simplify_option_eq; try done; try naive_solver.
Qed.

Lemma exec_step s l s' : exec s l = Some s' -> step s l s'.
Proof.
  destruct l; simpl; intros H; repeat (simplify_option_eq; try destruct_and?); subst; eauto using step.
Qed.

Lemma run_steps s tr s' : run s tr = Some s' -> steps s tr s'.
Proof.
  revert s. induction tr as [|l tr IH]; intros s; simpl; [intros [= <-]; constructor|].
  destruct (exec s l) as [s1|] eqn:Hl; [|done]. simpl. intros Hr.
  apply (steps_trans s [l] s1); [by apply step_steps, exec_step|by apply IH].
Qed.

(** ** Witnesses *)

Lemma no_lost_reload_witness :
  exists x, [pressed 0] = [x] /\ (is_Some (ttlcache.Get "reload" (cache x)) \/ is_Some (reaping x)).
Proof. exact (no_lost_reload 0 _ _ (pressed_start 0) eq_refl eq_refl). Defined.

Lemma reload_can_happen_witness :
  exists tr' s' t, steps (one 0 (pressed 0)) (tr' ++ [LUpdate t 0 0]) s' /\ Forall quiet tr' /\ (t <= 2000)%Z.
Proof. exact (reload_can_happen 0 _ _ (pressed_start 0) eq_refl eq_refl). Defined.

(** Two updates, the second after a request during the first. *)
Lemma updates_spaced_witness :
  exists t t', (t + ReloadThreshold <= t')%Z /\ t = 2000%Z /\ t' = 4500%Z.
Proof.
  exists 2000%Z, 4500%Z. split; [|split; reflexivity].
  refine (updates_spaced 0 [LCreate; LStart 0; LEvent 0; LWait 2000; LTick 0; LUpdate 2000 0 0; LFinish 0; LWait 500;
    LEvent 0; LWait 2000; LTick 0] 2000 4500 0 0 _ _ eq_refl eq_refl).
  apply run_steps. vm_compute. reflexivity.
Defined.

(** The request of the first load balancer makes the second update. *)
Lemma first_of_two_never_updates_witness :
  exists tr s, steps (start_state 0) (two_created ++ tr) s /\ LUpdate 2000 0 1 ∈ tr /\ forall t i, LUpdate t i 0 ∉ tr.
Proof.
  assert (Hs : exists s, steps (start_state 0) (two_created ++ [LEvent 0; LWait 2000; LTick 0; LUpdate 2000 0 1]) s).
  { eexists. apply run_steps. vm_compute. reflexivity. }
  destruct Hs as [s Hs]. eexists _, s. split; [exact Hs|]. split; [do 3 right; left|].
  apply (first_of_two_never_updates 0 _ s Hs). apply (bool_decide_unpack _). vm_compute. exact I.
Defined.
