(* ===== verification/Fair.v ===== *)
(** * What fair runs of the debounce do

    [Debounce] shows that a request can reach an update; here, that it does,
    in every infinite run whose goroutines are scheduled and whose requests
    pause. *)

From S2P Require Import Prelude Progress Debounce.

(** ** Infinite runs *)

(** The states of a run, and the step after each, if it is one of
    [Debounce]. *)
Record execution := {
  at_ : nat -> state;
  by_ : nat -> option label;
}.

Definition valid (r : execution) : Prop := forall n,
  match by_ r n with Some l => step (at_ r n) l (at_ r (S n)) | None => at_ r (S n) = at_ r n end.

(** The goroutines of one load balancer, by their next step. *)
Inductive goroutine := GStart | GTicker | GCallback | GUpdate.

Definition takes (g : goroutine) (l : label) : Prop :=
  match g, l with
  | GStart, LStart 0 | GTicker, LTick 0 | GCallback, (LUpdate _ 0 0 | LSkip 0 0) | GUpdate, LFinish 0 => True
  | _, _ => False
  end.
Definition enabled (g : goroutine) (s : state) : Prop := exists l s', takes g l /\ step s l s'.

(** Time goes on, and a goroutine that stays enabled takes its step. *)
Record fair (r : execution) : Prop := {
  fair_time : forall t, exists n, (t <= now (at_ r n))%Z;
  fair_goroutine : forall g n, exists m, n <= m /\
    (~ enabled g (at_ r m) \/ exists l, by_ r m = Some l /\ takes g l);
}.

(** Neither a request nor another load balancer. *)
Definition calm (l : label) : Prop := match l with LEvent _ | LCreate => False | _ => True end.
Definition calm_from (r : execution) (n : nat) : Prop := forall m l, n <= m -> by_ r m = Some l -> calm l.

(** ** The steps of one load balancer *)

Inductive moves (t : Z) (x : instance) : label -> Z -> instance -> Prop :=
| moves_wait ms : (0 <= ms)%Z -> moves t x (LWait ms) (t + ms) x
| moves_start : handler x = None -> moves t x (LStart 0) t (set_handler 0 x)
| moves_tick : reaping x = None -> moves t x (LTick 0) t (tick_instance (one t x) x)
| moves_skip c u : reaping x = Some c -> ttlcache.Get "reload" (cache x) = Some u ->
    moves t x (LSkip 0 0) t (set_reaping None x)
| moves_finish : busy x = true -> moves t x (LFinish 0) t (set_busy false x).

Lemma one_steps t x l s' :
  step (one t x) l s' -> calm l -> (exists t0, l = LUpdate t0 0 0) \/ exists t' x', s' = one t' x' /\ moves t x l t' x'.
Proof.
  intros Hs Hl. inversion Hs; subst; try done;
    repeat match goal with Hy : instances (one t x) !! _ = Some _ |- _ =>
      destruct (lookup_single _ x _ _ eq_refl Hy) as [-> ->]; clear Hy end.
  - right. eexists _, _. split; [reflexivity|by constructor].
  - right. eexists _, _. split; [reflexivity|by constructor].
  - right. eexists _, _. split; [reflexivity|by constructor].
  - left. by eexists.
  - right. eexists _, _. split; [reflexivity|by econstructor].
  - right. eexists _, _. split; [reflexivity|by constructor].
Qed.

(** The load balancer owes an update, and uses the one channel. *)
Record owing (t : Z) (x : instance) : Prop := {
  owing_handler : forall c, handler x = Some c -> c = 0;
  owing_reaping : forall c, reaping x = Some c -> c = 0;
  owing_request : is_Some (ttlcache.Get "reload" (cache x)) \/ is_Some (reaping x);
}.

Section Fair.
Context (r : execution) (Hv : valid r) (Hf : fair r) (n0 : nat) (Hcalm : calm_from r n0).

(** The state at [n]. *)
Definition is_at (n : nat) (P : Z -> instance -> Prop) : Prop := exists t x, at_ r n = one t x /\ owing t x /\ P t x.
Definition update_after (n : nat) : Prop := exists m t, n <= m /\ by_ r m = Some (LUpdate t 0 0).

(** What the steps of the load balancer keep, until it updates. *)
Lemma next_at n (P : Z -> instance -> Prop) :
  n0 <= n -> is_at n P ->
  update_after n \/ exists t x t' x', at_ r n = one t x /\ owing t x /\ P t x /\ at_ r (S n) = one t' x' /\
    ((t' = t /\ x' = x /\ by_ r n = None) \/ exists l, by_ r n = Some l /\ moves t x l t' x').
Proof.
  intros Hn (t & x & Ha & Ho & HP). specialize (Hv n). destruct (by_ r n) as [l|] eqn:Hb.
  - rewrite Ha in Hv. destruct (one_steps t x l _ Hv (Hcalm n l Hn Hb)) as [[t0 ->]|(t' & x' & Hs & Hm)].
    + left. exists n, t0. split; [lia|done].
    + right. exists t, x, t', x'. split_and!; try done. right. eauto.
  - right. exists t, x, t, x. split_and!; try done; [congruence|]. by left.
Qed.

Lemma moves_owing t x l t' x' : moves t x l t' x' -> owing t x -> owing t' x'.
Proof.
  intros Hm [H1 H2 H3]. destruct Hm; split; simpl; try done.
  - by intros c [= <-].
  - intros c Hc. destruct (tick_handler (one t x) x) as [Hh _]. apply H1. congruence.
  - intros c. destruct (tick_cases (one t x) x) as [->|(u & _ & _ & ->)]; [apply H2|by intros [= <-]].
  - destruct (tick_cases (one t x) x) as [->|(u & _ & _ & ->)]; [done|right; by eexists].
  - left. by eexists.
Qed.

(** What the moves keep until the next property holds, the steps keep until
    it does or an update starts. *)
Lemma keeps n (P Q : Z -> instance -> Prop) :
  n0 <= n -> (forall t x l t' x', owing t x -> P t x -> moves t x l t' x' -> P t' x' \/ Q t' x') ->
  forall k, n <= k -> is_at k P -> is_at (S k) P \/ (update_after n \/ is_at (S k) Q).
Proof.
  intros Hn Hk k Hnk HP. destruct (next_at k P ltac:(lia) HP) as [(m & t & Hm & Hu)|(t & x & t' & x' & Ha & Ho & HPx & Ha' & Hs)].
  { right. left. exists m, t. split; [lia|done]. }
  destruct Hs as [(-> & -> & _)|(l & _ & Hl)]; [left; by exists t, x|].
  pose proof (moves_owing _ _ _ _ _ Hl Ho). destruct (Hk t x l t' x' Ho HPx Hl) as [HP'|HQ].
  - left. by exists t', x'.
  - right. right. by exists t', x'.
Qed.

(** The rule of a fair goroutine: a property under which it is enabled, and
    that its step takes to the next one. *)
Lemma scheduled (g : goroutine) n (P Q : Z -> instance -> Prop) :
  n0 <= n -> is_at n P ->
  (forall t x, owing t x -> P t x -> enabled g (one t x)) ->
  (forall t x l t' x', owing t x -> P t x -> moves t x l t' x' -> (takes g l -> Q t' x') /\ (P t' x' \/ Q t' x')) ->
  update_after n \/ exists m, n <= m /\ is_at m Q.
Proof.
  intros Hn HP He Hk.
  enough (exists m, n <= m /\ (update_after n \/ is_at m Q)) as (m & Hm & [?|?]); [by left|by eauto|].
  apply (ensures (fun k => is_at k P) (fun k => update_after n \/ is_at k Q) n) with
    (enabled := fun k => enabled g (at_ r k)) (taken := fun k => exists l, by_ r k = Some l /\ takes g l); [|done|..].
  - apply keeps; [done|]. intros t x l t' x' Ho HPx Hl. apply (Hk t x l t' x' Ho HPx Hl).
  - intros k _ (t & x & Ha & Ho & HPx). rewrite Ha. by apply He.
  - intros k Hnk HPk (l & Hb & Htk).
    destruct (next_at k P ltac:(lia) HPk) as [(m & t & Hm & Hu)|(t & x & t' & x' & Ha & Ho & HPx & Ha' & Hs)].
    { left. exists m, t. split; [lia|done]. }
    destruct Hs as [(_ & _ & Hnone)|(l' & Hb' & Hl)]; [congruence|]. assert (l' = l) as -> by congruence.
    pose proof (moves_owing _ _ _ _ _ Hl Ho). right. exists t', x'. split; [done|]. split; [done|].
    by apply (proj1 (Hk t x l t' x' Ho HPx Hl)).
  - apply (fair_goroutine r Hf g n).
Qed.

Lemma step_now s l s' : step s l s' -> (now s <= now s')%Z.
Proof. destruct 1; simpl; lia. Qed.
Lemma now_mono n m : n <= m -> (now (at_ r n) <= now (at_ r m))%Z.
Proof.
  induction 1 as [|m Hm IH]; [lia|]. specialize (Hv m).
  destruct (by_ r m); [apply step_now in Hv; lia|rewrite Hv; lia].
Qed.

(** The rule of time: what is kept until the next property holds sees any
    time, or the next property. *)
Lemma passes T n (P Q : Z -> instance -> Prop) :
  n0 <= n -> is_at n P ->
  (forall t x l t' x', owing t x -> P t x -> moves t x l t' x' -> P t' x' \/ Q t' x') ->
  update_after n \/ exists m, n <= m /\ (is_at m Q \/ is_at m (fun t x => P t x /\ (T <= t)%Z)).
Proof.
  intros Hn HP Hk. destruct (fair_time r Hf T) as [m0 Hm0]. set (m := Nat.max n m0).
  assert (HT : (T <= now (at_ r m))%Z) by (pose proof (now_mono m0 m ltac:(lia)); lia).
  destruct (kept (fun k => is_at k P) (fun k => update_after n \/ is_at k Q) n (keeps n P Q Hn Hk) m) as
    [(m' & Hm' & [?|HQ])|(t & x & Ha & Ho & HPx)]; [lia|done|by left|right; eauto|].
  right. exists m. split; [lia|]. right. exists t, x. rewrite Ha in HT. auto.
Qed.

(** ** From a request to the update *)

Definition ready (x : instance) : Prop := handler x = Some 0 /\ busy x = false.
Definition key (u : Z) (x : instance) : Prop := ttlcache.Get "reload" (cache x) = Some u.

Lemma owing_ready n : n0 <= n -> is_at n (fun _ _ => True) ->
  update_after n \/ exists m, n <= m /\ is_at m (fun _ => ready).
Proof.
  intros Hn Hp.
  assert (Hstart : update_after n \/ exists m, n <= m /\ is_at m (fun _ x => handler x = Some 0)).
  { destruct Hp as (t & x & Ha & Ho & _). destruct (handler x) as [c|] eqn:Hh.
    - right. exists n. split; [done|]. exists t, x. split_and!; try done. rewrite Hh. f_equal. by eapply owing_handler.
    - apply (scheduled GStart n (fun _ x => handler x = None)); [done|by exists t, x|..].
      + intros t' x' _ Hx'. eexists (LStart 0), _. split; [done|]. by apply (step_start (one t' x') 0 x').
      + intros t1 x1 l t2 x2 _ Hx1 []; simpl; auto; try (split; [done|by left]).
        destruct (tick_handler (one t1 x1) x1) as [-> _]. split; [done|by left]. }
  destruct Hstart as [?|(m & Hm & t & x & Ha & Ho & Hh)]; [by left|].
  destruct (busy x) eqn:Hb; [|right; exists m; split; [done|]; by exists t, x].
  destruct (scheduled GUpdate m (fun _ x => handler x = Some 0 /\ busy x = true) (fun _ => ready)) as [(k & u & Hk & Hu)|(k & Hk & HQ)].
  - lia.
  - by exists t, x.
  - intros t' x' _ [_ Hx']. eexists (LFinish 0), _. split; [done|]. by apply (step_finish (one t' x') 0 x').
  - intros t1 x1 l t2 x2 _ [Hh1 Hb1] []; unfold ready; simpl; auto; try (split; [done|by left]).
    destruct (tick_handler (one t1 x1) x1) as [-> ->]. split; [done|by left].
  - left. exists k, u. split; [lia|done].
  - right. exists k. split; [lia|done].
Qed.

(** The callback waits, and the key is gone. *)
Definition calling (x : instance) : Prop := ready x /\ reaping x = Some 0 /\ ttlcache.Get "reload" (cache x) = None.
Definition waiting (u : Z) (x : instance) : Prop := ready x /\ reaping x = None /\ key u x.

Lemma callback_enabled t x : ready x -> reaping x = Some 0 -> enabled GCallback (one t x).
Proof.
  intros [Hh Hb] Hr. destruct (ttlcache.Get "reload" (cache x)) as [u|] eqn:Hg.
  - eexists (LSkip 0 0), _. split; [done|]. by apply (step_skip (one t x) 0 0 0 x x u).
  - eexists (LUpdate t 0 0), _. split; [done|]. by apply (step_update (one t x) 0 0 0 x x).
Qed.

Lemma waiting_moves t x l t' x' u :
  waiting u x -> moves t x l t' x' -> waiting u x' \/ calling x'.
Proof.
  intros ((Hh & Hb) & Hr & Hk) []; try congruence; [by left|].
  destruct (tick_cases (one t x) x) as [->|(u' & _ & _ & ->)]; [by left|right].
  split; [done|]. split; [done|]. unfold ttlcache.Get. simpl. by rewrite lookup_delete_eq.
Qed.

(** The ticker finds the key old enough. *)
Lemma waiting_calls u n : n0 <= n -> is_at n (fun _ => waiting u) ->
  update_after n \/ exists m, n <= m /\ is_at m (fun _ => calling).
Proof.
  intros Hn Hp.
  destruct (passes (u + ReloadThreshold) n (fun _ => waiting u) (fun _ => calling)) as [?|(m & Hm & [HQ|HP])];
    [done|done| |by left|right; eauto|].
  { intros t x l t' x' _ Hw. by apply waiting_moves. }
  destruct (scheduled GTicker m (fun t x => waiting u x /\ (u + ReloadThreshold <= t)%Z) (fun _ => calling))
    as [(k & t & Hk & Hu)|(k & Hk & HQ)]; [lia|done| | | |].
  - intros t x _ [(_ & Hr & _) _]. eexists (LTick 0), _. split; [done|]. by apply (step_tick (one t x) 0 x).
  - intros t x l t' x' _ [Hw Ht] Hmv. split.
    + intros Htk. destruct Hw as ((Hh & Hb) & Hr & Hkey). inversion Hmv; subst; try done.
      unfold tick_instance. unfold key in Hkey. rewrite Hkey. unfold ttlcache.expired.
      rewrite bool_decide_eq_true_2 by (simpl; lia). split; [done|]. split; [done|].
      unfold ttlcache.Get. simpl. by rewrite lookup_delete_eq.
    + destruct (waiting_moves t x l t' x' u Hw Hmv) as [Hw'|Hc]; [|by right].
      left. split; [done|]. inversion Hmv; subst; lia.
  - left. exists k, t. split; [lia|done].
  - right. exists k. split; [lia|done].
Qed.

(** The callback is received by the handler, which updates. *)
Lemma calling_updates n : n0 <= n -> is_at n (fun _ => calling) -> update_after n.
Proof.
  intros Hn Hp. destruct (scheduled GCallback n (fun _ => calling) (fun _ _ => False)) as [?|(m & _ & t & x & _ & _ & [])];
    [done|done| | |done].
  - intros t x _ (Hr & Hc & _). by apply callback_enabled.
  - intros t x l t' x' _ ((Hh & Hb) & Hr & Hk) []; try congruence. split; [done|]. by left.
Qed.

Lemma owing_updates n : n0 <= n -> is_at n (fun _ _ => True) -> update_after n.
Proof.
  intros Hn Hp.
  assert (Hlater : forall m, n <= m -> update_after m -> update_after n).
  { intros m Hm (k & t & Hk & Hu). exists k, t. split; [lia|done]. }
  assert (Hwait : forall m u, n <= m -> is_at m (fun _ => waiting u) -> update_after n).
  { intros m u Hm Hw. apply (Hlater m Hm).
    destruct (waiting_calls u m ltac:(lia) Hw) as [?|(k & Hk & Hc)]; [done|].
    destruct (calling_updates k ltac:(lia) Hc) as (k' & t & Hk' & Hu). exists k', t. split; [lia|done]. }
  destruct (owing_ready n Hn Hp) as [?|(m & Hm & t & x & Ha & Ho & Hr)]; [done|].
  destruct (reaping x) as [c|] eqn:Hc.
  - assert (c = 0) as -> by (by eapply owing_reaping).
    destruct (scheduled GCallback m (fun _ x => ready x /\ reaping x = Some 0) (fun _ x => exists u, waiting u x))
      as [?|(k & Hk & t' & x' & Ha' & Ho' & u & Hw)]; [lia|by exists t, x| | |by apply (Hlater m)|].
    + intros t' x' _ [Hr' Hc']. by apply callback_enabled.
    + intros t1 x1 l t2 x2 _ ((Hh & Hb) & Hr') []; try congruence; [split; [done|by left]|].
      assert (exists u, waiting u (set_reaping None x1)) by (by exists u). auto.
    + apply (Hwait k u); [lia|]. by exists t', x'.
  - destruct (owing_request t x Ho) as [[u Hu]|[c Hr']]; [|congruence].
    apply (Hwait m u Hm). by exists t, x.
Qed.
End Fair.

(** A request that has had no update gets one: in every fair run of one load
    balancer in which no request comes from some point on. *)
Lemma fair_owed_updates r t0 tr n :
  valid r -> fair r -> calm_from r n -> steps (start_state t0) tr (at_ r n) -> creations tr = 1 -> owed tr = true ->
  exists m t, n <= m /\ by_ r m = Some (LUpdate t 0 0).
Proof.
  intros Hv Hf Hc Hs Hcr Ho. apply steps_single in Hs as [_ H1].
  destruct (H1 Hcr) as [x [Hi Hx _ _ (Hc1 & Hc2 & Hh & Hr)]].
  apply (owing_updates r Hv Hf n Hc n); [done|]. exists (now (at_ r n)), x. split_and!; [|split; auto|done].
  destruct (at_ r n). simpl in *. by subst.
Qed.
