(* ===== verification/Swarm.v ===== *)
(** * The nodes of a Swarm cluster

    [server/utils.go] and [server/swarm.go]: the list of nodes is read from
    the driver status of the daemon, lines of a label and a value. *)

From S2P Require Import Prelude GoStd.

Record Node := {
  ID : string;
  Name : string;
  Addr : string;
  Containers : string;
  ReservedCPUs : string;
  ReservedMemory : string;
  Labels : list string;
}.

(** The variables of [parseSwarmNodes]. *)
Record scan := {
  nodes : list Node;
  name : string;
  addr : string;
  containers : string;
  reservedCPUs : string;
  reservedMemory : string;
  labels : list string;
}.
Definition scan_start : scan :=
  {| nodes := []; name := ""; addr := ""; containers := ""; reservedCPUs := ""; reservedMemory := ""; labels := [] |}.

(** The byte 8, which marks the lines on the whole cluster. *)
Definition backspace : string := String "008" EmptyString.

Definition set_node (n a : string) (s : scan) : scan :=
  {| nodes := nodes s; name := n; addr := a; containers := containers s; reservedCPUs := reservedCPUs s;
     reservedMemory := reservedMemory s; labels := labels s |}.

(** One line of the status. *)
Definition parse_line (s : scan) (l : string * string) : scan :=
  let '(label, data) := l in
  if decide (Strings.Index label backspace > -1)%Z then s
  else
    let s := if decide (Strings.Index label " └" = -1)%Z then set_node label data s else s in
    (* node info like "Containers" *)
    if decide (label = " └ Containers") then
      {| nodes := nodes s; name := name s; addr := addr s; containers := data; reservedCPUs := reservedCPUs s;
         reservedMemory := reservedMemory s; labels := labels s |}
    else if decide (label = " └ Reserved CPUs") then
      {| nodes := nodes s; name := name s; addr := addr s; containers := containers s; reservedCPUs := data;
         reservedMemory := reservedMemory s; labels := labels s |}
    else if decide (label = " └ Reserved Memory") then
      {| nodes := nodes s; name := name s; addr := addr s; containers := containers s; reservedCPUs := reservedCPUs s;
         reservedMemory := data; labels := labels s |}
    else if decide (label = " └ Labels") then
      {| nodes := nodes s ++
           [{| ID := ""; Name := name s; Addr := addr s; Containers := containers s; ReservedCPUs := reservedCPUs s;
               ReservedMemory := reservedMemory s; Labels := Strings.Split data ","%char |}];
         (* reset info *)
         name := ""; addr := ""; containers := ""; reservedCPUs := ""; reservedMemory := ""; labels := [] |}
    else s.

Definition parseSwarmNodes (driverStatus : list (string * string)) : res (list Node) :=
  Ok (nodes (fold_left parse_line driverStatus scan_start)).

(** The client and the call to the daemon. *)
Definition getSwarmNodes (client : res (res (list (string * string)))) : res (list Node) :=
  match client with
  | Err err => Err err
  | Ok (Err err) => Err err
  | Ok (Ok driverStatus) => parseSwarmNodes driverStatus
  end.

(** ** The text of a status *)

(** Lines that say nothing of a node: on the cluster, or a detail of a node
    that is not read. *)
Definition idle_line (l : string * string) : Prop :=
  (exists a b, l.1 = a +:+ backspace +:+ b) \/
  ((exists a b, l.1 = a +:+ " └" +:+ b) /\
   l.1 ∉ [" └ Containers"; " └ Reserved CPUs"; " └ Reserved Memory"; " └ Labels"]).

(** What a node is called: not like a detail or a line on the cluster. *)
Definition node_name (n : string) : Prop :=
  ~ (exists a b, n = a +:+ " └" +:+ b) /\ ~ (exists a b, n = a +:+ backspace +:+ b).

Definition node_ok (n : Node) : Prop :=
  ID n = "" /\ node_name (Name n) /\ Labels n <> [] /\ Forall (NetFacts.lacks ","%char) (Labels n).

(** The lines of a node, with the idle lines [i1], [i2] of its description. *)
Definition node_lines (d : Node * (list (string * string) * list (string * string))) : list (string * string) :=
  let '(n, (i1, i2)) := d in
  [(Name n, Addr n)] ++ i1 ++
  [(" └ Containers", Containers n); (" └ Reserved CPUs", ReservedCPUs n); (" └ Reserved Memory", ReservedMemory n)] ++
  i2 ++ [(" └ Labels", Strings.Join (Labels n) ",")].

(** ** Lemmas *)

Lemma Split_lacks c s : NetFacts.lacks c s -> Strings.Split s c = [s].
Proof.
  induction s as [|c' s IH]; [done|]. intros [Hc Hs]. simpl. rewrite decide_False by done. by rewrite (IH Hs).
Qed.

Lemma Split_app c s t : NetFacts.lacks c s -> Strings.Split (s +:+ String c t) c = s :: Strings.Split t c.
Proof.
  induction s as [|c' s IH]; intros Hs; [rewrite sapp_nil_l; simpl; by rewrite decide_True|].
  destruct Hs as [Hc Hs]. rewrite sapp_cons. simpl. rewrite decide_False by done. by rewrite (IH Hs).
Qed.

Lemma Split_Join c l :
  l <> [] -> Forall (NetFacts.lacks c) l -> Strings.Split (Strings.Join l (String c EmptyString)) c = l.
Proof.
  intros Hne Hl. induction Hl as [|w l Hw Hl IH]; [done|].
  destruct l as [|w' l]; [by apply Split_lacks|].
  change (Strings.Join (w :: w' :: l) (String c "")) with (w +:+ String c "" +:+ Strings.Join (w' :: l) (String c "")).
  rewrite sapp_cons, sapp_nil_l, Split_app by done. by rewrite IH.
Qed.

Lemma Index_none s sub : ~ (exists a b, s = a +:+ sub +:+ b) -> Strings.Index s sub = (-1)%Z.
Proof.
  intros Hn. rewrite <- StringsFacts.Index_contains in Hn. unfold Strings.Index in *. destruct (String.index _ _ _); lia.
Qed.

Lemma parse_idle s l : idle_line l -> parse_line s l = s.
Proof.
  destruct l as [label data]. intros Hl. unfold parse_line.
  destruct (decide (Strings.Index label backspace > -1)%Z) as [|Hb]; [done|].
  destruct Hl as [Hl|[Hl Hno]]; [by apply StringsFacts.Index_contains in Hl|].
  apply StringsFacts.Index_contains in Hl. simpl in Hl.
  rewrite (decide_False (P := (Strings.Index label _ = -1)%Z)) by lia.
  rewrite !not_elem_of_cons in Hno. destruct Hno as (? & ? & ? & ? & _).
  by rewrite !decide_False.
Qed.

Lemma parse_idles s ls : Forall idle_line ls -> fold_left parse_line ls s = s.
Proof. intros Hls. revert s. induction Hls as [|l ls Hl _ IH]; intros s; simpl; [done|]. by rewrite parse_idle. Qed.

Lemma parse_name s n a : node_name n -> n ∉ [" └ Containers"; " └ Reserved CPUs"; " └ Reserved Memory"; " └ Labels"] ->
  parse_line s (n, a) = set_node n a s.
Proof.
  intros [Hd Hb] Hno. unfold parse_line. rewrite (Index_none n backspace) by done.
  rewrite (Index_none n " └") by done. rewrite (decide_False (P := (-1 > -1)%Z)), (decide_True (P := (-1 = -1)%Z)) by lia.
  rewrite !not_elem_of_cons in Hno. destruct Hno as (? & ? & ? & ? & _). by rewrite !decide_False.
Qed.

Lemma node_name_no_detail n : node_name n -> n ∉ [" └ Containers"; " └ Reserved CPUs"; " └ Reserved Memory"; " └ Labels"].
Proof.
  intros [Hd _]. rewrite !not_elem_of_cons. repeat split; try (intros ->; apply Hd; by eexists "", _).
  apply not_elem_of_nil.
Qed.

Lemma parse_node ns n i1 i2 :
  node_ok n -> Forall idle_line i1 -> Forall idle_line i2 ->
  fold_left parse_line (node_lines (n, (i1, i2)))
    {| nodes := ns; name := ""; addr := ""; containers := ""; reservedCPUs := ""; reservedMemory := ""; labels := [] |} =
  {| nodes := ns ++ [n]; name := ""; addr := ""; containers := ""; reservedCPUs := ""; reservedMemory := ""; labels := [] |}.
Proof.
  intros (Hid & Hn & Hne & Hl) H1 H2. unfold node_lines.
  rewrite !fold_left_app. cbn [fold_left]. rewrite (parse_name _ (Name n) (Addr n)) by (done || by apply node_name_no_detail).
  rewrite (parse_idles _ i1) by done.
  set (s1 := set_node _ _ _).
  assert (forall c m k, fold_left parse_line [(" └ Containers", c); (" └ Reserved CPUs", m); (" └ Reserved Memory", k)] s1 =
    {| nodes := ns; name := Name n; addr := Addr n; containers := c; reservedCPUs := m; reservedMemory := k; labels := [] |})
    as Hmid by reflexivity.
  cbn [fold_left] in Hmid. rewrite Hmid, parse_idles by done.
  unfold parse_line. cbn -[Strings.Split Strings.Join]. rewrite Split_Join by done.
  destruct n; simpl in *. by subst.
Qed.

(** ** Theorems *)

(** C29: The parser reads back the nodes a status describes, whatever lines on
    the cluster or other details it has. *)
Theorem parse_swarm_roundtrip header ds :
  Forall idle_line header ->
  Forall (fun d => node_ok d.1 /\ Forall idle_line d.2.1 /\ Forall idle_line d.2.2) ds ->
  parseSwarmNodes (header ++ flat_map node_lines ds) = Ok (map fst ds).
Proof.
  intros Hh Hds. unfold parseSwarmNodes. rewrite fold_left_app, (parse_idles _ header) by done. f_equal.
  assert (Hgo : forall ns, fold_left parse_line (flat_map node_lines ds)
    {| nodes := ns; name := ""; addr := ""; containers := ""; reservedCPUs := ""; reservedMemory := ""; labels := [] |} =
    {| nodes := ns ++ map fst ds; name := ""; addr := ""; containers := ""; reservedCPUs := ""; reservedMemory := ""; labels := [] |}).
  { induction Hds as [|[n [i1 i2]] ds (Hn & H1 & H2) _ IH]; intros ns; [simpl; by rewrite app_nil_r|].
    change (flat_map node_lines ((n, (i1, i2)) :: ds)) with (node_lines (n, (i1, i2)) ++ flat_map node_lines ds).
    simpl in Hn, H1, H2. rewrite fold_left_app, parse_node, IH by done. simpl. by rewrite <- app_assoc. }
  unfold scan_start. by rewrite Hgo.
Qed.

(** ** Witnesses *)

Lemma parse_swarm_roundtrip_witness :
  parseSwarmNodes
    [(backspace +:+ "Strategy", "spread"); ("node-1", "10.0.0.1:2375"); (" └ Status", "Healthy");
     (" └ Containers", "2"); (" └ Reserved CPUs", "0 / 2"); (" └ Reserved Memory", "0 B / 2 GiB");
     (" └ Labels", "a=b,c=d")] =
  Ok [{| ID := ""; Name := "node-1"; Addr := "10.0.0.1:2375"; Containers := "2"; ReservedCPUs := "0 / 2";
         ReservedMemory := "0 B / 2 GiB"; Labels := ["a=b"; "c=d"] |}].
Proof.
  apply (parse_swarm_roundtrip [(backspace +:+ "Strategy", "spread")]
    [({| ID := ""; Name := "node-1"; Addr := "10.0.0.1:2375"; Containers := "2"; ReservedCPUs := "0 / 2";
         ReservedMemory := "0 B / 2 GiB"; Labels := ["a=b"; "c=d"] |}, ([(" └ Status", "Healthy")], []))]).
  - apply Forall_singleton. left. by exists "", "Strategy".
  - apply Forall_singleton. split; [|split; [|constructor]].
    + split; [reflexivity|]. split; [|split; [discriminate|]].
      * split; intros H; apply StringsFacts.Index_contains in H; vm_compute in H; discriminate H.
      * repeat constructor; discriminate.
    + apply Forall_singleton. right. split; [by exists "", " Status"|]. apply (bool_decide_unpack _). vm_compute. exact I.
Defined.
