(* ===== verification/Beacon.v ===== *)
(** * The beacon extension

    [ext/beacon]: the containers it monitors, the rules that select them, and
    the statistics it sends to Prometheus or InfluxDB.  The validation of a
    point by the InfluxDB client is a parameter, and so are the expressions
    [GoRegexp] does not read and the decoding of a line, which [Decode]
    defines. *)

From S2P Require Import Prelude GoStd GoTime GoJson GoRegexp Docker Config NodeID.

(** ** Prometheus gauges *)

Record GaugeVec := { gv_name : string; gv_labels : list string }.

Definition docker_gauge (name : string) (labels : list string) : GaugeVec :=
  {| gv_name := "beacon_docker_" +:+ name; gv_labels := labels |}.

Definition counterTotalContainers := docker_gauge "total_containers" ["type"].
Definition counterTotalImages := docker_gauge "total_images" ["type"].
Definition counterTotalVolumes := docker_gauge "total_volumes" ["type"].
Definition counterTotalNetworks := docker_gauge "total_networks" ["type"].
Definition counterCpuTotalUsage :=
  docker_gauge "cpu_total_time_nanoseconds" ["container"; "image"; "name"; "type"].
Definition counterMemoryUsage := docker_gauge "memory_usage_bytes" ["container"; "image"; "name"; "type"].
Definition counterMemoryMaxUsage := docker_gauge "memory_max_usage_bytes" ["container"; "image"; "name"; "type"].
Definition counterMemoryPercent := docker_gauge "memory_usage_percent" ["container"; "image"; "name"; "type"].
Definition counterNetworkRxBytes :=
  docker_gauge "network_rx_bytes" ["container"; "image"; "name"; "network"; "type"].
Definition counterNetworkRxPackets :=
  docker_gauge "network_rx_packets_total" ["container"; "image"; "name"; "network"; "type"].
Definition counterNetworkRxErrors :=
  docker_gauge "network_rx_errors_total" ["container"; "image"; "name"; "network"; "type"].
Definition counterNetworkRxDropped :=
  docker_gauge "network_rx_dropped_total" ["container"; "image"; "name"; "network"; "type"].
Definition counterNetworkTxBytes :=
  docker_gauge "network_tx_bytes" ["container"; "image"; "name"; "network"; "type"].
Definition counterNetworkTxPackets :=
  docker_gauge "network_tx_packets_total" ["container"; "image"; "name"; "network"; "type"].
Definition counterNetworkTxErrors :=
  docker_gauge "network_tx_errors_total" ["container"; "image"; "name"; "network"; "type"].
Definition counterNetworkTxDropped :=
  docker_gauge "network_tx_dropped_total" ["container"; "image"; "name"; "network"; "type"].

Definition allCounters : list GaugeVec :=
  [counterTotalContainers; counterTotalImages; counterTotalVolumes; counterTotalNetworks;
   counterCpuTotalUsage; counterMemoryUsage; counterMemoryMaxUsage; counterMemoryPercent;
   counterNetworkRxBytes; counterNetworkRxPackets; counterNetworkRxErrors; counterNetworkRxDropped;
   counterNetworkTxBytes; counterNetworkTxPackets; counterNetworkTxErrors; counterNetworkTxDropped].

(** [g.With(labels).Set(v)]: [With] panics unless the labels are those of
    the vector. *)
Definition WithSet (g : GaugeVec) (labels : gmap string string) (v : Float64.t) : M unit :=
  if decide (dom labels = list_to_set (gv_labels g)) then GaugeSet (gv_name g) labels v
  else pure (Panic "inconsistent label cardinality").

(** ** Data *)

Record Stat := {
  ID : string;
  Stat_Name : string;
  Image : string;
  NumContainers : Z;
  NumImages : Z;
  NumVolumes : Z;
  NumNetworks : Z;
  CPUTotalUsage : Z;
  MemUsagePercent : Float64.t;
  Stat_Networks : gmap string types.NetworkStats;
  Stats : types.StatsJSON;
}.

Record Beacon := {
  cfg : ExtensionConfig;
  monitored : gmap string Z;
}.

Definition set_monitored (m : gmap string Z) (b : Beacon) : Beacon := {| cfg := cfg b; monitored := m |}.

Section Beacon.
Context `{MapRange} `{World}.

(** ** rules.go *)

(** The expressions [GoRegexp] does not read: as predicates, when they are valid. *)
Context (elsewhere : string -> option (string -> bool)).

Definition isLabelMatch (rule : string) (config : ctypes.Config) : bool := false.
Definition isNameMatch (rule : string) (config : ctypes.Config) : bool := false.
Definition isImageMatch (rule : string) (config : ctypes.Config) : outcome bool :=
  match Regexp.Compile elsewhere rule with
  | Some r => mret (r (ctypes.Image config))
  | None => Panic ("regexp: Compile(" +:+ rule +:+ ")")
  end.

(** The loop of [ruleMatch]: its [break]s leave the [switch], not the loop. *)
Fixpoint match_rules (rules : list (string * Rule)) (config : ctypes.Config) (isMatch : bool) : outcome bool :=
  match rules with
  | [] => mret isMatch
  | (_, rule) :: rules' =>
      m ←
        (if decide (Rule_Type rule = "label") then mret (isLabelMatch (Rule_Regex rule) config)
         else if decide (Rule_Type rule = "name") then mret (isNameMatch (Rule_Regex rule) config)
         else if decide (Rule_Type rule = "image") then isImageMatch (Rule_Regex rule) config
         else mret false);
      match_rules rules' config (if m : bool then m else isMatch)
  end.
Definition ruleMatch (n : nat) (b : Beacon) (config : ctypes.Config) : outcome bool :=
  match_rules (range "ruleMatch" n (Rules (cfg b))) config false.

(** ** stats.go *)

(** The eight gauges of a network. *)
Definition send_network (stat : Stat) (netName : string) (net : types.NetworkStats) : M unit :=
  let labels : gmap string string :=
    {["container" := ID stat; "image" := Image stat; "name" := Stat_Name stat; "network" := netName; "type" := "network"]} in
  _ ← WithSet counterNetworkRxBytes labels (Float64.of_Z (types.RxBytes net));
  _ ← WithSet counterNetworkRxPackets labels (Float64.of_Z (types.RxPackets net));
  _ ← WithSet counterNetworkRxErrors labels (Float64.of_Z (types.RxErrors net));
  _ ← WithSet counterNetworkRxDropped labels (Float64.of_Z (types.RxDropped net));
  _ ← WithSet counterNetworkTxBytes labels (Float64.of_Z (types.TxBytes net));
  _ ← WithSet counterNetworkTxPackets labels (Float64.of_Z (types.TxPackets net));
  _ ← WithSet counterNetworkTxErrors labels (Float64.of_Z (types.TxErrors net));
  WithSet counterNetworkTxDropped labels (Float64.of_Z (types.TxDropped net)).

Definition sendPrometheus (stat : Stat) : M unit :=
  let totals : gmap string string := {["type" := "totals"]} in
  let labels (ty : string) : gmap string string :=
    {["container" := ID stat; "image" := Image stat; "name" := Stat_Name stat; "type" := ty]} in
  _ ← WithSet counterTotalContainers totals (Float64.of_Z (NumContainers stat));
  _ ← WithSet counterTotalImages totals (Float64.of_Z (NumImages stat));
  _ ← WithSet counterTotalNetworks totals (Float64.of_Z (NumNetworks stat));
  _ ← WithSet counterTotalVolumes totals (Float64.of_Z (NumVolumes stat));
  _ ← WithSet counterCpuTotalUsage (labels "cpu") (Float64.of_Z (CPUTotalUsage stat));
  _ ← WithSet counterMemoryUsage (labels "memory") (Float64.of_Z (types.Memory_Usage (Stats stat)));
  _ ← WithSet counterMemoryMaxUsage (labels "memory") (Float64.of_Z (types.Memory_MaxUsage (Stats stat)));
  _ ← WithSet counterMemoryPercent (labels "memory") (MemUsagePercent stat);
  t ← tick;
  forM (fun '(netName, net) => send_network stat netName net)
    (range "sendPrometheus" t (Stat_Networks stat)).

Definition resetStats : M (option error) :=
  _ ← forM (fun c => GaugeReset (gv_name c)) allCounters;
  mret None.

(** ** influxdb.go *)

Definition NewInfluxDBClient (c : ExtensionConfig) : M (option error) :=
  err ← InfluxNewHTTPClient (StatsInfluxDBAddress c) (StatsInfluxDBUser c) (StatsInfluxDBPassword c);
  match err with
  | Some err => mret (Some err)
  | None =>
      (* check db; create if needed *)
      let dbName := StatsInfluxDBDatabase c in
      err ← InfluxQuery dbName "SELECT * from cpu_usage limit 1";
      match err with
      | None => mret None
      | Some err =>
          if decide (Strings.Index (Error err) "database not found" <> -1)%Z then
            InfluxQuery dbName ("CREATE DATABASE " +:+ dbName)
          else mret (Some err)
      end
  end.

(** [influx.NewPoint]: the error it returns, if any. *)
Context (NewPoint : influx.Point -> option error).

(** [influx.NewBatchPoints] checks the precision. *)
Definition NewBatchPoints (precision : string) : option error :=
  match Time.ParseDuration ("1" +:+ (if decide (precision = "") then "ns" else precision)) with
  | Err err => Some err
  | Ok _ => None
  end.

Definition container_point (stat : Stat) (t : Z) (name : string) (memory : string * string) (v : influx.value) :=
  {| influx.pt_name := name;
     influx.pt_tags := {[memory.1 := memory.2; "resource" := "container"; "container" := ID stat;
                         "image" := Image stat; "name" := Stat_Name stat]};
     influx.pt_field := "value"; influx.pt_value := v; influx.pt_time := t |}.
Definition total_point (t : Z) (name field : string) (v : Z) :=
  {| influx.pt_name := name; influx.pt_tags := {["type" := "totals"]};
     influx.pt_field := field; influx.pt_value := influx.VInt v; influx.pt_time := t |}.
Definition network_point (stat : Stat) (t : Z) (netName name : string) (v : Z) :=
  {| influx.pt_name := name;
     influx.pt_tags := {["resource" := "network"; "container" := ID stat; "network" := netName;
                         "image" := Image stat; "name" := Stat_Name stat]};
     influx.pt_field := "value"; influx.pt_value := influx.VUint64 v; influx.pt_time := t |}.

(** The points between the two writes, before the networks. *)
Definition container_points (stat : Stat) (t : Z) : list influx.Point :=
  [total_point t "images" "total_images" (NumImages stat);
   total_point t "networks" "total_networks" (NumNetworks stat);
   total_point t "volumes" "total_volumes" (NumVolumes stat);
   container_point stat t "cpu_usage" ("cpu", "cpu-total") (influx.VUint64 (CPUTotalUsage stat));
   container_point stat t "mem_usage" ("memory", "memory-usage") (influx.VUint64 (types.Memory_Usage (Stats stat)));
   container_point stat t "mem_max_usage" ("memory", "memory-max-usage")
     (influx.VUint64 (types.Memory_MaxUsage (Stats stat)));
   container_point stat t "mem_usage_percent" ("memory", "memory-usage-percent")
     (influx.VFloat64 (MemUsagePercent stat))].
Definition network_points (stat : Stat) (t : Z) (nn : string * types.NetworkStats) : list influx.Point :=
  let '(netName, net) := nn in
  [network_point stat t netName "net_rx_bytes" (types.RxBytes net);
   network_point stat t netName "net_rx_packets" (types.RxPackets net);
   network_point stat t netName "net_rx_errors" (types.RxErrors net);
   network_point stat t netName "net_rx_dropped" (types.RxDropped net);
   network_point stat t netName "net_tx_bytes" (types.TxBytes net);
   network_point stat t netName "net_tx_packets" (types.TxPackets net);
   network_point stat t netName "net_tx_errors" (types.TxErrors net);
   network_point stat t netName "net_tx_dropped" (types.TxDropped net)].

(** Makes each point and adds it to the batch, up to the first error. *)
Fixpoint add_points (bp : list influx.Point) (pts : list influx.Point) : res (list influx.Point) :=
  match pts with
  | [] => Ok bp
  | pt :: pts' =>
      match NewPoint pt with
      | Some err => Err err
      | None => add_points (bp ++ [pt]) pts'
      end
  end.

Definition sendInfluxDB (b : Beacon) (stat : Stat) : M (option error) :=
  err ← NewInfluxDBClient (cfg b);
  match err with
  | Some err => mret (Some err)
  | None =>
      match NewBatchPoints (StatsInfluxDBPrecision (cfg b)) with
      | Some err => mret (Some err)
      | None =>
          timestamp ← Now;
          match add_points [] [total_point timestamp "containers" "total_containers" (NumContainers stat)] with
          | Err err => mret (Some err)
          | Ok bp =>
              err ← InfluxWrite bp;
              match err with
              | Some err => mret (Some err)
              | None =>
                  t ← tick;
                  let pts := container_points stat timestamp ++
                    flat_map (network_points stat timestamp) (range "sendInfluxDB" t (Stat_Networks stat)) in
                  match add_points bp pts with
                  | Err err => mret (Some err)
                  | Ok bp => InfluxWrite bp
                  end
              end
          end
      end
  end.

(** [float64(usage) / float64(limit) * 100.0] *)
Definition mem_percent (stats : types.StatsJSON) : Float64.t :=
  Float64.mul (Float64.div (Float64.of_Z (types.Memory_Usage stats)) (Float64.of_Z (types.Memory_Limit stats)))
    (Float64.of_Z 100).

(** The end of [sendContainerStats]. *)
Definition send_stat (b : Beacon) (s : Stat) : M unit :=
  if decide (StatsBackendType (cfg b) = "prometheus") then sendPrometheus s
  else if decide (StatsBackendType (cfg b) = "influxdb") then _ ← sendInfluxDB b s; mret tt
  else mret tt.

Definition sendContainerStats (b : Beacon) (id : string) (stats : option types.StatsJSON) : M unit :=
  let id := if decide (12 <= String.length id) then String.substring 0 12 id else id in
  allContainers ← ContainerList true;
  match allContainers with
  | Err _ => mret tt
  | Ok allContainers =>
      cInfo ← ContainerInspect id;
      match cInfo with
      | Err _ => mret tt
      | Ok cInfo =>
          config ← pure (deref (types.ci_Config cInfo));
          (* strip / *)
          cName ← pure (match types.ci_Name cInfo with
                        | EmptyString => Panic "index out of range"
                        | String c rest => mret (if decide (c = "/"%char) then rest else types.ci_Name cInfo)
                        end);
          allImages ← ImageList;
          match allImages with
          | Err _ => mret tt
          | Ok allImages =>
              allVolumes ← VolumeList;
              match allVolumes with
              | Err _ => mret tt
              | Ok allVolumes =>
                  networks ← NetworkList;
                  match networks with
                  | Err _ => mret tt
                  | Ok networks =>
                      stats ← pure (deref stats);
                      send_stat b {|
                        ID := id; Image := ctypes.Image config; Stat_Name := cName;
                        NumContainers := Z.of_nat (length allContainers); NumImages := Z.of_nat allImages;
                        NumVolumes := Z.of_nat allVolumes; NumNetworks := Z.of_nat networks;
                        CPUTotalUsage := types.CPU_TotalUsage stats; MemUsagePercent := mem_percent stats;
                        Stat_Networks := types.s_Networks stats; Stats := stats;
                      |}
                  end
              end
          end
      end
  end.

(** [json.Unmarshal] of a line into the statistics of the line before, which
    [Decode] has. *)
Context (Unmarshal : option types.StatsJSON -> string -> res (option types.StatsJSON)).

Fixpoint scan_stats (b : Beacon) (cID : string) (stats : option types.StatsJSON) (lines : list string) : M unit :=
  match lines with
  | [] => mret tt
  | l :: lines' =>
      match Unmarshal stats l with
      | Err _ => mret tt
      | Ok stats => _ ← sendContainerStats b cID stats; scan_stats b cID stats lines'
      end
  end.

(** The goroutine [collectStats] starts for each container. *)
Definition collect (b : Beacon) (cID : string) : M unit :=
  c ← ContainerInspect cID;
  match c with
  | Err err => SendBeaconErr err
  | Ok c =>
      config ← pure (deref (types.ci_Config c));
      (* match rules *)
      t ← tick;
      m ← pure (ruleMatch t b config);
      if m : bool then
        r ← ContainerStats cID;
        match r with
        | Err _ => mret tt
        | Ok r => scan_stats b cID None (Bufio.Scan r)
        end
      else mret tt
  end.

(** ** beacon.go *)

(** [time.NewTicker] panics on an interval that is not positive. *)
Definition NewBeacon (c : ExtensionConfig) : M (res Beacon) :=
  let c := set_ConfigBasePath (Path.Dir (ConfigPath c)) c in
  containerID ← GetContainerID;
  match containerID with
  | Err err => mret (Err err)
  | Ok _ =>
      match Time.ParseDuration (StatsInterval c) with
      | Err err => mret (Err (ErrorString ("unable to parse stat interval: " +:+ Error err)))
      | Ok d =>
          if decide (d <= 0)%Z then pure (Panic "non-positive interval for NewTicker")
          else mret (Ok {| cfg := c; monitored := ∅ |})
      end
  end.

(** The push of a tick, after the statistics are collected. *)
Definition push_gateway (b : Beacon) (containerID : string) : M unit :=
  let gw := StatsPrometheusPushGatewayURL (cfg b) in
  if decide (gw <> "") then _ ← Push "beacon" containerID gw; mret tt else mret tt.

Definition HandleEvent (b : Beacon) (event : etypes.Message) : M (Beacon * option error) :=
  let id := etypes.ID event in
  if decide (etypes.Status event = "interlock-start") then
    (* scan all containers and start metrics *)
    containers ← ContainerList false;
    match containers with
    | Err err => mret (b, Some err)
    | Ok containers =>
        mret (set_monitored (fold_left (fun m c => <[types.c_ID c := 1%Z]> m) containers (monitored b)) b, None)
    end
  else if decide (etypes.Status event = "start") then mret (set_monitored (<[id := 1%Z]> (monitored b)) b, None)
  else if decide (etypes.Status event ∈ ["kill"; "die"; "stop"; "destroy"]) then
    let b := set_monitored (delete id (monitored b)) b in
    err ← resetStats;
    mret (b, err)
  else mret (b, None).
End Beacon.

(** ** Reading the gauges *)

(** The value of a gauge after some interactions: what it was last set to,
    unless its vector was reset since. *)
Definition gauge_step (name : string) (labels : gmap string string) (v : option Float64.t) (e : event) : option Float64.t :=
  match e with
  | EGaugeSet n l x => if decide (n = name /\ l = labels) then Some x else v
  | EGaugeReset n => if decide (n = name) then None else v
  | _ => v
  end.
Definition gauge (h : list event) (g : GaugeVec) (labels : gmap string string) : option Float64.t :=
  fold_left (gauge_step (gv_name g) labels) h None.

(** ** Lemmas *)

Section Facts.
Context `{MapRange} `{World} (elsewhere : string -> option (string -> bool)).

(** What a rule of the type image says of a container. *)
Definition image_rule (b : Beacon) (r : Rule) : Prop :=
  (exists k, Rules (cfg b) !! k = Some r) /\ Rule_Type r = "image".
Definition rule_selects (config : ctypes.Config) (r : Rule) : Prop :=
  exists p, Regexp.Compile elsewhere (Rule_Regex r) = Some p /\ p (ctypes.Image config) = true.

Lemma match_rules_val rules config m :
  Forall (fun kr => Rule_Type kr.2 = "image" -> is_Some (Regexp.Compile elsewhere (Rule_Regex kr.2))) rules ->
  exists b, match_rules elsewhere rules config m = Val b /\
    (b = true <-> m = true \/ Exists (fun kr => Rule_Type kr.2 = "image" /\ rule_selects config kr.2) rules).
Proof.
  intros Hv. revert m. induction Hv as [|[k r] rules Hr Hv IH]; intros m.
  - exists m. split; [done|]. rewrite Exists_nil. tauto.
  - simpl in *. unfold isLabelMatch, isNameMatch, isImageMatch.
    assert (Hskip : Rule_Type r <> "image" -> exists b, match_rules elsewhere rules config m = Val b /\
      (b = true <-> m = true \/ Exists (fun kr => Rule_Type kr.2 = "image" /\ rule_selects config kr.2) ((k, r) :: rules))).
    { intros Hne. destruct (IH m) as (b & -> & Hb). exists b. split; [done|]. rewrite Hb, Exists_cons. simpl. tauto. }
    destruct (decide (Rule_Type r = "label")) as [Hl|_]; [apply Hskip; congruence|].
    destruct (decide (Rule_Type r = "name")) as [Hl|_]; [apply Hskip; congruence|].
    destruct (decide (Rule_Type r = "image")) as [Hi|Hi]; [|by apply Hskip].
    destruct (Hr Hi) as [p Hp]. rewrite Hp. cbn [mbind outcome_bind mret outcome_ret].
    destruct (IH (if p (ctypes.Image config) then p (ctypes.Image config) else m)) as (b & -> & Hb).
    assert (Hsel : rule_selects config r <-> p (ctypes.Image config) = true).
    { unfold rule_selects. rewrite Hp. split; [by intros (q & [= <-] & Hq)|eauto]. }
    exists b. split; [done|]. rewrite Hb, Exists_cons. cbn [fst snd]. rewrite Hsel.
    destruct (p (ctypes.Image config)); intuition congruence.
Qed.

Lemma match_rules_panics rules config m :
  Exists (fun kr => Rule_Type kr.2 = "image" /\ Regexp.Compile elsewhere (Rule_Regex kr.2) = None) rules ->
  exists w, match_rules elsewhere rules config m = Panic w.
Proof.
  intros He. revert m. induction rules as [|[k r] rules IH]; [by apply Exists_nil in He|]. intros m.
  simpl. unfold isLabelMatch, isNameMatch, isImageMatch.
  assert (Hskip : Rule_Type r <> "image" -> forall m, exists w, match_rules elsewhere rules config m = Panic w).
  { intros Hne. apply IH. apply Exists_cons in He as [[Hi _]|He]; [done|done]. }
  destruct (decide (Rule_Type r = "label")) as [Hl|_]; [apply Hskip; congruence|].
  destruct (decide (Rule_Type r = "name")) as [Hl|_]; [apply Hskip; congruence|].
  destruct (decide (Rule_Type r = "image")) as [Hi|Hi]; [|by apply Hskip].
  destruct (Regexp.Compile elsewhere (Rule_Regex r)) as [p|] eqn:Hp; [|by eexists]. cbn [mbind outcome_bind mret outcome_ret]. apply IH.
  apply Exists_cons in He as [[_ Hn]|He]; [simpl in Hn; congruence|done].
Qed.

Lemma rules_exists n (b : Beacon) (P : Rule -> Prop) :
  Exists (fun kr => P kr.2) (range "ruleMatch" n (Rules (cfg b))) <-> exists k r, Rules (cfg b) !! k = Some r /\ P r.
Proof.
  rewrite Exists_exists. split.
  - intros ([k r] & Hin & HP). apply elem_of_range in Hin. eauto.
  - intros (k & r & Hk & HP). exists (k, r). split; [by apply elem_of_range|done].
Qed.

(** ** Theorems *)

(** A container is selected exactly when an image rule matches its image, in
    whatever order the rules are tried; an image rule that does not compile
    makes every match panic, even when another rule selects the container. *)
Theorem rule_match n (b : Beacon) config :
  ((forall r, image_rule b r -> is_Some (Regexp.Compile elsewhere (Rule_Regex r))) ->
   exists m, ruleMatch elsewhere n b config = Val m /\
     (m = true <-> exists r, image_rule b r /\ rule_selects config r)) /\
  ((exists r, image_rule b r /\ Regexp.Compile elsewhere (Rule_Regex r) = None) -> exists w, ruleMatch elsewhere n b config = Panic w).
Proof.
  unfold ruleMatch, image_rule. split.
  - intros Hv. destruct (match_rules_val (range "ruleMatch" n (Rules (cfg b))) config false) as (m & -> & Hm).
    { apply Forall_forall. intros [k r] Hin Hi. apply elem_of_range in Hin. apply Hv. eauto. }
    exists m. split; [done|]. rewrite Hm, (rules_exists n b (fun r => Rule_Type r = "image" /\ rule_selects config r)).
    naive_solver.
  - intros (r & [[k Hk] Hi] & Hn). apply match_rules_panics.
    apply (rules_exists n b (fun r => Rule_Type r = "image" /\ Regexp.Compile elsewhere (Rule_Regex r) = None)). eauto.
Qed.

(** C37: Rules that are plain text, with an anchor at either end or none, select
    exactly the images the text of one of them occurs in. *)
Theorem plain_rules n (b : Beacon) config (text : Rule -> Regexp.pattern) :
  (forall r, image_rule b r -> Rule_Regex r = Regexp.pattern_text (text r) /\
     Regexp.plain (Regexp.p_text (text r)) = true /\ String.length (Regexp.p_text (text r)) <= 498) ->
  Regexp.is_ascii (ctypes.Image config) = true ->
  exists m, ruleMatch elsewhere n b config = Val m /\
    (m = true <-> exists r, image_rule b r /\ Regexp.occurs (text r) (ctypes.Image config)).
Proof.
  intros Hr Ha. assert (Hc : forall r, image_rule b r -> exists m, Regexp.Compile elsewhere (Rule_Regex r) = Some m /\
    (m (ctypes.Image config) = true <-> Regexp.occurs (text r) (ctypes.Image config))).
  { intros r (-> & Hp & Hl)%Hr. destruct (Regexp.compile_pattern elsewhere (text r) Hp Hl) as (m & Hm & Hs). eauto. }
  destruct (rule_match n b config) as [Hv _]. destruct Hv as (m & Hm & Hiff); [intros r (? & ? & _)%Hc; eauto|].
  exists m. split; [done|]. rewrite Hiff. split; intros (r & Hi & Hx); exists r; (split; [done|]).
  - destruct (Hc r Hi) as (p & Hp & Hs). destruct Hx as (q & Hq & Hx). rewrite Hp in Hq. injection Hq as <-. by apply Hs.
  - destruct (Hc r Hi) as (p & Hp & Hs). exists p. split; [done|]. by apply Hs.
Qed.

(** Rules that are the text of an expression select the images a part of which
    the expression denotes. *)
Lemma written_rules n (b : Beacon) config (expr : Rule -> Regexp.regex) :
  (forall r, image_rule b r -> Rule_Regex r = Regexp.print (expr r) /\
     Regexp.writable (expr r) = true /\ String.length (Regexp.print (expr r)) <= 500) ->
  exists m, ruleMatch elsewhere n b config = Val m /\
    (m = true <-> exists r, image_rule b r /\ exists i j, i <= length (Regexp.runes_of (ctypes.Image config)) /\
       Regexp.denotes (Regexp.runes_of (ctypes.Image config)) (expr r) i j).
Proof.
  intros Hr. assert (Hc : forall r, image_rule b r ->
    Regexp.Compile elsewhere (Rule_Regex r) = Some (Regexp.MatchString (expr r))).
  { intros r (-> & Hw & Hl)%Hr. by apply Regexp.compile_print. }
  destruct (rule_match n b config) as [Hv _]. destruct Hv as (m & Hm & Hiff); [intros r Hi; rewrite Hc by done; eauto|].
  exists m. split; [done|]. rewrite Hiff. setoid_rewrite <- Regexp.match_string_spec.
  split; intros (r & Hi & Hx); exists r; (split; [done|]); unfold rule_selects in *.
  - rewrite Hc in Hx by done. by destruct Hx as (p & [= <-] & Hx).
  - rewrite Hc by done. eauto.
Qed.

Lemma resetStats_at h : resetStats h = (Val None, h ++ map (fun c => EGaugeReset (gv_name c)) allCounters).
Proof. unfold resetStats. rewrite bind_at. by rewrite (forM_calls _ (fun c => EGaugeReset (gv_name c))). Qed.

Lemma gauge_reset h l g labels :
  g ∈ l -> gauge (h ++ map (fun c => EGaugeReset (gv_name c)) l) g labels = None.
Proof.
  intros Hg. unfold gauge. rewrite fold_left_app. generalize (fold_left (gauge_step (gv_name g) labels) h None). clear h.
  induction l as [|c l IH]; [by apply elem_of_nil in Hg|]. intros v. simpl.
  destruct (decide (gv_name c = gv_name g)) as [Heq|Hne].
  - clear IH Hg. assert (Hn : fold_left (gauge_step (gv_name g) labels) (map (fun c => EGaugeReset (gv_name c)) l) None = None);
      [|done]. induction l as [|c' l IH]; [done|]. simpl. by case_decide.
  - apply elem_of_cons in Hg as [->|Hg]; [done|]. by apply IH.
Qed.

(** When any container stops, the beacon forgets it and the gauges of every
    container, monitored or not, until the next statistics. *)
Theorem stop_resets_all (b : Beacon) ev h g labels :
  etypes.Status ev ∈ ["kill"; "die"; "stop"; "destroy"] -> g ∈ allCounters ->
  exists b' h', HandleEvent b ev h = (Val (b', None), h') /\
    monitored b' = delete (etypes.ID ev) (monitored b) /\ gauge h' g labels = None.
Proof.
  intros Hst Hg. unfold HandleEvent. 
  assert (etypes.Status ev <> "interlock-start" /\ etypes.Status ev <> "start") as [Hs1 Hs2]
    by (split; intros Heq; rewrite Heq in Hst; set_solver).
  rewrite (decide_False _ _ Hs1), (decide_False _ _ Hs2), (decide_True _ _ Hst), bind_at, resetStats_at. eexists _, _. split; [reflexivity|]. split; [done|]. by apply gauge_reset.
Qed.

(** The events handled one after the other; errors are only reported. *)
Fixpoint handle_events (b : Beacon) (evs : list etypes.Message) : M Beacon :=
  match evs with
  | [] => mret b
  | ev :: evs' => r ← HandleEvent b ev; handle_events r.1 evs'
  end.

(** What an event says of a container, when [cs] are the running ones. *)
Definition says (cs : list types.Container) (id : string) (ev : etypes.Message) : option bool :=
  if decide (etypes.Status ev = "interlock-start") then
    if decide (id ∈ map types.c_ID cs) then Some true else None
  else if decide (etypes.ID ev = id) then
    if decide (etypes.Status ev = "start") then Some true
    else if decide (etypes.Status ev ∈ ["kill"; "die"; "stop"; "destroy"]) then Some false
    else None
  else None.

Lemma handle_event_monitored cs (b : Beacon) ev h id :
  (forall h, reply_ContainerList h false = Ok cs) ->
  exists b' err h', HandleEvent b ev h = (Val (b', err), h') /\ cfg b' = cfg b /\
    (is_Some (monitored b' !! id) <-> default (bool_decide (is_Some (monitored b !! id))) (says cs id ev) = true).
Proof.
  intros Hcs. unfold HandleEvent, says.
  destruct (decide (etypes.Status ev = "interlock-start")) as [Hs|Hs].
  - rewrite bind_at. unfold ContainerList, call. rewrite Hcs. eexists _, _, _. split; [reflexivity|]. split; [done|]. simpl.
    assert (Hf : fold_left (fun m c => <[types.c_ID c := 1%Z]> m) cs (monitored b) !! id =
      if decide (id ∈ map types.c_ID cs) then Some 1%Z else monitored b !! id).
    { by rewrite <- (lookup_insert_all 1%Z), fold_left_map. }
    rewrite Hf. case_decide; simpl; [by split; [|eexists]|]. by rewrite bool_decide_eq_true.
  - destruct (decide (etypes.Status ev = "start")) as [Ht|Ht].
    + eexists _, _, _. split; [reflexivity|]. split; [done|]. simpl. rewrite lookup_insert.
      destruct (decide (etypes.ID ev = id)); simpl; [by split; [|eexists]|]. by rewrite bool_decide_eq_true.
    + destruct (decide (etypes.Status ev ∈ _)) as [Hp|Hp].
      * rewrite bind_at, resetStats_at. eexists _, _, _. split; [reflexivity|]. split; [done|]. simpl. rewrite lookup_delete.
        destruct (decide (etypes.ID ev = id)); simpl; [by split; [intros []|]|]. by rewrite bool_decide_eq_true.
      * eexists _, _, _. split; [reflexivity|]. split; [done|].
        destruct (decide (etypes.ID ev = id)); simpl; by rewrite bool_decide_eq_true.
Qed.

(** A container is monitored after some events exactly when the last event
    about it says so: its start, its stop, or the scan at the start of the
    program. *)
Theorem monitored_after cs (b : Beacon) evs h id :
  (forall h, reply_ContainerList h false = Ok cs) ->
  exists b' h', handle_events b evs h = (Val b', h') /\
    (is_Some (monitored b' !! id) <->
     default (bool_decide (is_Some (monitored b !! id))) (last (omap (says cs id) evs)) = true).
Proof.
  intros Hcs. revert b h. induction evs as [|ev evs IH]; intros b h.
  - eexists _, _. split; [reflexivity|]. simpl. by rewrite bool_decide_eq_true.
  - change (omap (says cs id) (ev :: evs)) with
      (match says cs id ev with Some m => m :: omap (says cs id) evs | None => omap (says cs id) evs end).
    cbn [handle_events]. rewrite bind_at. destruct (handle_event_monitored cs b ev h id Hcs) as (b1 & err & h1 & -> & _ & Hb1). cbn [fst].
    destruct (IH b1 h1) as (b2 & h2 & -> & Hb2). eexists _, _. split; [reflexivity|]. rewrite Hb2. clear Hb2.
    destruct (says cs id ev) as [m|].
    + rewrite last_cons. destruct (last (omap (says cs id) evs)) as [m'|]; simpl; [done|].
      rewrite bool_decide_eq_true. exact Hb1.
    + destruct (last (omap (says cs id) evs)) as [m'|]; simpl; [done|]. simpl in Hb1.
      rewrite !bool_decide_eq_true. rewrite bool_decide_eq_true in Hb1. exact Hb1.
Qed.
End Facts.

(** ** What the backends receive *)

(** A gauge with its labels and value. *)
Definition reading : Type := GaugeVec * gmap string string * Float64.t.
Definition set_event (r : reading) : event := let '(g, labels, v) := r in EGaugeSet (gv_name g) labels v.

Definition container_labels (stat : Stat) (ty : string) : gmap string string :=
  {["container" := ID stat; "image" := Image stat; "name" := Stat_Name stat; "type" := ty]}.
Definition network_labels (stat : Stat) (netName : string) : gmap string string :=
  {["container" := ID stat; "image" := Image stat; "name" := Stat_Name stat; "network" := netName; "type" := "network"]}.

Definition container_readings (stat : Stat) : list reading :=
  [(counterTotalContainers, {["type" := "totals"]}, Float64.of_Z (NumContainers stat));
   (counterTotalImages, {["type" := "totals"]}, Float64.of_Z (NumImages stat));
   (counterTotalNetworks, {["type" := "totals"]}, Float64.of_Z (NumNetworks stat));
   (counterTotalVolumes, {["type" := "totals"]}, Float64.of_Z (NumVolumes stat));
   (counterCpuTotalUsage, container_labels stat "cpu", Float64.of_Z (CPUTotalUsage stat));
   (counterMemoryUsage, container_labels stat "memory", Float64.of_Z (types.Memory_Usage (Stats stat)));
   (counterMemoryMaxUsage, container_labels stat "memory", Float64.of_Z (types.Memory_MaxUsage (Stats stat)));
   (counterMemoryPercent, container_labels stat "memory", MemUsagePercent stat)].
Definition network_readings (stat : Stat) (nn : string * types.NetworkStats) : list reading :=
  let '(netName, net) := nn in
  let labels := network_labels stat netName in
  [(counterNetworkRxBytes, labels, Float64.of_Z (types.RxBytes net));
   (counterNetworkRxPackets, labels, Float64.of_Z (types.RxPackets net));
   (counterNetworkRxErrors, labels, Float64.of_Z (types.RxErrors net));
   (counterNetworkRxDropped, labels, Float64.of_Z (types.RxDropped net));
   (counterNetworkTxBytes, labels, Float64.of_Z (types.TxBytes net));
   (counterNetworkTxPackets, labels, Float64.of_Z (types.TxPackets net));
   (counterNetworkTxErrors, labels, Float64.of_Z (types.TxErrors net));
   (counterNetworkTxDropped, labels, Float64.of_Z (types.TxDropped net))].

(** What the gauges must read after the statistics [stat]. *)
Definition readings (stat : Stat) (nets : list (string * types.NetworkStats)) : list reading :=
  container_readings stat ++ flat_map (network_readings stat) nets.

Section Backends.
Context `{MapRange} `{World}.

Lemma WithSet_at g labels v h :
  dom labels = (list_to_set (gv_labels g) : gset string) ->
  WithSet g labels v h = (Val tt, h ++ [set_event (g, labels, v)]).
Proof. intros Hd. unfold WithSet. by rewrite decide_True. Qed.

Lemma bind_WithSet {A} g labels v (f : unit -> M A) h :
  dom labels = (list_to_set (gv_labels g) : gset string) ->
  (WithSet g labels v ≫= f) h = f tt (h ++ [set_event (g, labels, v)]).
Proof. intros Hd. by rewrite bind_at, WithSet_at. Qed.

Lemma container_labels_dom stat ty :
  dom (container_labels stat ty) = (list_to_set ["container"; "image"; "name"; "type"] : gset string).
Proof. reflexivity. Qed.
Lemma network_labels_dom stat n :
  dom (network_labels stat n) = (list_to_set ["container"; "image"; "name"; "network"; "type"] : gset string).
Proof. reflexivity. Qed.

Lemma send_network_at stat nn h :
  send_network stat nn.1 nn.2 h = (Val tt, h ++ map set_event (network_readings stat nn)).
Proof.
  destruct nn as [n net]. unfold send_network, network_readings. cbn [fst snd map]. fold (network_labels stat n).
  do 7 (rewrite bind_WithSet by apply network_labels_dom). rewrite WithSet_at by apply network_labels_dom.
  by rewrite <- !app_assoc.
Qed.

Lemma forM_flat {A} (f : A -> M unit) (e : A -> list event) l h :
  (forall x h, f x h = (Val tt, h ++ e x)) -> forM f l h = (Val tt, h ++ flat_map e l).
Proof.
  intros Hf. revert h. induction l as [|x l IH]; intros h; simpl; [by rewrite app_nil_r|].
  rewrite bind_at, Hf, IH. by rewrite <- app_assoc.
Qed.

Lemma sendPrometheus_at stat h :
  exists t, sendPrometheus stat h =
    (Val tt, h ++ map set_event (readings stat (range "sendPrometheus" t (Stat_Networks stat)))).
Proof.
  eexists. unfold sendPrometheus. fold (container_labels stat "cpu") (container_labels stat "memory").
  do 4 (rewrite bind_WithSet by reflexivity). do 4 (rewrite bind_WithSet by apply container_labels_dom).
  rewrite bind_at. unfold tick at 1.
  rewrite (forM_flat _ (fun nn => map set_event (network_readings stat nn))).
  2: { intros [n net] h'. apply (send_network_at stat (n, net)). }
  unfold readings, container_readings. rewrite map_app, map_flat_map. cbn [map]. by rewrite <- !app_assoc.
Qed.

(** Readings that agree on the gauges they share. *)
Definition consistent (l : list reading) : Prop :=
  forall g1 l1 v1 g2 l2 v2, (g1, l1, v1) ∈ l -> (g2, l2, v2) ∈ l -> gv_name g1 = gv_name g2 -> l1 = l2 -> v1 = v2.

Lemma gauge_read h l g labels v :
  consistent l -> (g, labels, v) ∈ l -> gauge (h ++ map set_event l) g labels = Some v.
Proof.
  intros Hc Hin. unfold gauge. rewrite fold_left_app. generalize (fold_left (gauge_step (gv_name g) labels) h None).
  assert (Hsame : forall l', l' ⊆ l -> forall o, (o = Some v \/ (g, labels, v) ∈ l') ->
    fold_left (gauge_step (gv_name g) labels) (map set_event l') o = Some v).
  { intros l'. induction l' as [|[[g' ls'] v'] l' IH]; intros Hl' o Ho; [destruct Ho as [->|Ho]; [done|by apply elem_of_nil in Ho]|].
    simpl. apply IH; [set_solver|]. case_decide as Heq.
    - destruct Heq as [Hn ->]. left. f_equal. eapply (Hc g' labels v' g labels v); [set_solver|done|done|done].
    - destruct Ho as [Ho|[[= -> -> ->]|Ho]%elem_of_cons]; [by left|tauto|by right]. }
  intros o. apply Hsame; [done|by right].
Qed.

(** The value of a gauge, from the statistics. *)
Definition first_named (name : string) (l : list reading) : option Float64.t :=
  snd <$> head (filter (fun r => gv_name r.1.1 = name) l).
Definition expected (stat : Stat) (name : string) (labels : gmap string string) : option Float64.t :=
  match first_named name (container_readings stat) with
  | Some v => Some v
  | None =>
      n ← labels !! "network"; net ← Stat_Networks stat !! n; first_named name (network_readings stat (n, net))
  end.

Ltac each_reading Hin :=
  repeat (apply elem_of_cons in Hin as [[= -> -> ->]|Hin]; [|]); [..|by apply elem_of_nil in Hin].

Lemma readings_expected stat nets g labels v :
  (forall n net, (n, net) ∈ nets -> Stat_Networks stat !! n = Some net) ->
  (g, labels, v) ∈ readings stat nets -> expected stat (gv_name g) labels = Some v.
Proof.
  intros Hnets [Hin|Hin]%elem_of_app.
  - unfold container_readings in Hin. each_reading Hin; reflexivity.
  - apply list_elem_of_In, in_flat_map in Hin as ([n net] & Hn%list_elem_of_In & Hin%list_elem_of_In).
    specialize (Hnets _ _ Hn). unfold expected. simpl in Hin.
    each_reading Hin; cbn -[container_readings network_labels network_readings first_named];
      (match goal with |- context [network_labels stat n !! "network"] => idtac end;
       change (network_labels stat n !! "network") with (Some n); cbn -[container_readings network_readings first_named];
       rewrite Hnets; reflexivity).
Qed.

Lemma readings_consistent stat nets :
  (forall n net, (n, net) ∈ nets -> Stat_Networks stat !! n = Some net) -> consistent (readings stat nets).
Proof.
  intros Hnets g1 l1 v1 g2 l2 v2 H1 H2 Hn Hl. apply (readings_expected stat _ _ _ _ Hnets) in H1, H2. congruence.
Qed.

(** C28: After the statistics of a container are sent, every gauge reads the
    number it is for: the totals, those of the container, and those of each of
    its networks; no [With] panics. *)
Theorem gauges_read_back stat h :
  exists h', sendPrometheus stat h = (Val tt, h') /\
    forall g labels v, (g, labels, v) ∈ readings stat (map_to_list (Stat_Networks stat)) -> gauge h' g labels = Some v.
Proof.
  destruct (sendPrometheus_at stat h) as [t Ht]. rewrite Ht. eexists. split; [reflexivity|].
  intros g labels v Hin.
  assert (Hnets : forall n net, (n, net) ∈ range "sendPrometheus" t (Stat_Networks stat) -> Stat_Networks stat !! n = Some net)
    by (intros n net; apply elem_of_range).
  apply gauge_read.
  - by apply readings_consistent.
  - unfold readings in *. by rewrite (range_perm _ "sendPrometheus" t).
Qed.

(** ** InfluxDB *)

(** The batches written during some interactions. *)
Definition writes (h : list event) : list (list influx.Point) :=
  omap (fun e => match e with EInfluxWrite pts => Some pts | _ => None end) h.

Context (NewPoint : influx.Point -> option error).

Lemma add_points_ok bp pts : (forall pt, NewPoint pt = None) -> add_points NewPoint bp pts = Ok (bp ++ pts).
Proof.
  intros Hok. revert bp. induction pts as [|pt pts IH]; intros bp; simpl; [by rewrite app_nil_r|].
  by rewrite Hok, IH, <- app_assoc.
Qed.

(** When everything succeeds, the point of the containers is written twice:
    alone, then again in the batch of all the points, which has one point of
    each measure of the container and of each network, all of one time. *)
Theorem influx_writes (b : Beacon) stat h :
  (forall pt, NewPoint pt = None) -> NewBatchPoints (StatsInfluxDBPrecision (cfg b)) = None ->
  (forall h a, reply_InfluxClient h a = None) -> (forall h db cmd, reply_InfluxQuery h db cmd = None) ->
  (forall h pts, reply_InfluxWrite h pts = None) ->
  exists new t p rest, sendInfluxDB NewPoint b stat h = (Val None, h ++ new) /\
    writes new = [[p]; p :: rest] /\ p = total_point t "containers" "total_containers" (NumContainers stat) /\
    rest ≡ₚ container_points stat t ++ flat_map (network_points stat t) (map_to_list (Stat_Networks stat)).
Proof.
  intros Hpt Hbatch Hc Hq Hw. unfold sendInfluxDB, NewInfluxDBClient, InfluxNewHTTPClient, InfluxQuery, InfluxWrite, Now, call, tick.
  rewrite !bind_at, Hc, bind_at, Hq. cbn [mret comp_ret]. rewrite Hbatch, bind_at.
  rewrite add_points_ok by done. cbn [app]. rewrite bind_at, Hw, bind_at, add_points_ok by done. rewrite Hw.
  rewrite <- !app_assoc. eexists _, _, _, _. split; [reflexivity|]. split; [reflexivity|]. split; [reflexivity|].
  by rewrite (range_perm _ "sendInfluxDB").
Qed.

(** ** The creation of a beacon *)

(** A whole number of seconds as the interval of the statistics: zero makes
    the creation panic, any other is accepted. *)
Theorem new_beacon_interval c id h h' n :
  GetContainerID h = (Val (Ok id), h') -> StatsInterval c = TimeFacts.seconds n -> (0 <= n <= 9223372036)%Z ->
  NewBeacon c h =
  if decide (n = 0)%Z then (Panic "non-positive interval for NewTicker", h')
  else (Val (Ok {| cfg := set_ConfigBasePath (Path.Dir (ConfigPath c)) c; monitored := ∅ |}), h').
Proof.
  intros Hid Hs Hn. unfold NewBeacon. rewrite bind_at, Hid. simpl. rewrite Hs, TimeFacts.parse_seconds by done.
  destruct (decide (n * 1000000000 <= 0)%Z), (decide (n = 0)%Z); try lia; done.
Qed.
End Backends.

(** ** Witnesses *)

Section Witnesses.
Local Existing Instance sorted_range.
Local Existing Instance Cluster.cluster.
Import Cluster.

Definition nothing_else (r : string) : option (string -> bool) := None.
Definition web_rules : Beacon := {|
  cfg := set_Rules {["r" := {| Rule_Type := "image"; Rule_Regex := "web" |}]} (empty_extension "beacon");
  monitored := ∅ |}.

Lemma rule_match_witness : exists m, ruleMatch nothing_else 0 web_rules web_config = Val m /\ m = true.
Proof.
  destruct (rule_match nothing_else 0 web_rules web_config) as [Hv _].
  destruct Hv as (m & Hm & Hiff).
  - intros r [[k Hk] _]. simpl in Hk. apply lookup_singleton_Some in Hk as [_ <-]. by eexists.
  - exists m. split; [exact Hm|]. by vm_compute in Hm; injection Hm as <-.
Defined.

(** The rule [^web] selects the images whose name begins so. *)
Definition anchored_rules : Beacon := {|
  cfg := set_Rules {["r" := {| Rule_Type := "image"; Rule_Regex := "^web" |}]} (empty_extension "beacon");
  monitored := ∅ |}.
Definition of_image (image : string) : ctypes.Config :=
  {| ctypes.Hostname := ""; ctypes.Domainname := ""; ctypes.ExposedPorts := ∅; ctypes.Image := image; ctypes.Labels := ∅ |}.

Lemma plain_rules_witness :
  (exists m, ruleMatch nothing_else 0 anchored_rules (of_image "web:2") = Val m /\ m = true) /\
  exists m, ruleMatch nothing_else 0 anchored_rules (of_image "my-web") = Val m /\ m = false.
Proof.
  pose (text := fun _ : Rule => Regexp.Pattern true "web" false).
  assert (Hr : forall r, image_rule anchored_rules r -> Rule_Regex r = Regexp.pattern_text (text r) /\
     Regexp.plain (Regexp.p_text (text r)) = true /\ String.length (Regexp.p_text (text r)) <= 498).
  { intros r [[k Hk] _]. simpl in Hk. apply lookup_singleton_Some in Hk as [_ <-]. repeat split; simpl; lia. }
  split.
  - destruct (plain_rules nothing_else 0 anchored_rules (of_image "web:2") text Hr eq_refl) as (m & Hm & _).
    exists m. split; [exact Hm|]. by vm_compute in Hm; injection Hm as <-.
  - destruct (plain_rules nothing_else 0 anchored_rules (of_image "my-web") text Hr eq_refl) as (m & Hm & _).
    exists m. split; [exact Hm|]. by vm_compute in Hm; injection Hm as <-.
Defined.

(** An expression with groups, classes and bounds. *)
Lemma expression_examples :
  map (fun image => ruleMatch nothing_else 0
      {| cfg := set_Rules {["r" := {| Rule_Type := "image"; Rule_Regex := "^(?:web|api)-\d+:v[1-3]{1,2}$" |}]} (empty_extension "beacon");
         monitored := ∅ |} (of_image image))
    ["web-10:v12"; "api-1:v3"; "web:v1"; "web-1:v123"; "my-web-1:v1"] = map Val [true; true; false; false; false].
Proof. by vm_compute. Qed.

Definition event_of (status id : string) : etypes.Message :=
  {| etypes.Status := status; etypes.ID := id; etypes.Type_ := "container"; etypes.Action := status;
     etypes.Actor_Attributes := ∅ |}.

(** The gauge of another container is reset too. *)
Lemma stop_resets_all_witness :
  exists b' h', HandleEvent {| cfg := cfg web_rules; monitored := {["aaaaaaaaaaaa" := 1%Z]} |}
      (event_of "die" "bbbbbbbbbbbb")
      [EGaugeSet (gv_name counterTotalContainers) {["type" := "totals"]} (Float64.of_Z 3)] = (Val (b', None), h') /\
    monitored b' = {["aaaaaaaaaaaa" := 1%Z]} /\ gauge h' counterTotalContainers {["type" := "totals"]} = None.
Proof.
  destruct (stop_resets_all {| cfg := cfg web_rules; monitored := {["aaaaaaaaaaaa" := 1%Z]} |}
    (event_of "die" "bbbbbbbbbbbb")
    [EGaugeSet (gv_name counterTotalContainers) {["type" := "totals"]} (Float64.of_Z 3)]
    counterTotalContainers {["type" := "totals"]}) as (b' & h' & H1 & H2 & H3).
  - right. left.
  - left.
  - exists b', h'. split; [exact H1|]. split; [rewrite H2; reflexivity|exact H3].
Defined.

Lemma monitored_after_witness :
  exists b' h', handle_events web_rules [event_of "interlock-start" "0"; event_of "die" "bbbbbbbbbbbb"] [] = (Val b', h') /\
    is_Some (monitored b' !! "aaaaaaaaaaaa").
Proof.
  destruct (monitored_after [web; api; proxy] web_rules [event_of "interlock-start" "0"; event_of "die" "bbbbbbbbbbbb"] []
    "aaaaaaaaaaaa") as (b' & h' & Hb & Hiff); [reflexivity|].
  exists b', h'. split; [exact Hb|]. apply Hiff. vm_compute. reflexivity.
Defined.

Definition web_stat : Stat := {|
  ID := "aaaaaaaaaaaa"; Stat_Name := "web"; Image := "web:latest"; NumContainers := 3; NumImages := 1; NumVolumes := 0;
  NumNetworks := 1; CPUTotalUsage := 12345; MemUsagePercent := Float64.of_Z 50;
  Stat_Networks := {["eth0" := {| types.RxBytes := 1; types.RxPackets := 2; types.RxErrors := 3; types.RxDropped := 4;
                                  types.TxBytes := 5; types.TxPackets := 6; types.TxErrors := 7; types.TxDropped := 8 |}]};
  Stats := {| types.CPU_TotalUsage := 12345; types.Memory_Usage := 512; types.Memory_MaxUsage := 600;
              types.Memory_Limit := 1024; types.s_Networks := ∅ |};
|}.

Lemma influx_writes_witness :
  exists new p rest, sendInfluxDB (fun _ => None) {| cfg := SetConfigDefaults (empty_extension "beacon"); monitored := ∅ |} web_stat [] =
    (Val None, new) /\ writes new = [[p]; p :: rest] /\ length rest = 15.
Proof.
  destruct (influx_writes (fun _ => None) {| cfg := SetConfigDefaults (empty_extension "beacon"); monitored := ∅ |} web_stat [])
    as (new & t & p & rest & Hs & Hw & _ & Hr); [reflexivity|vm_compute; reflexivity|reflexivity..|].
  exists new, p, rest. split; [exact Hs|]. split; [exact Hw|]. rewrite Hr. reflexivity.
Defined.

Lemma new_beacon_interval_witness :
  @NewBeacon (snapshot [] ∅ ∅ {[cgroup := "4:memory:/docker/0123456789ab"]})
    (extension_of "beacon" "0s") [] =
  (Panic "non-positive interval for NewTicker", [EReadFile cgroup]).
Proof.
  apply (new_beacon_interval (H0 := snapshot [] ∅ ∅ {[cgroup := "4:memory:/docker/0123456789ab"]})
    (extension_of "beacon" "0s") "0123456789ab" [] [EReadFile cgroup] 0);
    [vm_compute; reflexivity|reflexivity|lia].
Defined.
End Witnesses.
