(* ===== verification/Collect.v ===== *)
(** * The collection of the statistics

    [collectStats] of [ext/beacon/stats.go] starts one goroutine for each
    monitored container and waits for all of them.  What one does is
    [collect] of [Beacon]; here they run at the same time, their interactions
    in any order. *)

From S2P Require Import Prelude GoStd GoTime Docker Config NodeID Beacon.

(** ** Goroutines that run at the same time *)

(** The world whose replies at the history [h] are those of [W] at [g h]. *)
Definition reindex (g : list event -> list event) (W : World) : World := {|
  reply_ContainerList h := @reply_ContainerList W (g h);
  reply_ContainerInspect h := @reply_ContainerInspect W (g h);
  reply_NetworkInspect h := @reply_NetworkInspect W (g h);
  reply_NetworkConnect h := @reply_NetworkConnect W (g h);
  reply_NetworkDisconnect h := @reply_NetworkDisconnect W (g h);
  reply_CopyToContainer h := @reply_CopyToContainer W (g h);
  reply_ContainerKill h := @reply_ContainerKill W (g h);
  reply_ContainerRestart h := @reply_ContainerRestart W (g h);
  reply_LookPath h := @reply_LookPath W (g h);
  reply_Command h := @reply_Command W (g h);
  reply_ReadFile h := @reply_ReadFile W (g h);
  reply_CacheGet h := @reply_CacheGet W (g h);
  reply_ImageList h := @reply_ImageList W (g h);
  reply_VolumeList h := @reply_VolumeList W (g h);
  reply_NetworkList h := @reply_NetworkList W (g h);
  reply_ContainerStats h := @reply_ContainerStats W (g h);
  reply_Now h := @reply_Now W (g h);
  reply_NotExist h := @reply_NotExist W (g h);
  reply_Push h := @reply_Push W (g h);
  reply_InfluxClient h := @reply_InfluxClient W (g h);
  reply_InfluxQuery h := @reply_InfluxQuery W (g h);
  reply_InfluxWrite h := @reply_InfluxWrite W (g h);
  reply_Listen h := @reply_Listen W (g h);
  reply_Events h := @reply_Events W (g h);
|}.

(** The interactions of all the goroutines, in order, each with the number of
    its goroutine. *)
Abbreviation schedule := (list (nat * event)).

(** The interactions of goroutine [i]. *)
Definition own (i : nat) (G : schedule) : list event := map snd (filter (fun x => x.1 = i) G).

(** All the interactions before number [k] of goroutine [i]. *)
Fixpoint before (i k : nat) (G : schedule) : list event :=
  match G with
  | [] => []
  | (j, e) :: G' =>
      if decide (j = i) then match k with O => [] | S k' => e :: before i k' G' end
      else e :: before i k G'
  end.

(** The world as goroutine [i] sees it: the interactions of the others are
    part of the history that the replies depend on. *)
Definition view (W : World) (h0 : list event) (G : schedule) (i : nat) : World :=
  reindex (fun h => h0 ++ before i (length h - length h0) G) W.

Section Collect.
Context {W : World}.
Context (elsewhere : string -> option (string -> bool)) (NewPoint : influx.Point -> option error).
Context (Unmarshal : option types.StatsJSON -> string -> res (option types.StatsJSON)).

(** Goroutine [i], which ranges over maps as [R] does, does [collect] for
    [id], and ends. *)
Definition collected (R : MapRange) (b : Beacon) (h0 : list event) (G : schedule) (i : nat) (id : string) : Prop :=
  @collect R (view W h0 G i) elsewhere NewPoint Unmarshal b id h0 = (Val tt, h0 ++ own i G).

(** A collection after the history [h0], with the schedule [G]: goroutine [i]
    does [collect] for the identifier number [i], and ends.  The goroutines
    need not range over their maps in the same order. *)
Record collectStats (b : Beacon) (h0 : list event) (ids : list string) (G : schedule) : Prop := {
  collect_ids : ids ≡ₚ elements (dom (monitored b) : gset string);
  collect_tags : Forall (fun x => x.1 < length ids) G;
  collect_each : forall i id, ids !! i = Some id -> exists R : MapRange, collected R b h0 G i id;
}.

(** The identifier in the labels. *)
Definition short (id : string) : string := if decide (12 <= String.length id) then String.substring 0 12 id else id.

(** ** What one goroutine sends *)

Definition no_gauge (e : event) : Prop := match e with EGaugeSet _ _ _ | EGaugeReset _ => False | _ => True end.

(** The gauges a goroutine may set. *)
Definition mine (id : string) (e : event) : Prop :=
  match e with
  | EGaugeSet _ l _ => l !! "container" = None \/ l !! "container" = Some (short id)
  | EGaugeReset _ => False
  | _ => True
  end.

Lemma no_gauge_mine id l : Forall no_gauge l -> Forall (mine id) l.
Proof. intros Hl. eapply Forall_impl; [exact Hl|]. by intros []. Qed.

(** The readings of the container [id], for some networks of its statistics. *)
Definition whole (id : string) (stat : Stat) (l : list event) : Prop :=
  ID stat = short id /\ exists nets,
    (forall n net, (n, net) ∈ nets <-> Stat_Networks stat !! n = Some net) /\ l = map set_event (readings stat nets).

(** The statistics decoded from the lines of a text, those of a line over
    those of the line before, up to a line that is not decoded. *)
Fixpoint decoded (stats : option types.StatsJSON) (lines : list string) : list types.StatsJSON :=
  match lines with
  | [] => []
  | l :: lines' =>
      match Unmarshal stats l with
      | Err _ => []
      | Ok stats => option_list stats ++ decoded stats lines'
      end
  end.

(** The name without the slash the daemon puts first. *)
Definition trimmed (name : string) : string :=
  match name with String c rest => if decide (c = "/"%char) then rest else name | EmptyString => "" end.

(** The [Stat] of the statistics [s]. *)
Record stat_for (id name : string) (config : ctypes.Config) (s : types.StatsJSON) (stat : Stat) : Prop := {
  for_id : ID stat = short id;
  for_name : Stat_Name stat = trimmed name;
  for_image : Image stat = ctypes.Image config;
  for_cpu : CPUTotalUsage stat = types.CPU_TotalUsage s;
  for_percent : MemUsagePercent stat = mem_percent s;
  for_networks : Stat_Networks stat = types.s_Networks s;
  for_stats : Stats stat = s;
}.

(** One line of a text the daemon answers with for [id] has the statistics
    [s]; the [Stat] has them all, and what an inspection tells of the
    container.  The histories of the answers satisfy [P]. *)
Definition from_text (V : World) (P : list event -> Prop) (id : string) (s : types.StatsJSON) : Prop :=
  exists h r, P h /\ @reply_ContainerStats V h id = Ok r /\ s ∈ decoded None (Bufio.Scan r).
Definition genuine (V : World) (P : list event -> Prop) (id : string) (stat : Stat) : Prop :=
  exists s h info config, from_text V P id s /\ P h /\ @reply_ContainerInspect V h (short id) = Ok info /\
    types.ci_Config info = Some config /\ stat_for id (types.ci_Name info) config s stat.

(** Some interactions whose last statistics, if any, are whole, and satisfy
    [Q]. *)
Definition sends (id : string) (Q : Stat -> Prop) (new : list event) : Prop :=
  Forall (mine id) new /\
  (Forall no_gauge new \/ exists pre stat l post, new = pre ++ l ++ post /\ whole id stat l /\ Q stat /\ Forall no_gauge post).

Lemma sends_quiet id Q l : Forall no_gauge l -> sends id Q l.
Proof. intros Hl. split; [by apply no_gauge_mine|by left]. Qed.

Lemma sends_app id Q l1 l2 : sends id Q l1 -> sends id Q l2 -> sends id Q (l1 ++ l2).
Proof.
  intros [H1 Hs1] [H2 Hs2]. split; [by apply Forall_app|].
  destruct Hs2 as [Hq|(pre & stat & l & post & -> & Hw & HQ & Hp)].
  - destruct Hs1 as [Hq1|(pre & stat & l & post & -> & Hw & HQ & Hp)]; [left; by apply Forall_app|].
    right. exists pre, stat, l, (post ++ l2). split; [by rewrite <- !app_assoc|]. split_and!; [done..|by apply Forall_app].
  - right. exists (l1 ++ pre), stat, l, post. split; [by rewrite <- !app_assoc|done].
Qed.

Lemma whole_mine id stat l : whole id stat l -> Forall (mine id) l.
Proof.
  intros [Hid (nets & _ & ->)]. apply Forall_map, Forall_app. unfold mine. rewrite <- Hid. split.
  - repeat (apply Forall_cons; split; [first [by left|by right]|]). constructor.
  - apply Forall_forall. intros r Hr. apply list_elem_of_In, in_flat_map in Hr as ([n net] & _ & Hr%list_elem_of_In).
    revert r Hr. apply Forall_forall. repeat (apply Forall_cons; split; [by right|]). constructor.
Qed.

Section One.
Context {R : MapRange} {V : World}.
Context (b : Beacon) (Hprom : StatsBackendType (cfg b) = "prometheus").

(** Every run that returns has the property. *)
Definition when_done {A} (m : M A) (P : list event -> Prop) : Prop :=
  forall h, wp m h (fun o new => match o with Val _ => P new | _ => True end).

Context (id : string) (Q : Stat -> Prop).
#[local] Abbreviation done_sending m := (when_done m (sends id Q)).

Lemma when_done_bind {A B} (m : M A) (f : A -> M B) :
  done_sending m -> (forall a, done_sending (f a)) -> done_sending (m ≫= f).
Proof.
  intros Hm Hf h. apply wp_bind. eapply wp_mono; [apply Hm|]. intros [a|w|w] new Hn; [|done..].
  eapply wp_mono; [apply Hf|]. intros [c|w|w] new' Hn'; [|done..]. by apply sends_app.
Qed.
Lemma when_done_ret {A} (a : A) : done_sending (mret a).
Proof. intros h. apply wp_ret, sends_quiet. constructor. Qed.
Lemma when_done_pure {A} (o : outcome A) : done_sending (pure o).
Proof. intros h. apply wp_pure. destruct o; [apply sends_quiet; constructor|done..]. Qed.
Lemma when_done_pure_bind {A B} (o : outcome A) (f : A -> M B) :
  (forall a, o = Val a -> done_sending (f a)) -> done_sending (pure o ≫= f).
Proof.
  intros Hf h. apply wp_bind, wp_pure. destruct o as [a|w|w]; [|done..]. rewrite app_nil_r. eapply wp_mono; [by apply Hf|].
  by intros [c|w|w] new.
Qed.
Lemma when_done_tick : done_sending tick.
Proof. intros h. apply wp_tick, sends_quiet. constructor. Qed.
Lemma when_done_call {A} e (reply : list event -> A) : no_gauge e -> done_sending (call e reply).
Proof. intros He h. apply wp_call, sends_quiet. by repeat constructor. Qed.
Lemma when_done_call_bind {A B} e (reply : list event -> A) (f : A -> M B) :
  no_gauge e -> (forall h, done_sending (f (reply h))) -> done_sending (call e reply ≫= f).
Proof.
  intros He Hf h. apply wp_bind, wp_call. eapply wp_mono; [apply Hf|]. intros [c|w|w] new Hn; [|done..].
  apply (sends_app id Q [e]); [|done]. apply sends_quiet. by repeat constructor.
Qed.
Create HintDb sends.
#[local] Hint Resolve when_done_bind when_done_ret when_done_pure when_done_tick : sends.
#[local] Hint Extern 1 (when_done (call _ _) _) => apply when_done_call; exact I : sends.

Lemma send_stat_sends s : ID s = short id -> Q s -> done_sending (send_stat NewPoint b s).
Proof.
  intros Hid HQ h. unfold send_stat. rewrite (decide_True _ _ Hprom). destruct (sendPrometheus_at s h) as [t Ht].
  eexists. rewrite Ht. split; [reflexivity|]. cbn [fst].
  assert (Hw : whole id s (map set_event (readings s (range "sendPrometheus" t (Stat_Networks s))))).
  { split; [done|]. eexists. split; [|reflexivity]. intros; apply elem_of_range. }
  split; [by eapply whole_mine|]. right. eexists [], s, _, []. by rewrite app_nil_r.
Qed.

(** What is sent has the statistics [s] and what an inspection tells. *)
Definition sent (T : types.StatsJSON -> Prop) (stat : Stat) : Prop :=
  exists s h info config, T s /\ reply_ContainerInspect h (short id) = Ok info /\
    types.ci_Config info = Some config /\ stat_for id (types.ci_Name info) config s stat.

Context (T : types.StatsJSON -> Prop) (HQ : forall stat, sent T stat -> Q stat).

Lemma sendContainerStats_sends stats :
  (forall s, stats = Some s -> T s) -> done_sending (sendContainerStats NewPoint b id stats).
Proof.
  intros HT. unfold sendContainerStats, ContainerList, ContainerInspect, ImageList, VolumeList, NetworkList. fold (short id).
  apply when_done_bind; [auto with sends|]. intros [cs|e]; [|auto with sends].
  apply when_done_call_bind; [done|]. intros h.
  destruct (reply_ContainerInspect h (short id)) as [info|e] eqn:Hi; [|auto with sends].
  apply when_done_pure_bind. intros config Hc.
  apply when_done_pure_bind. intros name Hn.
  apply when_done_bind; [auto with sends|]. intros [images|e]; [|auto with sends].
  apply when_done_bind; [auto with sends|]. intros [volumes|e]; [|auto with sends].
  apply when_done_bind; [auto with sends|]. intros [networks|e]; [|auto with sends].
  apply when_done_pure_bind. intros s Hs. apply send_stat_sends; [done|]. apply HQ.
  assert (stats = Some s) as -> by (by destruct stats; simplify_eq/=).
  exists s, h, info, config. split; [by apply HT|]. split; [done|]. split; [by destruct (types.ci_Config info); simplify_eq/=|].
  split; try done. simpl. destruct (types.ci_Name info) as [|c rest]; [done|]. by injection Hn.
Qed.

Lemma scan_stats_sends stats lines :
  (forall s, s ∈ decoded stats lines -> T s) -> done_sending (scan_stats NewPoint Unmarshal b id stats lines).
Proof.
  revert stats. induction lines as [|l lines IH]; intros stats HT; simpl in *; [auto with sends|].
  destruct (Unmarshal stats l) as [st|e]; [|auto with sends].
  apply when_done_bind; [|intros _; apply IH; intros s Hs; apply HT, elem_of_app; by right].
  apply sendContainerStats_sends. intros s ->. apply HT, elem_of_app. left. by left.
Qed.
End One.

Lemma collect_sends {R : MapRange} {V : World} b id :
  StatsBackendType (cfg b) = "prometheus" ->
  when_done (collect elsewhere NewPoint Unmarshal b id) (sends id (genuine V (fun _ => True) id)).
Proof.
  intros Hprom. unfold collect, ContainerInspect, ContainerStats, SendBeaconErr.
  apply when_done_bind; [by apply when_done_call|]. intros [c|e]; [|by apply when_done_call].
  apply when_done_bind; [apply when_done_pure|]. intros config.
  apply when_done_bind; [apply when_done_tick|]. intros t.
  apply when_done_bind; [apply when_done_pure|]. intros []; [|apply when_done_ret].
  apply when_done_call_bind; [done|]. intros h.
  destruct (reply_ContainerStats h id) as [r|e] eqn:Hr; [|apply when_done_ret].
  apply (scan_stats_sends b Hprom id _ (from_text V (fun _ => True) id)).
  - intros stat (s & h' & info & config' & Hs & Hi & Hc & Hf). exists s, h', info, config'. by split_and!.
  - intros s Hs. by exists h, r.
Qed.

(** ** The gauges after a collection *)

(** A gauge the other goroutines do not touch reads what its own leaves. *)
Lemma own_gauge name labels i (G : schedule) o :
  (forall o j e, (j, e) ∈ G -> j <> i -> gauge_step name labels o e = o) ->
  fold_left (gauge_step name labels) (map snd G) o = fold_left (gauge_step name labels) (own i G) o.
Proof.
  unfold own. revert o. induction G as [|[j e] G IH]; intros o Ho; [done|].
  rewrite filter_cons. simpl. case_decide as Hj; simpl.
  - apply IH. intros o' j' e' Hin. apply Ho. by right.
  - rewrite (Ho o j e) by (done || left). apply IH. intros o' j' e' Hin. apply Ho. by right.
Qed.

Lemma mine_own id i G : Forall (mine id) (own i G) -> forall e, (i, e) ∈ G -> mine id e.
Proof.
  rewrite Forall_forall. intros Hm e Hin. apply Hm. unfold own. apply list_elem_of_fmap.
  exists (i, e). split; [done|]. by apply list_elem_of_filter.
Qed.

Lemma fold_no_gauge name labels l o : Forall no_gauge l -> fold_left (gauge_step name labels) l o = o.
Proof. intros Hl. revert o. induction Hl as [|e l He Hl IH]; intros o; [done|]. simpl. rewrite IH. by destruct e. Qed.

Context (b : Beacon) (Hprom : StatsBackendType (cfg b) = "prometheus").
Context (h0 : list event) (ids : list string) (G : schedule).

(** The goroutines have ended, and the other interactions of the schedule set
    no gauge. *)
Definition goroutines : Prop := forall i id, ids !! i = Some id -> exists R : MapRange, collected R b h0 G i id.
Definition others_quiet : Prop := Forall (fun x => x.1 < length ids \/ no_gauge x.2) G.

Lemma before_prefix i k : before i k G `prefix_of` map snd G.
Proof.
  revert k. induction G as [|[j e] G' IH]; intros k; simpl; [done|].
  case_decide; [destruct k; [apply prefix_nil|]|]; by apply prefix_cons.
Qed.

(** What a goroutine sends comes from answers to the collection. *)
Lemma own_sends i id :
  goroutines -> ids !! i = Some id -> sends id (genuine W (fun h => h `prefix_of` h0 ++ map snd G) id) (own i G).
Proof.
  intros Heach Hi. destruct (Heach i id Hi) as [R Hr]. unfold collected in Hr.
  destruct (@collect_sends R (view W h0 G i) b id Hprom h0) as (new & Hh & Hn).
  rewrite Hr in Hh, Hn. simpl in Hh, Hn. apply app_inv_head in Hh as <-.
  assert (Hp : forall h : list event, h0 ++ before i (length h - length h0) G `prefix_of` h0 ++ map snd G)
    by (intros h; apply prefix_app, before_prefix).
  destruct Hn as [Hm Hs]. split; [done|]. destruct Hs as [Hq|(pre & stat & l & post & Heq & Hw & Hg & Hq)]; [by left|right].
  exists pre, stat, l, post. split_and!; try done.
  destruct Hg as (s & h & info & config & (h' & r & _ & Hst & Hin) & _ & Hinfo & Hc & Hf).
  eexists s, _, info, config. split; [|split; [apply (Hp h)|done]]. eexists _, r. split; [apply (Hp h')|done].
Qed.

(** The gauges of a container read what its own goroutine leaves. *)
Lemma isolated i id g labels :
  goroutines -> others_quiet -> NoDup (map short ids) -> ids !! i = Some id -> labels !! "container" = Some (short id) ->
  gauge (h0 ++ map snd G) g labels = gauge (h0 ++ own i G) g labels.
Proof.
  intros Hc Ht Hnd Hi Hl. unfold gauge. rewrite !fold_left_app. apply own_gauge.
  intros o j e Hin Hj. unfold others_quiet in Ht. rewrite Forall_forall in Ht.
  destruct (Ht _ Hin) as [Hlt|Hq]; [|by destruct e]. destruct (lookup_lt_is_Some_2 ids j Hlt) as [id' Hid'].
  destruct (own_sends j id' Hc Hid') as [Hm _]. pose proof (mine_own id' j G Hm e Hin) as He.
  destruct e; simpl in *; try done. rewrite decide_False; [done|]. intros [_ ->].
  destruct He as [He|He]; rewrite Hl in He; [done|]. injection He as Heq.
  apply Hj. eapply (NoDup_lookup (map short ids)); [done| |]; rewrite list_lookup_fmap, ?Hid', ?Hi; simpl; by rewrite ?Heq.
Qed.

(** The gauges read the last statistics of the container, if they are whole. *)
Lemma whole_gauges i id pre stat l post g labels v :
  goroutines -> others_quiet -> NoDup (map short ids) -> ids !! i = Some id ->
  own i G = pre ++ l ++ post -> whole id stat l -> Forall no_gauge post ->
  (g, labels, v) ∈ readings stat (map_to_list (Stat_Networks stat)) ->
  labels !! "container" = Some (short id) -> gauge (h0 ++ map snd G) g labels = Some v.
Proof.
  intros Hc Ht Hnd Hi Heq [_ (nets & Hnets & ->)] Hq Hin Hl.
  rewrite (isolated i id g labels Hc Ht Hnd Hi Hl), Heq, !app_assoc.
  unfold gauge. rewrite fold_left_app, fold_no_gauge by done. rewrite <- (app_assoc h0), app_assoc.
  apply (gauge_read (h0 ++ pre) (readings stat nets)).
  - apply readings_consistent. intros. by apply Hnets.
  - unfold readings in *. apply elem_of_app in Hin as [Hin|Hin]; apply elem_of_app; [by left|right].
    apply list_elem_of_In, in_flat_map in Hin as ([n net] & Hn & Hr). apply list_elem_of_In, in_flat_map.
    exists (n, net). split; [|done]. apply list_elem_of_In, Hnets. by apply elem_of_map_to_list, list_elem_of_In.
Qed.

(** C25: Whatever the order of the goroutines and the answers of the daemon, the
    statistics of a container are never torn: after a collection its gauges
    are as they were, or they all read what one decoded line says of a text
    the daemon has answered with for this container, under the name and the
    image of one inspection of it.  Twelve characters tell the containers
    apart, and the backend is prometheus. *)
Theorem no_torn_statistics i id :
  collectStats b h0 ids G -> NoDup (map short ids) -> ids !! i = Some id ->
  (forall g labels, labels !! "container" = Some (short id) -> gauge (h0 ++ map snd G) g labels = gauge h0 g labels) \/
  exists stat, genuine W (fun h => h `prefix_of` h0 ++ map snd G) id stat /\
    forall g labels v, (g, labels, v) ∈ readings stat (map_to_list (Stat_Networks stat)) ->
      labels !! "container" = Some (short id) -> gauge (h0 ++ map snd G) g labels = Some v.
Proof.
  intros [_ Htags Hc] Hnd Hi.
  assert (Ht : others_quiet) by (eapply Forall_impl; [exact Htags|]; by left).
  destruct (own_sends i id Hc Hi) as [_ [Hq|(pre & stat & l & post & Heq & Hw & Hg & Hq)]].
  - left. intros g labels Hl. rewrite (isolated i id g labels Hc Ht Hnd Hi Hl). unfold gauge.
    by rewrite fold_left_app, (fold_no_gauge _ _ (own i G)).
  - right. exists stat. split; [exact Hg|]. intros g labels v. by apply (whole_gauges i id pre stat l post).
Qed.
End Collect.

(** ** Witnesses *)

Section Witnesses.
Import Cluster.

(** A daemon that counts one more image and network at each listing, and
    answers with the same statistics. *)
Definition listings (p : event -> bool) (h : list event) : nat := length (List.filter p h).
Definition counting (answer : string) : World := {|
  reply_ContainerList := @reply_ContainerList cluster;
  reply_ContainerInspect _ id := if decide (id = "aaaaaaaaaaaa") then Ok web_info else Ok api_info;
  reply_NetworkInspect := @reply_NetworkInspect cluster;
  reply_NetworkConnect := @reply_NetworkConnect cluster;
  reply_NetworkDisconnect := @reply_NetworkDisconnect cluster;
  reply_CopyToContainer := @reply_CopyToContainer cluster;
  reply_ContainerKill := @reply_ContainerKill cluster;
  reply_ContainerRestart := @reply_ContainerRestart cluster;
  reply_LookPath := @reply_LookPath cluster;
  reply_Command := @reply_Command cluster;
  reply_ReadFile := @reply_ReadFile cluster;
  reply_CacheGet := @reply_CacheGet cluster;
  reply_ImageList h := Ok (S (listings (fun e => match e with EImageList => true | _ => false end) h));
  reply_VolumeList := @reply_VolumeList cluster;
  reply_NetworkList h := Ok (S (listings (fun e => match e with ENetworkList => true | _ => false end) h));
  reply_ContainerStats _ _ := Ok answer;
  reply_Now := @reply_Now cluster;
  reply_NotExist := @reply_NotExist cluster;
  reply_Push := @reply_Push cluster;
  reply_InfluxClient := @reply_InfluxClient cluster;
  reply_InfluxQuery := @reply_InfluxQuery cluster;
  reply_InfluxWrite := @reply_InfluxWrite cluster;
  reply_Listen := @reply_Listen cluster;
  reply_Events := @reply_Events cluster;
|}.

(** All images are selected, and the statistics of a line are fixed. *)
Definition all_rules : Beacon := {|
  cfg := SetConfigDefaults (set_Rules {["r" := {| Rule_Type := "image"; Rule_Regex := "" |}]} (empty_extension "beacon"));
  monitored := {["aaaaaaaaaaaa" := 1%Z; "bbbbbbbbbbbb" := 1%Z]} |}.
Definition fixed_stats (_ : option types.StatsJSON) (_ : string) : res (option types.StatsJSON) := Ok (Some (Stats web_stat)).

Section Torn.
Context (answer : string) (Unmarshal : option types.StatsJSON -> string -> res (option types.StatsJSON)).

Definition one_alone (skip : list event) (id : string) : list event :=
  drop (length skip) (@collect sorted_range (counting answer) nothing_else (fun _ => None) Unmarshal all_rules id skip).2.
Definition first_alone : list event := one_alone [] "aaaaaaaaaaaa".
Definition second_alone : list event := one_alone [EImageList; ENetworkList] "bbbbbbbbbbbb".

(** Both goroutines ask the daemon, the first one first; then they set the
    gauges in turn, and the second sets the totals of images before the first. *)
Definition torn : schedule :=
  let f := map (pair 0) first_alone in let s := map (pair 1) second_alone in
  take 8 f ++ take 9 s ++ drop 8 f ++ drop 9 s.

End Torn.

Lemma torn_collects :
  @collectStats (counting "{}") nothing_else (fun _ => None) fixed_stats all_rules [] ["aaaaaaaaaaaa"; "bbbbbbbbbbbb"]
    (torn "{}" fixed_stats).
Proof.
  split.
  - apply (bool_decide_unpack _). vm_compute. exact I.
  - apply (bool_decide_unpack _). vm_compute. exact I.
  - intros [|[|i]] id [= <-]; exists sorted_range; vm_compute; reflexivity.
Qed.

Lemma no_torn_statistics_witness :
  exists stat, ID stat = "bbbbbbbbbbbb" /\
    gauge (map snd (torn "{}" fixed_stats)) counterCpuTotalUsage (container_labels stat "cpu") = Some (Float64.of_Z (CPUTotalUsage stat)).
Proof.
  destruct (no_torn_statistics nothing_else (fun _ => None) fixed_stats all_rules eq_refl [] ["aaaaaaaaaaaa"; "bbbbbbbbbbbb"] (torn "{}" fixed_stats)
    1 "bbbbbbbbbbbb" torn_collects) as [Hno|(stat & Hg & Hr)].
  - apply (bool_decide_unpack _). vm_compute. exact I.
  - reflexivity.
  - exfalso.
    assert (Hg : is_Some (gauge (map snd (torn "{}" fixed_stats)) counterCpuTotalUsage
      {["container" := "bbbbbbbbbbbb"; "image" := "api:latest"; "name" := "api"; "type" := "cpu"]})) by (vm_compute; by eexists).
    pose proof (Hno counterCpuTotalUsage {["container" := "bbbbbbbbbbbb"; "image" := "api:latest"; "name" := "api"; "type" := "cpu"]} eq_refl) as Hg'.
    simpl app in Hg'. rewrite Hg' in Hg. by destruct Hg.
  - destruct Hg as (s & h & info & config & _ & _ & _ & _ & Hf). exists stat. split; [apply Hf|].
    apply (Hr counterCpuTotalUsage (container_labels stat "cpu")).
    + do 4 right. left.
    + unfold container_labels. by rewrite lookup_insert_eq, (for_id _ _ _ _ _ Hf).
Defined.

(** The gauges of the totals can be torn: here the images are those the first
    goroutine has counted, and the networks those of the second. *)
Example totals_torn :
  gauge (map snd (torn "{}" fixed_stats)) counterTotalImages {["type" := "totals"]} = Some (Float64.of_Z 1) /\
  gauge (map snd (torn "{}" fixed_stats)) counterTotalNetworks {["type" := "totals"]} = Some (Float64.of_Z 2).
Proof. split; vm_compute; reflexivity. Qed.
End Witnesses.
