(* ===== verification/Poller.v ===== *)
(** * The poller of the server

    [runPoller] of [server/server.go]: without the event stream, the server
    lists the containers at an interval and makes an event when the digest
    of their identifiers and public ports changes. *)

From stdpp Require Import sorting.
From S2P Require Import Prelude GoStd GoTime Docker.

(** The texts the digest is of. *)
Definition containerIDs (cs : list types.Container) : list string := map types.c_ID cs.
Definition ports (cs : list types.Container) : list Z := flat_map types.c_Ports cs.
Definition payload (cs : list types.Container) : string :=
  Json.strings (Sort.Strings (containerIDs cs)) +:+ Json.ints (Sort.Ints (ports cs)).
Definition digest (cs : list types.Container) : string := Sha256.Sum (payload cs).

Definition restart_message (t : Z) : etypes.Message := {|
  etypes.Status := "interlock-restart"; etypes.ID := Strconv.Itoa t;
  etypes.Type_ := ""; etypes.Action := ""; etypes.Actor_Attributes := ∅ |}.

Section Poller.
Context `{World}.

(** One tick: [containerHash] is the field of the server, before and after.
    Neither list can fail to be marshalled. *)
Definition poll (containerHash : string) : M string :=
  containers ← ContainerList false;
  match containers with
  | Err _ => mret containerHash
  | Ok containers =>
      let sum := digest containers in
      if decide (sum <> containerHash) then
        (* trigger update *)
        t ← Now;
        _ ← SendEvent (Some (restart_message t));
        mret sum
      else mret containerHash
  end.

Fixpoint polls (n : nat) (containerHash : string) : M string :=
  match n with
  | O => mret containerHash
  | S n' => hash ← poll containerHash; polls n' hash
  end.
End Poller.

(** ** What the digest depends on *)

Lemma payload_perm cs cs' :
  containerIDs cs ≡ₚ containerIDs cs' -> ports cs ≡ₚ ports cs' -> payload cs = payload cs'.
Proof. intros Hi Hp. unfold payload. by rewrite (proj1 (Sort.Strings_perm _ _) Hi), (proj1 (Sort.Ints_perm _ _) Hp). Qed.

(** Characters a JSON string holds as they are, and which end no list. *)
Definition plain (c : ascii) : Prop :=
  Json.escape c = String c EmptyString /\ c <> ascii_of_nat 34 /\ c <> "]"%char.
Fixpoint plain_string (s : string) : Prop :=
  match s with EmptyString => True | String c s' => plain c /\ plain_string s' end.

Lemma escapes_plain s : plain_string s -> Json.escapes s = s.
Proof.
  induction s as [|c s IH]; [done|]. intros [(Hc & _ & _) Hs]. cbn [Json.escapes]. rewrite Hc, IH by done.
  by rewrite sapp_cons, sapp_nil_l.
Qed.

Lemma plain_lacks c s : (c = ascii_of_nat 34 \/ c = "]"%char) -> plain_string s -> NetFacts.lacks c s.
Proof.
  intros Hc. induction s as [|c' s IH]; [done|]. intros [(_ & H1 & H2) Hs].
  split; [by destruct Hc as [->| ->]|by apply IH].
Qed.

(** Where a string is cut by a character it lacks. *)
Lemma cut_inj c s1 s2 t1 t2 :
  NetFacts.lacks c s1 -> NetFacts.lacks c s2 -> s1 +:+ String c t1 = s2 +:+ String c t2 -> s1 = s2 /\ t1 = t2.
Proof.
  revert s2. induction s1 as [|c1 s1 IH]; intros [|c2 s2] H1 H2; rewrite ?sapp_nil_l, ?sapp_cons; intros Heq; injection Heq.
  - done.
  - intros _ <-. by destruct H2.
  - intros _ ->. by destruct H1.
  - intros Ht <-. destruct H1 as [_ H1], H2 as [_ H2]. destruct (IH s2 H1 H2 Ht) as [-> ->]. done.
Qed.

Lemma join_quotes_inj l1 l2 :
  Forall plain_string l1 -> Forall plain_string l2 ->
  Strings.Join (map Json.quote l1) "," = Strings.Join (map Json.quote l2) "," -> l1 = l2.
Proof.
  intros H1. revert l2. induction H1 as [|w1 l1 Hw1 H1 IH]; intros l2 H2.
  - destruct H2 as [|w2 l2 Hw2 H2]; [done|]. intros Heq. exfalso. destruct l2; discriminate Heq.
  - destruct H2 as [|w2 l2 Hw2 H2]; [intros Heq; exfalso; destruct l1; discriminate Heq|].
    assert (Hq : forall w t, plain_string w -> Json.quote w +:+ t = String (ascii_of_nat 34) (w +:+ String (ascii_of_nat 34) t)).
    { intros w t Hw. unfold Json.quote, dquote. rewrite escapes_plain by done.
      rewrite sapp_cons, sapp_nil_l, sapp_cons, sapp_assoc. by rewrite sapp_cons, sapp_nil_l. }
    assert (Hj : forall w l, plain_string w -> Strings.Join (map Json.quote (w :: l)) "," =
      String (ascii_of_nat 34) (w +:+ String (ascii_of_nat 34)
        (match l with [] => "" | _ => String ","%char (Strings.Join (map Json.quote l) ",") end))).
    { intros w [|w' l] Hw; [cbn [map Strings.Join]; by rewrite <- (sapp_nil_r (Json.quote w)), Hq|].
      change (Strings.Join (map Json.quote (w :: w' :: l)) ",") with
        (Json.quote w +:+ "," +:+ Strings.Join (map Json.quote (w' :: l)) ",").
      by rewrite Hq, sapp_cons, sapp_nil_l. }
    rewrite !Hj by done. intros Heq. injection Heq as Heq.
    apply cut_inj in Heq as [-> Heq]; [|by apply plain_lacks; [left|]..].
    f_equal. destruct l1, l2; [done|discriminate Heq..|]. injection Heq as Heq. by apply IH.
Qed.

Lemma Itoa_inj x y : (- 2 ^ 63 <= x < 2 ^ 63)%Z -> (- 2 ^ 63 <= y < 2 ^ 63)%Z -> Strconv.Itoa x = Strconv.Itoa y -> x = y.
Proof.
  intros Hx Hy Heq. apply StrconvFacts.Atoi_Itoa in Hx, Hy. rewrite Heq in Hx. congruence.
Qed.

Lemma join_strings_lacks l : Forall plain_string l -> NetFacts.lacks "]" (Strings.Join (map Json.quote l) ",").
Proof.
  assert (Hq : forall w, plain_string w -> NetFacts.lacks "]" (Json.quote w)).
  { intros w Hw. unfold Json.quote. rewrite escapes_plain by done.
    apply NetFacts.lacks_app; [done|apply NetFacts.lacks_app; [|done]]. apply plain_lacks; auto. }
  induction 1 as [|w [|w' l] Hw Hl IH]; [done|by apply Hq|].
  change (NetFacts.lacks "]" (Json.quote w +:+ "," +:+ Strings.Join (map Json.quote (w' :: l)) ",")).
  apply NetFacts.lacks_app; [by apply Hq|]. apply NetFacts.lacks_app; [done|exact IH].
Qed.

Lemma Itoa_lacks z c : digit_value c = None -> c <> "-"%char -> NetFacts.lacks c (Strconv.Itoa z).
Proof.
  intros Hc Hm.
  assert (Hd : forall s, StrconvFacts.all_digits s -> NetFacts.lacks c s).
  { induction s as [|c' s IH]; [done|]. intros [Hc' Hs]. split; [|by apply IH]. intros ->. destruct Hc'. congruence. }
  destruct (decide (0 <= z)%Z).
  - rewrite StrconvFacts.Itoa_nonneg by done.
    destruct (StrconvFacts.pretty_digits (Z.to_N z)) as (? & ? & -> & ?). by apply Hd.
  - rewrite StrconvFacts.Itoa_neg by lia.
    destruct (StrconvFacts.pretty_digits (Z.to_N (- z))) as (? & ? & -> & ?).
    rewrite sapp_cons. split; [done|]. rewrite sapp_nil_l. by apply Hd.
Qed.

Lemma cut_differs c d s1 s2 t1 t2 :
  NetFacts.lacks d s1 -> NetFacts.lacks c s2 -> c <> d -> s1 +:+ String c t1 <> s2 +:+ String d t2.
Proof.
  intros H1 H2 Hne. revert s2 H2. induction s1 as [|c1 s1 IH]; intros [|c2 s2] H2;
    rewrite ?sapp_nil_l, ?sapp_cons; intros Heq; injection Heq.
  - done.
  - intros _ <-. by destruct H2.
  - intros _ ->. by destruct H1.
  - intros Ht <-. destruct H1 as [_ H1], H2 as [_ H2]. by apply (IH H1 s2).
Qed.

Lemma Itoa_not_empty z : Strconv.Itoa z <> "".
Proof.
  destruct (decide (0 <= z)%Z).
  - rewrite StrconvFacts.Itoa_nonneg by done.
    by destruct (StrconvFacts.pretty_digits (Z.to_N z)) as (? & ? & -> & _).
  - by rewrite StrconvFacts.Itoa_neg, sapp_cons by lia.
Qed.

Definition int64 (z : Z) : Prop := (- 2 ^ 63 <= z < 2 ^ 63)%Z.

Lemma join_ints_inj l1 l2 :
  Forall int64 l1 -> Forall int64 l2 ->
  Strings.Join (map Strconv.Itoa l1) "," +:+ "]" = Strings.Join (map Strconv.Itoa l2) "," +:+ "]" -> l1 = l2.
Proof.
  assert (Hj : forall z l, Strings.Join (map Strconv.Itoa (z :: l)) "," +:+ "]" =
    Strconv.Itoa z +:+ match l with [] => "]" | _ => String ","%char (Strings.Join (map Strconv.Itoa l) "," +:+ "]") end).
  { intros z [|z' l]; [done|].
    change (Strings.Join (map Strconv.Itoa (z :: z' :: l)) ",") with
      (Strconv.Itoa z +:+ "," +:+ Strings.Join (map Strconv.Itoa (z' :: l)) ",").
    by rewrite !sapp_assoc, sapp_cons, sapp_nil_l. }
  assert (Hcomma : forall z, NetFacts.lacks "," (Strconv.Itoa z)) by (intros; by apply Itoa_lacks).
  assert (Hbr : forall z, NetFacts.lacks "]" (Strconv.Itoa z)) by (intros; by apply Itoa_lacks).
  assert (Hne : forall z t, "]" <> Strconv.Itoa z +:+ t).
  { intros z t Heq. pose proof (Itoa_not_empty z). specialize (Hbr z).
    destruct (Strconv.Itoa z); [done|]. injection Heq as <-. by destruct Hbr. }
  intros H1. revert l2. induction H1 as [|z1 l1 Hz1 H1 IH]; intros l2 H2.
  - destruct H2 as [|z2 l2 Hz2 H2]; [done|]. rewrite Hj. intros Heq. by apply Hne in Heq.
  - destruct H2 as [|z2 l2 Hz2 H2]; rewrite !Hj; [intros Heq; symmetry in Heq; by apply Hne in Heq|].
    destruct l1 as [|z1' l1], l2 as [|z2' l2]; intros Heq.
    + apply cut_inj in Heq as [Heq _]; [|done..]. by apply Itoa_inj in Heq as ->.
    + exfalso. by eapply cut_differs in Heq.
    + exfalso. by eapply cut_differs in Heq.
    + apply cut_inj in Heq as [Heq Ht]; [|done..]. apply Itoa_inj in Heq as ->; [|done..]. f_equal. by apply IH.
Qed.

(** What the digest is to tell apart, for identifiers a JSON string holds as
    they are (those of Docker are hexadecimal). *)
Definition well_formed (cs : list types.Container) : Prop :=
  Forall plain_string (containerIDs cs) /\ Forall int64 (ports cs).
Definition same (cs cs' : list types.Container) : Prop :=
  containerIDs cs ≡ₚ containerIDs cs' /\ ports cs ≡ₚ ports cs'.
#[export] Instance same_dec cs cs' : Decision (same cs cs').
Proof. unfold same. apply _. Defined.

Lemma payload_inj cs cs' : well_formed cs -> well_formed cs' -> payload cs = payload cs' -> same cs cs'.
Proof.
  assert (Hi : forall cs, well_formed cs -> Forall plain_string (Sort.Strings (containerIDs cs))).
  { intros ? [H _]. unfold Sort.Strings. by rewrite merge_sort_Permutation. }
  assert (Hp : forall cs, well_formed cs -> Forall int64 (Sort.Ints (ports cs))).
  { intros ? [_ H]. unfold Sort.Ints. by rewrite merge_sort_Permutation. }
  intros H H' Heq. unfold payload, Json.strings, Json.ints in Heq.
  rewrite !sapp_cons, !sapp_nil_l, !sapp_assoc, !sapp_cons, !sapp_nil_l in Heq.
  injection Heq as Heq. apply cut_inj in Heq as [Hids Hports]; [|by apply join_strings_lacks, Hi..].
  injection Hports as Hports.
  split; [apply Sort.Strings_perm|apply Sort.Ints_perm].
  - apply join_quotes_inj; auto.
  - apply join_ints_inj; auto.
Qed.

(** ** Theorems *)

Section Facts.
Context `{World}.

Lemma poll_at containerHash h :
  poll containerHash h =
  match reply_ContainerList h false with
  | Ok cs =>
      if decide (digest cs = containerHash) then (Val containerHash, h ++ [EContainerList false])
      else
        let h1 := h ++ [EContainerList false] in
        (Val (digest cs), h1 ++ [ENow; EEventChan (Some (restart_message (reply_Now h1)))])
  | Err _ => (Val containerHash, h ++ [EContainerList false])
  end.
Proof.
  unfold poll, ContainerList, call. rewrite bind_at. destruct (reply_ContainerList h false) as [cs|e]; [|done].
  cbv zeta. repeat case_decide; try done. unfold Now, SendEvent, call. rewrite !bind_at.
  by rewrite <- (app_assoc _ [ENow]).
Qed.

(** C23: A tick makes an event exactly when the running containers or their
    public ports are not those of the last digest, whatever the order of the
    lists, if SHA-256 tells the two texts apart; the digest kept is that of
    the containers seen. *)
Theorem poll_detects old new h :
  reply_ContainerList h false = Ok new -> well_formed old -> well_formed new ->
  (digest old = digest new -> payload old = payload new) ->
  let h1 := h ++ [EContainerList false] in
  poll (digest old) h =
  (Val (digest new),
   h1 ++ if decide (same old new) then [] else [ENow; EEventChan (Some (restart_message (reply_Now h1)))]).
Proof.
  intros Hr Ho Hn Hc h1. rewrite poll_at, Hr. destruct (decide (digest new = digest old)) as [Hd|Hd].
  - rewrite decide_True by auto using payload_inj. by rewrite app_nil_r, Hd.
  - rewrite decide_False; [done|]. intros [Hi Hp]. apply Hd. unfold digest. by rewrite (payload_perm old new).
Qed.

(** The poller settles: from its start, in a cluster that does not change, it
    makes one event at the first tick and none later. *)
Theorem polls_settle cs n h :
  (forall h, reply_ContainerList h false = Ok cs) ->
  exists t, polls (S n) "" h =
  (Val (digest cs),
   h ++ [EContainerList false; ENow; EEventChan (Some (restart_message t))] ++ replicate n (EContainerList false)).
Proof.
  intros Hcs. exists (reply_Now (h ++ [EContainerList false])).
  cbn [polls]. rewrite bind_at, poll_at, Hcs.
  rewrite decide_False by (intros Hd; pose proof (Sha256.Sum_length (payload cs)) as Hl; unfold digest in Hd; by rewrite Hd in Hl).
  cbv zeta. rewrite <- app_assoc. change ([EContainerList false] ++ [ENow; ?e]) with [EContainerList false; ENow; e].
  rewrite app_assoc. generalize (h ++ [EContainerList false; ENow; EEventChan (Some (restart_message (reply_Now (h ++ [EContainerList false]))))]).
  induction n as [|n IH]; intros h1; [by rewrite app_nil_r|].
  cbn [polls replicate]. rewrite bind_at, poll_at, Hcs, decide_True by done. rewrite IH, <- app_assoc. done.
Qed.
End Facts.

(** ** Witnesses *)

Lemma poll_detects_witness :
  exists t, @poll Cluster.cluster (digest [Cluster.web]) [] =
  (Val (digest [Cluster.web; Cluster.api; Cluster.proxy]),
   [EContainerList false; ENow; EEventChan (Some (restart_message t))]).
Proof.
  eexists.
  rewrite (@poll_detects Cluster.cluster [Cluster.web] [Cluster.web; Cluster.api; Cluster.proxy] []).
  - rewrite decide_False by (intros [Hp _]; by apply Permutation_length in Hp). reflexivity.
  - reflexivity.
  - split; repeat constructor; try discriminate; lia.
  - split; repeat constructor; try discriminate; lia.
  - intros Hd. exfalso. revert Hd. vm_compute. discriminate.
Defined.

Lemma polls_settle_witness :
  exists t, (@polls Cluster.cluster 3 "" []).2 =
  [EContainerList false; ENow; EEventChan (Some (restart_message t)); EContainerList false; EContainerList false].
Proof.
  destruct (@polls_settle Cluster.cluster [Cluster.web; Cluster.api; Cluster.proxy] 2 []) as [t Ht]; [reflexivity|].
  exists t. by rewrite Ht.
Defined.
