(* ===== verification/Extensions.v ===== *)
(** * Extensions

    The interface [Extension] of [ext/ext.go], its two implementations, and
    the creation of a load balancer ([NewLoadBalancer] of [ext/lb/lb.go]; the
    goroutines it starts are those of [LoadBalancer] and [Debounce]). *)

From S2P Require Import Prelude GoStd GoTime Docker Labels Config Network Nginx HAProxy NodeID Backends LoadBalancer Templates Beacon.

Record LoadBalancer := {
  nodeID : string;
  lb_cfg : ExtensionConfig;
  backend : LoadBalancerBackend;
}.

Section Extensions.
Context `{MapRange} `{World}.

(** The backend of the given name. *)
Definition select_backend (c : ExtensionConfig) : res LoadBalancerBackend :=
  if decide (Config.Name c = "haproxy") then Ok (HAProxyBackend c haproxyConfTemplate)
  else if decide (Config.Name c = "nginx") then
    Ok (NginxBackend (set_ConfigBasePath (Path.Dir (Config.ConfigPath c)) c)
          nginxConfTemplate nginxPlusConfTemplate)
  else Err (ErrorString ("unknown load balancer backend: " +:+ Config.Name c)).

(** A template file that does not exist ends the process.  The cache is
    made without error, its threshold being long enough. *)
Definition NewLoadBalancer (c : ExtensionConfig) : M (res LoadBalancer) :=
  _ ← (if decide (TemplatePath c <> "") then
         missing ← NotExist (TemplatePath c);
         if missing : bool then pure (Exit ("stat " +:+ TemplatePath c +:+ ": no such file or directory"))
         else mret tt
       else mret tt);
  (* parse config base dir *)
  let c := set_ConfigBasePath (Path.Dir (Config.ConfigPath c)) c in
  containerID ← GetContainerID;
  match containerID with
  | Err err => mret (Err err)
  | Ok containerID =>
      mret (match select_backend c with
            | Err err => Err err
            | Ok b => Ok {| nodeID := containerID; lb_cfg := c; backend := b |}
            end)
  end.

(** The values behind the interface. *)
Inductive Extension :=
| ExtLoadBalancer (l : LoadBalancer)
| ExtBeacon (b : Beacon).

Definition Ext_Name (x : Extension) : string :=
  match x with ExtLoadBalancer _ => "lb" | ExtBeacon _ => "beacon" end.

(** A load balancer keeps no state of its own between two events but its
    cache, which is on the other side of the interactions. *)
Definition Ext_HandleEvent (x : Extension) (e : etypes.Message) : M (Extension * option error) :=
  match x with
  | ExtLoadBalancer l => err ← LoadBalancer.HandleEvent e; mret (x, err)
  | ExtBeacon b => r ← Beacon.HandleEvent b e; mret (ExtBeacon r.1, r.2)
  end.
End Extensions.
