(* ===== verification/Server.v ===== *)
(** * The server

    [server/server.go]: the goroutines of [NewServer] one message at a time,
    [waitForSwarm], [loadExtensions] and [Run].  How the goroutines block one
    another is in [ServerChannels]. *)

From S2P Require Import Prelude GoStd GoTime Docker Labels Config Network Nginx HAProxy NodeID Backends.
From S2P Require Import LoadBalancer Beacon Poller Extensions.

Definition defaultPollInterval : Z := 2000 * 1000000.

(** The counters of [server/metrics.go]. *)
Definition eventsProcessed : string := "interlock_totals_events_processed".
Definition lastReloadDuration : string := "interlock_system_last_reload_duration".
Definition uptime : string := "interlock_totals_uptime".
Record Metrics := {
  EventsProcessed : string;
  LastReloadDuration : string;
  Uptime : string;
}.
Definition NewMetrics (MustRegister : string -> M unit) : M Metrics :=
  _ ← MustRegister eventsProcessed;
  _ ← MustRegister lastReloadDuration;
  _ ← MustRegister uptime;
  mret {| EventsProcessed := eventsProcessed; LastReloadDuration := lastReloadDuration; Uptime := uptime |}.

(** [events/events.go]: a channel, and what sends on it. *)
Module events.
Record EventHandler (channel : Type) := { eventChan : channel }.
Arguments eventChan {channel}.
Definition NewEventHandler {channel} (eventChan : channel) : res (EventHandler channel) := Ok {| eventChan := eventChan |}.
Definition Handle {channel} (send : channel -> etypes.Message -> M unit) (h : EventHandler channel) (e : etypes.Message) : M unit :=
  send (eventChan h) e.
End events.

(** The test of the [errChan] handler. *)
Definition swarm_error (err : error) : Prop := (Strings.Index (Error err) "500 Internal Server Error" > -1)%Z.
#[export] Instance swarm_error_dec err : Decision (swarm_error err).
Proof. unfold swarm_error. apply _. Defined.

(** The test of the [eventChan] handler: an event without identity is
    ignored. *)
Definition anonymous (e : etypes.Message) : Prop := etypes.ID e = "" /\ etypes.Type_ e = "".
#[export] Instance anonymous_dec e : Decision (anonymous e).
Proof. unfold anonymous. apply _. Defined.

(** What the restart handler sends once the stream is open. *)
Definition start_message : etypes.Message := {|
  etypes.Status := "interlock-start"; etypes.ID := "0"; etypes.Type_ := ""; etypes.Action := "";
  etypes.Actor_Attributes := ∅ |}.

Section Server.
Context `{MapRange} `{World}.
(** [json.Unmarshal] of a line into a pointer to a message: "null" leaves it
    nil.  [Decode] has it. *)
Context (Unmarshal : string -> res (option etypes.Message)).

(** ** Waiting for the cluster *)

(** At most [fuel] tries; [true] when the cluster has answered. *)
Fixpoint waitForSwarm (fuel : nat) : M bool :=
  match fuel with
  | O => mret false
  | S fuel' =>
      r ← ContainerList true;
      match r with
      | Ok _ => mret true
      | Err _ => _ ← Sleep 1000; waitForSwarm fuel'
      end
  end.

(** ** The handlers *)

(** One error on [errChan]. *)
Definition handle_error (fuel : nat) (err : error) : M unit :=
  if decide (swarm_error err) then
    ready ← waitForSwarm fuel;
    if ready : bool then SendRestart else mret tt
  else mret tt.

(** One message on [restartChan]: the text of the stream the reader
    goroutine is started on, if any.  The server has one channel of events. *)
Definition handle_restart (cfg : Config) : M (option string) :=
  match events.NewEventHandler tt with
  | Err err => _ ← SendServerErr err; mret None
  | Ok h =>
  if decide (PollInterval cfg <> "") then mret None
  else
    e ← Events;
    match e with
    | Err err => _ ← SendServerErr err; mret None
    | Ok body =>
        (* trigger initial load *)
        _ ← SendEvent (Some start_message);
        mret (Some body)
    end
  end.

(** The reader goroutine.  The error it tests before it decodes a line is
    that of the opening of the stream, which is nil. *)
Definition read_stream (body : string) : M unit :=
  forM (fun line =>
      match Unmarshal line with
      | Err err => SendServerErr err
      | Ok msg => SendEvent msg
      end)
    (Bufio.Scan body).

(** Notifies the extensions in order: an error of one does not stop the
    others. *)
Fixpoint notify (exts : list Extension) (e : etypes.Message) : M (list Extension) :=
  match exts with
  | [] => mret []
  | x :: exts' =>
      r ← Ext_HandleEvent x e;
      _ ← (match r.2 with Some err => SendServerErr err | None => mret tt end);
      rest ← notify exts' e;
      mret (r.1 :: rest)
  end.

(** One message on [eventChan]. *)
Definition dispatch (exts : list Extension) (msg : option etypes.Message) : M (list Extension) :=
  e ← pure (deref msg);
  if decide (anonymous e) then mret exts
  else
    (* send the raw event for extension handling *)
    exts ← notify exts e;
    _ ← CounterInc eventsProcessed;
    mret exts.

Fixpoint dispatches (exts : list Extension) (msgs : list (option etypes.Message)) : M (list Extension) :=
  match msgs with
  | [] => mret exts
  | msg :: msgs' => exts ← dispatch exts msg; dispatches exts msgs'
  end.

(** A tick of the uptime ticker. *)
Definition uptime_tick : M unit := CounterInc uptime.

(** ** Loading the extensions *)

Definition load_extension (cfg : Config) (exts : list Extension) (x : ExtensionConfig) : M (list Extension) :=
  let name := Strings.ToLower (Config.Name x) in
  if decide (name = "haproxy" \/ name = "nginx") then
    p ← NewLoadBalancer x;
    match p with
    | Err _ => mret exts
    | Ok p => mret (exts ++ [ExtLoadBalancer p])
    end
  else if decide (name = "beacon") then
    if EnableMetrics cfg then
      p ← NewBeacon x;
      match p with
      | Err _ => mret exts
      | Ok p => mret (exts ++ [ExtBeacon p])
      end
    else mret exts
  else mret exts.
Definition loadExtensions (cfg : Config) : M (list Extension) :=
  foldM (load_extension cfg) [] (Extensions cfg).

(** ** NewServer and Run *)

(** [NewServer], given the registration of a metric by prometheus and the
    client [getDockerClient] makes: it loads the extensions between the start
    of its goroutines, and ends when the first restart is received. *)
Definition NewServer {client} (MustRegister : string -> M unit) (getDockerClient : M (res client)) (cfg : Config) :
    M (res (list Extension)) :=
  _ ← NewMetrics MustRegister;
  c ← getDockerClient;
  match c with
  | Err err => mret (Err err)
  | Ok _ =>
      exts ← loadExtensions cfg;
      _ ← SendRestart;
      mret (Ok exts)
  end.

Definition Run (cfg : Config) : M (option error) :=
  _ ← (if EnableMetrics cfg then Handle "/metrics" else mret tt);
  err ←
    (if decide (PollInterval cfg <> "") then
       (* run background poller *)
       match Time.ParseDuration (PollInterval cfg) with
       | Err err => mret (Some err)
       | Ok d =>
           let d := if decide (d < defaultPollInterval)%Z then defaultPollInterval else d in
           _ ← StartPoller d; mret None
       end
     else mret None);
  match err with
  | Some err => mret (Some err)
  | None => ListenAndServe (ListenAddr cfg)
  end.
End Server.

(** ** Waiting *)

Section Wait.
Context `{World}.

(** The history after [n] tries that failed. *)
Definition failed_tries (n : nat) : list event := mjoin (replicate n [EContainerList true; ESleep 1000]).

Lemma failed_tries_S n : failed_tries (S n) = [EContainerList true; ESleep 1000] ++ failed_tries n.
Proof. reflexivity. Qed.

(** The wait ends at the first try the cluster answers, after one pause of a
    second for each try it did not, if there is fuel for that try. *)
Lemma wait_for_swarm n fuel h :
  (forall k, k < n -> exists e, reply_ContainerList (h ++ failed_tries k) true = Err e) ->
  (exists cs, reply_ContainerList (h ++ failed_tries n) true = Ok cs) -> n < fuel ->
  waitForSwarm fuel h = (Val true, h ++ failed_tries n ++ [EContainerList true]).
Proof.
  revert fuel h. induction n as [|n IH]; intros fuel h Hk [cs Hn] Hf; (destruct fuel as [|fuel]; [lia|]).
  - cbn [waitForSwarm]. rewrite bind_at. unfold ContainerList, call.
    unfold failed_tries in Hn. simpl in Hn. rewrite app_nil_r in Hn. by rewrite Hn.
  - cbn [waitForSwarm]. rewrite bind_at. unfold ContainerList at 1, call.
    destruct (Hk 0 ltac:(lia)) as [e He]. unfold failed_tries in He. simpl in He. rewrite app_nil_r in He. rewrite He.
    rewrite bind_at. unfold Sleep, call. rewrite <- app_assoc. rewrite IH.
    + by rewrite failed_tries_S, <- !app_assoc.
    + intros k Hkn. destruct (Hk (S k) ltac:(lia)) as [e' He']. exists e'. by rewrite <- app_assoc.
    + exists cs. by rewrite <- app_assoc.
    + lia.
Qed.

(** C33: An error whose text has the status 500 in it makes the server wait for
    the cluster, however many tries it takes, and then ask for exactly one
    restart of the event stream; any other error has no effect. *)
Theorem handle_error_restarts err n fuel h :
  (forall k, k < n -> exists e, reply_ContainerList (h ++ failed_tries k) true = Err e) ->
  (exists cs, reply_ContainerList (h ++ failed_tries n) true = Ok cs) -> n < fuel ->
  ((exists a b, Error err = a +:+ "500 Internal Server Error" +:+ b) ->
   handle_error fuel err h = (Val tt, h ++ failed_tries n ++ [EContainerList true; ERestart])) /\
  ((~ exists a b, Error err = a +:+ "500 Internal Server Error" +:+ b) -> handle_error fuel err h = (Val tt, h)).
Proof.
  intros Hk Hn Hf. unfold handle_error, swarm_error. rewrite <- StringsFacts.Index_contains.
  split; intros Hi; [rewrite decide_True by done|by rewrite decide_False by done].
  rewrite bind_at, (wait_for_swarm n) by done. unfold SendRestart, call. by rewrite <- !app_assoc.
Qed.
End Wait.

(** ** The extensions of a server *)

Section Dispatch.
Context `{MapRange} `{World}.

Definition reload_requests (exts : list Extension) : list event :=
  omap (fun x => match x with ExtLoadBalancer _ => Some (ECacheSet "reload") | ExtBeacon _ => None end) exts.

Lemma notify_restart exts t h :
  notify exts (restart_message t) h = (Val exts, h ++ reload_requests exts).
Proof.
  revert h. induction exts as [|x exts IH]; intros h; [by rewrite app_nil_r|].
  cbn [notify]. rewrite bind_at.
  destruct x as [l|b]; unfold Ext_HandleEvent; rewrite !bind_at.
  - assert (LoadBalancer.HandleEvent (restart_message t) h = (Val None, h ++ [ECacheSet "reload"])) as ->.
    { reflexivity. }
    cbn [mret comp_ret snd fst]. rewrite bind_at. cbn [mret comp_ret]. rewrite bind_at, IH, <- app_assoc. done.
  - assert (Beacon.HandleEvent b (restart_message t) h = (Val (b, None), h)) as -> by reflexivity.
    cbn [mret comp_ret snd fst]. rewrite bind_at. cbn [mret comp_ret]. rewrite bind_at, IH. done.
Qed.

(** C32: The events of the poller: each reaches every extension and is counted;
    it requests a reload of every load balancer, in order, and leaves every
    beacon as it was, so a server that polls never monitors a container. *)
Theorem poll_events_dispatched exts ts h :
  dispatches exts (map (fun t => Some (restart_message t)) ts) h =
  (Val exts,
   h ++ flat_map (fun _ => reload_requests exts ++ [ECounterInc eventsProcessed]) ts).
Proof.
  revert h. induction ts as [|t ts IH]; intros h; [by rewrite app_nil_r|].
  cbn [map dispatches flat_map]. rewrite bind_at. unfold dispatch. rewrite bind_at. unfold pure. cbn [deref].
  rewrite decide_False by (intros [Hid _]; by apply (Itoa_not_empty t)).
  rewrite bind_at, notify_restart. unfold CounterInc, call. rewrite bind_at. cbn [mret comp_ret].
  rewrite IH, <- !app_assoc. done.
Qed.

(** What the stream is decoded to. *)
Definition line_event (Unmarshal : string -> res (option etypes.Message)) (line : string) : event :=
  match Unmarshal line with Err err => EServerErr err | Ok msg => EEventChan msg end.

Lemma read_stream_at Unmarshal body h :
  read_stream Unmarshal body h = (Val tt, h ++ map (line_event Unmarshal) (Bufio.Scan body)).
Proof.
  unfold read_stream. revert h. induction (Bufio.Scan body) as [|l ls IH]; intros h; [by rewrite app_nil_r|].
  cbn [forM map]. rewrite bind_at. unfold line_event at 1, SendServerErr, SendEvent, call.
  by destruct (Unmarshal l); rewrite IH, <- app_assoc.
Qed.

(** ** Loading *)

(** What becomes of the configuration of an extension: loaded, left out, or
    the end of the process.  [ident] is the identifier the file of control
    groups holds, if it holds one, and [missing] tells which template files
    are not there. *)
Definition fate (cfg : Config) (ident : option string) (missing : string -> bool) (x : ExtensionConfig) :
    outcome (option Extension) :=
  let c := set_ConfigBasePath (Path.Dir (Config.ConfigPath x)) x in
  if decide (Strings.ToLower (Config.Name x) ∈ ["haproxy"; "nginx"]) then
    if decide (TemplatePath x <> "" /\ missing (TemplatePath x) = true) then
      Exit ("stat " +:+ TemplatePath x +:+ ": no such file or directory")
    else
      Val (match ident, select_backend c with
           | Some id, Ok b => Some (ExtLoadBalancer {| nodeID := id; lb_cfg := c; backend := b |})
           | _, _ => None
           end)
  else if decide (Strings.ToLower (Config.Name x) = "beacon" /\ EnableMetrics cfg = true) then
    match ident, Time.ParseDuration (StatsInterval x) with
    | Some _, Ok d =>
        if decide (d <= 0)%Z then Panic "non-positive interval for NewTicker"
        else Val (Some (ExtBeacon {| Beacon.cfg := c; monitored := ∅ |}))
    | _, _ => Val None
    end
  else Val None.

(** The fates of a list, up to the end of the process. *)
Fixpoint fates (cfg : Config) (ident : option string) (missing : string -> bool) (l : list ExtensionConfig) :
    outcome (list Extension) :=
  match l with
  | [] => Val []
  | x :: l' =>
      match fate cfg ident missing x with
      | Val e => match fates cfg ident missing l' with Val es => Val (option_list e ++ es) | o => o end
      | Panic w => Panic w
      | Exit w => Exit w
      end
  end.

(** What the file of control groups holds, whenever it is read. *)
Definition identity (ident : option string) : Prop :=
  forall h, match reply_ReadFile h cgroup with Ok text => first_id (Bufio.Scan text) | Err _ => None end = ident.

Section Fates.
Context (ident : option string) (missing : string -> bool) (Hid : identity ident).
Context (Hmissing : forall h p, reply_NotExist h p = missing p).

Lemma GetContainerID_at h : exists r, (GetContainerID h).1 = Val r /\
  match ident with Some id => r = Ok id | None => exists e, r = Err e end.
Proof.
  specialize (Hid h). unfold GetContainerID. rewrite bind_at. unfold ReadFile at 1, call at 1.
  destruct (reply_ReadFile h cgroup) as [text|e]; [|subst ident; by eauto].
  destruct (first_id _); subst ident; [by eauto|]. rewrite bind_at. unfold ReadFile, call.
  destruct (reply_ReadFile _ _); by eauto.
Qed.

Lemma load_extension_fate cfg exts x h :
  (load_extension cfg exts x h).1 =
  match fate cfg ident missing x with Val e => Val (exts ++ option_list e) | Panic w => Panic w | Exit w => Exit w end.
Proof.
  unfold load_extension, fate. cbv zeta. set (c := set_ConfigBasePath _ x).
  destruct (decide (_ ∈ ["haproxy"; "nginx"])) as [Hlb|Hlb].
  - rewrite decide_True by (apply elem_of_cons in Hlb as [?|Hlb%list_elem_of_singleton]; auto).
    unfold NewLoadBalancer. rewrite bind_at, bind_at. fold c.
    assert (Ht : exists h', (if decide (TemplatePath x <> "") then
        b ← NotExist (TemplatePath x);
        if b : bool then pure (Exit ("stat " +:+ TemplatePath x +:+ ": no such file or directory")) else mret tt
      else mret tt) h =
      (if decide (TemplatePath x <> "" /\ missing (TemplatePath x) = true) then
         Exit ("stat " +:+ TemplatePath x +:+ ": no such file or directory") else Val tt, h')).
    { case_decide as Hp; [|rewrite decide_False by tauto; by eexists]. rewrite bind_at. unfold NotExist, call. rewrite Hmissing.
      destruct (missing _) eqn:Hm; [rewrite decide_True by done|rewrite decide_False by (intros []; congruence)]; by eexists. }
    destruct Ht as [h' ->]. destruct (decide (TemplatePath x <> "" /\ _)); [done|].
    pose proof (GetContainerID_at h') as (r & Hr & Hi). rewrite bind_at. destruct (GetContainerID h') as [o h2]. simpl in Hr. subst o.
    destruct ident as [id|]; [subst r|destruct Hi as [e ->]; cbn; by rewrite app_nil_r].
    destruct (select_backend c) as [b|e]; cbn; [done|by rewrite app_nil_r].
  - rewrite decide_False by (intros [Hn|Hn]; apply Hlb; rewrite Hn; set_solver).
    destruct (decide (Strings.ToLower (Config.Name x) = "beacon")) as [Hb|Hb].
    2: { rewrite decide_False by tauto. cbn. by rewrite app_nil_r. }
    destruct (EnableMetrics cfg); [rewrite decide_True by done|rewrite decide_False by (by intros []); cbn; by rewrite app_nil_r].
    unfold NewBeacon. fold c. change (StatsInterval c) with (StatsInterval x). rewrite bind_at, bind_at.
    pose proof (GetContainerID_at h) as (r & Hr & Hi). destruct (GetContainerID h) as [o h2]. simpl in Hr. subst o.
    destruct ident as [id|]; [subst r|destruct Hi as [e ->]; cbn; by rewrite app_nil_r].
    destruct (Time.ParseDuration (StatsInterval x)) as [d|e]; [|cbn; by rewrite app_nil_r].
    case_decide; done.
Qed.

End Fates.
End Dispatch.

(** ** Run *)

Section RunFacts.
Context `{World}.

Lemma bind_when {A} (b : bool) (e : event) (f : unit -> M A) h :
  ((if b then call e (fun _ => tt) else mret tt) ≫= f) h = f tt (h ++ if b then [e] else []).
Proof. destruct b; [done|]. by rewrite app_nil_r. Qed.

(** The interval a configuration asks for, if any. *)
Definition requested_interval (cfg : Config) : res (option Z) :=
  if decide (PollInterval cfg = "") then Ok None
  else match Time.ParseDuration (PollInterval cfg) with Ok d => Ok (Some d) | Err e => Err e end.

(** The poller is never started with an interval under two seconds; the
    server listens exactly once, last, unless the interval cannot be read,
    in which case it does not listen and that error is returned. *)
Theorem run_poller_interval cfg h :
  let metrics := if EnableMetrics cfg then [EHandle "/metrics"] else [] in
  Run cfg h =
  match requested_interval cfg with
  | Err e => (Val (Some e), h ++ metrics)
  | Ok d =>
      let pre := metrics ++ match d with Some d => [EPoller (Z.max d 2000000000)] | None => [] end in
      (Val (reply_Listen (h ++ pre) (ListenAddr cfg)), h ++ pre ++ [EListen (ListenAddr cfg)])
  end.
Proof.
  intros metrics. unfold Run, Handle, StartPoller, ListenAndServe, requested_interval.
  rewrite bind_when. fold metrics. destruct (decide (PollInterval cfg = "")) as [He|He].
  - rewrite decide_False by (by intros []). rewrite bind_at. cbn [mret comp_ret]. cbv zeta. unfold call.
    by rewrite app_nil_r, <- app_assoc.
  - rewrite decide_True by done. destruct (Time.ParseDuration _) as [d|e]; [|done].
    assert ((if decide (d < defaultPollInterval)%Z then defaultPollInterval else d) = Z.max d 2000000000)%Z as Hd
      by (unfold defaultPollInterval; case_decide; lia).
    cbv zeta. rewrite Hd. unfold call. rewrite !bind_at. cbn [mret comp_ret]. by rewrite <- !app_assoc.
Qed.
End RunFacts.

(** ** Witnesses *)

Section Witnesses.
Local Existing Instance sorted_range.

(** A cluster that has no primary manager for [n] calls. *)
Definition unready (n : nat) : World :=
  let w := Cluster.cluster in {|
  reply_ContainerList h a :=
    if decide (length h < n) then Err (ErrorString "500 Internal Server Error: No primary manager elected")
    else @reply_ContainerList w h a;
  reply_ContainerInspect := @reply_ContainerInspect w; reply_NetworkInspect := @reply_NetworkInspect w;
  reply_NetworkConnect := @reply_NetworkConnect w; reply_NetworkDisconnect := @reply_NetworkDisconnect w;
  reply_CopyToContainer := @reply_CopyToContainer w; reply_ContainerKill := @reply_ContainerKill w;
  reply_ContainerRestart := @reply_ContainerRestart w; reply_LookPath := @reply_LookPath w;
  reply_Command := @reply_Command w; reply_ReadFile := @reply_ReadFile w; reply_CacheGet := @reply_CacheGet w;
  reply_ImageList := @reply_ImageList w; reply_VolumeList := @reply_VolumeList w;
  reply_NetworkList := @reply_NetworkList w; reply_ContainerStats := @reply_ContainerStats w;
  reply_Now := @reply_Now w; reply_NotExist := @reply_NotExist w; reply_Push := @reply_Push w;
  reply_InfluxClient := @reply_InfluxClient w; reply_InfluxQuery := @reply_InfluxQuery w;
  reply_InfluxWrite := @reply_InfluxWrite w; reply_Listen := @reply_Listen w; reply_Events := @reply_Events w;
|}.

Lemma handle_error_restarts_witness :
  @handle_error (unready 2) 5 (ErrorString "500 Internal Server Error: No primary manager elected") [] =
  (Val tt, [EContainerList true; ESleep 1000; EContainerList true; ERestart]).
Proof.
  destruct (@handle_error_restarts (unready 2)
    (ErrorString "500 Internal Server Error: No primary manager elected") 1 5 []) as [H1 _].
  - intros k Hk. assert (k = 0) as -> by lia. by eexists.
  - by eexists.
  - lia.
  - rewrite H1; [reflexivity|]. by exists "", ": No primary manager elected".
Defined.

Definition identified_world : World := snapshot [Cluster.web] ∅ ∅ {[cgroup := "4:memory:/docker/0123456789ab"]}.
Definition two_extensions : Config := {|
  ListenAddr := ":8080"; DockerURL := ""; TLSCACert := ""; TLSCert := ""; TLSKey := ""; AllowInsecure := false;
  EnableMetrics := false; PollInterval := "";
  Extensions := [empty_extension "Nginx"; empty_extension "beacon"; empty_extension "nginx"]; Config_Rules := ∅ |}.

End Witnesses.
