(* ===== verification/Decode.v ===== *)
(** * Messages and statistics of the daemon

    The two places where the program decodes JSON: a line of the event stream
    in [server/server.go], and one of the statistics of a container in
    [ext/beacon/stats.go].  The text of an error and what [time.Time] accepts
    are parameters. *)

From S2P Require Import Prelude GoStd GoTime GoJson Docker Config NodeID Beacon Labels Network Nginx HAProxy Backends.
From S2P Require Import LoadBalancer Poller Extensions Server.

(** ** The types *)

Definition Actor_ty : ty := TyStruct [("ID", TyString); ("Attributes", TyMap TyString)].
Definition Message_ty : ty := TyStruct
  [("status", TyString); ("id", TyString); ("from", TyString); ("Type", TyString); ("Action", TyString);
   ("Actor", Actor_ty); ("time", TyInt64); ("timeNano", TyInt64)].

Definition uints (names : list string) : list (string * ty) := map (fun n => (n, TyUint64)) names.
Definition CPUStats_ty : ty := TyStruct
  [("cpu_usage", TyStruct (("percpu_usage", TySlice TyUint64) :: uints ["total_usage"; "usage_in_kernelmode"; "usage_in_usermode"]));
   ("system_cpu_usage", TyUint64);
   ("throttling_data", TyStruct (uints ["periods"; "throttled_periods"; "throttled_time"]))].
Definition MemoryStats_ty : ty := TyStruct (("stats", TyMap TyUint64) :: uints ["usage"; "max_usage"; "failcnt"; "limit"]).
Definition BlkioStats_ty : ty := TyStruct (map
  (fun n => (n, TySlice (TyStruct (("op", TyString) :: uints ["major"; "minor"; "value"]))))
  ["io_service_bytes_recursive"; "io_serviced_recursive"; "io_queue_recursive"; "io_service_time_recursive";
   "io_wait_time_recursive"; "io_merged_recursive"; "io_time_recursive"; "sectors_recursive"]).
Definition network_names : list string :=
  ["rx_bytes"; "rx_packets"; "rx_errors"; "rx_dropped"; "tx_bytes"; "tx_packets"; "tx_errors"; "tx_dropped"].
Definition StatsJSON_ty : ty := TyStruct
  [("read", TyTime); ("precpu_stats", CPUStats_ty); ("cpu_stats", CPUStats_ty); ("memory_stats", MemoryStats_ty);
   ("blkio_stats", BlkioStats_ty); ("pids_stats", TyStruct (uints ["current"; "limit"]));
   ("networks", TyMap (TyStruct (uints network_names)))].

(** ** Storing *)

(** The values a field gets, in order: a repeated key, or a key of a repeated
    structure, is stored again. *)
Fixpoint leaves (path : list string) (j : json) : list json :=
  match path with
  | [] => [j]
  | name :: path' => flat_map (leaves path') (members_of name j)
  end.

Definition set_string (old : string) (v : json) : string := match v with JStr s => s | _ => old end.
Definition set_uint (old : Z) (v : json) : Z :=
  match v with JNum s => match Strconv.ParseUint s with inl z => z | inr _ => old end | _ => old end.
(** A null empties a map; an object adds to it. *)
Definition set_map {A} (read : json -> A) (old : gmap string A) (v : json) : gmap string A :=
  match v with
  | JNull => ∅
  | JObj l => fold_left (fun m '(k, x) => <[k := read x]> m) l old
  | _ => old
  end.
Definition string_at (path : list string) (j : json) (old : string) : string := fold_left set_string (leaves path j) old.
Definition uint_at (path : list string) (j : json) (old : Z) : Z := fold_left set_uint (leaves path j) old.

Definition message_of (j : json) : etypes.Message := {|
  etypes.Status := string_at ["status"] j "";
  etypes.ID := string_at ["id"] j "";
  etypes.Type_ := string_at ["Type"] j "";
  etypes.Action := string_at ["Action"] j "";
  etypes.Actor_Attributes := fold_left (set_map (set_string "")) (leaves ["Actor"; "Attributes"] j) ∅;
|}.

Definition network_of (j : json) : types.NetworkStats := {|
  types.RxBytes := uint_at ["rx_bytes"] j 0; types.RxPackets := uint_at ["rx_packets"] j 0;
  types.RxErrors := uint_at ["rx_errors"] j 0; types.RxDropped := uint_at ["rx_dropped"] j 0;
  types.TxBytes := uint_at ["tx_bytes"] j 0; types.TxPackets := uint_at ["tx_packets"] j 0;
  types.TxErrors := uint_at ["tx_errors"] j 0; types.TxDropped := uint_at ["tx_dropped"] j 0;
|}.
Definition zero_stats : types.StatsJSON := {|
  types.CPU_TotalUsage := 0; types.Memory_Usage := 0; types.Memory_MaxUsage := 0; types.Memory_Limit := 0;
  types.s_Networks := ∅ |}.
(** The statistics of a line are stored over those of the line before. *)
Definition stats_of (old : types.StatsJSON) (j : json) : types.StatsJSON := {|
  types.CPU_TotalUsage := uint_at ["cpu_stats"; "cpu_usage"; "total_usage"] j (types.CPU_TotalUsage old);
  types.Memory_Usage := uint_at ["memory_stats"; "usage"] j (types.Memory_Usage old);
  types.Memory_MaxUsage := uint_at ["memory_stats"; "max_usage"] j (types.Memory_MaxUsage old);
  types.Memory_Limit := uint_at ["memory_stats"; "limit"] j (types.Memory_Limit old);
  types.s_Networks := fold_left (set_map network_of) (leaves ["networks"] j) (types.s_Networks old);
|}.

Section Unmarshal.
Context (time_ok : json -> bool) (json_error : string -> error).

(** [json.Unmarshal([]byte(line), &p)] for a pointer [p] to a value of the
    type [t], which [store] updates. *)
Definition unmarshal {A} (t : ty) (store : json -> A) (line : string) : res (option A) :=
  match parse_json line with
  | Some j =>
      if fits time_ok t j then Ok (match j with JNull => None | _ => Some (store j) end)
      else Err (json_error line)
  | None => Err (json_error line)
  end.

Definition UnmarshalMessage : string -> res (option etypes.Message) := unmarshal Message_ty message_of.
Definition UnmarshalStats (stats : option types.StatsJSON) : string -> res (option types.StatsJSON) :=
  unmarshal StatsJSON_ty (stats_of (default zero_stats stats)).
End Unmarshal.

(** ** Messages are read back *)

Definition unlines (ls : list string) : string := fold_right (fun l t => l +:+ String "010" t) "" ls.

(** Splits a text at its newlines: each of the given lines is one. *)
Lemma lines_concat ls :
  Forall (fun l => NetFacts.lacks "010" l) ls ->
  Bufio.lines (unlines ls) = ls.
Proof.
  intros Hls. unfold Bufio.lines, unlines.
  assert (Hs : Strings.Split (fold_right (fun l t => l +:+ String "010" t) "" ls) "010"%char = ls ++ [""]).
  { induction Hls as [|l ls Hl Hls IH]; [done|]. simpl fold_right.
    assert (Happ : forall l t, NetFacts.lacks "010" l -> Strings.Split (l +:+ String "010" t) "010"%char = l :: Strings.Split t "010"%char).
    { clear. induction l as [|c l IH]; intros t Hl; [done|]. destruct Hl as [Hc Hl]. simpl.
      rewrite decide_False by done. by rewrite IH. }
    by rewrite Happ, IH. }
  rewrite Hs, rev_app_distr. simpl. by rewrite rev_involutive.
Qed.

(** A printed tree is on one line. *)
Definition one_line (s : string) : Prop := NetFacts.lacks "010" s /\ NetFacts.lacks "013" s.

Lemma one_line_app s t : one_line s -> one_line t -> one_line (s +:+ t).
Proof. intros [H1 H2] [H3 H4]. split; by apply NetFacts.lacks_app. Qed.
Lemma quote_one_line s : one_line (Json.quote s).
Proof.
  assert (He : one_line (Json.escapes s)).
  { induction s as [|c s IH]; [done|]. simpl. apply one_line_app; [|done].
    destruct c as [[] [] [] [] [] [] [] []]; by repeat split. }
  unfold Json.quote. apply one_line_app; [by repeat split|]. apply one_line_app; [done|by repeat split].
Qed.
Lemma Itoa_one_line z : one_line (Strconv.Itoa z).
Proof.
  assert (Hd : forall s, StrconvFacts.all_digits s -> one_line s).
  { induction s as [|c s IH]; [done|]. intros [[v Hc] Hs]. destruct (IH Hs) as [H1 H2].
    destruct c as [[] [] [] [] [] [] [] []]; try discriminate Hc; by repeat split. }
  assert (Hp : forall x : N, one_line (pretty x)).
  { intros x. destruct (StrconvFacts.pretty_digits x) as (c & s & -> & Hs). by apply Hd. }
  destruct (decide (z < 0)%Z); [rewrite StrconvFacts.Itoa_neg by done|rewrite StrconvFacts.Itoa_nonneg by lia; apply Hp].
  apply one_line_app; [by repeat split|apply Hp].
Qed.
Lemma join_one_line ws sep : one_line sep -> Forall one_line ws -> one_line (Strings.Join ws sep).
Proof.
  intros Hsep. induction 1 as [|w ws Hw Hws IH]; [done|]. destruct ws; [done|]. simpl in *.
  apply one_line_app; [done|]. by apply one_line_app.
Qed.
Lemma print_one_line j : printable j -> one_line (print j).
Proof.
  induction j as [|b|s|s|l IH|l IH] using json_ind; intros Hp; inversion Hp as [| |z| |l' Hl|l' Hl]; subst.
  - by repeat split.
  - destruct b; by repeat split.
  - apply Itoa_one_line.
  - apply quote_one_line.
  - simpl. apply one_line_app; [by repeat split|]. apply one_line_app; [|by repeat split].
    apply join_one_line; [by repeat split|]. apply Forall_map, Forall_forall. intros x Hx. rewrite Forall_forall in IH, Hl. auto.
  - rewrite print_members. apply one_line_app; [by repeat split|]. apply one_line_app; [|by repeat split].
    apply join_one_line; [by repeat split|]. apply Forall_map, Forall_forall. intros x Hx. rewrite Forall_forall in IH, Hl.
    unfold print_member. apply one_line_app; [apply quote_one_line|]. apply one_line_app; [by repeat split|].
    apply IH; [done|]. by apply Hl.
Qed.

(** The object the daemon sends for a message, with the fields the program
    does not read. *)
Definition attributes_json (m : gmap string string) : json := JObj (map (fun '(k, v) => (k, JStr v)) (map_to_list m)).
Definition message_json (from actor : string) (time nano : Z) (m : etypes.Message) : json := JObj
  [("status", JStr (etypes.Status m)); ("id", JStr (etypes.ID m)); ("from", JStr from);
   ("Type", JStr (etypes.Type_ m)); ("Action", JStr (etypes.Action m));
   ("Actor", JObj [("ID", JStr actor); ("Attributes", attributes_json (etypes.Actor_Attributes m))]);
   ("time", JNum (Strconv.Itoa time)); ("timeNano", JNum (Strconv.Itoa nano))].

Definition int64 (z : Z) : Prop := (- 2 ^ 63 <= z < 2 ^ 63)%Z.
(** Strings of UTF-8. *)
Definition utf8_message (m : etypes.Message) : Prop :=
  utf8 (etypes.Status m) /\ utf8 (etypes.ID m) /\ utf8 (etypes.Type_ m) /\ utf8 (etypes.Action m) /\
  map_Forall (fun k v => utf8 k /\ utf8 v) (etypes.Actor_Attributes m).

(** An object of distinct keys, each of which is read back, is added. *)
Lemma set_map_list {A} (read : json -> A) (write : A -> json) l m :
  Forall (fun kv => read (write kv.2) = kv.2) l -> NoDup l.*1 ->
  set_map read m (JObj (map (fun '(k, v) => (k, write v)) l)) = list_to_map l ∪ m.
Proof.
  intros Hr. revert m. induction Hr as [|[k v] l Hv Hr IH]; intros m Hnd; simpl; [by rewrite (left_id_L ∅ (∪))|].
  apply NoDup_cons in Hnd as [Hk Hnd]. simpl in IH, Hv. rewrite IH, Hv by done.
  rewrite <- insert_union_r; [by rewrite insert_union_l|]. by apply not_elem_of_list_to_map_1.
Qed.

Lemma attributes_printable a : map_Forall (fun k v => utf8 k /\ utf8 v) a -> printable (attributes_json a).
Proof.
  intros Ha. apply printable_obj, Forall_map, Forall_forall. intros [k v] Hin%elem_of_map_to_list.
  destruct (Ha k v Hin) as [Hk Hv]. split; [exact Hk|by constructor].
Qed.

Lemma message_json_printable from actor time nano m :
  utf8 from -> utf8 actor -> utf8_message m -> printable (message_json from actor time nano m).
Proof.
  intros Hf Ha (H1 & H2 & H3 & H4 & H5). apply attributes_printable in H5.
  assert (Hactor : printable (JObj [("ID", JStr actor); ("Attributes", attributes_json (etypes.Actor_Attributes m))])).
  { apply printable_obj. repeat first [apply Forall_nil_2 | apply Forall_cons_2; [split; [reflexivity|]|]];
      [by apply printable_str|exact H5]. }
  apply printable_obj. repeat first [apply Forall_nil_2 | apply Forall_cons_2; [split; [reflexivity|]|]];
    first [by apply printable_str | apply printable_num | exact Hactor].
Qed.

Section ReadBack.
Context (time_ok : json -> bool) (json_error : string -> error).

(** An object fits a structure if its members fit the fields they stand for. *)
Lemma fits_members fields l :
  Forall (fun kv => exists n t, field fields kv.1 = Some (n, t) /\ fits time_ok t kv.2 = true) l ->
  fits time_ok (TyStruct fields) (JObj l) = true.
Proof.
  intros Hl. simpl. apply forallb_forall. intros [k v] Hin%list_elem_of_In. rewrite Forall_forall in Hl.
  destruct (Hl _ Hin) as (n & t & Hf & Ht). simpl in Hf, Ht. by rewrite Hf.
Qed.
Lemma fits_int64 z : int64 z -> fits time_ok TyInt64 (JNum (Strconv.Itoa z)) = true.
Proof. intros Hz. cbn [fits]. by rewrite StrconvFacts.Atoi_Itoa. Qed.
Lemma fits_attributes a : fits time_ok (TyMap TyString) (attributes_json a) = true.
Proof. simpl. rewrite forallb_forall. by intros [k v] ([k' v'] & [= <- <-] & _)%in_map_iff. Qed.

(** Each member stands for a field it fits. *)
Ltac each_member :=
  repeat (apply Forall_cons; split; [eexists _, _; split; [vm_compute; reflexivity|]|]); [..|constructor].

Lemma message_json_fits from actor time nano m :
  int64 time -> int64 nano -> fits time_ok Message_ty (message_json from actor time nano m) = true.
Proof.
  intros Ht Hn. apply fits_members. each_member; try reflexivity; try (by apply fits_int64).
  apply fits_members. each_member; [reflexivity|apply fits_attributes].
Qed.

Lemma message_json_read from actor time nano m : message_of (message_json from actor time nano m) = m.
Proof.
  destruct m as [st id ty act attrs].
  assert (Ha : set_map (set_string "") ∅ (attributes_json attrs) = attrs).
  { unfold attributes_json. rewrite (set_map_list _ JStr); [|by apply Forall_forall|apply NoDup_fst_map_to_list].
    by rewrite list_to_map_to_list, (right_id_L ∅ (∪)). }
  unfold message_of. f_equal; try reflexivity. exact Ha.
Qed.
End ReadBack.

Lemma drop_cr_lacks s : NetFacts.lacks "013" s -> Bufio.drop_cr s = s.
Proof.
  assert (Hrev : forall s t, NetFacts.lacks "013" s -> NetFacts.lacks "013" t -> NetFacts.lacks "013" (String.rev_app s t)).
  { clear. induction s as [|c s IH]; intros t; [done|]. intros [Hc Hs] Ht. by apply IH. }
  intros Hs. unfold Bufio.drop_cr, String.rev. specialize (Hrev s "" Hs I).
  destruct (String.rev_app s "") as [|c t]; [done|]. destruct Hrev as [Hc _]. by rewrite decide_False.
Qed.

Lemma scan_short ws :
  Forall (fun w => NetFacts.lacks "013" w /\ (Z.of_nat (String.length w) < 65536)%Z) ws -> Bufio.scan ws = ws.
Proof.
  induction 1 as [|w ws [Hcr Hlen] _ IH]; [done|]. simpl. by rewrite decide_True, drop_cr_lacks, IH.
Qed.

Lemma Scan_unlines ls :
  Forall (fun l => one_line l /\ (Z.of_nat (String.length l) < 65536)%Z) ls -> Bufio.Scan (unlines ls) = ls.
Proof.
  intros Hls. unfold Bufio.Scan. rewrite lines_concat.
  - apply scan_short. apply (Forall_impl _ _ _ Hls). intros l [[_ H] H']. done.
  - apply (Forall_impl _ _ _ Hls). by intros l [[H _] _].
Qed.

(** ** The event stream is read back *)

(** A message as the daemon sends it. *)
Record sent := { s_from : string; s_actor : string; s_time : Z; s_nano : Z; s_message : etypes.Message }.
Definition sent_line (s : sent) : string :=
  print (message_json (s_from s) (s_actor s) (s_time s) (s_nano s) (s_message s)).
(** Its strings are UTF-8, its times fit, and its line is one the scanner
    takes. *)
Record sendable (s : sent) : Prop := {
  sendable_from : utf8 (s_from s);
  sendable_actor : utf8 (s_actor s);
  sendable_time : int64 (s_time s);
  sendable_nano : int64 (s_nano s);
  sendable_message : utf8_message (s_message s);
  sendable_short : (Z.of_nat (String.length (sent_line s)) < 65536)%Z;
}.

Section Stream.
Context `{World} (time_ok : json -> bool) (json_error : string -> error).

(** A value that fits and is not null is stored. *)
Lemma unmarshal_print {A} (t : ty) (store : json -> A) j :
  printable j -> j <> JNull -> fits time_ok t j = true -> unmarshal time_ok json_error t store (print j) = Ok (Some (store j)).
Proof. intros Hp Hn Hf. unfold unmarshal. rewrite parse_print, Hf by done. by destruct j. Qed.

Lemma sent_read_back s : sendable s -> UnmarshalMessage time_ok json_error (sent_line s) = Ok (Some (s_message s)).
Proof.
  intros [H1 H2 H3 H4 H5 _]. unfold UnmarshalMessage, sent_line.
  rewrite unmarshal_print; [by rewrite message_json_read|by apply message_json_printable|done|by apply message_json_fits].
Qed.

(** C26: A stream of events is read back: when the daemon writes messages on the
    event stream, a line of JSON each, with its strings in UTF-8 and shorter
    than the 64 KiB of the scanner, the reader goroutine sends exactly these
    messages on [eventChan], in order, and no error. *)
Theorem stream_read_back ss h :
  Forall sendable ss ->
  read_stream (UnmarshalMessage time_ok json_error) (unlines (map sent_line ss)) h =
  (Val tt, h ++ map (fun s => EEventChan (Some (s_message s))) ss).
Proof.
  intros Hss. rewrite read_stream_at, Scan_unlines.
  - do 2 f_equal. rewrite map_map. apply map_ext_Forall. apply (Forall_impl _ _ _ Hss).
    intros s Hs. unfold line_event. by rewrite sent_read_back.
  - apply Forall_map, (Forall_impl _ _ _ Hss). intros s Hs. split; [|apply Hs].
    apply print_one_line, message_json_printable; apply Hs.
Qed.
End Stream.

(** ** Statistics are read back *)

Definition uint (z : Z) : json := JNum (Strconv.Itoa z).
Definition network_json (n : types.NetworkStats) : json := JObj
  [("rx_bytes", uint (types.RxBytes n)); ("rx_packets", uint (types.RxPackets n));
   ("rx_errors", uint (types.RxErrors n)); ("rx_dropped", uint (types.RxDropped n));
   ("tx_bytes", uint (types.TxBytes n)); ("tx_packets", uint (types.TxPackets n));
   ("tx_errors", uint (types.TxErrors n)); ("tx_dropped", uint (types.TxDropped n))].
Definition networks_json (m : gmap string types.NetworkStats) : json :=
  JObj (map (fun '(k, n) => (k, network_json n)) (map_to_list m)).
(** The object the daemon sends for the statistics of a container: [percpu]
    and [system] are fields the program does not read. *)
Definition stats_json (read : string) (percpu : list Z) (system : Z) (s : types.StatsJSON) : json := JObj
  [("read", JStr read); ("networks", networks_json (types.s_Networks s));
   ("cpu_stats", JObj
      [("cpu_usage", JObj [("total_usage", uint (types.CPU_TotalUsage s)); ("percpu_usage", JArr (map uint percpu))]);
       ("system_cpu_usage", uint system)]);
   ("memory_stats", JObj
      [("usage", uint (types.Memory_Usage s)); ("max_usage", uint (types.Memory_MaxUsage s));
       ("limit", uint (types.Memory_Limit s))])].

Definition uint64 (z : Z) : Prop := (0 <= z <= Strconv.max_uint64)%Z.
#[export] Instance uint64_dec z : Decision (uint64 z).
Proof. unfold uint64. apply _. Defined.
Record uint64_network (n : types.NetworkStats) : Prop := {
  u_rx_bytes : uint64 (types.RxBytes n); u_rx_packets : uint64 (types.RxPackets n);
  u_rx_errors : uint64 (types.RxErrors n); u_rx_dropped : uint64 (types.RxDropped n);
  u_tx_bytes : uint64 (types.TxBytes n); u_tx_packets : uint64 (types.TxPackets n);
  u_tx_errors : uint64 (types.TxErrors n); u_tx_dropped : uint64 (types.TxDropped n);
}.
Record uint64_stats (s : types.StatsJSON) : Prop := {
  u_total : uint64 (types.CPU_TotalUsage s);
  u_usage : uint64 (types.Memory_Usage s);
  u_max : uint64 (types.Memory_MaxUsage s);
  u_limit : uint64 (types.Memory_Limit s);
  u_networks : map_Forall (fun k n => utf8 k /\ uint64_network n) (types.s_Networks s);
}.

Lemma ParseUint_Itoa z : uint64 z -> Strconv.ParseUint (Strconv.Itoa z) = inl z.
Proof.
  intros [H1 H2]. rewrite StrconvFacts.Itoa_nonneg by done. rewrite StrconvFacts.ParseUint_pretty by lia. f_equal. lia.
Qed.
Lemma set_uint_json old z : uint64 z -> set_uint old (uint z) = z.
Proof. intros Hz. simpl. by rewrite ParseUint_Itoa. Qed.

Lemma network_json_read n : uint64_network n -> network_of (network_json n) = n.
Proof.
  intros [H1 H2 H3 H4 H5 H6 H7 H8]. destruct n as [a b c d e f g i]. unfold network_of.
  f_equal; by apply set_uint_json.
Qed.


(** The statistics of a line [s], stored over those of the line before: a
    network that the line does not name is kept. *)
Definition stored_over (old : option types.StatsJSON) (s : types.StatsJSON) : types.StatsJSON := {|
  types.CPU_TotalUsage := types.CPU_TotalUsage s;
  types.Memory_Usage := types.Memory_Usage s;
  types.Memory_MaxUsage := types.Memory_MaxUsage s;
  types.Memory_Limit := types.Memory_Limit s;
  types.s_Networks := types.s_Networks s ∪ default ∅ (types.s_Networks <$> old);
|}.

Section Statistics.
Context (time_ok : json -> bool) (json_error : string -> error).

Ltac members :=
  repeat first [apply Forall_nil_2 | apply Forall_cons_2; [split; [reflexivity|]|]].
Ltac each_member :=
  repeat first [apply Forall_nil_2 | apply Forall_cons_2; [eexists _, _; split; [vm_compute; reflexivity|]|]].

Lemma fits_uint z : uint64 z -> fits time_ok TyUint64 (uint z) = true.
Proof. intros Hz. cbn [fits uint]. by rewrite ParseUint_Itoa. Qed.

Lemma network_json_printable n : printable (network_json n).
Proof. apply printable_obj. members; apply printable_num. Qed.
Lemma network_json_fits n : uint64_network n -> fits time_ok (TyStruct (uints network_names)) (network_json n) = true.
Proof. intros Hn. apply fits_members. each_member; apply fits_uint; apply Hn. Qed.

Lemma stats_json_printable read percpu system s :
  utf8 read -> uint64_stats s -> printable (stats_json read percpu system s).
Proof.
  intros Hr Hs. apply printable_obj.
  assert (Hp : printable (JArr (map uint percpu))).
  { apply printable_arr, Forall_map, Forall_forall. intros z _. apply printable_num. }
  members; try by apply printable_str.
  - apply printable_obj, Forall_map, Forall_forall. intros [k n] Hin%elem_of_map_to_list.
    split; [apply (u_networks s Hs k n Hin)|apply network_json_printable].
  - apply printable_obj. members; [|apply printable_num]. apply printable_obj. members; [apply printable_num|exact Hp].
  - apply printable_obj. members; apply printable_num.
Qed.

Lemma stats_json_fits read percpu system s :
  time_ok (JStr read) = true -> Forall uint64 percpu -> uint64 system -> uint64_stats s ->
  fits time_ok StatsJSON_ty (stats_json read percpu system s) = true.
Proof.
  intros Ht Hp Hsys [H1 H2 H3 H4 H5]. apply fits_members. each_member.
  - exact Ht.
  - simpl. apply forallb_forall. intros [k j] ([k' n] & [= <- <-] & Hin)%in_map_iff.
    apply network_json_fits. apply list_elem_of_In, elem_of_map_to_list in Hin. apply (H5 _ _ Hin).
  - apply fits_members. each_member; [|by apply fits_uint].
    apply fits_members. each_member; [by apply fits_uint|].
    simpl. apply forallb_forall. intros j (z & <- & Hz)%in_map_iff. apply fits_uint.
    rewrite Forall_forall in Hp. apply Hp. by apply list_elem_of_In.
  - apply fits_members. each_member; by apply fits_uint.
Qed.

Lemma stats_json_read old read percpu system s :
  uint64_stats s -> stats_of (default zero_stats old) (stats_json read percpu system s) = stored_over old s.
Proof.
  intros [H1 H2 H3 H4 H5]. unfold stored_over, stats_of. f_equal; try by apply set_uint_json.
  transitivity (set_map network_of (types.s_Networks (default zero_stats old)) (networks_json (types.s_Networks s))); [reflexivity|].
  unfold networks_json. rewrite set_map_list.
  - rewrite list_to_map_to_list. by destruct old.
  - apply Forall_forall. intros [k n] Hin%elem_of_map_to_list. apply network_json_read. apply (H5 _ _ Hin).
  - apply NoDup_fst_map_to_list.
Qed.

Lemma stored_over_none s : stored_over None s = s.
Proof. unfold stored_over. simpl. rewrite (right_id_L ∅ (∪)). by destruct s. Qed.

(** The text of statistics is decoded, and stored. *)
Lemma statistics_stored read percpu system s old :
  utf8 read -> time_ok (JStr read) = true -> Forall uint64 percpu -> uint64 system -> uint64_stats s ->
  UnmarshalStats time_ok json_error old (print (stats_json read percpu system s)) = Ok (Some (stored_over old s)).
Proof.
  intros Hr Ht Hp Hsys Hs. unfold UnmarshalStats.
  rewrite unmarshal_print; [by rewrite stats_json_read|by apply stats_json_printable|done|by apply stats_json_fits].
Qed.

(** C27: Statistics are read back: the first line the daemon writes for the
    statistics of a container, with numbers that fit 64 bits, is decoded to
    these very statistics; a later line replaces the numbers of the line
    before it, and adds its networks to those of that line, which are kept
    when it does not name them. *)
Theorem statistics_read_back read percpu system s :
  utf8 read -> time_ok (JStr read) = true -> Forall uint64 percpu -> uint64 system -> uint64_stats s ->
  UnmarshalStats time_ok json_error None (print (stats_json read percpu system s)) = Ok (Some s) /\
  (forall old, UnmarshalStats time_ok json_error (Some old) (print (stats_json read percpu system s)) =
    Ok (Some (stored_over (Some old) s))).
Proof.
  intros Hr Ht Hp Hsys Hs. split; [|intros old]; rewrite statistics_stored by done; [by rewrite stored_over_none|done].
Qed.
End Statistics.

(** ** Concrete lines *)

Definition any_time (j : json) : bool := match j with JStr _ => true | _ => false end.
Definition syntax_error (line : string) : error := ErrorString ("cannot unmarshal " +:+ line).

(** The event of a container that starts. *)
Definition started_message : etypes.Message := {|
  etypes.Status := "start"; etypes.ID := "4f5e"; etypes.Type_ := "container"; etypes.Action := "start";
  etypes.Actor_Attributes := {["name" := "web"; "image" := "nginx"]} |}.
Definition plain_sent (m : etypes.Message) : sent :=
  {| s_from := "nginx"; s_actor := "4f5e"; s_time := 1461943101; s_nano := 1461943101381709551; s_message := m |}.

Definition web_statistics : types.StatsJSON := {|
  types.CPU_TotalUsage := 12; types.Memory_Usage := 4096; types.Memory_MaxUsage := 8192; types.Memory_Limit := Strconv.max_uint64;
  types.s_Networks := {["eth0" := {|
    types.RxBytes := 1; types.RxPackets := 2; types.RxErrors := 3; types.RxDropped := 4;
    types.TxBytes := 5; types.TxPackets := 6; types.TxErrors := 7; types.TxDropped := 8 |}]} |}.

Section Witnesses.
Import Cluster.
#[local] Existing Instance cluster.

Lemma stream_read_back_witness :
  read_stream (UnmarshalMessage any_time syntax_error) (unlines (map sent_line [plain_sent started_message; plain_sent start_message])) [] =
  (Val tt, [EEventChan (Some started_message); EEventChan (Some start_message)]).
Proof.
  apply (stream_read_back any_time syntax_error [plain_sent started_message; plain_sent start_message] []).
  repeat apply Forall_cons_2; [..|apply Forall_nil_2].
  all: constructor; [reflexivity|reflexivity|by vm_compute|by vm_compute| |by vm_compute].
  all: split; [reflexivity|split; [reflexivity|split; [reflexivity|split; [reflexivity|]]]].
  - apply map_Forall_insert_2; [by vm_compute|]. apply map_Forall_insert_2; [by vm_compute|]. apply map_Forall_empty.
  - apply map_Forall_empty.
Defined.

Lemma web_statistics_fit : uint64_stats web_statistics.
Proof.
  assert (Hz : forall z, bool_decide (uint64 z) = true -> uint64 z) by (intros z; apply bool_decide_eq_true_1).
  constructor; [by apply Hz..|]. apply map_Forall_singleton. split; [reflexivity|constructor; by apply Hz].
Qed.

Lemma statistics_read_back_witness :
  UnmarshalStats any_time syntax_error None (print (stats_json "2016-04-29T15:18:21Z" [7%Z; 5%Z] 90%Z web_statistics)) = Ok (Some web_statistics).
Proof.
  refine (proj1 (statistics_read_back any_time syntax_error "2016-04-29T15:18:21Z" [7%Z; 5%Z] 90%Z web_statistics
    _ _ _ _ web_statistics_fit)); [reflexivity|reflexivity| |].
  - apply (bool_decide_eq_true_1 (Forall uint64 [7%Z; 5%Z])). reflexivity.
  - apply (bool_decide_eq_true_1 (uint64 90%Z)). reflexivity.
Defined.

(** A text with its apostrophes as double quotes. *)
Fixpoint quoted (s : string) : string :=
  match s with
  | EmptyString => EmptyString
  | String c s' => String (if decide (c = "'"%char) then ascii_of_nat 34 else c) (quoted s')
  end.

(** What [encoding/json] does with lines the daemon does not write: keys are
    compared without case, a repeated key is stored again, unknown members are
    skipped and "null" leaves the pointer nil. *)
Example lines_decoded :
  map (fun l => UnmarshalMessage any_time (fun _ => ErrorString "") (quoted l))
    [" { 'STATUS' : 'die', 'id':'a\u00e9', 'x':[1,{}], 'status':'start' } "; "null"; "{'time':1.5}"; "{'id':7}"; "{'id':}"] =
  [Ok (Some {| etypes.Status := "start"; etypes.ID := "a" +:+ encode_rune 233; etypes.Type_ := ""; etypes.Action := "";
     etypes.Actor_Attributes := ∅ |}); Ok None;
   Err (ErrorString ""); Err (ErrorString ""); Err (ErrorString "")].
Proof. vm_compute. reflexivity. Qed.
End Witnesses.
