(* ===== verification/Published.v ===== *)
(** * From the statistics of the daemon to the gauges

    The text the daemon answers with ([Decode]), the goroutines of
    [collectStats] that read it ([Collect]) and the gauges they set
    ([Beacon]), put together. *)

From S2P Require Import Prelude GoStd GoTime GoJson GoRegexp Docker Config NodeID Beacon Collect Decode.

Section Published.
Context {W : World}.
Context (elsewhere : string -> option (string -> bool)) (NewPoint : influx.Point -> option error).
Context (time_ok : json -> bool) (json_error : string -> error).
#[local] Abbreviation Unmarshal := (UnmarshalStats time_ok json_error).

(** The rules are valid expressions, and one selects the image. *)
Definition selected (b : Beacon) (config : ctypes.Config) : Prop :=
  (forall r, image_rule b r -> is_Some (Regexp.Compile elsewhere (Rule_Regex r))) /\
  exists r, image_rule b r /\ rule_selects elsewhere config r.

(** What the daemon answers about the container [id], at any time: one line of
    statistics, and whatever it lists. *)
Record answers (id name : string) (config : ctypes.Config) (line : string) : Prop := {
  answers_name : name <> "";
  answers_inspect : forall h id', id' = id \/ id' = short id -> exists info,
    reply_ContainerInspect h id' = Ok info /\ types.ci_Config info = Some config /\ types.ci_Name info = name;
  answers_stats : forall h, reply_ContainerStats h id = Ok (unlines [line]);
  answers_containers : forall h, exists l, reply_ContainerList h true = Ok l;
  answers_images : forall h, exists k, reply_ImageList h = Ok k;
  answers_volumes : forall h, exists k, reply_VolumeList h = Ok k;
  answers_networks : forall h, exists k, reply_NetworkList h = Ok k;
}.

(** The gauges read the numbers of the statistics after [h]. *)
Definition published (id name : string) (config : ctypes.Config) (s : types.StatsJSON) (h : list event) : Prop :=
  exists stat, stat_for id name config s stat /\
    forall g labels v, (g, labels, v) ∈ readings stat (map_to_list (types.s_Networks s)) ->
      labels !! "container" = Some (short id) -> gauge h g labels = Some v.
End Published.

Lemma answers_view {W : World} h0 G i id name config line :
  answers id name config line -> answers (W := view W h0 G i) id name config line.
Proof. intros [Hn Hi Hs H1 H2 H3 H4]. split; [done|..]; simpl; eauto. Qed.

(** ** What one goroutine does *)

Section One.
Context {R : MapRange} {V : World}.
Context (elsewhere : string -> option (string -> bool)) (NewPoint : influx.Point -> option error).
Context (Unmarshal : option types.StatsJSON -> string -> res (option types.StatsJSON)).
Context (b : Beacon) (Hprom : StatsBackendType (cfg b) = "prometheus").
Context (id name line : string) (config : ctypes.Config) (s : types.StatsJSON) (Ha : answers id name config line).

Lemma send_stat_whole stat h :
  exists nets, (forall n net, (n, net) ∈ nets <-> Stat_Networks stat !! n = Some net) /\
    send_stat NewPoint b stat h = (Val tt, h ++ map set_event (readings stat nets)).
Proof.
  unfold send_stat. rewrite (decide_True _ _ Hprom). destruct (sendPrometheus_at stat h) as [t Ht].
  eexists. split; [|exact Ht]. intros; apply elem_of_range.
Qed.

(** Some interactions, then the readings of the statistics. *)
Definition publishes (h h' : list event) : Prop :=
  exists stat pre nets, stat_for id name config s stat /\ Forall no_gauge pre /\
    (forall n net, (n, net) ∈ nets <-> Stat_Networks stat !! n = Some net) /\
    h' = h ++ pre ++ map set_event (readings stat nets).

Lemma trimmed_name : name <> "" -> forall (A : Type) (f : string -> M A) h,
  (pure (match name with
         | EmptyString => Panic "index out of range"
         | String c rest => mret (if decide (c = "/"%char) then rest else name)
         end) ≫= f) h = f (trimmed name) h.
Proof. intros Hn A f h. rewrite bind_at. by destruct name. Qed.

Lemma sendContainerStats_publishes h :
  exists h', sendContainerStats NewPoint b id (Some s) h = (Val tt, h') /\ publishes h h'.
Proof.
  unfold sendContainerStats. fold (short id). unfold ContainerList, ContainerInspect, ImageList, VolumeList, NetworkList.
  rewrite bind_at. unfold call at 1. destruct (answers_containers _ _ _ _ Ha h) as [l ->].
  rewrite bind_at. unfold call at 1.
  destruct (answers_inspect _ _ _ _ Ha (h ++ [EContainerList true]) (short id) (or_intror eq_refl)) as (info & -> & Hc & Hn).
  rewrite bind_at. unfold pure at 1. rewrite Hc. cbn [deref]. rewrite Hn, trimmed_name by apply Ha.
  rewrite bind_at. unfold call at 1. edestruct (answers_images _ _ _ _ Ha) as [ni ->].
  rewrite bind_at. unfold call at 1. edestruct (answers_volumes _ _ _ _ Ha) as [nv ->].
  rewrite bind_at. unfold call at 1. edestruct (answers_networks _ _ _ _ Ha) as [nn ->].
  rewrite bind_at. unfold pure at 1. cbn [deref].
  match goal with |- context [send_stat _ _ ?st _] => set (stat := st) end.
  edestruct (send_stat_whole stat) as (nets & Hnets & ->). eexists. split; [reflexivity|].
  exists stat, [EContainerList true; EContainerInspect (short id); EImageList; EVolumeList; ENetworkList], nets.
  split; [by split|]. split; [by repeat constructor|]. split; [exact Hnets|]. by rewrite <- !app_assoc.
Qed.

Lemma collect_publishes h :
  selected elsewhere b config -> (Z.of_nat (String.length line) < 65536)%Z -> one_line line ->
  Unmarshal None line = Ok (Some s) ->
  exists h', collect elsewhere NewPoint Unmarshal b id h = (Val tt, h') /\ publishes h h'.
Proof.
  intros [Hv Hsel] Hlen Hone Hu. unfold collect, ContainerInspect, ContainerStats.
  rewrite bind_at. unfold call at 1.
  destruct (answers_inspect _ _ _ _ Ha h id (or_introl eq_refl)) as (info & -> & Hc & Hn).
  rewrite bind_at. unfold pure at 1. rewrite Hc. cbn [deref].
  rewrite bind_at. unfold tick at 1. rewrite bind_at. unfold pure at 1.
  edestruct (rule_match elsewhere) as [Hm _]. destruct (Hm Hv) as (m & -> & Hmt).
  assert (m = true) as -> by (by apply Hmt). clear Hm Hmt. rewrite bind_at. unfold call at 1.
  rewrite (answers_stats _ _ _ _ Ha). rewrite (Scan_unlines [line]) by (by apply Forall_singleton).
  cbn [scan_stats]. rewrite Hu. rewrite bind_at.
  edestruct sendContainerStats_publishes as (h' & -> & stat & pre & nets & Hs & Hq & Hnets & ->).
  eexists. split; [reflexivity|]. exists stat, (EContainerInspect id :: EContainerStats id :: pre), nets.
  split; [done|]. split; [by repeat constructor|]. split; [exact Hnets|]. by rewrite <- !app_assoc.
Qed.
End One.

(** ** The gauges *)

(** The gauges read what the text says, when the goroutines have ended. *)
Lemma goroutines_publish {W : World} elsewhere NewPoint time_ok json_error b h0 ids G i id name config
    read percpu system s :
  StatsBackendType (cfg b) = "prometheus" ->
  goroutines elsewhere NewPoint (UnmarshalStats time_ok json_error) b h0 ids G -> others_quiet ids G ->
  NoDup (map short ids) -> ids !! i = Some id -> selected elsewhere b config ->
  utf8 read -> time_ok (JStr read) = true -> Forall uint64 percpu -> uint64 system -> uint64_stats s ->
  (Z.of_nat (String.length (print (stats_json read percpu system s))) < 65536)%Z ->
  answers id name config (print (stats_json read percpu system s)) ->
  published id name config s (h0 ++ map snd G).
Proof.
  intros Hprom Hc Ho Hnd Hi Hsel Hr Ht Hp Hsys Hs Hlen Ha.
  destruct (Hc i id Hi) as [R Hrun]. unfold collected in Hrun.
  pose proof (statistics_stored time_ok json_error read percpu system s None Hr Ht Hp Hsys Hs) as Hu. rewrite stored_over_none in Hu.
  destruct (collect_publishes (R := R) (V := view W h0 G i) elsewhere NewPoint (UnmarshalStats time_ok json_error) b Hprom id name
    _ config s (answers_view h0 G i _ _ _ _ Ha) h0 Hsel Hlen (print_one_line _ (stats_json_printable read percpu system s Hr Hs)) Hu)
    as (h' & He & stat & pre & nets & Hst & Hq & Hnets & ->).
  rewrite Hrun in He. injection He as He. apply app_inv_head in He.
  exists stat. split; [done|]. intros g labels v Hin Hl. rewrite <- (for_networks _ _ _ _ _ Hst) in Hin.
  eapply (whole_gauges elsewhere NewPoint _ b Hprom h0 ids G i id pre stat _ []);
    [done|done|done|done|rewrite app_nil_r; exact He|split; [apply Hst|by exists nets]|constructor|done|done].
Qed.

(** C24: What the daemon says is what is published: after a collection, whatever
    the order of its goroutines, the gauges of a container that a rule selects
    and about which the daemon answers read the numbers of the text of its
    statistics, with the name and the image it was inspected with. *)
Theorem statistics_published {W : World} elsewhere NewPoint time_ok json_error b h0 ids G i id name config
    read percpu system s :
  StatsBackendType (cfg b) = "prometheus" ->
  collectStats elsewhere NewPoint (UnmarshalStats time_ok json_error) b h0 ids G -> NoDup (map short ids) -> ids !! i = Some id ->
  selected elsewhere b config ->
  utf8 read -> time_ok (JStr read) = true -> Forall uint64 percpu -> uint64 system -> uint64_stats s ->
  (Z.of_nat (String.length (print (stats_json read percpu system s))) < 65536)%Z ->
  answers id name config (print (stats_json read percpu system s)) ->
  published id name config s (h0 ++ map snd G).
Proof.
  intros Hprom [_ Htags Hc] Hnd Hi Hsel. apply (goroutines_publish elsewhere NewPoint time_ok json_error b h0 ids G i); try done.
  eapply Forall_impl; [exact Htags|]. by left.
Qed.

(** ** Witness *)

Section Witnesses.
Import Cluster.

Definition web_line : string := print (stats_json "2016-04-29T15:18:21Z" [7%Z; 5%Z] 90%Z web_statistics).
Definition web_stats : option types.StatsJSON -> string -> res (option types.StatsJSON) := UnmarshalStats any_time syntax_error.
Definition read_at_once : schedule := torn (unlines [web_line]) web_stats.

Lemma read_collects :
  @collectStats (counting (unlines [web_line])) nothing_else (fun _ => None) web_stats all_rules [] ["aaaaaaaaaaaa"; "bbbbbbbbbbbb"]
    read_at_once.
Proof.
  split.
  - apply (bool_decide_unpack _). vm_compute. exact I.
  - apply (bool_decide_unpack _). vm_compute. exact I.
  - intros [|[|i]] id [= <-]; exists sorted_range; vm_compute; reflexivity.
Qed.

Lemma counting_answers : answers (W := counting (unlines [web_line])) "bbbbbbbbbbbb" "/api" api_config web_line.
Proof.
  split; try (intros h; by eexists); try done. intros h id' [->| ->]; exists api_info; done.
Qed.

Lemma all_rules_select : selected nothing_else all_rules api_config.
Proof.
  split.
  - intros r ((k & Hk) & _).
    assert (Hall : map_Forall (fun _ r => is_Some (Regexp.Compile nothing_else (Rule_Regex r))) (Rules (cfg all_rules)))
      by (apply (bool_decide_unpack _); vm_compute; exact I).
    apply (Hall k r Hk).
  - eexists. split; [split; [by exists "r"|reflexivity]|]. by eexists.
Qed.

Lemma statistics_published_witness :
  exists stat, ID stat = "bbbbbbbbbbbb" /\
    gauge (map snd read_at_once) counterMemoryUsage (container_labels stat "memory") = Some (Float64.of_Z 4096).
Proof.
  destruct (statistics_published (W := counting (unlines [web_line])) nothing_else (fun _ => None) any_time syntax_error all_rules []
    ["aaaaaaaaaaaa"; "bbbbbbbbbbbb"] read_at_once 1 "bbbbbbbbbbbb" "/api" api_config "2016-04-29T15:18:21Z" [7%Z; 5%Z] 90%Z
    web_statistics) as (stat & Hst & Hr); try reflexivity.
  - exact read_collects.
  - apply (bool_decide_unpack _). vm_compute. exact I.
  - exact all_rules_select.
  - apply (bool_decide_eq_true_1 (Forall uint64 [7%Z; 5%Z])). reflexivity.
  - apply (bool_decide_eq_true_1 (uint64 90%Z)). reflexivity.
  - exact web_statistics_fit.
  - exact counting_answers.
  - exists stat. split; [apply Hst|]. apply (Hr counterMemoryUsage (container_labels stat "memory")).
    + replace (Float64.of_Z 4096) with (Float64.of_Z (types.Memory_Usage (Stats stat))) by (rewrite (for_stats _ _ _ _ _ Hst); reflexivity).
      do 5 right. left.
    + unfold container_labels. by rewrite lookup_insert_eq, (for_id _ _ _ _ _ Hst).
Defined.
End Witnesses.
