(* ===== verification/ServerChannels.v ===== *)
(** * The goroutines of the server

    The goroutines of [NewServer] and [runPoller] ([server/server.go])
    exchange messages on unbuffered channels: a send waits for its receiver.
    This is the transition system of the main goroutine, the handlers of
    [errChan], [restartChan] and [eventChan], the readers of the event
    streams and the poller, as a function that runs one action.  What the
    handlers do between two messages is in [Server]; here a daemon may answer
    anything at any time. *)

From S2P Require Import Prelude GoStd Docker Server.

(** ** States *)

(** The handler of [errChan]: receiving, in [waitForSwarm], or sending on
    [restartChan]. *)
Inductive err_handler := HRecv | HWait | HSend.
(** The handler of [restartChan]: receiving, opening the stream, sending an
    error, or sending the first event. *)
Inductive restart_handler := RRecv | ROpen | RErr (e : error) | RStart.
(** The handler of [eventChan]: receiving, with [left] extensions to notify,
    sending the error of one, or panicking on a message that is nil, which ends
    the process. *)
Inductive event_handler := ERecv | EHandle (left : nat) | EErr (e : error) (left : nat) | EPanic.
(** A reader: at the next line, sending the error of a line or its message,
    or at the end of the stream.  The line [null] leaves the pointer to the
    message nil. *)
Inductive reader := Scan | ReadErr (e : error) | ReadMsg (m : option etypes.Message) | Closed.
(** The poller: not started, at the next tick, or sending. *)
Inductive poller_state := POff | PTick | PSend.

Record state := {
  starting : bool;              (* the main goroutine is sending on [restartChan] *)
  H : err_handler;
  R : restart_handler;
  E : event_handler;
  readers : list reader;
  poller : poller_state;
}.

Definition init : state :=
  {| starting := true; H := HRecv; R := RRecv; E := ERecv; readers := []; poller := POff |}.

Definition set_H x s := {| starting := starting s; H := x; R := R s; E := E s; readers := readers s; poller := poller s |}.
Definition set_R x s := {| starting := starting s; H := H s; R := x; E := E s; readers := readers s; poller := poller s |}.
Definition set_E x s := {| starting := starting s; H := H s; R := R s; E := x; readers := readers s; poller := poller s |}.
Definition set_readers x s := {| starting := starting s; H := H s; R := R s; E := E s; readers := x; poller := poller s |}.
Definition set_poller x s := {| starting := starting s; H := H s; R := R s; E := E s; readers := readers s; poller := x |}.
Definition started s := {| starting := false; H := H s; R := R s; E := E s; readers := readers s; poller := poller s |}.

(** ** Actions *)

Inductive action :=
| AMain                              (* the first restart is received *)
| AOpen (r : option error)           (* the daemon opens the stream, or fails *)
| ARErr                              (* the error of the opening is received *)
| AStart                             (* the first event is received *)
| ALine (i : nat) (l : error + option etypes.Message)   (* a line is read: its error, or its message, nil for [null] *)
| AEnd (i : nat)
| AReadErr (i : nat)
| AReadMsg (i : nat)
| AExt (r : option error)            (* an extension returns *)
| AExtErr                            (* its error is received *)
| ACount                             (* the event is counted *)
| ATry (ready : bool)                (* one try of waitForSwarm *)
| ARestart                           (* the restart is received *)
| APollStart
| APollTick (changed : bool)
| APollSend.

Section Channels.
(** Whether [PollInterval] is set, and the number of extensions. *)
Context (polling : bool) (n : nat).

Definition receive_error (e : error) : err_handler := if decide (swarm_error e) then HWait else HRecv.
Definition receive_event (m : etypes.Message) : event_handler := if decide (anonymous m) then ERecv else EHandle n.
(** The handler of [eventChan] reads the fields of the message at once. *)
Definition receive_pointer (m : option etypes.Message) : event_handler :=
  match m with Some m => receive_event m | None => EPanic end.
Definition receive_restart : restart_handler := if polling then RRecv else ROpen.

(** One action, in a process that goes on. *)
Definition go (a : action) (s : state) : option state :=
  match a with
  | AMain =>
      match starting s, R s with
      | true, RRecv => Some (started (set_R receive_restart s))
      | _, _ => None
      end
  | AOpen r =>
      match R s with
      | ROpen => Some match r with
                      | None => set_readers (readers s ++ [Scan]) (set_R RStart s)
                      | Some e => set_R (RErr e) s
                      end
      | _ => None
      end
  | ARErr =>
      match R s, H s with
      | RErr e, HRecv => Some (set_H (receive_error e) (set_R RRecv s))
      | _, _ => None
      end
  | AStart =>
      match R s, E s with
      | RStart, ERecv => Some (set_E (receive_event start_message) (set_R RRecv s))
      | _, _ => None
      end
  | ALine i l =>
      match readers s !! i with
      | Some Scan => Some (set_readers (<[i := match l with inl e => ReadErr e | inr m => ReadMsg m end]> (readers s)) s)
      | _ => None
      end
  | AEnd i =>
      match readers s !! i with
      | Some Scan => Some (set_readers (<[i := Closed]> (readers s)) s)
      | _ => None
      end
  | AReadErr i =>
      match readers s !! i, H s with
      | Some (ReadErr e), HRecv => Some (set_H (receive_error e) (set_readers (<[i := Scan]> (readers s)) s))
      | _, _ => None
      end
  | AReadMsg i =>
      match readers s !! i, E s with
      | Some (ReadMsg m), ERecv => Some (set_E (receive_pointer m) (set_readers (<[i := Scan]> (readers s)) s))
      | _, _ => None
      end
  | AExt r =>
      match E s with
      | EHandle (S k) => Some (set_E (match r with None => EHandle k | Some e => EErr e k end) s)
      | _ => None
      end
  | AExtErr =>
      match E s, H s with
      | EErr e k, HRecv => Some (set_H (receive_error e) (set_E (EHandle k) s))
      | _, _ => None
      end
  | ACount =>
      match E s with
      | EHandle O => Some (set_E ERecv s)
      | _ => None
      end
  | ATry ready =>
      match H s with
      | HWait => Some (if ready : bool then set_H HSend s else s)
      | _ => None
      end
  | ARestart =>
      match H s, R s with
      | HSend, RRecv => Some (set_H HRecv (set_R receive_restart s))
      | _, _ => None
      end
  | APollStart =>
      match polling, starting s, poller s with
      | true, false, POff => Some (set_poller PTick s)
      | _, _, _ => None
      end
  | APollTick changed =>
      match poller s with
      | PTick => Some (if changed : bool then set_poller PSend s else s)
      | _ => None
      end
  | APollSend =>
      match poller s, E s with
      | PSend, ERecv => Some (set_E (EHandle n) (set_poller PTick s))
      | _, _ => None
      end
  end.

Definition exec (a : action) (s : state) : option state :=
  match E s with EPanic => None | _ => go a s end.

(** The handler of [eventChan] has not panicked. *)
Definition running (s : state) : bool := match E s with EPanic => false | _ => true end.

Fixpoint run (acts : list action) (s : state) : option state :=
  match acts with
  | [] => Some s
  | a :: acts' => s' ← exec a s; run acts' s'
  end.

Definition reaches (s s' : state) : Prop := exists acts, run acts s = Some s'.
End Channels.

(** ** Doomed states *)

(** The three handlers receive: nothing is blocked on them. *)
Definition quiet (s : state) : Prop := H s = HRecv /\ R s = RRecv /\ E s = ERecv.

(** The handler of errors is to ask for a restart, and the handler of
    restarts waits for it: to send an error, or for the handler of events,
    which itself has an error to send. *)
Definition doomed (s : state) : Prop :=
  H s <> HRecv /\
  match R s with
  | RRecv => False
  | RErr _ => True
  | ROpen | RStart => match E s with EErr _ _ => True | _ => False end
  end.

(** The fields of the updated states. *)
Ltac fields :=
  cbn [set_H set_R set_E set_readers set_poller started starting H R E readers poller] in *.

Section Facts.
Context (polling : bool) (n : nat).
Abbreviation exec := (exec polling n).
Abbreviation go := (go polling n).
Abbreviation run := (run polling n).
Abbreviation reaches := (reaches polling n).

Lemma run_app acts1 acts2 s : run (acts1 ++ acts2) s = (s' ← run acts1 s; run acts2 s').
Proof.
  revert s. induction acts1 as [|a acts1 IH]; intros s; [done|]. simpl. by destruct (exec a s) as [s'|]; simpl.
Qed.

Lemma reaches_refl s : reaches s s.
Proof. by exists []. Qed.
Lemma reaches_trans s1 s2 s3 : reaches s1 s2 -> reaches s2 s3 -> reaches s1 s3.
Proof. intros [a1 H1] [a2 H2]. exists (a1 ++ a2). by rewrite run_app, H1. Qed.
Lemma reaches_step a s s' s'' : exec a s = Some s' -> reaches s' s'' -> reaches s s''.
Proof. intros Ha [acts Hr]. exists (a :: acts). simpl. by rewrite Ha. Qed.
Lemma reaches_ind_inv (P : state -> Prop) s s' :
  (forall a s s', exec a s = Some s' -> P s -> P s') -> reaches s s' -> P s -> P s'.
Proof.
  intros HP [acts Hr]. revert s Hr. induction acts as [|a acts IH]; intros s Hr Hs; [by injection Hr as <-|].
  simpl in Hr. destruct (exec a s) as [s1|] eqn:Ha; [|done]. eapply IH; [exact Hr|by eapply HP].
Qed.

(** The actions of a process that has not panicked. *)
Lemma exec_go a s : E s <> EPanic -> exec a s = go a s.
Proof. unfold ServerChannels.exec. by destruct (E s). Qed.
Lemma exec_alive a s s' : exec a s = Some s' -> E s <> EPanic /\ go a s = Some s'.
Proof. unfold ServerChannels.exec. by destruct (E s). Qed.

(** Goes through the actions and the states of the goroutines. *)
Ltac by_action a s :=
  match goal with Ha : exec a s = Some _ |- _ => apply exec_alive in Ha as [? Ha] end;
  destruct s as [st h r e rs p]; destruct a; simpl in *; repeat (case_match; try done); simplify_eq/=.

Lemma doomed_step a s s' : exec a s = Some s' -> doomed s -> doomed s'.
Proof. unfold doomed. intros Ha Hd. by_action a s; naive_solver. Qed.

(** ** Recovery *)

(** Takes an action in a state whose handler of events has not panicked. *)
Ltac lives := let Hp := fresh "Hp" in intros Hp; simpl in *; rewrite Hp in *; simpl in *; done.
Ltac go := rewrite exec_go by (first [done|lives|congruence]); simpl.

(** The extensions of the event being handled return without error. *)
Lemma handled s k : E s = EHandle k -> reaches s (set_E ERecv s).
Proof.
  revert s. induction k as [|k IH]; intros s Hs.
  - eapply (reaches_step ACount); [go; by rewrite Hs|]. apply reaches_refl.
  - eapply (reaches_step (AExt None)); [go; by rewrite Hs|].
    eapply reaches_trans; [by apply IH|]. apply reaches_refl.
Qed.

(** From a state, one where [P] holds can be reached. *)
Definition can (P : state -> Prop) (s : state) : Prop := exists s', reaches s s' /\ P s'.

Lemma can_step (P : state -> Prop) a s s' : exec a s = Some s' -> can P s' -> can P s.
Proof. intros Ha (s'' & Hr & HP). exists s''. split; [by eapply reaches_step|done]. Qed.
Lemma can_reach (P : state -> Prop) s s' : reaches s s' -> can P s' -> can P s.
Proof. intros Ha (s'' & Hr & HP). exists s''. split; [by eapply reaches_trans|done]. Qed.

(** The steps of a recovery, from the innermost: the event handler is neither
    sending an error nor panicking. *)
Definition free (e : event_handler) : Prop := match e with EErr _ _ | EPanic => False | _ => True end.

Lemma free_event s : free (E s) -> reaches s (set_E ERecv s).
Proof.
  destruct s as [st h r [|k|e k|] rs p]; intros He; [apply reaches_refl|by eapply handled|done..].
Qed.

Lemma free_receive m : free (receive_event n m).
Proof. unfold receive_event. by case_decide. Qed.

Lemma recovers_start s : H s = HRecv -> R s = RStart -> free (E s) -> can quiet s.
Proof.
  intros HH HR HE. eapply can_reach; [by apply free_event|].
  eapply (can_step _ AStart); [go; by rewrite HR|].
  eapply can_reach; [apply free_event, free_receive|]. by eexists; split; [apply reaches_refl|].
Qed.
Lemma recovers_open s : H s = HRecv -> R s = ROpen -> free (E s) -> can quiet s.
Proof.
  intros HH HR HE. eapply (can_step _ (AOpen None)); [go; by rewrite HR|]. by apply recovers_start.
Qed.
Lemma recovers_restarted s : H s = HRecv -> R s = receive_restart polling -> free (E s) -> can quiet s.
Proof.
  unfold receive_restart. destruct polling; intros; [|by apply recovers_open].
  eapply can_reach; [by apply free_event|]. by eexists; split; [apply reaches_refl|].
Qed.
Lemma recovers_send s : H s = HSend -> R s = RRecv -> free (E s) -> can quiet s.
Proof.
  intros HH HR HE. eapply (can_step _ ARestart); [go; by rewrite HH, HR|]. by apply recovers_restarted.
Qed.
Lemma recovers_free s : R s = RRecv -> free (E s) -> can quiet s.
Proof.
  intros HR HE. destruct (H s) eqn:HH; [|
    eapply (can_step _ (ATry true)); [go; by rewrite HH|]; by apply recovers_send | by apply recovers_send].
  eapply can_reach; [by apply free_event|]. by eexists; split; [apply reaches_refl|].
Qed.
Lemma recovers_started s : R s = RStart -> free (E s) -> can quiet s.
Proof.
  intros HR HE. eapply can_reach; [by apply free_event|].
  eapply (can_step _ AStart); [go; by rewrite HR|]. apply recovers_free; [done|apply free_receive].
Qed.
Lemma recovers_opened s : R s = ROpen -> free (E s) -> can quiet s.
Proof.
  intros HR HE. eapply (can_step _ (AOpen None)); [go; by rewrite HR|]. by apply recovers_started.
Qed.
Lemma recovers_listening s : E s <> EPanic -> H s = HRecv -> (forall e, R s <> RErr e) -> can quiet s.
Proof.
  intros Hal HH HR.
  assert (Hfree : free (E s) -> can quiet s).
  { intros HE. destruct (R s) eqn:?; [by apply recovers_free|by apply recovers_opened|by edestruct HR|by apply recovers_started]. }
  destruct (E s) as [|k|e k|] eqn:HE; [by apply Hfree..| |done].
  eapply (can_step _ AExtErr); [go; by rewrite HE, HH|].
  destruct (R s) eqn:HR'; [by apply recovers_free|by apply recovers_opened|by edestruct HR|by apply recovers_started].
Qed.
Lemma recovers_waiting s : E s <> EPanic -> H s <> HRecv -> R s = RRecv -> can quiet s.
Proof.
  assert (Hsend : forall s, E s <> EPanic -> H s = HSend -> R s = RRecv -> can quiet s).
  { intros s0 Hal HH HR. eapply (can_step _ ARestart); [go; by rewrite HH, HR|].
    apply recovers_listening; [done..|]. simpl. unfold receive_restart. by destruct polling. }
  intros Hal HH HR. destruct (H s) eqn:?; [done| |by apply Hsend].
  eapply (can_step _ (ATry true)); [go; by rewrite Heqe|]. by apply Hsend.
Qed.
Lemma recovers_erring s e : E s <> EPanic -> H s = HRecv -> R s = RErr e -> can quiet s.
Proof.
  intros Hal HH HR. eapply (can_step _ ARErr); [go; by rewrite HR, HH|].
  unfold receive_error. case_decide; [by apply recovers_waiting|by apply recovers_listening].
Qed.

(** A process that has panicked stops. *)
Lemma panicked_stops s s' : E s = EPanic -> reaches s s' -> s' = s.
Proof.
  intros HE [[|a acts] Hr]; simpl in Hr; [by injection Hr|]. unfold ServerChannels.exec in Hr. by rewrite HE in Hr.
Qed.

(** C17: The server can go back to the state where its handlers receive, so that
    it serves events, errors and restarts again, exactly when it is not
    doomed and its handler of events has not panicked on a nil message; in
    particular a doomed server never does. *)
Theorem recovers_iff s : can quiet s <-> ~ doomed s /\ E s <> EPanic.
Proof.
  split.
  - intros (s' & Hr & HH & _ & HE). split.
    + intros Hd. apply (reaches_ind_inv _ _ _ doomed_step Hr) in Hd as [Hne _]. done.
    + intros Hp. apply panicked_stops in Hr as ->; [congruence|done].
  - unfold doomed. intros [Hd Hal].
    assert (Hc : H s = HRecv \/ H s <> HRecv) by (destruct (H s); auto).
    destruct (R s) eqn:HR, Hc as [HH|HH]; try (by apply recovers_listening; [done..|congruence]).
    + by apply recovers_waiting.
    + apply recovers_opened; [done|]. by destruct (E s); [..|destruct Hd|].
    + by eapply recovers_erring.
    + by destruct Hd.
    + apply recovers_started; [done|]. by destruct (E s); [..|destruct Hd|].
Qed.

(** Receiving an error or a restart. *)
Definition served (a : action) : Prop :=
  match a with AMain | ARErr | AReadErr _ | AExtErr | ARestart => True | _ => False end.

(** A doomed server receives no error and no restart ever again. *)
Theorem doomed_forever acts s s' :
  doomed s -> run acts s = Some s' -> doomed s' /\ Forall (fun a => ~ served a) acts.
Proof.
  revert s. induction acts as [|a acts IH]; intros s Hd Hr; [by simplify_eq/=|].
  simpl in Hr. destruct (exec a s) as [s1|] eqn:Ha; [|done]. simpl in Hr.
  destruct (IH s1 (doomed_step a s s1 Ha Hd) Hr) as [Hd' Hf]. split; [done|]. constructor; [|done].
  clear -Ha Hd. unfold doomed in Hd. by_action a s; naive_solver.
Qed.

(** The errors of a run. *)
Definition action_error (a : action) : option error :=
  match a with AOpen (Some e) | ALine _ (inl e) | AExt (Some e) => Some e | _ => None end.
Definition no_swarm_error (s : state) : Prop :=
  H s = HRecv /\ (forall e, R s = RErr e -> ~ swarm_error e) /\ (forall e k, E s = EErr e k -> ~ swarm_error e) /\
  (forall i e, readers s !! i = Some (ReadErr e) -> ~ swarm_error e).

Lemma receive_no_swarm_error e : ~ swarm_error e -> receive_error e = HRecv.
Proof. intros He. unfold receive_error. by rewrite decide_False. Qed.

Lemma no_swarm_error_step a s s' :
  (forall e, action_error a = Some e -> ~ swarm_error e) -> exec a s = Some s' -> no_swarm_error s -> no_swarm_error s'.
Proof.
  unfold no_swarm_error. intros Hae Ha (HH & HR & HE & HL).
  assert (Hlist : forall (rs : list reader) i r, (forall i e, rs !! i = Some (ReadErr e) -> ~ swarm_error e) ->
    (forall e, r = ReadErr e -> ~ swarm_error e) ->
    forall i' e, <[i:=r]> rs !! i' = Some (ReadErr e) -> ~ swarm_error e).
  { intros rs i r Hrs Hr i' e [(-> & Heq & _)|(_ & Hl)]%list_lookup_insert_Some; [by apply Hr|by eapply Hrs]. }
  assert (Happ : forall rs : list reader, (forall i e, rs !! i = Some (ReadErr e) -> ~ swarm_error e) ->
    forall i e, (rs ++ [Scan]) !! i = Some (ReadErr e) -> ~ swarm_error e).
  { intros rs Hrs i e [Hl|[_ Hl]]%lookup_app_Some; [by eapply Hrs|].
    by apply list_lookup_singleton_Some in Hl as [_ [=]]. }
  by_action a s; rewrite ?receive_no_swarm_error by eauto; (split_and!; [done|..]);
    unfold receive_restart, receive_pointer, receive_event; intros; repeat case_match; simplify_eq; eauto.
  all: eapply Hlist; [done| |done]; intros ? [= <-]; eauto.
Qed.

(** ** Nil messages *)

(** The action reads the line [null]. *)
Definition null_line (a : action) : Prop := match a with ALine _ (inr None) => True | _ => False end.
#[export] Instance null_line_dec a : Decision (null_line a).
Proof. unfold null_line. destruct a as [| | | |i [e|[m|]]| | | | | | | | | | |]; apply _. Defined.

(** No nil message is held, and none has been received. *)
Definition no_nil (s : state) : Prop := E s <> EPanic /\ forall i, readers s !! i <> Some (ReadMsg None).

Lemma receive_event_alive m : receive_event n m <> EPanic.
Proof. unfold receive_event. by case_decide. Qed.

Lemma no_nil_step a s s' : ~ null_line a -> exec a s = Some s' -> no_nil s -> no_nil s'.
Proof.
  unfold no_nil. intros Hn Ha [HE HL].
  assert (Hins : forall (rs : list reader) i r, (forall i, rs !! i <> Some (ReadMsg None)) -> r <> ReadMsg None ->
    forall i', <[i:=r]> rs !! i' <> Some (ReadMsg None)).
  { intros rs i r Hrs Hr i' [(-> & Heq & _)|(_ & Hl)]%list_lookup_insert_Some; [by apply Hr|by eapply Hrs]. }
  assert (Happ : forall rs : list reader, (forall i, rs !! i <> Some (ReadMsg None)) ->
    forall i, (rs ++ [Scan]) !! i <> Some (ReadMsg None)).
  { intros rs Hrs i [Hl|[_ Hl]]%lookup_app_Some; [by eapply Hrs|]. by apply list_lookup_singleton_Some in Hl as [_ [=]]. }
  by_action a s; (split; [try done; try apply receive_event_alive|by eauto]).
  destruct m as [m|]; [apply receive_event_alive|by destruct (HL i)].
Qed.

(** The process panics only on the line [null]. *)
Lemma no_nil_run acts s : run acts init = Some s -> Forall (fun a => ~ null_line a) acts -> no_nil s.
Proof.
  intros Hr Hacts. assert (Hi : no_nil init) by done. revert Hr Hi. generalize init.
  induction Hacts as [|a acts Ha Hacts IH]; intros s0 Hr Hi; [by injection Hr as <-|].
  simpl in Hr. destruct (exec a s0) as [s1|] eqn:Hs; [|done]. eapply IH; [exact Hr|]. by eapply no_nil_step.
Qed.

(** Without an error that has the status 500 in it, the server never ceases
    to recover, unless it has panicked: whatever the order of its steps, it
    can still serve every event. *)
Theorem recovers_without_500 acts s :
  Forall (fun a => forall e, action_error a = Some e -> ~ swarm_error e) acts ->
  run acts init = Some s -> E s <> EPanic -> can quiet s.
Proof.
  intros Hacts Hr Hal.
  assert (Hs : no_swarm_error s).
  { assert (Hi : no_swarm_error init) by by split_and!; intros; simpl in *; simplify_eq.
    revert Hr Hi. generalize init. induction Hacts as [|a acts Ha Hacts IH]; intros s0 Hr Hi; [by injection Hr as <-|].
    simpl in Hr. destruct (exec a s0) as [s1|] eqn:Hs; [|done]. eapply IH; [exact Hr|]. by eapply no_swarm_error_step. }
  destruct Hs as (HH & _). destruct (R s) eqn:HR; try (by apply recovers_listening; [done..|congruence]).
  by eapply recovers_erring.
Qed.

(** A server that polls, before it opens any stream. *)
Definition polled (s : state) : Prop := R s = RRecv /\ readers s = [] /\ E s <> EPanic.

Lemma polled_step a s s' : polling = true -> exec a s = Some s' -> polled s -> polled s'.
Proof.
  intros Hp Ha (HR & Hr & HE). assert (Hrr : receive_restart polling = RRecv) by (unfold receive_restart; by rewrite Hp).
  unfold polled. by_action a s; try done; rewrite ?Hrr; split_and!; done || apply receive_event_alive.
Qed.

(** A server that polls always recovers, whatever errors it meets. *)
Theorem polling_recovers s : polling = true -> reaches init s -> can quiet s.
Proof.
  intros Hp Hr.
  assert (polled s) as (HR & _ & HE) by (apply (reaches_ind_inv polled init s); [|done..]; intros; by eapply polled_step).
  assert (Hc : H s = HRecv \/ H s <> HRecv) by (destruct (H s); auto).
  destruct Hc; [apply recovers_listening; [done..|congruence]|by apply recovers_waiting].
Qed.

(** ** How a server gets doomed *)

(** An event that is not ignored, and an error with the status 500. *)
Context (m : etypes.Message) (Hm : ~ anonymous m) (e : error) (He : swarm_error e).

Lemma receive_swarm_error : receive_error e = HWait.
Proof. unfold receive_error. by rewrite decide_True. Qed.
Lemma receive_known : receive_event n m = EHandle n.
Proof. unfold receive_event. by rewrite decide_False. Qed.

Ltac act_with a tac := eapply (can_step _ a); [unfold ServerChannels.exec; simpl; tac; reflexivity|].
Ltac act a := act_with a ltac:(rewrite ?receive_swarm_error, ?receive_known).

(** The server with its first stream open, and an extension at work. *)
Definition at_work (r : restart_handler) (hd : err_handler) (rd : list reader) (ev : event_handler) : state :=
  {| starting := false; H := hd; R := r; E := ev; readers := rd; poller := POff |}.

(** The first restart, an error of the daemon, and the restart it leads to. *)
Lemma can_reopen (P : state -> Prop) k :
  polling = false -> n = S k -> can P (at_work ROpen HRecv [Scan] ERecv) -> can P init.
Proof.
  intros Hp Hn HP. act_with AMain ltac:(unfold receive_restart; rewrite Hp).
  act (AOpen None).
  act_with AStart ltac:(unfold receive_event; rewrite decide_False by (by intros [])).
  act_with (AExt (Some e)) ltac:(rewrite Hn). act AExtErr.
  eapply can_reach; [eapply handled; reflexivity|].
  act (ATry true). act_with ARestart ltac:(unfold receive_restart; rewrite Hp). exact HP.
Qed.

(** C19: A server that reads the event stream, with at least one extension, can be
    doomed by errors with the status 500: the restart handler then waits to
    send the error of the stream it could not open, or waits with the first
    event of the stream it has opened for an event handler that waits to send
    an error, while the error handler waits to send it a restart. *)
Theorem doomed_reachable e' k :
  polling = false -> n = S k ->
  can (fun s => doomed s /\ H s = HSend /\ R s = RErr e') init /\
  can (fun s => doomed s /\ H s = HSend /\ R s = RStart /\ E s = EErr e k) init.
Proof.
  intros Hp Hn. split; apply (can_reopen _ k Hp Hn).
  - act (ALine 0 (inr (Some m))). act (AReadMsg 0).
    act_with (AExt (Some e)) ltac:(rewrite Hn). act AExtErr.
    act (AOpen (Some e')). act (ATry true). by eexists; split; [apply reaches_refl|].
  - act (ALine 0 (inr (Some m))). act (AReadMsg 0). act (ALine 0 (inr (Some m))). act (AOpen None).
    act_with (AExt (Some e)) ltac:(rewrite Hn). act AExtErr.
    eapply can_reach; [eapply handled; reflexivity|].
    act (AReadMsg 0). act_with (AExt (Some e)) ltac:(rewrite Hn).
    act (ATry true). by eexists; split; [apply reaches_refl|].
Qed.
End Facts.

(** ** Witnesses *)

Definition no_manager : error := ErrorString "500 Internal Server Error: No primary manager elected".
Definition create_message : etypes.Message := {|
  etypes.Status := "create"; etypes.ID := "aaaaaaaaaaaa"; etypes.Type_ := "container"; etypes.Action := "create";
  etypes.Actor_Attributes := ∅ |}.

Lemma doomed_reachable_witness :
  can false 1 (fun s => doomed s /\ H s = HSend /\ R s = RErr no_manager) init.
Proof.
  destruct (doomed_reachable false 1 create_message ltac:(by intros []) no_manager ltac:(vm_compute; reflexivity) no_manager 0)
    as [Hd _]; [done..|exact Hd].
Defined.

(** The handler of restarts cannot send the error of the stream, but events
    are still read. *)
Definition stuck : state :=
  {| starting := false; H := HSend; R := RErr no_manager; E := ERecv; readers := [Scan]; poller := POff |}.
Lemma doomed_forever_witness :
  exists s, run false 1 [ALine 0 (inr (Some create_message)); AReadMsg 0; AExt None; ACount] stuck = Some s /\ doomed s.
Proof.
  eexists. split; [reflexivity|].
  apply (doomed_forever false 1 [ALine 0 (inr (Some create_message)); AReadMsg 0; AExt None; ACount] stuck); [done|reflexivity].
Defined.

Lemma recovers_without_500_witness :
  exists s, run false 1 [AMain; AOpen (Some (ErrorString "EOF"))] init = Some s /\ can false 1 quiet s.
Proof.
  eexists. split; [reflexivity|].
  eapply (recovers_without_500 false 1 [AMain; AOpen (Some (ErrorString "EOF"))]); [|reflexivity|done].
  constructor; [discriminate|constructor; [|constructor]]. intros e [= <-]. vm_compute. intros Hc. discriminate Hc.
Defined.

Lemma polling_recovers_witness :
  exists s, reaches true 1 init s /\ can true 1 quiet s.
Proof.
  eexists. split; [|apply (polling_recovers true 1); [reflexivity|]]; exists [AMain; APollStart; APollTick true; APollSend]; reflexivity.
Defined.
