(* ===== verification/ServerFair.v ===== *)
(** * What fair runs of the server do

    In the infinite runs of [ServerChannels] that do not panic, without errors
    of status 500 or of a server that polls, the handler of events always gets back to
    receiving, and every goroutine that waits to send it an event does. *)

From S2P Require Import Prelude Progress GoStd Docker Server ServerChannels.

Record srv_execution := {
  srv_at : nat -> state;
  srv_by : nat -> option action;
}.

Section Fair.
Context (polling : bool) (n : nat) (r : srv_execution).

Definition srv_valid : Prop := forall k,
  match srv_by r k with Some a => exec polling n a (srv_at r k) = Some (srv_at r (S k)) | None => srv_at r (S k) = srv_at r k end.

(** No error has the status 500. *)
Definition without_500 : Prop := forall k a e, srv_by r k = Some a -> action_error a = Some e -> ~ swarm_error e.

(** No line of the event stream is [null]. *)
Definition without_null : Prop := forall k a, srv_by r k = Some a -> ~ null_line a.

(** The steps of the handler of events after it has received one. *)
Definition event_step (a : action) : Prop := match a with AExt _ | AExtErr | ACount => True | _ => False end.
Definition event_enabled (s : state) : Prop := exists a s', event_step a /\ exec polling n a s = Some s'.

(** The goroutines that send on [eventChan], the step by which they do, and
    the event they wait to send: that of the poller is made as it is sent, and
    a nil message is none. *)
Inductive sender := Reader (i : nat) | Starter | Poller.
Definition sends (x : sender) : action :=
  match x with Reader i => AReadMsg i | Starter => AStart | Poller => APollSend end.
Definition offer (x : sender) (s : state) : option (option etypes.Message) :=
  match x with
  | Reader i => match readers s !! i with Some (ReadMsg (Some m)) => Some (Some m) | _ => None end
  | Starter => match R s with RStart => Some (Some start_message) | _ => None end
  | Poller => match poller s with PSend => Some None | _ => None end
  end.
Definition send_enabled (x : sender) (s : state) : Prop := E s = ERecv /\ is_Some (offer x s).

(** The handler of events is not put off for ever once it can go on; none of
    the goroutines that send on [eventChan] is passed over for ever; the
    handler of errors does not wait for ever for the cluster, and is not put
    off once its restart can be received. *)
Record srv_fair : Prop := {
  fair_handler : forall k, exists j, k <= j /\
    (~ event_enabled (srv_at r j) \/ exists a, srv_by r j = Some a /\ event_step a);
  fair_sender : forall x k, exists j, k <= j /\
    (srv_by r j = Some (sends x) \/ forall j', j <= j' -> ~ send_enabled x (srv_at r j'));
  fair_wait : forall k, exists j, k <= j /\ (H (srv_at r j) <> HWait \/ srv_by r j = Some (ATry true));
  fair_restart : forall k, exists j, k <= j /\
    (~ (H (srv_at r j) = HSend /\ R (srv_at r j) = RRecv) \/ srv_by r j = Some ARestart);
}.

(** Without errors of status 500, or polling. *)
Definition undisturbed : Prop :=
  (without_500 /\ no_swarm_error (srv_at r 0)) \/ (polling = true /\ polled (srv_at r 0)).

(** The handler of events never panics. *)
Definition goes_on : Prop := forall k, E (srv_at r k) <> EPanic.

Context (Hv : srv_valid) (Hf : srv_fair) (Hu : undisturbed) (Hal : goes_on).

Lemma always_no_swarm_error k : without_500 -> no_swarm_error (srv_at r 0) -> no_swarm_error (srv_at r k).
Proof.
  intros H500 Hi. induction k as [|k IH]; [done|]. specialize (Hv k). destruct (srv_by r k) as [a|] eqn:Ha; [|by rewrite Hv].
  eapply no_swarm_error_step; [|exact Hv|done]. intros e. by apply H500 with k.
Qed.

Lemma always_polled k : polling = true -> polled (srv_at r 0) -> polled (srv_at r k).
Proof.
  intros Hp Hi. induction k as [|k IH]; [done|]. specialize (Hv k). destruct (srv_by r k) as [a|]; [|by rewrite Hv].
  by eapply polled_step.
Qed.

(** What is left of an event. *)
Definition left_of (e : event_handler) : nat :=
  match e with ERecv | EPanic => 0 | EHandle k => S (2 * k) | EErr _ k => S (S (2 * k)) end.

Lemma exec_event a s s' :
  exec polling n a s = Some s' -> E s <> ERecv ->
  (event_step a /\ left_of (E s') < left_of (E s)) \/ (~ event_step a /\ E s' = E s).
Proof.
  intros [_ Ha]%exec_alive HE. destruct s as [st h rs e rd p]. destruct a; simpl in *; repeat (case_match; try done); simplify_eq/=;
    try (right; by split; [intros []|]); left; split; simpl; lia || done.
Qed.

(** The handler can go on when it handles, or when its error can be
    received. *)
Lemma handler_enabled s : E s <> EPanic -> E s <> ERecv -> (forall e k, E s = EErr e k -> H s = HRecv) -> event_enabled s.
Proof.
  intros Hp HE HH. unfold event_enabled. destruct s as [st h rs [|[|j]|e j|] rd p]; simpl in *; [done|..|done].
  - by eexists ACount, _.
  - by eexists (AExt None), _.
  - rewrite (HH e j eq_refl). by eexists AExtErr, _.
Qed.

(** The handler of errors, while that of events stays as it is in a server that
    polls. *)
Lemma exec_errors a s s' :
  exec polling n a s = Some s' -> polled s -> E s <> ERecv -> E s' = E s ->
  H s' = match H s, a with
         | HWait, ATry true => HSend
         | HSend, ARestart => HRecv
         | h, _ => h
         end.
Proof.
  intros [_ Ha]%exec_alive (HR & Hr & _) HE HE'. destruct s as [st h rs e rd p]. simpl in *. subst rs rd.
  revert HE HE'. destruct a; simpl in *; repeat (case_match; try done); simplify_eq/=; done.
Qed.

(** The next step of the handler, before which nothing happens to it. *)
Section Next.
Context (k : nat) (HE : E (srv_at r k) <> ERecv).

Definition same_until (j : nat) : Prop := forall i, k <= i -> i <= j -> E (srv_at r i) = E (srv_at r k).
Definition next_step : Prop := exists j a, k <= j /\ srv_by r j = Some a /\ event_step a /\ same_until j.

Lemma same_step j : k <= j -> same_until j -> same_until (S j) \/ next_step.
Proof.
  intros Hkj Hj. pose proof (Hj j Hkj (le_n j)) as HEj. pose proof (Hv j) as Hvj.
  assert (Hkept : E (srv_at r (S j)) = E (srv_at r j) -> same_until (S j)).
  { intros Heq i Hi Hle. destruct (decide (i = S j)) as [->|]; [congruence|apply Hj; lia]. }
  destruct (srv_by r j) as [a|] eqn:Ha; [|left; apply Hkept; by rewrite Hvj].
  destruct (exec_event _ _ _ Hvj ltac:(by rewrite HEj)) as [[Hev _]|[_ Heq]]; [right|left; by apply Hkept].
  by exists j, a.
Qed.

(** A property under which the handler can go on, and that is kept. *)
Lemma able_next (P : nat -> Prop) j :
  k <= j -> same_until j -> P j ->
  (forall i, k <= i -> same_until i -> P i -> event_enabled (srv_at r i)) ->
  (forall i, k <= i -> same_until (S i) -> P i -> P (S i)) -> next_step.
Proof.
  intros Hkj Hj HP Hen Hk.
  destruct (ensures (fun i => same_until i /\ P i) (fun _ => next_step) j) with
    (enabled := fun i => event_enabled (srv_at r i)) (taken := fun i => exists a, srv_by r i = Some a /\ event_step a)
    as (_ & _ & ?); [|done|..|apply (fair_handler Hf)|done].
  - intros i Hi [Hs HPi]. destruct (same_step i ltac:(lia) Hs) as [Hs'|?]; [left|by right].
    split; [done|]. apply Hk; [lia|done..].
  - intros i Hi [Hs HPi]. apply Hen; [lia|done..].
  - intros i Hi [Hs _] (a & Ha & Hev). exists i, a. split; [lia|done].
Qed.

(** A phase of the handler of errors ends, if the handler of events does not
    go on before. *)
Lemma phase (h1 h2 : err_handler) (a : action) j :
  polling = true -> polled (srv_at r 0) -> h1 <> HRecv ->
  (forall s s' a', exec polling n a' s = Some s' -> polled s -> E s <> ERecv -> E s' = E s -> H s = h1 ->
    (a' = a -> H s' = h2) /\ (H s' = h1 \/ H s' = h2)) ->
  (forall i, exists m, i <= m /\ (H (srv_at r m) <> h1 \/ srv_by r m = Some a)) ->
  k <= j -> same_until j -> H (srv_at r j) = h1 ->
  next_step \/ exists m, j <= m /\ same_until m /\ H (srv_at r m) = h2.
Proof.
  intros Hp Hpd Hne Hstep Hfair Hkj Hj Hh.
  enough (exists m, j <= m /\ (next_step \/ (same_until m /\ H (srv_at r m) = h2))) as (m & Hm & [?|?]); [by left|right; by exists m|].
  assert (Hone : forall i, j <= i -> same_until i /\ H (srv_at r i) = h1 ->
    next_step \/ (same_until (S i) /\ (srv_by r i = Some a -> H (srv_at r (S i)) = h2) /\
      (H (srv_at r (S i)) = h1 \/ H (srv_at r (S i)) = h2))).
  { intros i Hi [Hs Hhi]. destruct (same_step i ltac:(lia) Hs) as [Hs'|?]; [right|by left]. split; [done|].
    pose proof (Hs i ltac:(lia) (le_n i)) as HEi. pose proof (Hs' (S i) ltac:(lia) (le_n _)) as HES.
    pose proof (Hv i) as Hvi. destruct (srv_by r i) as [a'|]; [|rewrite Hvi; split; [done|by left]].
    destruct (Hstep _ _ _ Hvi (always_polled i Hp Hpd) ltac:(by rewrite HEi) ltac:(congruence) Hhi) as [H1 H2].
    split; [|done]. intros [= ->]. by apply H1. }
  apply (ensures (fun i => same_until i /\ H (srv_at r i) = h1) (fun i => next_step \/ (same_until i /\ H (srv_at r i) = h2)) j) with
    (enabled := fun i => H (srv_at r i) = h1) (taken := fun i => srv_by r i = Some a); [|done|..|apply Hfair].
  - intros i Hi HPi. destruct (Hone i Hi HPi) as [?|(Hs & _ & [?|?])]; auto.
  - by intros i _ [_ ?].
  - intros i Hi HPi Ha. destruct (Hone i Hi HPi) as [?|(Hs & Ht & _)]; auto.
Qed.

Lemma next_event_step : next_step.
Proof.
  assert (Hk : same_until k) by (intros i Hi Hle; by assert (i = k) as -> by lia).
  assert (Hsame : forall i, k <= i -> same_until i -> E (srv_at r i) = E (srv_at r k)) by (intros i Hi Hs; by apply Hs).
  destruct Hu as [[H500 Hi]|[Hp Hpd]].
  - apply (able_next (fun _ => True) k); [done..| |done]. intros i Hki Hs _. apply handler_enabled; [apply Hal|..].
    + by rewrite Hsame.
    + intros. apply always_no_swarm_error; done.
  - assert (Hlast : forall j, k <= j -> same_until j -> H (srv_at r j) = HRecv -> next_step).
    { intros j Hkj Hj Hh. apply (able_next (fun i => H (srv_at r i) = HRecv) j); [done..| |].
      - intros i Hki Hs Hhi. apply handler_enabled; [apply Hal|by rewrite Hsame|done].
      - intros i Hki Hs Hhi. pose proof (Hv i) as Hvi. destruct (srv_by r i) as [a|]; [|by rewrite Hvi].
        assert (same_until i) as Hsi by (intros ? ? ?; apply Hs; lia).
        pose proof (exec_errors _ _ _ Hvi (always_polled i Hp Hpd)) as He. rewrite Hhi in He. apply He.
        + by rewrite Hsame.
        + rewrite (Hsame (S i)), (Hsame i) by (lia || done). done. }
    assert (Hsend : forall j, k <= j -> same_until j -> H (srv_at r j) = HSend -> next_step).
    { intros j Hkj Hj Hh. destruct (phase HSend HRecv ARestart j Hp Hpd) as [?|(m & Hm & Hs & Hhm)]; try done.
      - intros s s' a' Ha Hps HEs HE' Hhs. pose proof (exec_errors _ _ _ Ha Hps HEs HE') as He. rewrite Hhs in He.
        split; [intros ->; by rewrite He|rewrite He; repeat case_match; auto].
      - intros i. destruct (fair_restart Hf i) as (m & Hm & [Hno|Ht]); exists m; (split; [done|]); [left|by right].
        intros Hh'. apply Hno. split; [done|]. apply (always_polled m Hp Hpd).
      - apply (Hlast m); [lia|done..]. }
    destruct (H (srv_at r k)) eqn:Hh; [by apply (Hlast k)| |by apply (Hsend k)].
    destruct (phase HWait HSend (ATry true) k Hp Hpd) as [?|(m & Hm & Hs & Hhm)]; try done.
    + intros s s' a' Ha Hps HEs HE' Hhs. pose proof (exec_errors _ _ _ Ha Hps HEs HE') as He. rewrite Hhs in He.
      split; [intros ->; by rewrite He|rewrite He; repeat case_match; auto].
    + apply (fair_wait Hf).
    + by apply (Hsend m).
Qed.
End Next.

(** The handler receives again. *)
Lemma handler_receives k : exists j, k <= j /\ E (srv_at r j) = ERecv.
Proof.
  assert (Hd : forall k, E (srv_at r k) = ERecv \/ E (srv_at r k) <> ERecv) by (intros i; destruct (E (srv_at r i)); auto).
  destruct (Hd k) as [HE|HE]; [by exists k|]. revert k HE.
  apply (descends (fun k => E (srv_at r k) <> ERecv) (fun j => E (srv_at r j) = ERecv) (fun k => left_of (E (srv_at r k)))).
  intros k HE. destruct (next_event_step k HE) as (j & a & Hj & Ha & Hev & Hsame). unfold same_until in Hsame.
  exists (S j). split; [lia|]. destruct (Hd (S j)) as [|HE']; [by left|right; split; [done|]].
  rewrite <- (Hsame j) in HE |- * by lia. specialize (Hv j). rewrite Ha in Hv.
  by destruct (exec_event _ _ _ Hv HE) as [[_ Hlt]|[Hno _]].
Qed.

(** A goroutine keeps its event until it is received. *)
Lemma exec_offer a s s' x o :
  exec polling n a s = Some s' -> offer x s = Some o -> a = sends x \/ offer x s' = Some o.
Proof.
  intros [_ Ha]%exec_alive Ho. destruct s as [st h rs e rd p]. destruct x as [i| |]; simpl in *.
  - destruct (rd !! i) as [[| |[m|]|]|] eqn:Hi; try done. simplify_eq.
    assert (Hj : forall j x, j <> i -> <[j := x]> rd !! i = Some (ReadMsg (Some m))) by (intros; by rewrite list_lookup_insert_ne).
    assert (a = AReadMsg i \/ a <> AReadMsg i) as [->|Hne]; [|by left|right].
    { destruct a as [| | | | | | |j| | | | | | | |]; try (right; congruence). destruct (decide (j = i)); [left|right]; congruence. }
    enough (readers s' !! i = Some (ReadMsg (Some m))) as -> by done.
    destruct a as [| | | |j l|j|j|j| | | | | | | |]; simpl in *; repeat (case_match; try done); simplify_eq/=; try done;
      try (by apply lookup_app_l_Some); apply Hj; congruence.
  - destruct rs; try done. destruct a; simpl in *; repeat (case_match; try done); simplify_eq/=; try (by left); by right.
  - destruct p; try done. destruct a; simpl in *; repeat (case_match; try done); simplify_eq/=; try (by left); by right.
Qed.

(** Every event that waits to be sent is received. *)
Lemma offers_received x o k :
  offer x (srv_at r k) = Some o ->
  exists j, k <= j /\ srv_by r j = Some (sends x) /\ offer x (srv_at r j) = Some o.
Proof.
  intros Hm. set (got := exists j, k <= j /\ srv_by r j = Some (sends x) /\ offer x (srv_at r j) = Some o).
  assert (Hkeep : forall j, k <= j -> got \/ offer x (srv_at r j) = Some o).
  { intros j Hj. destruct (kept (fun j => offer x (srv_at r j) = Some o) (fun _ => got) k) with j
      as [(_ & _ & ?)|?]; auto.
    intros j' Hj' Hr. specialize (Hv j'). destruct (srv_by r j') as [a|] eqn:Ha; [|left; by rewrite Hv].
    destruct (exec_offer _ _ _ x o Hv Hr) as [->|?]; [right; by exists j'|by left]. }
  destruct (fair_sender Hf x k) as (j & Hj & [Ht|Hno]).
  - destruct (Hkeep j Hj) as [?|Hr]; [done|]. by exists j.
  - destruct (handler_receives j) as (j' & Hj' & HE). destruct (Hkeep j' ltac:(lia)) as [?|Hr]; [done|].
    destruct (Hno j' Hj'). split; [done|]. by exists o.
Qed.
End Fair.

(** The runs from the start. *)
Lemma init_undisturbed polling r :
  srv_at r 0 = init -> polling = true \/ without_500 r -> undisturbed polling r.
Proof.
  intros Hi [Hp|H500]; [right|left]; rewrite Hi; (split; [done|]); [done|]. by split_and!; intros; simpl in *; simplify_eq.
Qed.

(** Without a [null] line, or polling, the handler does not panic. *)
Lemma run_goes_on polling n r :
  srv_at r 0 = init -> srv_valid polling n r -> polling = true \/ without_null r -> goes_on r.
Proof.
  intros Hi Hv [Hp|Hn] k.
  - apply (always_polled polling n r Hv k Hp). by rewrite Hi.
  - assert (Hk : no_nil (srv_at r k)); [|apply Hk]. induction k as [|k IH]; [by rewrite Hi|].
    specialize (Hv k). destruct (srv_by r k) as [a|] eqn:Ha; [|by rewrite Hv].
    eapply no_nil_step; [by eapply Hn|exact Hv|done].
Qed.

(** C18: In every infinite run of the server from its start in which no goroutine
    is put off for ever and the cluster answers in the end when it is waited
    for, every event that a reader, the poller or the handler of restarts waits
    to send is received by the handler of events, if no error has the status
    500 and no line of the stream is [null], or if the server polls, whatever
    the errors. *)
Theorem events_received polling n r x o k :
  srv_at r 0 = init -> srv_valid polling n r -> srv_fair polling n r ->
  polling = true \/ (without_500 r /\ without_null r) ->
  offer x (srv_at r k) = Some o ->
  exists j, k <= j /\ srv_by r j = Some (sends x) /\ offer x (srv_at r j) = Some o.
Proof.
  intros Hi Hv Hf Hd. apply (offers_received polling n r Hv Hf).
  - apply init_undisturbed; tauto.
  - eapply run_goes_on; [done..|tauto].
Qed.

(** ** Witness *)

(** A run of some actions, after which nothing happens. *)
Definition finite_run (polling : bool) (n : nat) (acts : list action) : srv_execution := {|
  srv_at k := default init (run polling n (take k acts) init);
  srv_by k := acts !! k;
|}.

Lemma finite_last polling n acts s k :
  run polling n acts init = Some s -> length acts <= k -> srv_at (finite_run polling n acts) k = s.
Proof. intros Hr Hk. simpl. by rewrite take_ge, Hr. Qed.

Lemma finite_valid polling n acts s : run polling n acts init = Some s -> srv_valid polling n (finite_run polling n acts).
Proof.
  intros Hr k. simpl. destruct (acts !! k) as [a|] eqn:Ha.
  - erewrite take_S_r by done. rewrite run_app.
    rewrite <- (take_drop k acts), run_app in Hr. destruct (run polling n (take k acts) init) as [s1|]; [|done]. simpl in *.
    rewrite (drop_S _ _ _ Ha) in Hr. simpl in Hr. by destruct (exec polling n a s1).
  - apply lookup_ge_None in Ha. by rewrite !take_ge by lia.
Qed.

(** Nothing is left to do. *)
Definition at_end (s : state) : Prop := H s = HRecv /\ E s = ERecv /\ forall x, offer x s = None.

(** A run that ends so is fair. *)
Lemma settled_fair polling n r L s : at_end s -> (forall k, L <= k -> srv_at r k = s) -> srv_fair polling n r.
Proof.
  intros (HH & HE & Ho) Hs.
  assert (Hlater : forall k, exists j, k <= j /\ srv_at r j = s) by (intros k; exists (k + L); split; [lia|apply Hs; lia]).
  split.
  - intros k. destruct (Hlater k) as (j & Hj & Heq). exists j. split; [done|]. left. rewrite Heq.
    intros (a & s' & Hev & [_ Ha]%exec_alive). destruct a; try done; simpl in Ha; by rewrite HE in Ha.
  - intros x k. exists (k + L). split; [lia|]. right. intros j Hj [_ [o Ho']]. by rewrite Hs, Ho in Ho' by lia.
  - intros k. destruct (Hlater k) as (j & Hj & Heq). exists j. split; [done|]. left. by rewrite Heq, HH.
  - intros k. destruct (Hlater k) as (j & Hj & Heq). exists j. split; [done|]. left. rewrite Heq, HH. by intros [].
Qed.

Lemma finite_fair polling n acts s :
  run polling n acts init = Some s -> at_end s -> srv_fair polling n (finite_run polling n acts).
Proof.
  intros Hr He. apply (settled_fair polling n _ (length acts) s He). intros k Hk. by apply (finite_last polling n acts s k).
Qed.

(** A server that polls meets an error of status 500 while the next change is
    to be sent. *)
Definition polls_on : list action :=
  [AMain; APollStart; APollTick true; APollSend; AExt (Some no_manager); AExtErr; APollTick true; ACount].
Definition recovers_on : list action := [ATry false; APollSend; AExt (Some no_manager); ATry true; ARestart; AExtErr; ATry true; ARestart; ACount].

Lemma polls_and_recovers :
  exists s, run true 1 (polls_on ++ recovers_on) init = Some s /\ at_end s /\
    offer Poller (srv_at (finite_run true 1 (polls_on ++ recovers_on)) 8) = Some None.
Proof.
  assert (Hr : match run true 1 (polls_on ++ recovers_on) init with
    | Some s => (H s = HRecv /\ E s = ERecv) /\ readers s = [] /\ R s = RRecv /\ poller s = PTick | None => False end)
    by (vm_compute; repeat split).
  assert (Ho : offer Poller (srv_at (finite_run true 1 (polls_on ++ recovers_on)) 8) = Some None) by (vm_compute; reflexivity).
  destruct (run true 1 (polls_on ++ recovers_on) init) as [s|]; [|done]. exists s. split; [done|]. split; [|done].
  destruct Hr as ([HH HE] & Hrd & HR & Hp). split; [done|]. split; [done|]. intros [i| |]; simpl; by rewrite ?Hrd, ?HR, ?Hp.
Qed.

Lemma events_received_witness : exists r j, 8 <= j /\ srv_by r j = Some APollSend /\ offer Poller (srv_at r j) = Some None.
Proof.
  destruct polls_and_recovers as (s & Hr & He & Ho). exists (finite_run true 1 (polls_on ++ recovers_on)).
  apply (events_received true 1 (finite_run true 1 (polls_on ++ recovers_on)) Poller None 8).
  - reflexivity.
  - exact (finite_valid true 1 _ s Hr).
  - exact (finite_fair true 1 _ s Hr He).
  - left. reflexivity.
  - exact Ho.
Defined.
