(* ===== verification/Hosted.v ===== *)
(** * Extensions that the server notifies

    What a program needs to promise about its steps ([Host]) for its extension
    at a place to handle every event, in its fair runs: the steps are those of
    [ServerChannels], and the event at work stays the same until the next is
    received.  [EventFair] and [BeaconFair] use it for a load balancer and for a
    beacon. *)

From S2P Require Import Prelude Progress GoStd Docker Poller Server ServerChannels ServerFair.

(** The events that a goroutine waits to send: the given one, or one that the
    poller makes. *)
Definition offered (o : option etypes.Message) (ev : etypes.Message) : Prop :=
  match o with Some m => ev = m | None => exists t, ev = restart_message t end.

(** The event an action hands to the handler of [eventChan], at the time [t]. *)
Definition handed (a : action) (s : state) (t : Z) : option etypes.Message :=
  match a with
  | AReadMsg i => match readers s !! i with Some (ReadMsg (Some m)) => Some m | _ => None end
  | AStart => Some start_message
  | APollSend => Some (restart_message t)
  | _ => None
  end.

(** An extension returns. *)
Definition is_ext (a : action) : Prop := match a with AExt _ => True | _ => False end.
#[export] Instance is_ext_dec a : Decision (is_ext a).
Proof. unfold is_ext. destruct a; apply _. Defined.

Section Steps.
Context (polling : bool) (n p : nat).

Lemma handed_offered x o s t : offer x s = Some o -> exists ev, handed (sends x) s t = Some ev /\ offered o ev.
Proof.
  destruct x as [i| |]; simpl.
  - destruct (readers s !! i) as [[| |[m|]|]|]; intros; simplify_eq. by exists m.
  - destruct (R s); intros; simplify_eq. by exists start_message.
  - destruct (poller s); intros; simplify_eq. eexists. split; [done|]. by eexists.
Qed.

Lemma handed_busy a s s' t : exec polling n a s = Some s' -> E s <> ERecv -> handed a s t = None.
Proof. intros [_ Hs]%exec_alive HE. destruct a; simpl in *; try done; repeat case_match; naive_solver. Qed.

Lemma handed_received x s s' t ev :
  exec polling n (sends x) s = Some s' -> handed (sends x) s t = Some ev -> ~ anonymous ev -> E s' = EHandle n.
Proof.
  intros [_ Hs]%exec_alive Hr Hanon. destruct x as [i| |]; simpl in *; repeat (case_match; try done); simplify_eq/=; try done;
    unfold receive_event; by rewrite decide_False.
Qed.

(** At the turn of an extension, the handler only waits for it to return. *)
Lemma turn_ext l s s' : p < n -> exec polling n l s = Some s' -> event_step l -> E s = EHandle (n - p) -> is_ext l.
Proof.
  intros Hp [_ Hs]%exec_alive Hev HE. destruct l; try done; simpl in Hs; rewrite HE in Hs; [done|]. destruct (n - p) eqn:Hnp; [lia|done].
Qed.
End Steps.

(** A program whose states have one of the server ([srv]) and the event at work
    ([hnd]), and whose steps may be one of the server ([lab]); [handles] are
    those of the extension number [p] of [n]. *)
Class Host {T A : Type} (polling : bool) (n p : nat) (step : A -> T -> T -> Prop) (srv : T -> state) (hnd : T -> etypes.Message)
    (lab : T -> A -> option action) (handles : A -> Prop) : Prop := {
  host_server : forall a s s', step a s s' ->
    match lab s a with Some l => exec polling n l (srv s) = Some (srv s') | None => srv s' = srv s end;
  host_keeps : forall a s s', step a s s' -> E (srv s) <> ERecv -> hnd s' = hnd s;
  host_receives : forall a s s' x o, step a s s' -> lab s a = Some (sends x) -> offer x (srv s) = Some o ->
    offered o (hnd s') /\ (~ anonymous (hnd s') -> E (srv s') = EHandle n);
  host_turn : forall a s s' l, step a s s' -> lab s a = Some l -> event_step l -> E (srv s) = EHandle (n - p) -> handles a;
}.

(** The run of the server. *)
Definition hosted_run {T A} (srv : T -> state) (lab : T -> A -> option action) (at_ : nat -> T) (by_ : nat -> A) : srv_execution :=
  {| srv_at k := srv (at_ k); srv_by k := lab (at_ k) (by_ k) |}.

Section Hosted.
Context {T A : Type} {polling : bool} {n p : nat} {step : A -> T -> T -> Prop} {srv : T -> state} {hnd : T -> etypes.Message}.
Context {lab : T -> A -> option action} {handles : A -> Prop} `{HH : !Host polling n p step srv hnd lab handles}.

(** The extension has not handled the event yet. *)
Definition ahead (e : event_handler) : Prop := match e with EHandle k | EErr _ k => n - p <= k | ERecv | EPanic => False end.

Lemma exec_ahead a s s' : exec polling n a s = Some s' -> ahead (E s) -> E s <> EHandle (n - p) -> ahead (E s').
Proof.
  intros [_ Ha]%exec_alive Hh Hne. destruct s as [st h rs e rd pl].
  destruct a; simpl in *; repeat (case_match; try done); simplify_eq/=; try done; try lia.
  all: assert (forall x, EHandle x <> EHandle (n - p) -> x <> n - p) as Hx by congruence; apply Hx in Hne; lia.
Qed.

Section Run.
Context (at_ : nat -> T) (by_ : nat -> A) (Hv : forall k, step (by_ k) (at_ k) (at_ (S k))).
Context (Hf : srv_fair polling n (hosted_run srv lab at_ by_)) (Hu : undisturbed polling (hosted_run srv lab at_ by_)).
Context (Hal : goes_on (hosted_run srv lab at_ by_)) (Hp : p <= n).

Lemma hosted_valid : srv_valid polling n (hosted_run srv lab at_ by_).
Proof. intros k. exact (host_server (step := step) (srv := srv) (lab := lab) _ _ _ (Hv k)). Qed.

(** The next step of the handler of events. *)
Lemma next_hosted_step k :
  E (srv (at_ k)) <> ERecv ->
  exists j a, k <= j /\ lab (at_ j) (by_ j) = Some a /\ event_step a /\
    E (srv (at_ j)) = E (srv (at_ k)) /\ hnd (at_ j) = hnd (at_ k).
Proof.
  intros HE. destruct (next_event_step polling n (hosted_run srv lab at_ by_) hosted_valid Hf Hu Hal k HE) as (j & a & Hj & Ha & Hev & Hsame).
  exists j, a. split_and!; try done; [by apply Hsame|]. unfold same_until in Hsame. simpl in Hsame. clear Ha.
  induction Hj as [|j Hj IH]; [done|]. rewrite <- IH by (intros; apply Hsame; lia).
  apply (host_keeps (step := step) (srv := srv) (hnd := hnd) _ _ _ (Hv j)). by rewrite Hsame by lia.
Qed.

Context (m : etypes.Message).

(** The extension is to handle [m], now or later. *)
Definition coming (k : nat) : Prop := hnd (at_ k) = m /\ ahead (E (srv (at_ k))).
Definition at_turn (k : nat) : Prop := hnd (at_ k) = m /\ E (srv (at_ k)) = EHandle (n - p).

Lemma coming_turn k : coming k -> exists j, k <= j /\ at_turn j.
Proof.
  revert k. apply (descends coming at_turn (fun k => left_of (E (srv (at_ k))))). intros k [Hm Ha].
  assert (HE : E (srv (at_ k)) <> ERecv) by by intros HE; rewrite HE in Ha.
  destruct (next_hosted_step k HE) as (j & a & Hj & Hst & Hev & HEj & Hmj).
  rewrite <- HEj in Ha, HE |- *. rewrite <- Hmj in Hm. clear HEj Hmj.
  assert (E (srv (at_ j)) = EHandle (n - p) \/ E (srv (at_ j)) <> EHandle (n - p)) as [Ht|Hne].
  { destruct (E (srv (at_ j))) as [|x| |]; [by right| |by right..].
    destruct (decide (x = n - p)) as [->|]; [by left|right; congruence]. }
  { exists j. split; [done|]. by left. }
  exists (S j). split; [lia|]. right. pose proof (hosted_valid j) as Hs. simpl in Hs. rewrite Hst in Hs.
  unfold coming. rewrite (host_keeps (step := step) (srv := srv) (hnd := hnd) _ _ _ (Hv j) HE).
  destruct (exec_event _ _ _ _ _ Hs HE) as [[_ Hlt]|[Hno _]]; [|done].
  split; [|done]. split; [done|]. by eapply exec_ahead.
Qed.

(** The extension takes its turn. *)
Lemma turn_handled k : at_turn k -> exists j, k <= j /\ hnd (at_ j) = m /\ handles (by_ j).
Proof.
  intros [Hm HE]. destruct (next_hosted_step k) as (j & a & Hj & Hst & Hev & HEj & Hmj); [by rewrite HE|].
  exists j. split; [done|]. split; [congruence|]. apply (host_turn (step := step) (srv := srv) (lab := lab) _ _ _ _ (Hv j) Hst Hev). congruence.
Qed.
End Run.

(** In fair runs, every event that waits to be sent is handled, if it has an
    identity. *)
Lemma event_handled at_ by_ x o k :
  (forall k, step (by_ k) (at_ k) (at_ (S k))) -> srv_fair polling n (hosted_run srv lab at_ by_) ->
  undisturbed polling (hosted_run srv lab at_ by_) -> goes_on (hosted_run srv lab at_ by_) -> p <= n ->
  offer x (srv (at_ k)) = Some o -> (forall ev, offered o ev -> ~ anonymous ev) ->
  exists j, k <= j /\ offered o (hnd (at_ j)) /\ handles (by_ j).
Proof.
  intros Hv Hf Hu Hal Hp Hm Ha.
  destruct (offers_received polling n (hosted_run srv lab at_ by_) (hosted_valid at_ by_ Hv) Hf Hu Hal x o k Hm) as (j & Hj & Hb & Hr).
  destruct (host_receives (step := step) (srv := srv) (hnd := hnd) (lab := lab) _ _ _ x o (Hv j) Hb Hr) as [Ho HE]. specialize (HE (Ha _ Ho)).
  assert (Hc : coming at_ (hnd (at_ (S j))) (S j)) by (split; [done|]; rewrite HE; simpl; lia).
  destruct (coming_turn at_ by_ Hv Hf Hu Hal Hp _ (S j) Hc) as (j1 & Hj1 & Ht).
  destruct (turn_handled at_ by_ Hv Hf Hu Hal Hp _ j1 Ht) as (j2 & Hj2 & Hh & Hs).
  exists j2. split; [lia|]. by rewrite Hh.
Qed.
End Hosted.
