(* ===== verification/System.v ===== *)
(** * The program as a whole, with one load balancer

    The goroutines of the server ([ServerChannels]), the requests for an
    update ([Debounce]) and what [HandleEvent] and the handler of
    [lbUpdateChan] do ([LoadBalancer]), composed into one executable
    transition system: from an event read from the daemon to the files on the
    proxies.  The interactions of a handler are one step; since the replies
    of the daemon may be any function of the history, a daemon that changes
    meanwhile is included. *)

From S2P Require Import Prelude GoStd Docker Labels Config Network Nginx HAProxy Backends LoadBalancer GoTemplate Templates.
From S2P Require Import EndToEnd Returns Debounce Poller Server ServerChannels Hosted.

(** The world in which the cache of the load balancer answers [v]. *)
Definition with_cache (W : World) (v : bool) : World := {|
  reply_ContainerList := @reply_ContainerList W;
  reply_ContainerInspect := @reply_ContainerInspect W;
  reply_NetworkInspect := @reply_NetworkInspect W;
  reply_NetworkConnect := @reply_NetworkConnect W;
  reply_NetworkDisconnect := @reply_NetworkDisconnect W;
  reply_CopyToContainer := @reply_CopyToContainer W;
  reply_ContainerKill := @reply_ContainerKill W;
  reply_ContainerRestart := @reply_ContainerRestart W;
  reply_LookPath := @reply_LookPath W;
  reply_Command := @reply_Command W;
  reply_ReadFile := @reply_ReadFile W;
  reply_CacheGet _ _ := v;
  reply_ImageList := @reply_ImageList W;
  reply_VolumeList := @reply_VolumeList W;
  reply_NetworkList := @reply_NetworkList W;
  reply_ContainerStats := @reply_ContainerStats W;
  reply_Now := @reply_Now W;
  reply_NotExist := @reply_NotExist W;
  reply_Push := @reply_Push W;
  reply_InfluxClient := @reply_InfluxClient W;
  reply_InfluxQuery := @reply_InfluxQuery W;
  reply_InfluxWrite := @reply_InfluxWrite W;
  reply_Listen := @reply_Listen W;
  reply_Events := @reply_Events W;
|}.

(** ** States and actions *)

Record system := {
  server : ServerChannels.state;
  (* the event the handler of [eventChan] has received last *)
  handling : etypes.Message;
  lb : Debounce.state;
  (* the interactions of the load balancer *)
  hist : list event;
  (* no goroutine has panicked *)
  alive : bool;
}.

Inductive sys_action :=
| SServer (a : ServerChannels.action)
| SHandle                              (* the load balancer handles the event *)
| STimer (l : Debounce.label)          (* time, the ticker and the handler of updates *)
| SReceive.                            (* the callback reaches the handler of updates *)

(** The labels of [STimer]. *)
Definition timer (l : Debounce.label) : Prop :=
  match l with LWait _ | LStart 0 | LTick 0 | LFinish 0 => True | _ => False end.
#[export] Instance timer_dec l : Decision (timer l).
Proof. unfold timer. destruct l as [ms| |[]|i|[]|t i j|i j|[]]; apply _. Defined.

(** The key that [HandleEvent] sets. *)
Definition is_request (e : event) : bool := match e with ECacheSet key => bool_decide (key = "reload") | _ => false end.

(** A request is in the cache, or on its way to the handler. *)
Definition pending (x : instance) : Prop := is_Some (ttlcache.Get "reload" (cache x)) \/ is_Some (reaping x).

Section System.
Context `{MapRange} {W : World}.
Context (parse_text : string -> res (ProxyConfig -> res string)) (nodeID : string).
Context {b : LoadBalancerBackend}.
(** Whether the server polls, the number of its extensions, and the place of
    the load balancer. *)
Context (polling : bool) (n p : nat).

(** The event an action hands to the handler of [eventChan]. *)
Definition received (a : ServerChannels.action) (s : system) : option etypes.Message := handed a (server s) (reply_Now (hist s)).

(** The load balancer is to handle the event. *)
Definition turn (s : system) : Prop := match E (server s) with EHandle k => k = n - p | _ => False end.
#[global] Instance turn_dec s : Decision (turn s).
Proof. unfold turn. destruct (E (server s)); apply _. Defined.

(** A handler that has run: its interactions are recorded, and a panic ends
    the process. *)
Definition ran {A} (r : outcome A * list event) (srv : ServerChannels.state) (d : Debounce.state) (s : system) : system :=
  {| server := srv; handling := handling s; lb := d; hist := r.2;
     alive := match r.1 with Val _ => true | _ => false end |}.

Definition sys_exec (a : sys_action) (s : system) : option system :=
  if alive s then
    match a with
    | SServer a =>
        if decide (turn s /\ is_ext a) then None
        else srv ← ServerChannels.exec polling n a (server s);
             Some {| server := srv; handling := default (handling s) (received a s); lb := lb s; hist := hist s; alive := running srv |}
    | SHandle =>
        if decide (turn s) then
          let r := HandleEvent (handling s) (hist s) in
          srv ← match r.1 with Val err => ServerChannels.exec polling n (AExt err) (server s) | _ => Some (server s) end;
          d ← (if existsb is_request (drop (length (hist s)) r.2) then Debounce.exec (lb s) (LEvent 0) else Some (lb s));
          Some (ran r srv d s)
        else None
    | STimer l =>
        if decide (timer l) then
          d ← Debounce.exec (lb s) l;
          Some {| server := server s; handling := handling s; lb := d; hist := hist s; alive := true |}
        else None
    | SReceive =>
        x ← instances (lb s) !! 0;
        let v := bool_decide (is_Some (ttlcache.Get "reload" (cache x))) in
        d ← Debounce.exec (lb s) (if v then LSkip 0 0 else LUpdate (now (lb s)) 0 0);
        Some (ran (@handle_update _ (with_cache W v) parse_text nodeID b (hist s)) (server s) d s)
    end
  else None.

Fixpoint sys_run (acts : list sys_action) (s : system) : option system :=
  match acts with
  | [] => Some s
  | a :: acts' => s' ← sys_exec a s; sys_run acts' s'
  end.

(** The load balancer is loaded, and nothing has happened. *)
Definition sys_init (t : Z) : system :=
  {| server := ServerChannels.init; handling := start_message; lb := one t (fresh None); hist := []; alive := true |}.

Definition sys_reachable (s : system) : Prop := exists t acts, sys_run acts (sys_init t) = Some s.

#[local] Arguments Debounce.exec : simpl never.
#[local] Arguments ServerChannels.exec : simpl never.

(** ** What the handlers put in the history *)

Definition no_request (l : list event) : Prop := Forall (fun e => is_request e = false) l.

Lemma handle_event_asks ev :
  emits (Forall (fun e => match e with EContainerInspect _ | ENetworkInspect _ | ESleep _ | ECacheSet _ => True | _ => False end))
    (HandleEvent ev).
Proof.
  assert (Hw : forall k id net, emits (Forall (fun e => match e with EContainerInspect _ | ENetworkInspect _ | ESleep _ | ECacheSet _ => True | _ => False end)) (wait_connected k id net)).
  { induction k as [|k IH]; intros id net; simpl; [apply emits_ret; constructor|].
    unfold isContainerConnected, NetworkInspect, Sleep. emits_auto; done. }
  unfold HandleEvent, isExposedContainer, ContainerInspect, Sleep, CacheSet. emits_auto; done.
Qed.

Context {Hb : LawfulBackend b}.

Lemma update_no_request v h :
  exists new, (@handle_update _ (with_cache W v) parse_text nodeID b h).2 = h ++ new /\ no_request new.
Proof.
  destruct (@handle_update_course _ (with_cache W v) parse_text nodeID b Hb h) as (new & Hh & Hc).
  exists new. split; [exact Hh|].
  assert (Hreads : forall l, Forall reads l -> no_request l) by (intros l Hl; eapply Forall_impl; [exact Hl|]; by intros []).
  destruct Hc as [[Hr _]|[(l & e & -> & Hr & _)|(cs & cfg & lg & cs2 & lt & data & l3 & _ & Hlg & _ & _ & Hlt & -> & Ha & _)]].
  - by apply Hreads.
  - apply Forall_app. split; [by apply Hreads|by repeat constructor].
  - repeat (apply Forall_app; split); [by repeat constructor|by apply Hreads|by repeat constructor|by apply Hreads|..].
    + by apply Forall_map, Forall_forall.
    + eapply Forall_impl; [exact Ha|]. intros [] [Hx|[Hx|Hx]]; simpl in *; done.
Qed.

(** ** No request is forgotten *)

(** An update, from its start at [h0], that the history has. *)
Definition updates (h0 : list event) (s : system) : Prop :=
  let r := @handle_update _ (with_cache W false) parse_text nodeID b h0 in
  r.2 `prefix_of` hist s /\ (alive s = true -> r.1 = Val tt).

(** Every request of the history was followed by an update that went its
    whole course. *)
Definition served (s : system) : Prop :=
  forall pre post, hist s = pre ++ ECacheSet "reload" :: post ->
    exists h0, (pre ++ [ECacheSet "reload"]) `prefix_of` h0 /\ updates h0 s.

Lemma request_before h new pre post :
  no_request new -> h ++ new = pre ++ ECacheSet "reload" :: post -> exists post', h = pre ++ ECacheSet "reload" :: post'.
Proof.
  intros Hn Heq. destruct (app_eq_app _ _ _ _ Heq) as (l & [[-> Hl]|[-> Hl]]).
  - destruct l as [|e l]; [|exists l; by injection Hl as <- _].
    exfalso. simpl in Hl. rewrite <- Hl in Hn. by apply Forall_cons in Hn as [Hf _].
  - exfalso. rewrite Hl in Hn. apply Forall_app in Hn as [_ Hn]. by apply Forall_cons in Hn as [Hf _].
Qed.

Lemma updates_later h0 s s' :
  hist s `prefix_of` hist s' -> (alive s' = true -> alive s = true) -> updates h0 s -> updates h0 s'.
Proof. intros Hh Ha [Hp Ho]. split; [by etrans|auto]. Qed.

Lemma served_ext s s' new :
  alive s = true -> hist s' = hist s ++ new -> no_request new -> served s -> served s'.
Proof.
  intros Hal Hh Hn Hs pre post Heq. rewrite Hh in Heq. destruct (request_before _ _ _ _ Hn Heq) as [post' Hp].
  destruct (Hs pre post' Hp) as (h0 & Hpre & Hu). exists h0. split; [done|].
  apply (updates_later h0 s s'); [rewrite Hh; by eexists|done|exact Hu].
Qed.

(** An update serves all the requests before it. *)
Lemma update_served h s' :
  let r := @handle_update _ (with_cache W false) parse_text nodeID b h in
  hist s' = r.2 -> (alive s' = true -> r.1 = Val tt) -> served s'.
Proof.
  intros r Hs Ho pre post Heq. unfold r in *. destruct (update_no_request false h) as (new & Hh & Hn).
  rewrite Hs, Hh in Heq. destruct (request_before _ _ _ _ Hn Heq) as [post' Hp].
  exists h. split; [rewrite Hp; exists post'; by rewrite <- app_assoc|split; [by rewrite Hs|done]].
Qed.

(** The composed system goes through the steps of [Debounce], and a history
    is served when its last request has had its update. *)
Definition sys_inv (t : Z) (s : system) : Prop :=
  exists tr, steps (start_state t) tr (lb s) /\ creations tr = 1 /\ (owed tr = false -> served s).

Lemma inv_step t s s' l new :
  alive s = true -> sys_inv t s -> Debounce.exec (lb s) l = Some (lb s') -> l <> LCreate -> hist s' = hist s ++ new ->
  (match l with LEvent _ => True | LUpdate _ _ _ => served s' | _ => no_request new end) -> sys_inv t s'.
Proof.
  intros Hal (tr & Hs & Hc & Ho) Hl Hne Hh Hn. exists (tr ++ [l]).
  split; [eapply steps_snoc; [done|by apply exec_step]|]. rewrite creations_snoc, decide_False, owed_snoc by done.
  split; [lia|]. destruct l; try done; intros; eapply served_ext; eauto.
Qed.

Lemma inv_same t s s' new :
  alive s = true -> sys_inv t s -> lb s' = lb s -> hist s' = hist s ++ new -> no_request new -> sys_inv t s'.
Proof.
  intros Hal (tr & Hs & Hc & Ho) Hl Hh Hn. exists tr. rewrite Hl. split; [done|]. split; [done|].
  intros. eapply served_ext; eauto.
Qed.

Lemma existsb_false l : existsb is_request l = false <-> no_request l.
Proof.
  unfold no_request. induction l as [|e l IH]; simpl; [done|]. rewrite orb_false_iff, Forall_cons. tauto.
Qed.

Lemma sys_inv_exec t a s s' : sys_inv t s -> sys_exec a s = Some s' -> sys_inv t s'.
Proof.
  intros Hi Ha. unfold sys_exec in Ha. destruct (alive s) eqn:Hal; [|done].
  destruct a as [a| |l|].
  - case_decide; [done|]. destruct (ServerChannels.exec _ _ _ _) as [srv|]; simplify_eq/=.
    eapply (inv_same t s _ []); [done|done|done|by rewrite app_nil_r|constructor].
  - case_decide; [|done].
    pose proof (handle_event_asks (handling s) (hist s)) as (new & Hh & Hnew).
    destruct (HandleEvent (handling s) (hist s)) as [o h'] eqn:He. simpl in Ha, Hh. subst h'.
    destruct (match o with Val err => _ | _ => _ end) as [srv|]; [|done]. simpl in Ha.
    rewrite drop_app_length in Ha. destruct (existsb is_request new) eqn:Hr.
    + destruct (Debounce.exec (lb s) (LEvent 0)) as [d|] eqn:Hd; simplify_eq/=.
      by eapply (inv_step t s _ (LEvent 0) new).
    + apply existsb_false in Hr. simplify_eq/=. by eapply (inv_same t s _ new).
  - case_decide as Ht; [|done]. destruct (Debounce.exec (lb s) l) as [d|] eqn:Hd; simplify_eq/=.
    eapply (inv_step t s _ l []); simpl; [done|done|done|by destruct l|by rewrite app_nil_r|].
    destruct l; try done; constructor.
  - destruct (instances (lb s) !! 0) as [x|]; [|done]. simpl in Ha.
    destruct (Debounce.exec (lb s) _) as [d|] eqn:Hd; simplify_eq/=.
    case_bool_decide as Hk.
    + destruct (update_no_request true (hist s)) as (new & Hh & Hn).
      by eapply (inv_step t s _ (LSkip 0 0) new).
    + destruct (update_no_request false (hist s)) as (new & Hh & Hn).
      eapply (inv_step t s _ (LUpdate _ 0 0) new); [done|done|done|done|exact Hh|].
      apply (update_served (hist s)); [done|]. simpl. by destruct (handle_update _ _ _) as [[[]|w|w] h].
Qed.

Lemma sys_init_inv t : sys_inv t (sys_init t).
Proof.
  exists [LCreate]. split; [apply step_steps, (step_create (start_state t))|]. split; [done|].
  intros _ pre post Heq. by destruct pre.
Qed.

(** A property of states that the actions preserve. *)
Lemma sys_run_inv (P : system -> Prop) acts s s' :
  (forall a s s', P s -> sys_exec a s = Some s' -> P s') -> P s -> sys_run acts s = Some s' -> P s'.
Proof.
  intros HP. revert s. induction acts as [|a acts IH]; intros s Hs Hr; [by simplify_eq/=|].
  simpl in Hr. destruct (sys_exec a s) as [s1|] eqn:Ha; [|done]. eauto.
Qed.

Lemma reachable_inv s : sys_reachable s -> exists t, sys_inv t s.
Proof.
  intros (t & acts & Hr). exists t. eapply (sys_run_inv (sys_inv t)); [|apply sys_init_inv|exact Hr].
  intros a s1 s2. apply sys_inv_exec.
Qed.

Lemma inv_single t s : sys_inv t s -> exists x tr, single tr (lb s) x /\ (owed tr = false -> served s).
Proof.
  intros (tr & Hs & Hc & Ho). apply steps_single in Hs as [_ H1]. destruct (H1 Hc) as [x Hx]. eauto.
Qed.

(** Once no request is pending, all have been served. *)
Definition settled (s : system) : Prop := forall x, instances (lb s) = [x] -> ~ pending x.

Lemma settled_served s : sys_reachable s -> settled s -> served s.
Proof.
  intros (t & Hi)%reachable_inv Hp. destruct (inv_single t s Hi) as (x & tr & [Hx Ho _ _ _] & Hs).
  apply Hs. destruct (owed tr); [|done]. exfalso. by apply (Hp x Hx), Ho.
Qed.

(** ** The steps to an update *)

Lemma sys_run_app acts1 acts2 s : sys_run (acts1 ++ acts2) s = (s' ← sys_run acts1 s; sys_run acts2 s').
Proof.
  revert s. induction acts1 as [|a acts1 IH]; intros s; [done|]. simpl. by destruct (sys_exec a s) as [s'|]; simpl.
Qed.

(** From [s], the system can get to a state where [Q] holds. *)
Definition sys_can (Q : system -> Prop) (s : system) : Prop := exists acts s', sys_run acts s = Some s' /\ Q s'.

Lemma sys_can_now (Q : system -> Prop) s : Q s -> sys_can Q s.
Proof. intros HQ. by exists [], s. Qed.
Lemma sys_can_step (Q : system -> Prop) a s s' : sys_exec a s = Some s' -> sys_can Q s' -> sys_can Q s.
Proof. intros Ha (acts & s'' & Hr & HQ). exists (a :: acts), s''. simpl. by rewrite Ha. Qed.
Lemma sys_can_then (Q Q' : system -> Prop) s :
  sys_can Q s -> (forall s', Q s' -> sys_can Q' s') -> sys_can Q' s.
Proof.
  intros (acts & s' & Hr & HQ) Hn. destruct (Hn s' HQ) as (acts' & s'' & Hr' & HQ').
  exists (acts ++ acts'), s''. by rewrite sys_run_app, Hr.
Qed.

(** A quiet step of [Debounce] is an action of the system. *)
Lemma quiet_action t s (l : Debounce.label) d :
  sys_inv t s -> alive s = true -> Debounce.quiet l -> Debounce.step (lb s) l d ->
  exists a s', sys_exec a s = Some s' /\ lb s' = d /\ alive s' = true /\ hist s `prefix_of` hist s'.
Proof.
  intros Hi Hal Hq Hl. pose proof (step_exec _ _ _ Hl) as He.
  destruct (inv_single t s Hi) as (x & tr & [Hx _ _ _ _] & _).
  assert (Htimer : timer l -> exists a s', sys_exec a s = Some s' /\ lb s' = d /\ alive s' = true /\ hist s `prefix_of` hist s').
  { intros Ht. exists (STimer l). unfold sys_exec. rewrite Hal, (decide_True _ _ Ht), He. eexists. by repeat split. }
  assert (H1 : forall i y, instances (lb s) !! i = Some y -> i = 0 /\ y = x) by (intros i y; by apply lookup_single).
  inversion Hl; subst; try done;
    repeat match goal with Hy : instances (lb s) !! _ = Some _ |- _ => destruct (H1 _ _ Hy) as [-> ->]; clear Hy end;
    try (by apply Htimer).
  exists SReceive. unfold sys_exec. rewrite Hal, Hx. simpl.
  rewrite bool_decide_eq_true_2 by (by eexists). rewrite He. eexists. split; [reflexivity|].
  split; [done|]. split; [done|]. simpl. by eexists.
Qed.

Lemma quiet_run t s tr d :
  sys_inv t s -> alive s = true -> Forall Debounce.quiet tr -> steps (lb s) tr d ->
  sys_can (fun s' => sys_inv t s' /\ lb s' = d /\ alive s' = true /\ hist s `prefix_of` hist s') s.
Proof.
  intros Hi Hal Hq Hs. remember (lb s) as d0 eqn:Hd0. induction Hs as [d0|d0 tr d1 l d2 Hs IH Hl]; subst.
  - by apply sys_can_now.
  - apply Forall_app in Hq as [Hq [Hql _]%Forall_cons].
    eapply sys_can_then; [by apply IH|]. intros s1 (Hi1 & <- & Hal1 & Hp1).
    destruct (quiet_action t s1 l d2 Hi1 Hal1 Hql Hl) as (a & s2 & Ha & Hd & Hal2 & Hp2).
    eapply (sys_can_step _ a); [exact Ha|]. apply sys_can_now.
    split; [by eapply sys_inv_exec|]. split; [done|]. split; [done|by etrans].
Qed.

(** A state that owes an update leads to one. *)
Lemma owed_updates t s tr :
  steps (start_state t) tr (lb s) -> creations tr = 1 -> owed tr = true -> sys_inv t s -> alive s = true ->
  sys_can (fun s' => (now (lb s') <= now (lb s) + ReloadThreshold)%Z /\
    exists h0, hist s `prefix_of` h0 /\ updates h0 s') s.
Proof.
  intros Hs Hc Ho Hi Hal. destruct (owed_leads_to_update t tr (lb s) Hs Hc Ho) as (tr' & d & u & Hs' & Hq & Hu).
  apply steps_snoc_inv in Hs' as (d1 & Hs1 & Hl).
  eapply sys_can_then; [by eapply quiet_run|]. intros s1 (Hi1 & <- & Hal1 & Hp1).
  destruct (inv_single t s1 Hi1) as (x & tr1 & [Hx _ _ _ _] & _).
  pose proof (step_exec _ _ _ Hl) as He. inversion Hl; subst.
  assert (y = x) as -> by (by rewrite Hx in *; simplify_eq/=).
  eapply (sys_can_step _ SReceive).
  - unfold sys_exec. rewrite Hal1, Hx. simpl. match goal with Hg : ttlcache.Get _ _ = None |- _ => rewrite Hg end. rewrite bool_decide_eq_false_2 by (by intros []). rewrite He. reflexivity.
  - apply sys_can_now. simpl. split; [done|]. exists (hist s1). split; [done|]. split; [done|]. simpl.
    by destruct (handle_update _ _ _) as [[[]|w|w] h].
Qed.

(** The load balancer handles an event that asks for an update. *)
Lemma handled_updates t s new :
  p < n -> sys_inv t s -> alive s = true -> turn s ->
  HandleEvent (handling s) (hist s) = (Val None, hist s ++ new ++ [ECacheSet "reload"]) ->
  sys_can (fun s' => (now (lb s') <= now (lb s) + ReloadThreshold)%Z /\
    exists h0, (hist s ++ new ++ [ECacheSet "reload"]) `prefix_of` h0 /\ updates h0 s') s.
Proof.
  intros Hp Hi Hal Ht He. destruct (inv_single t s Hi) as (x & _ & [Hx _ _ _ _] & _).
  assert (Hd : exists d, Debounce.exec (lb s) (LEvent 0) = Some d /\ now d = now (lb s)).
  { eexists. unfold Debounce.exec. rewrite Hx. split; [reflexivity|done]. }
  destruct Hd as (d & Hd & Hnow).
  assert (Hsrv : exists srv, ServerChannels.exec polling n (AExt None) (server s) = Some srv).
  { unfold turn in Ht. unfold ServerChannels.exec. destruct (E (server s)) as [|k| |] eqn:HE; [done| |done..].
    subst k. simpl. rewrite HE. destruct (n - p) as [|k] eqn:Hk; [lia|]. by eexists. }
  destruct Hsrv as [srv Hsrv].
  assert (Ha : exists s', sys_exec SHandle s = Some s' /\ lb s' = d /\ alive s' = true /\
    hist s' = hist s ++ new ++ [ECacheSet "reload"]).
  { unfold sys_exec. rewrite Hal, (decide_True _ _ Ht), He. simpl. rewrite Hsrv, drop_app_length. simpl.
    rewrite existsb_app. simpl. rewrite orb_true_r, Hd. eexists. by repeat split. }
  destruct Ha as (s' & Ha & Hl & Hal' & Hh). eapply sys_can_step; [exact Ha|].
  destruct Hi as (tr & Hs & Hc & Ho). rewrite <- Hh, <- Hnow, <- Hl.
  apply (owed_updates t s' (tr ++ [LEvent 0])); [|rewrite creations_snoc; by rewrite Hc|by rewrite owed_snoc| |done].
  - rewrite Hl. eapply steps_snoc; [done|by apply exec_step].
  - eapply sys_inv_exec; [|exact Ha]. by exists tr.
Qed.

(** The extensions before the load balancer handle the event. *)
Lemma comes_to_turn s j k :
  j + k = p -> p < n -> alive s = true -> E (server s) = EHandle (n - j) ->
  sys_can (fun s' => turn s' /\ handling s' = handling s /\ lb s' = lb s /\ hist s' = hist s /\ alive s' = true) s.
Proof.
  revert s j. induction k as [|k IH]; intros s j Hj Hp Hal HE.
  - apply sys_can_now. assert (j = p) as -> by lia. unfold turn. by rewrite HE.
  - destruct (n - j) as [|m] eqn:Hm; [lia|].
    set (s1 := {| server := set_E (EHandle m) (server s); handling := handling s; lb := lb s; hist := hist s; alive := true |}).
    assert (Ha : sys_exec (SServer (AExt None)) s = Some s1).
    { unfold sys_exec. rewrite Hal, decide_False; [unfold ServerChannels.exec; rewrite HE; simpl; by rewrite HE|].
      intros [Ht _]. unfold turn in Ht. rewrite HE in Ht. lia. }
    eapply sys_can_step; [exact Ha|]. apply (IH s1 (S j)); simpl; [lia|lia|done|f_equal; lia].
Qed.

(** A message in the hands of a reader is handled by the load balancer. *)
Lemma read_comes_to_turn s i m :
  p < n -> alive s = true -> E (server s) = ERecv -> readers (server s) !! i = Some (ReadMsg (Some m)) -> ~ anonymous m ->
  sys_can (fun s' => turn s' /\ handling s' = m /\ lb s' = lb s /\ hist s' = hist s /\ alive s' = true) s.
Proof.
  intros Hp Hal HE Hr Hm.
  set (s1 := {| server := set_E (receive_event n m) (set_readers (<[i:=Scan]> (readers (server s))) (server s));
                handling := m; lb := lb s; hist := hist s; alive := true |}).
  eapply (sys_can_step _ (SServer (AReadMsg i)) _ s1).
  - unfold sys_exec. rewrite Hal, decide_False by (by intros [_ []]).
    unfold ServerChannels.exec, received, handed. rewrite HE. simpl. rewrite Hr, HE. simpl.
    unfold s1, receive_event, running. rewrite !decide_False by done. done.
  - apply (comes_to_turn s1 0 p); [done..|]. simpl. unfold receive_event. rewrite decide_False by done. f_equal; lia.
Qed.

(** ** The files *)

Section Files.
Context (P : list types.Container -> list event -> string -> Prop).
Context (Hgen : forall cs h1 c h2, GenerateProxyConfig cs h1 = (Val (Ok c), h2) ->
  exists text, P cs h1 text /\
    forall proxies h', SaveConfig parse_text c proxies h' = (Val None, h' ++ map (copy_event text) proxies)).

(** Every file on a proxy was made from a listing of the history. *)
Definition files_ok (s : system) : Prop :=
  forall id dir name data, ECopyToContainer id dir name data ∈ hist s ->
    exists h cs, let h1 := h ++ [ECacheGet "reload"; EContainerList true] in
      h1 `prefix_of` hist s /\ reply_ContainerList (h ++ [ECacheGet "reload"]) true = Ok cs /\ P cs h1 data.

Lemma files_ext s s' new :
  hist s' = hist s ++ new ->
  (forall id dir name data, ECopyToContainer id dir name data ∈ new ->
    exists h cs, let h1 := h ++ [ECacheGet "reload"; EContainerList true] in
      h1 `prefix_of` hist s' /\ reply_ContainerList (h ++ [ECacheGet "reload"]) true = Ok cs /\ P cs h1 data) ->
  files_ok s -> files_ok s'.
Proof.
  intros Hh Hn Hs id dir name data Hin. rewrite Hh in Hin. apply elem_of_app in Hin as [Hin|Hin]; [|by eapply Hn].
  destruct (Hs _ _ _ _ Hin) as (h & cs & Hp & Hc). exists h, cs. split; [|done].
  rewrite Hh. by apply prefix_app_r.
Qed.

Lemma files_ok_exec a s s' : files_ok s -> sys_exec a s = Some s' -> files_ok s'.
Proof.
  intros Hf Ha. unfold sys_exec in Ha. destruct (alive s); [|done].
  assert (Hnone : forall s', hist s' = hist s -> files_ok s').
  { intros s1 Hh. apply (files_ext s s1 []); [by rewrite app_nil_r| |done]. intros ???? Hin. by apply elem_of_nil in Hin. }
  destruct a as [a| |l|].
  - case_decide; [done|]. destruct (ServerChannels.exec _ _ _ _); simplify_eq/=. by apply Hnone.
  - case_decide; [|done].
    pose proof (handle_event_asks (handling s) (hist s)) as (new & Hh & Hnew).
    destruct (match (HandleEvent _ _).1 with Val err => _ | _ => _ end) as [srv|]; [|done]. simpl in Ha.
    destruct (if existsb _ _ then _ else _) as [d|]; simplify_eq/=.
    apply (files_ext s _ new); [done| |done]. intros ???? Hin.
    rewrite Forall_forall in Hnew. by destruct (Hnew _ Hin).
  - case_decide; [|done]. destruct (Debounce.exec _ _); simplify_eq/=. by apply Hnone.
  - destruct (instances (lb s) !! 0) as [x|]; [|done]. simpl in Ha.
    destruct (Debounce.exec _ _) as [d|]; simplify_eq/=.
    destruct (@update_copies _ (with_cache W (bool_decide (is_Some (ttlcache.Get "reload" (cache x))))) parse_text nodeID b Hb P Hgen (hist s))
      as (new & Hh & Hc).
    apply (files_ext s _ new); [exact Hh| |done]. intros id dir name data Hin.
    destruct (Hc id dir name data Hin) as (Hp & cs & Hl & HP). exists (hist s), cs. split; [|done].
    simpl. rewrite Hh. by apply prefix_app.
Qed.

Lemma reachable_files_ok s : sys_reachable s -> files_ok s.
Proof.
  intros (t & acts & Hr). eapply (sys_run_inv files_ok); [apply files_ok_exec| |exact Hr].
  intros ???? Hin. by apply elem_of_nil in Hin.
Qed.

(** After [h], an update has been applied, without a panic, or has reported the
    error it failed with: of a listing, of the generation or of the template,
    before it did anything but look. *)
Definition answered (h : list event) (s : system) : Prop :=
  exists h0 h1, h `prefix_of` h0 /\ @handle_update _ (with_cache W false) parse_text nodeID b h0 = (Val tt, h1) /\
    h1 `prefix_of` hist s /\
    (@applied (with_cache W false) nodeID b P h0 (Val tt) h1 \/
     exists e hf, @failed (with_cache W false) parse_text b h0 e hf /\ h1 = hf ++ [EErrChan e]).

Lemma served_answered s pre post :
  alive s = true -> served s -> hist s = pre ++ ECacheSet "reload" :: post -> answered (pre ++ [ECacheSet "reload"]) s.
Proof.
  intros Hal Hs Hh. destruct (Hs pre post Hh) as (h0 & Hp & Hu & Ho). specialize (Ho Hal).
  destruct (@handle_update _ (with_cache W false) parse_text nodeID b h0) as [o h1] eqn:Hr. simpl in Hu, Ho. subst o.
  exists h0, h1. split_and!; try done.
  exact (@update_outcome _ (with_cache W false) parse_text nodeID b Hb P Hgen h0 h1 eq_refl Hr).
Qed.

(** A daemon that lists containers, and from whose answers a configuration
    can be generated. *)
Context (listing : list event -> list types.Container).
Context (Hlist : forall h, reply_ContainerList h true = Ok (listing h)).
Context (Hok : forall h h1, exists c h2, GenerateProxyConfig (listing h) h1 = (Val (Ok c), h2)).

(** After [h], an update has been applied: it has copied to the proxies a text
    made from what was listed after [h], and, unless it panicked, reloaded its
    share of them. *)
Definition brought (h : list event) (s : system) : Prop :=
  let r h0 := @handle_update _ (with_cache W false) parse_text nodeID b h0 in
  exists h0, h `prefix_of` h0 /\ updates h0 s /\
    @applied (with_cache W false) nodeID b P h0 (r h0).1 (r h0).2.

(** The update after [h] brings the listing after [h] to the proxies. *)
Lemma update_brings h0 s : updates h0 s -> brought h0 s.
Proof.
  intros Hu. exists h0. split; [done|]. split; [done|].
  destruct (Hok (h0 ++ [ECacheGet "reload"]) (starts h0)) as (c & h2 & Hg).
  eapply (@update_reaches _ (with_cache W false) parse_text nodeID b Hb P Hgen h0 _ c h2); [|apply Hlist].
  split; [done|apply Hlist|exact Hg].
Qed.

Lemma brought_mono h h0 s : h `prefix_of` h0 -> brought h0 s -> brought h s.
Proof. intros Hp (h1 & Hp1 & Hu). exists h1. split; [by etrans|done]. Qed.

Lemma settled_brought s pre post :
  sys_reachable s -> settled s -> hist s = pre ++ ECacheSet "reload" :: post ->
  brought (pre ++ [ECacheSet "reload"]) s.
Proof.
  intros Hr Hs Hh. destruct (settled_served s Hr Hs pre post Hh) as (h0 & Hp & Hu).
  eapply brought_mono; [exact Hp|by apply update_brings].
Qed.

(** A message that asks for an update leads to one that brings what is listed
    after the request to the proxies. *)
Lemma read_brought s i m new :
  p < n -> sys_reachable s -> alive s = true -> E (server s) = ERecv ->
  readers (server s) !! i = Some (ReadMsg (Some m)) -> ~ anonymous m ->
  HandleEvent m (hist s) = (Val None, hist s ++ new ++ [ECacheSet "reload"]) ->
  sys_can (fun s' => (now (lb s') <= now (lb s) + ReloadThreshold)%Z /\
    brought (hist s ++ new ++ [ECacheSet "reload"]) s') s.
Proof.
  intros Hp (t & Hi)%reachable_inv Hal HE Hr Hm He.
  eapply sys_can_then; [by apply (read_comes_to_turn s i m)|]. intros s1 (Ht & Hhm & Hl & Hh & Hal1).
  assert (Hi1 : sys_inv t s1) by (eapply (inv_same t s s1 []); [done|done|done|by rewrite Hh, app_nil_r|constructor]).
  eapply sys_can_then.
  - apply (handled_updates t s1 new Hp Hi1 Hal1 Ht). by rewrite Hhm, Hh.
  - intros s2 (Hn & h0 & Hpre & Hu). apply sys_can_now. rewrite <- Hl, <- Hh. split; [done|].
    eapply brought_mono; [exact Hpre|by apply update_brings].
Qed.
End Files.

(** ** No panic *)

#[local] Instance with_cache_sound v : SoundDaemon W -> SoundDaemon (with_cache W v).
Proof. intros [Hl Hi Hp]. split; [exact Hl|exact Hi|exact Hp]. Qed.

Lemma event_running m e err e' : ServerChannels.exec polling n (AExt err) e = Some e' -> m = true -> running e' = m.
Proof.
  intros [_ Ha]%exec_alive ->. simpl in Ha. repeat (case_match; try done); by simplify_eq/=.
Qed.

(** The process goes on, unless the handler of events has panicked. *)
Lemma alive_exec a s s' :
  SoundDaemon W -> ReturningBackend b -> alive s = running (server s) -> sys_exec a s = Some s' ->
  alive s' = running (server s').
Proof.
  intros HW Hr Hrun Ha. unfold sys_exec in Ha. destruct (alive s) eqn:Hal; [|done]. destruct a as [a| |l|].
  - case_decide; [done|]. by destruct (ServerChannels.exec _ _ _ _); simplify_eq/=.
  - case_decide; [|done]. destruct (HandleEvent_returns (handling s) (hist s)) as (new & _ & err & Hv). rewrite Hv in Ha.
    destruct (ServerChannels.exec _ _ _ _) as [srv|] eqn:Hs; [|done]. simpl in Ha.
    destruct (if existsb _ _ then _ else _) as [d|]; simplify_eq/=. rewrite Hv. symmetry. by eapply event_running.
  - case_decide; [|done]. by destruct (Debounce.exec _ _); simplify_eq/=.
  - destruct (instances (lb s) !! 0) as [x|]; [|done]. simpl in Ha.
    destruct (Debounce.exec _ _) as [d|]; simplify_eq/=.
    destruct (@handle_update_returns _ (with_cache W (bool_decide (is_Some (ttlcache.Get "reload" (cache x))))) _
      parse_text nodeID b Hb Hr (hist s)) as (new & _ & u & Hv). by rewrite Hv.
Qed.

(** The action reads the line [null]. *)
Definition sys_null (a : sys_action) : Prop := match a with SServer a => null_line a | _ => False end.
#[global] Instance sys_null_dec a : Decision (sys_null a).
Proof. unfold sys_null. destruct a; apply _. Defined.

Lemma sys_no_nil a s s' : ~ sys_null a -> no_nil (server s) -> sys_exec a s = Some s' -> no_nil (server s').
Proof.
  intros Hn Hs Ha. unfold sys_exec in Ha. destruct (alive s); [|done]. destruct a as [a| |l|].
  - case_decide; [done|]. destruct (ServerChannels.exec _ _ _ _) as [srv|] eqn:He; simplify_eq/=. by eapply no_nil_step.
  - case_decide; [|done]. destruct (HandleEvent _ _) as [[err|w|w] h]; simpl in Ha.
    + destruct (ServerChannels.exec _ _ _ _) as [srv|] eqn:He; [|done]. simpl in Ha.
      destruct (if existsb _ _ then _ else _) as [d|]; simplify_eq/=. by eapply no_nil_step; [|exact He|].
    + destruct (if existsb _ _ then _ else _) as [d|]; by simplify_eq/=.
    + destruct (if existsb _ _ then _ else _) as [d|]; by simplify_eq/=.
  - case_decide; [|done]. by destruct (Debounce.exec _ _); simplify_eq/=.
  - destruct (instances (lb s) !! 0) as [x|]; [|done]. simpl in Ha. by destruct (Debounce.exec _ _); simplify_eq/=.
Qed.

Lemma run_panics t acts s :
  SoundDaemon W -> ReturningBackend b -> sys_run acts (sys_init t) = Some s ->
  alive s = true \/ (E (server s) = EPanic /\ Exists sys_null acts).
Proof.
  intros HW Hr Hrun.
  assert (Hal : alive s = running (server s)).
  { apply (sys_run_inv (fun s => alive s = running (server s)) acts (sys_init t) s); [|reflexivity|exact Hrun].
    intros a s1 s2. by apply alive_exec. }
  destruct (decide (Exists sys_null acts)) as [Hn|Hn].
  - rewrite Hal. unfold running. destruct (E (server s)); auto.
  - left. rewrite Hal. enough (no_nil (server s)) as [HE _] by (unfold running; by destruct (E (server s))).
    apply not_Exists_Forall in Hn; [|apply _]. assert (Hi : no_nil (server (sys_init t))) by done.
    revert Hrun Hi. generalize (sys_init t). clear Hal.
    induction Hn as [|a acts Ha Hacts IH]; intros s0 Hrun Hi; [by simplify_eq/=|].
    simpl in Hrun. destruct (sys_exec a s0) as [s1|] eqn:Hs; [|done]. eapply IH; [exact Hrun|]. by eapply sys_no_nil.
Qed.
End System.

(** ** The backends *)

Section Theorems.
Context `{MapRange} {W : World}.
Context (other : string -> res (ProxyConfig -> res string)) (nodeID : string) (cfg : ExtensionConfig).
Context (Hpath : TemplatePath cfg = "").
Context (polling : bool) (n p : nat).
Abbreviation nginx_run :=
  (sys_run (Parse other) nodeID (b := NginxBackend cfg nginxConfTemplate nginxPlusConfTemplate) polling n p).
Abbreviation haproxy_run :=
  (sys_run (Parse other) nodeID (b := HAProxyBackend cfg haproxyConfTemplate) polling n p).
Abbreviation nginx_reachable :=
  (sys_reachable (Parse other) nodeID (b := NginxBackend cfg nginxConfTemplate nginxPlusConfTemplate) polling n p).
Abbreviation haproxy_reachable :=
  (sys_reachable (Parse other) nodeID (b := HAProxyBackend cfg haproxyConfTemplate) polling n p).

(** C3: In every run of the program with the nginx backend, whatever the order
    of its goroutines and whatever the daemon answers, every file copied to a
    proxy serves the containers of a listing of the history: each address a
    container publishes is a server of the file, and its domain has its
    upstream and its names, or its location. *)
Theorem nginx_files_serve s : nginx_reachable s -> files_ok (nginx_serves cfg) s.
Proof. apply reachable_files_ok; [apply _|by apply nginx_generated]. Qed.

(** C4: The same with the haproxy backend, for the domains and the aliases: the
    file has the line of each server, and the backend and the rule of the name,
    or the rule of its context root. *)
Theorem haproxy_files_serve s : haproxy_reachable s -> files_ok (haproxy_serves cfg) s.
Proof. apply reachable_files_ok; [apply _|by apply haproxy_generated]. Qed.

(** A daemon that lists containers. *)
Context (listing : list event -> list types.Container).
Context (Hlist : forall h, reply_ContainerList h true = Ok (listing h)).

(** Every container that is listed can be inspected. *)
Definition inspects : Prop := forall h h1 c, c ∈ listing h -> exists id info,
  Strings.prefix_slice (types.c_ID c) 12 = Val id /\
  reply_ContainerInspect h1 id = Ok info /\ sound_info info /\ 1 <= String.length (types.ci_Name info).

(** C10: No update is forgotten by nginx: whenever no request is pending, each
    request was followed by an update that copied a text that serves what was
    listed after it to all the proxies listed, and, unless it panicked,
    reloaded its share of them, if the listings succeed, with identifiers of
    twelve characters, and what is inspected is sound. *)
Theorem nginx_converges s pre post :
  let b := NginxBackend cfg nginxConfTemplate nginxPlusConfTemplate in
  (forall h, Forall (fun c => 12 <= String.length (types.c_ID c)) (listing h)) ->
  (forall h id c, reply_ContainerInspect h id = Ok c -> sound_info c) ->
  nginx_reachable s -> settled s -> hist s = pre ++ ECacheSet "reload" :: post ->
  brought (Parse other) nodeID (nginx_serves cfg) (pre ++ [ECacheSet "reload"]) s.
Proof.
  intros b Hids Hsound Hr Hs Hh. eapply settled_brought; [apply _|by apply nginx_generated|exact Hlist| |done..].
  intros h h1. by apply nginx_generates.
Qed.

(** C11: The same for haproxy, if every container listed can be inspected: one
    that cannot makes the generation fail. *)
Theorem haproxy_converges s pre post :
  let b := HAProxyBackend cfg haproxyConfTemplate in
  inspects -> haproxy_reachable s -> settled s -> hist s = pre ++ ECacheSet "reload" :: post ->
  brought (Parse other) nodeID (haproxy_serves cfg) (pre ++ [ECacheSet "reload"]) s.
Proof.
  intros b Hok Hr Hs Hh. eapply settled_brought; [apply _|by apply haproxy_generated|exact Hlist| |done..].
  intros h h1. apply haproxy_generates. intros h2 c. apply Hok.
Qed.

(** An event read from the stream reaches the proxies: if the handler of
    events is free and the event asks for a reload, some steps of the program,
    which need no other event and at most [ReloadThreshold] of time, bring the
    containers listed after it to all the proxies. *)
Theorem nginx_event_brought s i m new :
  let b := NginxBackend cfg nginxConfTemplate nginxPlusConfTemplate in
  (forall h, Forall (fun c => 12 <= String.length (types.c_ID c)) (listing h)) ->
  (forall h id c, reply_ContainerInspect h id = Ok c -> sound_info c) ->
  p < n -> nginx_reachable s -> alive s = true -> E (server s) = ERecv ->
  readers (server s) !! i = Some (ReadMsg (Some m)) -> ~ anonymous m ->
  HandleEvent m (hist s) = (Val None, hist s ++ new ++ [ECacheSet "reload"]) ->
  sys_can (Parse other) nodeID polling n p (fun s' => (now (lb s') <= now (lb s) + ReloadThreshold)%Z /\
    brought (Parse other) nodeID (nginx_serves cfg) (hist s ++ new ++ [ECacheSet "reload"]) s') s.
Proof.
  intros b Hids Hsound Hp Hr Hal HE Hm Hanon He.
  eapply read_brought; [apply _|by apply nginx_generated|exact Hlist| |done..].
  intros h h1. by apply nginx_generates.
Qed.

(** C14: The load balancer never panics: in every run of the program, with either
    backend and any template, the handler of events and the handler of updates
    return, if the containers the daemon lists have identifiers of twelve
    characters, a name and networks, those it inspects a configuration,
    settings and a name, and every exposed port that an [interlock.port] label
    names is published, whatever else the daemon answers.  What can end the
    process is the event stream: a line [null] gives a nil message, on which
    the handler of [eventChan] panics. *)
Theorem never_panics t acts s :
  SoundDaemon W -> nginx_run acts (sys_init t) = Some s \/ haproxy_run acts (sys_init t) = Some s ->
  alive s = true \/ (E (server s) = EPanic /\ Exists sys_null acts).
Proof.
  intros HW [Hs|Hs].
  - exact (run_panics (b := NginxBackend cfg nginxConfTemplate nginxPlusConfTemplate) (Parse other) nodeID polling n p t acts s HW _ Hs).
  - exact (run_panics (b := HAProxyBackend cfg haproxyConfTemplate) (Parse other) nodeID polling n p t acts s HW _ Hs).
Qed.

End Theorems.

(** ** Witnesses *)

Section Witnesses.
Local Existing Instance sorted_range.
Import Cluster.
#[local] Abbreviation nginx_b := (NginxBackend nginx_cfg nginxConfTemplate nginxPlusConfTemplate).
#[local] Abbreviation haproxy_b := (HAProxyBackend haproxy_cfg haproxyConfTemplate).

(** The program starts, opens the stream, hands the first event to the load
    balancer, and two seconds later updates the proxies. *)
Definition first_update : list sys_action :=
  map SServer [AMain; AOpen None; AStart] ++ [SHandle; SServer ACount; STimer (LStart 0); STimer (LWait 2000); STimer (LTick 0); SReceive].

(** A web server stops. *)
Definition web_stops : etypes.Message := container_event "stop".
Definition then_event : list sys_action := first_update ++ [STimer (LFinish 0); SServer (ALine 0 (inr (Some web_stops)))].

(** The number of files copied. *)
Definition files (h : list event) : nat :=
  length (omap (fun e => match e with ECopyToContainer _ _ _ _ => Some e | _ => None end) h).

(** The cluster with a haproxy container, which has no service. *)
Definition haproxy_proxy : types.Container := {|
  types.c_ID := "dddddddddddd"; types.c_Names := ["/haproxy"]; types.c_Labels := {["interlock.ext.name" := "haproxy"]};
  types.c_State := "running"; types.c_Ports := [80%Z]; types.c_Networks := Some {["bridge" := tt]};
|}.
Definition haproxy_info : types.ContainerJSON := {|
  types.ci_ID := "dddddddddddd"; types.ci_Name := "/haproxy";
  types.ci_Config := Some {| ctypes.Hostname := "haproxy"; ctypes.Domainname := ""; ctypes.Image := "haproxy:latest";
    ctypes.ExposedPorts := ∅; ctypes.Labels := {["interlock.ext.name" := "haproxy"]} |};
  types.ci_NetworkSettings := Some {| types.ci_Ports := ∅; types.ci_Networks := ∅ |};
|}.
Definition haproxy_cluster : World :=
  snapshot [web; api; haproxy_proxy]
    {["aaaaaaaaaaaa" := web_info; "bbbbbbbbbbbb" := api_info; "dddddddddddd" := haproxy_info]} {["overlay" := overlay]} ∅.

Abbreviation nginx_run acts :=
  (sys_run (W := cluster) (Parse no_other) "node" (b := @NginxBackend _ cluster nginx_cfg nginxConfTemplate nginxPlusConfTemplate)
    false 1 0 acts (sys_init 0)).
Abbreviation haproxy_run acts :=
  (sys_run (W := haproxy_cluster) (Parse no_other) "node" (b := @HAProxyBackend _ haproxy_cluster haproxy_cfg haproxyConfTemplate)
    false 1 0 acts (sys_init 0)).

(** The request is the first interaction, and one file was copied. *)
Definition updated (s : system) : Prop :=
  alive s = true /\ instances (lb s) = [{| cache := ∅; reaping := None; handler := Some 0; busy := true |}] /\
  hist s = [] ++ ECacheSet "reload" :: tail (hist s) /\ files (hist s) = 1.

Lemma updated_settled s : updated s -> settled s.
Proof.
  intros (_ & Hi & _) x Hx. rewrite Hi in Hx. injection Hx as <-. unfold pending, ttlcache.Get. simpl.
  rewrite lookup_empty. by intros [[]|[]].
Qed.

Lemma nginx_first : exists s, nginx_run first_update = Some s /\ updated s.
Proof.
  assert (Hr : match nginx_run first_update with Some s => updated s | None => False end) by (vm_compute; repeat split).
  destruct (nginx_run first_update) as [s|]; [by exists s|done].
Qed.
Lemma haproxy_first : exists s, haproxy_run first_update = Some s /\ updated s.
Proof.
  assert (Hr : match haproxy_run first_update with Some s => updated s | None => False end) by (vm_compute; repeat split).
  destruct (haproxy_run first_update) as [s|]; [by exists s|done].
Qed.

Lemma cluster_ids : Forall (fun c => 12 <= String.length (types.c_ID c)) [web; api; proxy].
Proof. by apply (bool_decide_unpack _). Qed.
Lemma haproxy_cluster_inspects : @inspects haproxy_cluster (fun _ => [web; api; haproxy_proxy]).
Proof.
  assert (Hs : forall c, In c [web_info; api_info; haproxy_info] -> sound_info c /\ 1 <= String.length (types.ci_Name c)).
  { simpl. intros c Hc. repeat destruct Hc as [<-|Hc]; [..|done].
    all: split; [|simpl; lia]; eexists _, _; split; [reflexivity|]; split; [reflexivity|].
    all: intros p k bs Hp; discriminate Hp. }
  intros h h1 c Hc. simpl. repeat (apply elem_of_cons in Hc as [->|Hc]); [..|by apply elem_of_nil in Hc].
  - exists "aaaaaaaaaaaa", web_info. split; [reflexivity|]. split; [reflexivity|]. apply Hs. simpl; tauto.
  - exists "bbbbbbbbbbbb", api_info. split; [reflexivity|]. split; [reflexivity|]. apply Hs. simpl; tauto.
  - exists "dddddddddddd", haproxy_info. split; [reflexivity|]. split; [reflexivity|]. apply Hs. simpl; tauto.
Qed.

Lemma nginx_files_serve_witness :
  exists s, nginx_run first_update = Some s /\ files (hist s) = 1 /\ @files_ok cluster (@nginx_serves _ cluster nginx_cfg) s.
Proof.
  destruct nginx_first as (s & Hr & Hu). exists s. split; [exact Hr|]. split; [apply Hu|].
  apply (nginx_files_serve (W := cluster) no_other "node" nginx_cfg eq_refl false 1 0 s). by exists 0%Z, first_update.
Defined.

Lemma haproxy_files_serve_witness :
  exists s, haproxy_run first_update = Some s /\ files (hist s) = 1 /\
    @files_ok haproxy_cluster (@haproxy_serves _ haproxy_cluster haproxy_cfg) s.
Proof.
  destruct haproxy_first as (s & Hr & Hu). exists s. split; [exact Hr|]. split; [apply Hu|].
  apply (haproxy_files_serve (W := haproxy_cluster) no_other "node" haproxy_cfg eq_refl false 1 0 s). by exists 0%Z, first_update.
Defined.

Lemma cluster_is_sound : SoundDaemon cluster.
Proof.
  split.
  - intros h all cs Hcs. injection Hcs as <-.
    repeat apply Forall_cons_2; try apply Forall_nil_2; (split; [by vm_compute; lia|done|by eexists]).
  - intros h id c Hc. apply cluster_sound in Hc as [(config & settings & -> & -> & _) Hn]. by split_and!.
  - intros h id c config settings Hc Hconfig Hs.
    apply cluster_sound in Hc as [(config' & settings' & Hconfig' & Hs' & Hp) _]. by simplify_eq.
Qed.

Lemma never_panics_witness : exists s, nginx_run first_update = Some s /\ files (hist s) = 1 /\ alive s = true.
Proof.
  destruct nginx_first as (s & Hr & Hu). exists s. split; [exact Hr|]. split; [apply Hu|].
  destruct (never_panics (W := cluster) no_other "node" nginx_cfg false 1 0 0 first_update s cluster_is_sound)
    as [Ha|[_ Hn]]; [left; exact Hr|exact Ha|].
  exfalso. revert Hn. apply (bool_decide_unpack (~ Exists sys_null first_update)). reflexivity.
Defined.

Lemma nginx_converges_witness :
  exists s, nginx_run first_update = Some s /\
    brought (W := cluster) (Parse no_other) "node" (b := @NginxBackend _ cluster nginx_cfg nginxConfTemplate nginxPlusConfTemplate)
      (@nginx_serves _ cluster nginx_cfg) [ECacheSet "reload"] s.
Proof.
  destruct nginx_first as (s & Hr & Hu). exists s. split; [exact Hr|].
  apply (nginx_converges (W := cluster) no_other "node" nginx_cfg eq_refl false 1 0 (fun _ => [web; api; proxy]) (fun _ => eq_refl) s [] (tail (hist s))).
  - intros _. apply cluster_ids.
  - intros h id c Hc. exact (proj1 (cluster_sound h id c Hc)).
  - by exists 0%Z, first_update.
  - by apply updated_settled.
  - apply Hu.
Defined.

Lemma haproxy_converges_witness :
  exists s, haproxy_run first_update = Some s /\
    brought (W := haproxy_cluster) (Parse no_other) "node" (b := @HAProxyBackend _ haproxy_cluster haproxy_cfg haproxyConfTemplate)
      (@haproxy_serves _ haproxy_cluster haproxy_cfg) [ECacheSet "reload"] s.
Proof.
  destruct haproxy_first as (s & Hr & Hu). exists s. split; [exact Hr|].
  apply (haproxy_converges (W := haproxy_cluster) no_other "node" haproxy_cfg eq_refl false 1 0 (fun _ => [web; api; haproxy_proxy]) (fun _ => eq_refl) s [] (tail (hist s))).
  - apply haproxy_cluster_inspects.
  - by exists 0%Z, first_update.
  - by apply updated_settled.
  - apply Hu.
Defined.

(** The stop of the web server is in the hands of the reader. *)
Lemma stop_read : exists s, nginx_run then_event = Some s /\ alive s = true /\ E (server s) = ERecv /\
  readers (server s) !! 0 = Some (ReadMsg (Some web_stops)).
Proof.
  assert (Hr : match nginx_run then_event with
    | Some s => alive s = true /\ E (server s) = ERecv /\ readers (server s) !! 0 = Some (ReadMsg (Some web_stops))
    | None => False end) by (vm_compute; repeat split).
  destruct (nginx_run then_event) as [s|]; [by exists s|done].
Qed.

Lemma nginx_event_brought_witness :
  exists s, nginx_run then_event = Some s /\
    sys_can (b := @NginxBackend _ cluster nginx_cfg nginxConfTemplate nginxPlusConfTemplate) (W := cluster) (Parse no_other) "node" false 1 0
      (fun s' => (now (lb s') <= now (lb s) + ReloadThreshold)%Z /\
        brought (W := cluster) (Parse no_other) "node" (b := @NginxBackend _ cluster nginx_cfg nginxConfTemplate nginxPlusConfTemplate)
          (@nginx_serves _ cluster nginx_cfg)
          (hist s ++ [EContainerInspect "aaaaaaaaaaaa"; ESleep 250] ++ [ECacheSet "reload"]) s') s.
Proof.
  destruct stop_read as (s & Hr & Hal & HE & Hrd). exists s. split; [exact Hr|].
  apply (nginx_event_brought (W := cluster) no_other "node" nginx_cfg eq_refl false 1 0 (fun _ => [web; api; proxy]) (fun _ => eq_refl) s 0 web_stops
    [EContainerInspect "aaaaaaaaaaaa"; ESleep 250]).
  - intros _. apply cluster_ids.
  - intros h id c Hc. exact (proj1 (cluster_sound h id c Hc)).
  - lia.
  - by exists 0%Z, then_event.
  - exact Hal.
  - exact HE.
  - exact Hrd.
  - by intros [].
  - generalize (hist s). intros h.
    transitivity (Val (A := option error) None, ((h ++ [EContainerInspect "aaaaaaaaaaaa"]) ++ [ESleep 250]) ++ [ECacheSet "reload"]).
    + vm_compute. reflexivity.
    + by rewrite <- !app_assoc.
Defined.
End Witnesses.
