(* ===== verification/SystemFair.v ===== *)
(** * What fair runs of the program do

    An infinite run of [System] is one of [Debounce], so that in a fair one
    whose requests pause, each request is answered: an update after it brings
    what it lists to the proxies, or reports the error it fails with. *)

From S2P Require Import Prelude GoStd Docker Labels Config Network Nginx HAProxy Backends LoadBalancer GoTemplate Templates.
From S2P Require Import EndToEnd Debounce Fair Server ServerChannels System.

Record sys_execution := {
  sat : nat -> system;
  sby : nat -> sys_action;
}.

Section Fair.
Context `{MapRange} {W : World}.
Context (parse_text : string -> res (ProxyConfig -> res string)) (nodeID : string).
Context {b : LoadBalancerBackend} (polling : bool) (n p : nat).

#[local] Abbreviation exec_at := (sys_exec parse_text nodeID (b := b) polling n p).

Definition sys_valid (r : sys_execution) : Prop := forall k, exec_at (sby r k) (sat r k) = Some (sat r (S k)).

(** The step of [Debounce] an action takes. *)
Definition lb_label (s : system) (a : sys_action) : option label :=
  match a with
  | SServer _ => None
  | SHandle =>
      if existsb is_request (drop (length (hist s)) (HandleEvent (handling s) (hist s)).2) then Some (LEvent 0) else None
  | STimer l => Some l
  | SReceive =>
      x ← instances (lb s) !! 0;
      Some (if bool_decide (is_Some (ttlcache.Get "reload" (cache x))) then LSkip 0 0 else LUpdate (now (lb s)) 0 0)
  end.

Definition debounce_run (r : sys_execution) : execution := {|
  at_ k := lb (sat r k);
  by_ k := lb_label (sat r k) (sby r k);
|}.

#[local] Arguments Debounce.exec : simpl never.
#[local] Arguments ServerChannels.exec : simpl never.

Lemma exec_label a s s' :
  exec_at a s = Some s' ->
  match lb_label s a with Some l => Debounce.exec (lb s) l = Some (lb s') | None => lb s' = lb s end.
Proof.
  unfold sys_exec. destruct (alive s); [|done]. destruct a as [a| |l|]; simpl.
  - case_decide; [done|]. intros Ha. by destruct (ServerChannels.exec _ _ _ _); simplify_eq/=.
  - case_decide; [|done]. intros Ha. destruct (match _ with Val err => _ | _ => _ end) as [srv|]; [|done]. simpl in Ha.
    destruct (existsb _ _); [|by simplify_eq/=]. by destruct (Debounce.exec _ _); simplify_eq/=.
  - case_decide; [|done]. intros Ha. by destruct (Debounce.exec _ _); simplify_eq/=.
  - destruct (instances (lb s) !! 0) as [x|]; [|done]. simpl. intros Ha.
    case_bool_decide; by destruct (Debounce.exec _ _); simplify_eq/=.
Qed.

Lemma debounce_valid r : sys_valid r -> valid (debounce_run r).
Proof.
  intros Hv k. specialize (Hv k). apply exec_label in Hv. simpl.
  destruct (lb_label _ _); [by apply exec_step|done].
Qed.

(** The process of an infinite run goes on. *)
Lemma valid_alive r k : sys_valid r -> alive (sat r k) = true.
Proof. intros Hv. specialize (Hv k). unfold sys_exec in Hv. by destruct (alive _). Qed.

Context {Hb : LawfulBackend b}.

(** The history grows. *)
Lemma exec_hist a s s' : exec_at a s = Some s' -> hist s `prefix_of` hist s'.
Proof.
  unfold sys_exec. destruct (alive s); [|done]. destruct a as [a| |l|].
  - case_decide; [done|]. by destruct (ServerChannels.exec _ _ _ _); intros; simplify_eq/=.
  - case_decide; [|done]. destruct (handle_event_asks (handling s) (hist s)) as (new & Hh & _).
    destruct (match _ with Val err => _ | _ => _ end) as [srv|]; [|done]. simpl.
    destruct (if existsb _ _ then _ else _) as [d|]; [|done]. intros Ha. simplify_eq/=. rewrite Hh. by eexists.
  - case_decide; [|done]. by destruct (Debounce.exec _ _); intros; simplify_eq/=.
  - destruct (instances (lb s) !! 0) as [x|]; [|done]. simpl.
    destruct (Debounce.exec _ _) as [d|]; [|done]. intros Ha. simplify_eq/=.
    destruct (update_no_request parse_text nodeID (bool_decide (is_Some (ttlcache.Get "reload" (cache x)))) (hist s)) as (new & Hh & _).
    rewrite Hh. by eexists.
Qed.

Lemma run_hist r k m : sys_valid r -> k <= m -> hist (sat r k) `prefix_of` hist (sat r m).
Proof. intros Hv. induction 1 as [|m Hm IH]; [done|]. etrans; [exact IH|]. eapply exec_hist, Hv. Qed.

(** An update follows every request of the history. *)
Lemma exec_update a s s' t :
  exec_at a s = Some s' -> lb_label s a = Some (LUpdate t 0 0) -> served parse_text nodeID s'.
Proof.
  unfold sys_exec. destruct (alive s); [|done]. destruct a as [a| |l|]; simpl.
  - done.
  - by destruct (existsb _ _).
  - intros Ha [= ->]. by rewrite decide_False in Ha by (intros []).
  - destruct (instances (lb s) !! 0) as [x|]; [|done]. simpl. intros Ha.
    case_bool_decide as Hk; [done|]. intros _.
    destruct (Debounce.exec _ _) as [d|]; [|done]. simplify_eq/=. eapply (update_served _ _ (hist s)); [done|]. simpl. by destruct (handle_update _ _ _) as [[[]|w|w] h].
Qed.

Lemma run_reachable r k :
  sys_valid r -> sys_reachable parse_text nodeID (b := b) polling n p (sat r 0) ->
  sys_reachable parse_text nodeID (b := b) polling n p (sat r k).
Proof.
  intros Hv (t & acts & Hr). induction k as [|k (t' & acts' & IH)]; [by exists t, acts|].
  exists t', (acts' ++ [sby r k]). rewrite sys_run_app, IH. simpl. by rewrite (Hv k).
Qed.

(** Every request is served in the end. *)
Lemma run_served r k0 k :
  sys_valid r -> fair (debounce_run r) -> calm_from (debounce_run r) k0 ->
  sys_reachable parse_text nodeID (b := b) polling n p (sat r 0) ->
  exists m, k <= m /\ served parse_text nodeID (sat r m).
Proof.
  intros Hv Hf Hc Hr. set (k1 := Nat.max k k0).
  destruct (reachable_inv _ _ _ _ _ _ (run_reachable r k1 Hv Hr)) as (t & tr & Hs & Hcr & Ho).
  destruct (owed tr) eqn:Howed; [|exists k1; split; [lia|by apply Ho]].
  destruct (fair_owed_updates (debounce_run r) t tr k1) as (m & t' & Hm & Hu);
    [by apply debounce_valid|done| |done|done|done|].
  { intros m l Hm. apply Hc. lia. }
  exists (S m). split; [lia|]. by eapply exec_update.
Qed.
End Fair.

(** ** The backends *)

Section Theorems.
Context `{MapRange} {W : World}.
Context (other : string -> res (ProxyConfig -> res string)) (nodeID : string) (cfg : ExtensionConfig).
Context (Hpath : TemplatePath cfg = "").
Context (polling : bool) (n p : nat).
(** From the requests of a fair run to the updates, with a backend whose
    texts satisfy [P]. *)
Lemma run_answered {b : LoadBalancerBackend} {Hb : LawfulBackend b} parse_text
    (P : list types.Container -> list event -> string -> Prop) r k0 k pre post :
  (forall cs h1 c h2, GenerateProxyConfig cs h1 = (Val (Ok c), h2) ->
    exists text, P cs h1 text /\
      forall proxies h', SaveConfig parse_text c proxies h' = (Val None, h' ++ map (copy_event text) proxies)) ->
  sys_reachable parse_text nodeID (b := b) polling n p (sat r 0) -> sys_valid parse_text nodeID (b := b) polling n p r ->
  fair (debounce_run r) -> calm_from (debounce_run r) k0 ->
  hist (sat r k) = pre ++ ECacheSet "reload" :: post ->
  exists m, k <= m /\ answered parse_text nodeID P (pre ++ [ECacheSet "reload"]) (sat r m).
Proof.
  intros Hgen Hr Hv Hf Hc Hh.
  destruct (run_served parse_text nodeID polling n p r k0 k Hv Hf Hc Hr) as (m & Hm & Hs).
  exists m. split; [done|]. destruct (run_hist parse_text nodeID polling n p r k m Hv Hm) as [new Hnew].
  rewrite Hh, <- app_assoc in Hnew. simpl in Hnew.
  eapply served_answered; [apply _|exact Hgen| |exact Hs|exact Hnew]. by eapply valid_alive.
Qed.

(** C5: Every request is answered: in every infinite run of the program with the
    nginx backend and its built-in template in which time goes on, no
    goroutine of the load balancer is put off for ever and requests stop
    coming at some point, each request is followed by an update that does not
    panic, and that either makes a text that serves the containers listed
    after the request, copies it to every proxy listed then, in order, and
    reloads this instance's share of them; or has only looked at the cluster,
    and reports on [errChan] the error of a listing, the generation or the
    template.  Nothing is assumed of the daemon; the code does not look at the
    outcomes of the copies. *)
Theorem nginx_requests_answered r k0 k pre post :
  let b := NginxBackend cfg nginxConfTemplate nginxPlusConfTemplate in
  sys_reachable (Parse other) nodeID polling n p (sat r 0) -> sys_valid (Parse other) nodeID polling n p r ->
  fair (debounce_run r) -> calm_from (debounce_run r) k0 ->
  hist (sat r k) = pre ++ ECacheSet "reload" :: post ->
  exists m, k <= m /\ answered (Parse other) nodeID (nginx_serves cfg) (pre ++ [ECacheSet "reload"]) (sat r m).
Proof. intros b. apply (run_answered (b := b)). by apply nginx_generated. Qed.

(** C6: The same with haproxy and its built-in template. *)
Theorem haproxy_requests_answered r k0 k pre post :
  let b := HAProxyBackend cfg haproxyConfTemplate in
  sys_reachable (Parse other) nodeID polling n p (sat r 0) -> sys_valid (Parse other) nodeID polling n p r ->
  fair (debounce_run r) -> calm_from (debounce_run r) k0 ->
  hist (sat r k) = pre ++ ECacheSet "reload" :: post ->
  exists m, k <= m /\ answered (Parse other) nodeID (haproxy_serves cfg) (pre ++ [ECacheSet "reload"]) (sat r m).
Proof. intros b. apply (run_answered (b := b)). by apply haproxy_generated. Qed.
End Theorems.

(** ** Witnesses *)

(** A run that starts with some actions. *)
Section Play.
Context `{MapRange} {W : World}.
Context (parse_text : string -> res (ProxyConfig -> res string)) (nodeID : string) {b : LoadBalancerBackend}.
Context (polling : bool) (n p : nat).
#[local] Abbreviation exec_at := (sys_exec parse_text nodeID (b := b) polling n p).
#[local] Abbreviation run_at := (sys_run parse_text nodeID (b := b) polling n p).

Definition cons_run (a : sys_action) (s : system) (r : sys_execution) : sys_execution := {|
  sat k := match k with O => s | S k => sat r k end;
  sby k := match k with O => a | S k => sby r k end;
|}.
Fixpoint play (acts : list sys_action) (s : system) (r : sys_execution) : sys_execution :=
  match acts with
  | [] => r
  | a :: acts' => cons_run a s (match exec_at a s with Some s' => play acts' s' r | None => r end)
  end.

(** What later states and steps decide, and no start changes. *)
Definition tail_property (Q : sys_execution -> Prop) : Prop := forall a s r, Q r -> Q (cons_run a s r).

Lemma play_tail Q acts s r : tail_property Q -> Q r -> Q (play acts s r).
Proof.
  intros HQ Hr. revert s. induction acts as [|a acts IH]; intros s; simpl; [done|].
  apply HQ. destruct (exec_at a s); [apply IH|done].
Qed.

Lemma play_first acts s r : run_at acts s = Some (sat r 0) -> sat (play acts s r) 0 = s.
Proof. destruct acts; simpl; [congruence|done]. Qed.
Lemma play_valid acts s r :
  run_at acts s = Some (sat r 0) -> sys_valid parse_text nodeID (b := b) polling n p r ->
  sys_valid parse_text nodeID (b := b) polling n p (play acts s r).
Proof.
  intros Hr Hv. revert s Hr. induction acts as [|a acts IH]; intros s Hr; simpl; [done|]. simpl in Hr.
  destruct (exec_at a s) as [s'|] eqn:Ha; [|done]. intros [|k]; simpl; [|by apply IH]. by rewrite play_first.
Qed.
Lemma play_at acts s r k :
  run_at acts s = Some (sat r 0) ->
  sat (play acts s r) (length acts + k) = sat r k /\ sby (play acts s r) (length acts + k) = sby r k.
Proof.
  revert s. induction acts as [|a acts IH]; intros s Hr; simpl; [done|]. simpl in Hr.
  destruct (exec_at a s) as [s'|] eqn:Ha; [|done]. by apply IH.
Qed.

Lemma play_during acts1 acts2 s s1 r :
  run_at acts1 s = Some s1 -> run_at acts2 s1 = Some (sat r 0) -> sat (play (acts1 ++ acts2) s r) (length acts1) = s1.
Proof.
  revert s. induction acts1 as [|a acts1 IH]; intros s Hr Hr2; simpl in *; [by simplify_eq/=; apply play_first|].
  destruct (exec_at a s) as [s'|]; [|done]. by apply IH.
Qed.

Lemma fair_tail : tail_property (fun r => fair (debounce_run r)).
Proof.
  intros a s r [Ht Hg]. split.
  - intros t. destruct (Ht t) as [k Hk]. by exists (S k).
  - intros g k. destruct (Hg g k) as (m & Hm & Hd). exists (S m). split; [lia|exact Hd].
Qed.

Lemma play_calm acts s r :
  run_at acts s = Some (sat r 0) -> calm_from (debounce_run r) 0 -> calm_from (debounce_run (play acts s r)) (length acts).
Proof.
  intros Hr Hc m l Hm. replace m with (length acts + (m - length acts)) by lia. simpl.
  destruct (play_at acts s r (m - length acts) Hr) as [-> ->]. apply (Hc (m - length acts)). lia.
Qed.
End Play.

(** An update has started at [s]: it ends, and the ticker goes on. *)
Section Idle.
Context `{MapRange} {W : World}.
Context (parse_text : string -> res (ProxyConfig -> res string)) (nodeID : string) {b : LoadBalancerBackend}.

Definition set_lb (d : Debounce.state) (s : system) : system :=
  {| server := server s; handling := handling s; lb := d; hist := hist s; alive := alive s |}.

Definition idle_at (s : system) (k : nat) : system :=
  set_lb {| now := now (lb s) + 1000 * Z.of_nat (Nat.div2 k); lbUpdateChan := lbUpdateChan (lb s); channels := channels (lb s);
    instances := [{| cache := ∅; reaping := None; handler := Some 0; busy := bool_decide (k = 0) |}] |} s.
Definition idle_by (k : nat) : sys_action :=
  STimer (if decide (k = 0) then LFinish 0 else if Nat.even k then LTick 0 else LWait 1000).
Definition idle_run (s : system) : sys_execution := {| sat := idle_at s; sby := idle_by |}.

Definition updating (s : system) : Prop :=
  alive s = true /\ instances (lb s) = [{| cache := ∅; reaping := None; handler := Some 0; busy := true |}].

#[local] Abbreviation exec_at := (sys_exec parse_text nodeID (b := b) false 1 0).

Lemma idle_start s : updating s -> sat (idle_run s) 0 = s.
Proof.
  intros [_ Hi]. simpl. unfold idle_at, set_lb. simpl. rewrite Z.add_0_r, <- Hi. by destruct s as [? ? [] ? ?].
Qed.

Lemma idle_valid s : updating s -> sys_valid parse_text nodeID (b := b) false 1 0 (idle_run s).
Proof.
  intros [Ha _] k. cbn [idle_run sat sby]. unfold idle_by. destruct k as [|k].
  - simpl. unfold sys_exec, idle_at. simpl. rewrite Ha. simpl. unfold set_lb. simpl. rewrite Ha. done.
  - rewrite decide_False by done. destruct (Nat.even (S k)) eqn:Hk.
    + apply Nat.even_spec in Hk as [j Hj].
      assert (Nat.div2 (S (S k)) = Nat.div2 (S k)) as Ht by (by rewrite Hj, Nat.div2_succ_double, Nat.div2_double).
      unfold sys_exec, idle_at, set_lb. simpl in Ht |- *. rewrite Ha, Ht. done.
    + assert (Nat.odd (S k) = true) as [j Hj]%Nat.odd_spec by (by rewrite <- Nat.negb_even, Hk).
      assert (Z.of_nat (Nat.div2 (S (S k))) = Z.of_nat (Nat.div2 (S k)) + 1)%Z as Ht.
      { rewrite Hj. replace (S (2 * j + 1)) with (2 * S j) by lia.
        rewrite Nat.add_1_r, Nat.div2_succ_double, Nat.div2_double. lia. }
      unfold sys_exec, idle_at, set_lb. rewrite Ht. simpl. rewrite Ha. unfold Debounce.exec. simpl. do 3 f_equal. lia.
Qed.

Lemma idle_calm s : calm_from (debounce_run (idle_run s)) 0.
Proof.
  intros k l _; simpl. intros [= <-]. case_decide; [done|]. by destruct (Nat.even k).
Qed.

Lemma idle_fair s : fair (debounce_run (idle_run s)).
Proof.
  split.
  - intros t. exists (2 * Z.to_nat (t - now (lb s))). cbn [debounce_run idle_run sat at_ idle_at set_lb lb now].
    rewrite Nat.div2_double. lia.
  - intros g n. assert (g = GTicker \/ g <> GTicker) as [->|Hg] by (destruct g; auto).
    + exists (2 * S n). split; [lia|]. right. exists (LTick 0). split; [|done].
      cbn [debounce_run idle_run sat sby by_ lb_label idle_by]. unfold idle_by.
      rewrite decide_False by lia. by rewrite Nat.even_mul.
    + exists (S n). split; [lia|]. left. intros (l & s' & Ht & Hs).
      destruct g; try done; destruct l as [| |[]| |[]|? [] []|[] []|[]]; try done; by inversion Hs; simplify_eq/=.
Qed.

(** The actions [acts] from the start, with the update that follows them. *)
Definition idle_after (acts : list sys_action) (s : system) : sys_execution :=
  play parse_text nodeID (b := b) false 1 0 acts (sys_init 0) (idle_run s).

#[local] Abbreviation run_at := (sys_run parse_text nodeID (b := b) false 1 0).

Lemma idle_after_run acts s :
  run_at acts (sys_init 0) = Some s -> updating s ->
  let r := idle_after acts s in
  sat r 0 = sys_init 0 /\ sat r (length acts) = s /\ sys_valid parse_text nodeID (b := b) false 1 0 r /\
  fair (debounce_run r) /\ calm_from (debounce_run r) (length acts).
Proof.
  intros Hr Hu. assert (Hr' : run_at acts (sys_init 0) = Some (sat (idle_run s) 0)) by (by rewrite idle_start).
  split; [by apply play_first|]. split.
  { replace (length acts) with (length acts + 0) by lia.
    destruct (play_at parse_text nodeID (b := b) false 1 0 acts (sys_init 0) (idle_run s) 0 Hr') as [Hs _].
    unfold idle_after. rewrite Hs. by apply idle_start. }
  split; [apply play_valid; [done|by apply idle_valid]|]. split; [|by apply play_calm; [|apply idle_calm]].
  apply (play_tail _ _ _ _ _ (fun r => fair (debounce_run r))); [apply fair_tail|apply idle_fair].
Qed.
End Idle.

Section Witnesses.
Local Existing Instance sorted_range.
Import Cluster.
#[local] Abbreviation nginx_b := (@NginxBackend _ cluster nginx_cfg nginxConfTemplate nginxPlusConfTemplate).
#[local] Abbreviation haproxy_b := (@HAProxyBackend _ haproxy_cluster haproxy_cfg haproxyConfTemplate).

Lemma updated_updating s : updated s -> updating s.
Proof. by intros (? & ? & _). Qed.

Lemma nginx_requests_answered_witness : exists r m,
  answered (W := cluster) (Parse no_other) "node" (b := nginx_b) (@nginx_serves _ cluster nginx_cfg) [ECacheSet "reload"] (sat r m) /\
  sat r 0 = sys_init 0.
Proof.
  destruct nginx_first as (s & Hr & Hu).
  destruct (idle_after_run (W := cluster) (b := nginx_b) _ _ first_update s Hr (updated_updating s Hu)) as (H0 & Hs & Hv & Hf & Hc).
  set (r := idle_after _ _ _ _) in *.
  destruct (nginx_requests_answered (W := cluster) no_other "node" nginx_cfg eq_refl false 1 0
    r (length first_update) (length first_update) [] (tail (hist s))) as (m & _ & Hb).
  - rewrite H0. by exists 0%Z, [].
  - exact Hv.
  - exact Hf.
  - exact Hc.
  - rewrite Hs. apply Hu.
  - exists r, m. split; [exact Hb|exact H0].
Defined.

Lemma haproxy_requests_answered_witness : exists r m,
  answered (W := haproxy_cluster) (Parse no_other) "node" (b := haproxy_b) (@haproxy_serves _ haproxy_cluster haproxy_cfg)
    [ECacheSet "reload"] (sat r m) /\
  sat r 0 = sys_init 0.
Proof.
  destruct haproxy_first as (s & Hr & Hu).
  destruct (idle_after_run (W := haproxy_cluster) (b := haproxy_b) _ _ first_update s Hr (updated_updating s Hu)) as (H0 & Hs & Hv & Hf & Hc).
  set (r := idle_after _ _ _ _) in *.
  destruct (haproxy_requests_answered (W := haproxy_cluster) no_other "node" haproxy_cfg eq_refl false 1 0
    r (length first_update) (length first_update) [] (tail (hist s))) as (m & _ & Hb).
  - rewrite H0. by exists 0%Z, [].
  - exact Hv.
  - exact Hf.
  - exact Hc.
  - rewrite Hs. apply Hu.
  - exists r, m. split; [exact Hb|exact H0].
Defined.
End Witnesses.
