(* ===== verification/EventFair.v ===== *)
(** * From an event to the proxies, in fair runs

    The runs of [System] are runs of [ServerChannels] and of [Debounce]: in a
    fair one without errors of status 500, an event in the hands of a reader
    is handled by the load balancer, and if it asks for an update, its request
    is answered. *)

From S2P Require Import Prelude Progress GoStd Docker Labels Config Network Nginx HAProxy Backends LoadBalancer GoTemplate Templates.
From S2P Require Import EndToEnd Debounce Fair Poller Server ServerChannels ServerFair Hosted System SystemFair.

Section Events.
Context `{MapRange} {W : World}.
Context (parse_text : string -> res (ProxyConfig -> res string)) (nodeID : string).
Context {b : LoadBalancerBackend} (polling : bool) (n p : nat).

#[local] Abbreviation exec_at := (sys_exec parse_text nodeID (b := b) polling n p).

(** The step of [ServerChannels] an action takes. *)
Definition server_step (s : system) (a : sys_action) : option ServerChannels.action :=
  match a with
  | SServer a => Some a
  | SHandle => match (HandleEvent (handling s) (hist s)).1 with Val err => Some (AExt err) | _ => None end
  | _ => None
  end.
Definition server_run (r : sys_execution) : srv_execution := hosted_run server server_step (sat r) (sby r).

(** No goroutine is put off for ever, and time goes on. *)
Definition sys_fair (r : sys_execution) : Prop := fair (debounce_run r) /\ srv_fair polling n (server_run r).

#[local] Arguments Debounce.exec : simpl never.
#[local] Arguments ServerChannels.exec : simpl never.

Lemma exec_server a s s' :
  exec_at a s = Some s' ->
  match server_step s a with
  | Some l => ServerChannels.exec polling n l (server s) = Some (server s')
  | None => server s' = server s
  end.
Proof.
  unfold sys_exec. destruct (alive s); [|done]. destruct a as [a| |l|]; simpl.
  - case_decide; [done|]. intros Ha. by destruct (ServerChannels.exec _ _ _ _); simplify_eq/=.
  - case_decide; [|done]. destruct (HandleEvent _ _) as [[err|w|w] h]; simpl; intros Ha.
    + destruct (ServerChannels.exec _ _ _ _) as [srv|]; [|done]. simpl in Ha.
      by destruct (if existsb _ _ then _ else _); simplify_eq/=.
    + by destruct (if existsb _ _ then _ else _); simplify_eq/=.
    + by destruct (if existsb _ _ then _ else _); simplify_eq/=.
  - case_decide; [|done]. intros Ha. by destruct (Debounce.exec _ _); simplify_eq/=.
  - destruct (instances (lb s) !! 0) as [x|]; [|done]. simpl. intros Ha. by destruct (Debounce.exec _ _); simplify_eq/=.
Qed.

(** The event that is handled stays the same until the next is received. *)
Lemma exec_handling a s s' : exec_at a s = Some s' -> E (server s) <> ERecv -> handling s' = handling s.
Proof.
  unfold sys_exec. destruct (alive s); [|done]. destruct a as [a| |l|].
  - case_decide; [done|]. intros Ha HE. destruct (ServerChannels.exec _ _ _ _) as [srv|] eqn:Hs; [|done]. simplify_eq/=.
    assert (received a s = None) as ->; [|done]. by eapply handed_busy.
  - case_decide; [|done]. destruct (match _ with Val err => _ | _ => _ end) as [srv|]; [|done]. simpl.
    by destruct (if existsb _ _ then _ else _); intros; simplify_eq/=.
  - case_decide; [|done]. by destruct (Debounce.exec _ _); intros; simplify_eq/=.
  - destruct (instances (lb s) !! 0) as [x|]; [|done]. simpl. by destruct (Debounce.exec _ _); intros; simplify_eq/=.
Qed.

(** What is received is the event that waited to be sent. *)
Lemma exec_receives a s s' x o :
  exec_at a s = Some s' -> server_step s a = Some (sends x) -> offer x (server s) = Some o ->
  offered o (handling s') /\ (~ anonymous (handling s') -> E (server s') = EHandle n).
Proof.
  intros Ha Hl Ho. destruct (handed_offered x o (server s) (reply_Now (hist s)) Ho) as (ev & Hr & Hev).
  assert (a = SServer (sends x)) as ->.
  { destruct a as [a| |l|]; try done; simpl in Hl; [congruence|]. destruct x; by case_match. }
  unfold sys_exec in Ha. destruct (alive s); [|done]. case_decide; [done|].
  destruct (ServerChannels.exec _ _ _ _) as [srv|] eqn:Hs; [|done]. simplify_eq/=. unfold received. rewrite Hr. split; [done|]. simpl.
  intros Hanon. exact (handed_received polling n x _ _ (reply_Now (hist s)) ev Hs Hr Hanon).
Qed.

(** The load balancer takes its turn. *)
Lemma exec_turn a s s' l :
  p < n -> exec_at a s = Some s' -> server_step s a = Some l -> event_step l -> E (server s) = EHandle (n - p) -> a = SHandle.
Proof.
  intros Hp Ha Hl Hev HE. pose proof (exec_server _ _ _ Ha) as Hs. rewrite Hl in Hs.
  destruct a as [a'| |l'|]; try done. injection Hl as ->. exfalso.
  unfold sys_exec in Ha. destruct (alive _); [|done]. case_decide as Hx; [done|]. destruct Hx.
  split; [unfold turn; by rewrite HE|]. by eapply turn_ext.
Qed.

Lemma system_host : p < n ->
  Host polling n p (fun a s s' => exec_at a s = Some s') server handling server_step (fun a => a = SHandle).
Proof.
  intros Hp. split; [exact exec_server|exact exec_handling|exact exec_receives|].
  intros a s s' l. by apply exec_turn.
Qed.

(** A process that goes on has not panicked on a nil message. *)
Lemma exec_running a s s' :
  exec_at a s = Some s' -> running (server s) = true -> alive s' = true -> running (server s') = true.
Proof.
  unfold sys_exec. destruct (alive s); [|done]. destruct a as [a| |l|]; simpl.
  - case_decide; [done|]. intros Ha. by destruct (ServerChannels.exec _ _ _ _); simplify_eq/=.
  - case_decide; [|done]. destruct (HandleEvent _ _) as [[err|w|w] h]; simpl; intros Ha.
    + destruct (ServerChannels.exec _ _ _ _) as [srv|] eqn:Hs; [|done]. simpl in Ha.
      destruct (if existsb _ _ then _ else _); simplify_eq/=. intros Hr _. by eapply event_running.
    + by destruct (if existsb _ _ then _ else _); simplify_eq/=.
    + by destruct (if existsb _ _ then _ else _); simplify_eq/=.
  - case_decide; [|done]. intros Ha. by destruct (Debounce.exec _ _); simplify_eq/=.
  - destruct (instances (lb s) !! 0) as [x|]; [|done]. simpl. intros Ha. by destruct (Debounce.exec _ _); simplify_eq/=.
Qed.

Lemma sys_goes_on r t : sat r 0 = sys_init t -> sys_valid parse_text nodeID (b := b) polling n p r -> goes_on (server_run r).
Proof.
  intros Hi Hv k. enough (running (server (sat r k)) = true) as Hr by (simpl; unfold running in Hr; by destruct (E _)).
  induction k as [|k IH]; [by rewrite Hi|]. eapply exec_running; [apply Hv|done|].
  by eapply valid_alive.
Qed.

Section Handled.
Context (r : sys_execution) (Hv : sys_valid parse_text nodeID (b := b) polling n p r).
Context (Hf : srv_fair polling n (server_run r)) (Hu : undisturbed polling (server_run r)).
Context (Hal : goes_on (server_run r)) (Hp : p < n).

(** The event asks for an update, whenever it is handled. *)
Definition asks (ev : etypes.Message) : Prop := forall h, exists new, HandleEvent ev h = (Val None, h ++ new ++ [ECacheSet "reload"]).

(** What the handling of the event adds to the history. *)
Lemma event_asks x o k :
  offer x (server (sat r k)) = Some o -> (forall ev, offered o ev -> ~ anonymous ev /\ asks ev) ->
  exists j new, k <= j /\ offered o (handling (sat r j)) /\ sby r j = SHandle /\
    hist (sat r (S j)) = hist (sat r j) ++ new ++ [ECacheSet "reload"].
Proof.
  intros Hm Ha. pose proof (system_host Hp) as HH.
  destruct (event_handled (HH := HH) (sat r) (sby r) x o k Hv Hf Hu Hal ltac:(lia) Hm) as (j & Hj & Ho & Hs); [intros ev Ho; by apply Ha|].
  destruct (proj2 (Ha _ Ho) (hist (sat r j))) as [new He]. exists j, new. split_and!; try done.
  pose proof (Hv j) as Hx. rewrite Hs in Hx. unfold sys_exec in Hx. destruct (alive _); [|done]. case_decide; [|done].
  rewrite He in Hx. simpl in Hx. destruct (ServerChannels.exec _ _ _ _) as [srv|]; [|done]. simpl in Hx.
  destruct (if existsb _ _ then _ else _) as [d|]; [|done]. simpl in Hx. injection Hx as <-. done.
Qed.
End Handled.
End Events.

(** The events that ask for an update: those the program makes itself, the end
    of a container, and its start and stop if it is exposed. *)
Lemma own_asks `{W : World} o ev :
  o = None \/ o = Some start_message -> offered o ev -> ~ anonymous ev /\ asks ev.
Proof.
  intros [->| ->].
  - intros [t ->]. split; [intros [Hid _]; by apply (Itoa_not_empty t)|]. intros h. by exists [].
  - intros ->. split; [by intros []|]. intros h. by exists [].
Qed.
Lemma destroy_asks `{W : World} ev :
  etypes.Status ev = "destroy" -> etypes.Action ev = "destroy" -> asks ev.
Proof.
  intros Hs Ha h. exists []. rewrite handle_container_event by (rewrite Ha; set_solver). rewrite Hs. done.
Qed.
Lemma exposed_asks `{W : World} ev st :
  st ∈ ["start"; "stop"] -> etypes.Status ev = st -> etypes.Action ev = st ->
  (forall h, exposed (reply_ContainerInspect h (etypes.ID ev)) = Val true) -> asks ev.
Proof.
  intros Hst Hs Ha He h. exists ([EContainerInspect (etypes.ID ev)] ++ (if decide (st = "stop") then [ESleep 250] else [])).
  assert ((st ∉ ["connect"; "disconnect"]) /\ (st ∉ ["interlock-start"; "interlock-restart"; "destroy"])) as [H1 H2].
  { apply elem_of_cons in Hst as [->|Hst]; [|apply list_elem_of_singleton in Hst as ->];
      split; by apply (bool_decide_unpack _). }
  rewrite handle_container_event by (by rewrite Ha).
  rewrite He, Hs, decide_False, decide_True by done. by rewrite <- app_assoc.
Qed.

(** ** The backends *)

Section Theorems.
Context `{MapRange} {W : World}.
Context (other : string -> res (ProxyConfig -> res string)) (nodeID : string) (cfg : ExtensionConfig).
Context (Hpath : TemplatePath cfg = "").
Context (polling : bool) (n p : nat) (Hp : p < n).

(** The load balancer handles the event, and the request it makes is
    answered. *)
Definition event_answered {b : LoadBalancerBackend} parse_text (P : list types.Container -> list event -> string -> Prop)
    (r : sys_execution) (o : option etypes.Message) (k : nat) : Prop :=
  exists j l new, k <= j /\ j < l /\ sby r j = SHandle /\ offered o (handling (sat r j)) /\
    hist (sat r (S j)) = hist (sat r j) ++ new ++ [ECacheSet "reload"] /\
    answered parse_text nodeID P (hist (sat r (S j))) (sat r l).

Lemma run_event_answered {b : LoadBalancerBackend} {Hb : LawfulBackend b} parse_text
    (P : list types.Container -> list event -> string -> Prop) r t k0 x o k :
  (forall cs h1 c h2, GenerateProxyConfig cs h1 = (Val (Ok c), h2) ->
    exists text, P cs h1 text /\
      forall proxies h', SaveConfig parse_text c proxies h' = (Val None, h' ++ map (copy_event text) proxies)) ->
  sat r 0 = sys_init t -> sys_valid parse_text nodeID (b := b) polling n p r ->
  sys_fair polling n r -> polling = true \/ without_500 (server_run r) -> calm_from (debounce_run r) k0 ->
  offer x (server (sat r k)) = Some o -> (forall ev, offered o ev -> ~ anonymous ev /\ asks ev) ->
  event_answered parse_text P r o k.
Proof.
  intros Hgen Hr0 Hv [Hf Hsf] Hd Hc Hm Ha.
  assert (Hu : undisturbed polling (server_run r)) by (apply init_undisturbed; [simpl; by rewrite Hr0|done]).
  destruct (event_asks parse_text nodeID polling n p r Hv Hsf Hu (sys_goes_on parse_text nodeID polling n p r t Hr0 Hv) Hp x o k Hm Ha)
    as (j & new & Hj & Hh & Hs & Hnew).
  assert (Hreq : hist (sat r (S j)) = (hist (sat r j) ++ new) ++ ECacheSet "reload" :: []) by (by rewrite Hnew, <- app_assoc).
  destruct (run_answered nodeID polling n p parse_text P r k0 (S j) (hist (sat r j) ++ new) [] Hgen) as (l & Hl & Hbr);
    [rewrite Hr0; by exists t, []|done|done|done|exact Hreq|].
  exists j, l, new. split_and!; try done. by rewrite Hreq.
Qed.


End Theorems.

(** ** Witnesses *)

Section Witnesses.
Local Existing Instance sorted_range.
Import Cluster.

(** A web server stops, and the proxies are updated again. *)
Definition after_read : list sys_action :=
  [SServer (AReadMsg 0); SHandle; SServer ACount; STimer (LWait 2000); STimer (LTick 0); SReceive].

(** The message is in the hands of the reader, and after the update nobody
    sends. *)
Definition reader_holds (s : system) : Prop := readers (server s) !! 0 = Some (ReadMsg (Some web_stops)).
Definition at_rest (s : system) : Prop := updating s /\ E (server s) = ERecv /\ readers (server s) = [Scan] /\
  R (server s) = RRecv /\ poller (server s) = POff /\ ServerChannels.H (server s) = HRecv.

Section Idle.
Context `{MapRange} {W : World}.
Context (parse_text : string -> res (ProxyConfig -> res string)) (nodeID : string) {b : LoadBalancerBackend} (polling : bool) (n : nat).

Lemma srv_fair_tail : tail_property (fun r => srv_fair polling n (server_run r)).
Proof.
  intros a s r [Hh Hr Hw Hs]. split.
  - intros k. destruct (Hh k) as (j & Hj & Hd). exists (S j). split; [lia|exact Hd].
  - intros x k. destruct (Hr x k) as (j & Hj & [Ht|Hno]); exists (S j); (split; [lia|]); [by left|right].
    intros [|j'] Hj'; [lia|]. apply Hno. lia.
  - intros k. destruct (Hw k) as (j & Hj & Hd). exists (S j). split; [lia|exact Hd].
  - intros k. destruct (Hs k) as (j & Hj & Hd). exists (S j). split; [lia|exact Hd].
Qed.
Lemma idle_srv_fair s : at_rest s -> srv_fair polling n (server_run (idle_run s)).
Proof.
  intros (_ & HE & Hr & HR & Hp & HH). apply (settled_fair polling n _ 0 (server s)); [|done].
  split; [done|]. split; [done|]. intros [[|i]| |]; simpl; by rewrite ?Hr, ?HR, ?Hp.
Qed.

(** No action of the start brings an error. *)
Context (p : nat).
Fixpoint without_error (acts : list sys_action) (s : system) : Prop :=
  match acts with
  | [] => True
  | a :: acts' =>
      match server_step s a with Some l => action_error l = None | None => True end /\
      match sys_exec parse_text nodeID (b := b) polling n p a s with Some s' => without_error acts' s' | None => True end
  end.
Lemma play_without_500 acts s r :
  without_error acts s -> without_500 (server_run r) -> without_500 (server_run (play parse_text nodeID (b := b) polling n p acts s r)).
Proof.
  intros Ha Hr. revert s Ha. induction acts as [|a acts IH]; intros s; simpl; [done|]. intros [Ha Hacts].
  intros [|k] l e Hl He; simpl in Hl.
  - rewrite Hl in Ha. congruence.
  - destruct (sys_exec _ _ _ _ _ a s) as [s'|]; [by apply (IH s' Hacts k l e)|by apply (Hr k l e)].
Qed.
Lemma idle_without_500 s : without_500 (server_run (idle_run s)).
Proof. by intros k l e Hl. Qed.
End Idle.

(** The run that waits after the second update: the reader holds the message
    before it. *)
Section Stop.
Context {W : World} {b : LoadBalancerBackend}.
#[local] Abbreviation run_at := (sys_run (Parse no_other) "node" (b := b) false 1 0).

Definition stop_read : Prop :=
  match run_at then_event (sys_init 0) with
  | Some s1 => match run_at after_read s1 with Some s => reader_holds s1 /\ at_rest s | None => False end
  | None => False
  end /\ without_error (Parse no_other) "node" (b := b) false 1 0 (then_event ++ after_read) (sys_init 0).

Definition stop_end : system := default (sys_init 0) (run_at (then_event ++ after_read) (sys_init 0)).
Definition stop_run : sys_execution := idle_after (Parse no_other) "node" (b := b) (then_event ++ after_read) stop_end.

Lemma stop_run_spec :
  stop_read ->
  sat stop_run 0 = sys_init 0 /\ sys_valid (Parse no_other) "node" (b := b) false 1 0 stop_run /\ sys_fair false 1 stop_run /\
  without_500 (server_run stop_run) /\ calm_from (debounce_run stop_run) (length (then_event ++ after_read)) /\
  offer (Reader 0) (server (sat stop_run (length then_event))) = Some (Some web_stops).
Proof.
  intros [Hr Hw]. destruct (run_at then_event (sys_init 0)) as [s1|] eqn:Hr1; [|done].
  destruct (run_at after_read s1) as [s|] eqn:Hr2; [|done]. destruct Hr as [Hm Hrest].
  assert (Hr : run_at (then_event ++ after_read) (sys_init 0) = Some s) by (by rewrite sys_run_app, Hr1).
  assert (stop_end = s) as Hend by (unfold stop_end; by rewrite Hr).
  unfold stop_run. rewrite Hend.
  destruct (idle_after_run (b := b) _ _ _ s Hr (proj1 Hrest)) as (H0 & _ & Hv & Hf & Hc).
  split; [done|]. split; [done|]. split; [split; [done|]|split; [|split; [done|]]].
  - apply (play_tail _ _ (b := b) _ _ _ (fun r => srv_fair false 1 (server_run r))); [apply srv_fair_tail|by apply idle_srv_fair].
  - apply (play_without_500 _ _ (b := b)); [done|apply idle_without_500].
  - assert (sat (idle_after (Parse no_other) "node" (b := b) (then_event ++ after_read) s) (length then_event) = s1) as ->.
    { apply (play_during _ _ (b := b)); [done|]. by rewrite (idle_start s (proj1 Hrest)). }
    unfold reader_holds in Hm. simpl. by rewrite Hm.
Qed.
End Stop.

#[local] Abbreviation nginx_b := (@NginxBackend _ cluster nginx_cfg nginxConfTemplate nginxPlusConfTemplate).
#[local] Abbreviation haproxy_b := (@HAProxyBackend _ haproxy_cluster haproxy_cfg haproxyConfTemplate).

Lemma nginx_stop_read : stop_read (W := cluster) (b := nginx_b).
Proof. vm_compute. repeat split. Qed.
Lemma haproxy_stop_read : stop_read (W := haproxy_cluster) (b := haproxy_b).
Proof. vm_compute. repeat split. Qed.

Lemma stop_asks {W : World} o :
  (forall h, exposed (reply_ContainerInspect h "aaaaaaaaaaaa") = Val true) -> o = Some web_stops ->
  forall ev, offered o ev -> ~ anonymous ev /\ asks ev.
Proof.
  intros He -> ev ->. split; [by intros []|]. apply (exposed_asks web_stops "stop"); [by apply (bool_decide_unpack _)|done..].
Qed.


End Witnesses.
