(* ===== verification/BeaconSystem.v ===== *)
(** * The program with a beacon

    The goroutines of the server ([ServerChannels]), what the beacon does with
    an event and its ticker ([Beacon], [Collect]), composed into one executable
    transition system: from an event read from the daemon to the gauges.  The
    goroutines of a collection make their interactions one at a time, between
    those of the others; the handling of an event is one step. *)

From S2P Require Import Prelude GoStd GoTime Docker Config NodeID Beacon Collect Server ServerChannels ServerFair Hosted.

#[export] Instance float_eq_dec : EqDecision Float64.t.
Proof. change (EqDecision SpecFloat.spec_float). solve_decision. Defined.
#[export] Instance error_eq_dec : EqDecision error.
Proof. solve_decision. Defined.
#[export] Instance value_eq_dec : EqDecision influx.value.
Proof. solve_decision. Defined.
#[export] Instance point_eq_dec : EqDecision influx.Point.
Proof. solve_decision. Defined.
#[export] Instance message_eq_dec : EqDecision etypes.Message.
Proof. solve_decision. Defined.
#[export] Instance event_eq_dec : EqDecision event.
Proof. solve_decision. Defined.
#[export] Instance outcome_eq_dec {A} `{EqDecision A} : EqDecision (outcome A).
Proof. solve_decision. Defined.

(** ** States and actions *)

(** A collection that has begun: the history before it, the identifiers with
    the order in which each goroutine ranges over maps, and the interactions
    since, of which those of the event handler have the number after the last
    goroutine. *)
Record collection := {
  c_from : list event;
  c_tasks : list (string * MapRange);
  c_trace : schedule;
}.
Definition c_ids (c : collection) : list string := (c_tasks c).*1.
Definition extend (i : nat) (l : list event) (c : collection) : collection :=
  {| c_from := c_from c; c_tasks := c_tasks c; c_trace := c_trace c ++ map (pair i) l |}.

(** The keys the ticker ranges over. *)
Definition monitored_ids (b : Beacon) : list string := elements (dom (monitored b) : gset string).

Record bsystem := {
  bserver : ServerChannels.state;
  bhandling : etypes.Message;     (* the event received last *)
  bb : Beacon;
  bhist : list event;             (* the interactions of the beacon *)
  bcollect : option collection;
}.

Inductive baction :=
| BServer (a : ServerChannels.action)
| BHandle                                      (* the beacon handles the event *)
| BTick (tasks : list (string * MapRange))     (* the ticker starts a collection *)
| BEmit (i : nat)                              (* the next interaction of a goroutine *)
| BDone.                                       (* the goroutines have ended; the push *)

Section System.
Context {W : World}.
Context (elsewhere : string -> option (string -> bool)) (NewPoint : influx.Point -> option error).
Context (Unmarshal : option types.StatsJSON -> string -> res (option types.StatsJSON)) (containerID : string).
(** Whether the server polls, the number of its extensions, and the place of
    the beacon. *)
Context (polling : bool) (n p : nat).

Definition bturn (s : bsystem) : Prop := match E (bserver s) with EHandle k => k = n - p | _ => False end.
#[export] Instance bturn_dec s : Decision (bturn s).
Proof. unfold bturn. destruct (E (bserver s)); apply _. Defined.

(** The next interaction of goroutine [i]. *)
Definition next_event (s : bsystem) (c : collection) (i : nat) : option event :=
  '(id, R) ← c_tasks c !! i;
  drop (length (c_from c)) (@collect R (view W (c_from c) (c_trace c) i) elsewhere NewPoint Unmarshal (bb s) id (c_from c)).2
    !! length (own i (c_trace c)).

Definition finished (s : bsystem) (c : collection) : Prop :=
  Forall (fun x => collected elsewhere NewPoint Unmarshal x.2.2 (bb s) (c_from c) (c_trace c) x.1 x.2.1) (imap pair (c_tasks c)).
#[export] Instance finished_dec s c : Decision (finished s c).
Proof. unfold finished, collected. apply _. Defined.

Definition bexec (a : baction) (s : bsystem) : option bsystem :=
  if running (bserver s) then
  match a with
  | BServer a =>
      if decide (bturn s /\ is_ext a) then None
      else srv ← ServerChannels.exec polling n a (bserver s);
           Some {| bserver := srv; bhandling := default (bhandling s) (handed a (bserver s) (reply_Now (bhist s)));
                   bb := bb s; bhist := bhist s; bcollect := bcollect s |}
  | BHandle =>
      if decide (bturn s) then
        match HandleEvent (bb s) (bhandling s) (bhist s) with
        | (Val (b', err), h') =>
            srv ← ServerChannels.exec polling n (AExt err) (bserver s);
            Some {| bserver := srv; bhandling := bhandling s; bb := b'; bhist := h';
                    bcollect := (fun c => extend (length (c_tasks c)) (drop (length (bhist s)) h') c) <$> bcollect s |}
        | _ => None
        end
      else None
  | BTick tasks =>
      match bcollect s with
      | None =>
          if decide (tasks.*1 ≡ₚ monitored_ids (bb s)) then
            Some {| bserver := bserver s; bhandling := bhandling s; bb := bb s; bhist := bhist s;
                    bcollect := Some {| c_from := bhist s; c_tasks := tasks; c_trace := [] |} |}
          else None
      | Some _ => None
      end
  | BEmit i =>
      c ← bcollect s;
      e ← next_event s c i;
      Some {| bserver := bserver s; bhandling := bhandling s; bb := bb s; bhist := bhist s ++ [e];
              bcollect := Some (extend i [e] c) |}
  | BDone =>
      c ← bcollect s;
      if decide (finished s c) then
        match push_gateway (bb s) containerID (bhist s) with
        | (Val _, h') => Some {| bserver := bserver s; bhandling := bhandling s; bb := bb s; bhist := h'; bcollect := None |}
        | _ => None
        end
      else None
  end
  else None.

Definition binit (b : Beacon) : bsystem :=
  {| bserver := ServerChannels.init; bhandling := start_message; bb := b; bhist := []; bcollect := None |}.

Fixpoint brun (acts : list baction) (s : bsystem) : option bsystem :=
  match acts with
  | [] => Some s
  | a :: acts' => s' ← bexec a s; brun acts' s'
  end.

#[local] Arguments ServerChannels.exec : simpl never.

(** ** The beacon is notified *)

(** The step of the server an action takes. *)
Definition blab (s : bsystem) (a : baction) : option ServerChannels.action :=
  match a with
  | BServer a => Some a
  | BHandle => match HandleEvent (bb s) (bhandling s) (bhist s) with (Val (_, err), _) => Some (AExt err) | _ => None end
  | _ => None
  end.

(** The steps of the ticker and its goroutines leave the rest as it is. *)
Definition of_ticker (a : baction) : Prop := match a with BServer _ | BHandle => False | _ => True end.
Lemma bexec_ticker a s s' :
  bexec a s = Some s' -> of_ticker a -> bserver s' = bserver s /\ bhandling s' = bhandling s /\ bb s' = bb s.
Proof.
  intros Ha Ht. unfold bexec in Ha. destruct (running (bserver s)); [|done].
  destruct a as [a| |tasks|i|]; try done; destruct (bcollect s) as [c|]; try done; simpl in Ha.
  - case_decide; [|done]. by injection Ha as <-.
  - destruct (next_event _ _ _); [|done]. by injection Ha as <-.
  - case_decide; [|done]. destruct (push_gateway _ _ _) as [[|w|w] h']; [|done..]. by injection Ha as <-.
Qed.

(** Leaves the steps of the server and the handling of an event. *)
Ltac by_action a Ha :=
  destruct a as [a| |tasks|i|]; [| |by destruct (bexec_ticker _ _ _ Ha I) as (H1 & H2 & H3); simpl; rewrite ?H1, ?H2, ?H3..];
  revert Ha; unfold bexec; destruct (running (bserver _)); [|done| |done]; simpl.

Lemma bexec_server a s s' :
  bexec a s = Some s' ->
  match blab s a with
  | Some l => ServerChannels.exec polling n l (bserver s) = Some (bserver s')
  | None => bserver s' = bserver s
  end.
Proof.
  intros Ha. by_action a Ha.
  - case_decide; [done|]. intros Ha. by destruct (ServerChannels.exec _ _ _ _); simplify_eq/=.
  - case_decide; [|done]. destruct (HandleEvent _ _ _) as [[[b' err]|w|w] h']; [|done..]. intros Ha.
    by destruct (ServerChannels.exec _ _ _ _); simplify_eq/=.
Qed.

Lemma bexec_handling a s s' : bexec a s = Some s' -> E (bserver s) <> ERecv -> bhandling s' = bhandling s.
Proof.
  intros Ha. by_action a Ha.
  - case_decide; [done|]. intros Ha HE. destruct (ServerChannels.exec _ _ _ _) as [srv|] eqn:Hs; [|done]. simplify_eq/=.
    by rewrite (handed_busy _ _ _ _ _ _ Hs HE).
  - case_decide; [|done]. destruct (HandleEvent _ _ _) as [[[b' err]|w|w] h']; [|done..]. intros Ha _.
    by destruct (ServerChannels.exec _ _ _ _); simplify_eq/=.
Qed.

Lemma bexec_receives a s s' x o :
  bexec a s = Some s' -> blab s a = Some (sends x) -> offer x (bserver s) = Some o ->
  offered o (bhandling s') /\ (~ anonymous (bhandling s') -> E (bserver s') = EHandle n).
Proof.
  intros Ha Hl Ho. destruct (handed_offered x o (bserver s) (reply_Now (bhist s)) Ho) as (ev & Hr & Hev).
  assert (a = BServer (sends x)) as ->.
  { destruct a as [a| |tasks|i|]; try done; simpl in Hl; [congruence|].
    destruct (HandleEvent _ _ _) as [[[b' err]|w|w] h']; [|done..]. by destruct x. }
  unfold bexec in Ha. destruct (running (bserver s)); [|done].
  case_decide; [done|]. destruct (ServerChannels.exec _ _ _ _) as [srv|] eqn:Hs; [|done]. simplify_eq/=.
  rewrite Hr. split; [done|]. intros Hanon. exact (handed_received polling n x _ _ (reply_Now (bhist s)) ev Hs Hr Hanon).
Qed.

Lemma beacon_host : p < n ->
  Host polling n p (fun a s s' => bexec a s = Some s') bserver bhandling blab (fun a => a = BHandle).
Proof.
  intros Hp. split; [exact bexec_server|exact bexec_handling|exact bexec_receives|].
  intros a s s' l Ha Hl Hev HE. pose proof (bexec_server _ _ _ Ha) as Hs. rewrite Hl in Hs.
  destruct a as [a'| |tasks|i|]; try done. injection Hl as ->. exfalso. unfold bexec in Ha. destruct (running (bserver s)); [|done]. case_decide as Hx; [done|].
  destruct Hx. split; [unfold bturn; by rewrite HE|]. by eapply turn_ext.
Qed.

(** ** What the steps keep *)

(** The events that end a container, and reset the gauges. *)
Definition ends (ev : etypes.Message) : Prop := etypes.Status ev ∈ ["kill"; "die"; "stop"; "destroy"].

Lemma handle_keeps b ev h :
  exists b' err new, HandleEvent b ev h = (Val (b', err), h ++ new) /\ cfg b' = cfg b /\
    (~ ends ev -> Forall no_gauge new) /\
    (forall id, is_Some (monitored b !! id) -> ~ (ends ev /\ etypes.ID ev = id) -> is_Some (monitored b' !! id)) /\
    (etypes.Status ev = "start" -> is_Some (monitored b' !! etypes.ID ev)).
Proof.
  unfold HandleEvent, ends.
  destruct (decide (etypes.Status ev = "interlock-start")) as [Hs|Hs].
  - rewrite bind_at. unfold ContainerList, call. destruct (reply_ContainerList h false) as [cs|e].
    + eexists _, _, [_]. split; [reflexivity|]. split; [done|]. split; [by repeat constructor|]. split.
      * intros id Hid _. simpl. generalize dependent (monitored b). induction cs as [|c cs IH]; intros m Hm; [done|]. simpl. apply IH.
        destruct (decide (types.c_ID c = id)) as [->|]; [rewrite lookup_insert_eq; by eexists|by rewrite lookup_insert_ne].
      * by rewrite Hs.
    + eexists _, _, [_]. split; [reflexivity|]. split; [done|]. split; [by repeat constructor|]. split; [done|by rewrite Hs].
  - destruct (decide (etypes.Status ev = "start")) as [Ht|Ht].
    + eexists _, _, []. rewrite app_nil_r. split; [reflexivity|]. split; [done|]. split; [constructor|]. split.
      * intros id Hid _. simpl. destruct (decide (etypes.ID ev = id)) as [->|]; [rewrite lookup_insert_eq; by eexists|by rewrite lookup_insert_ne].
      * intros _. simpl. rewrite lookup_insert_eq. by eexists.
    + case_decide as He.
      * rewrite bind_at, resetStats_at. eexists _, _, _. split; [reflexivity|]. split; [done|]. split; [done|]. split; [|done].
        intros id Hid Hne. simpl. rewrite lookup_delete_ne; [done|]. intros Heq. by apply Hne.
      * eexists _, _, []. rewrite app_nil_r. split; [reflexivity|]. split; [done|]. split; [constructor|]. by split.
Qed.

Lemma push_keeps b h : exists new, push_gateway b containerID h = (Val tt, h ++ new) /\ Forall no_gauge new.
Proof.
  unfold push_gateway. case_decide.
  - rewrite bind_at. unfold Push, call. eexists [_]. split; [reflexivity|]. by repeat constructor.
  - exists []. by rewrite app_nil_r.
Qed.

Lemma bexec_cfg a s s' : bexec a s = Some s' -> cfg (bb s') = cfg (bb s).
Proof.
  intros Ha. by_action a Ha.
  - case_decide; [done|]. intros Ha. by destruct (ServerChannels.exec _ _ _ _); simplify_eq/=.
  - case_decide; [|done]. destruct (handle_keeps (bb s) (bhandling s) (bhist s)) as (b' & err & new & -> & Hc & _). intros Ha.
    by destruct (ServerChannels.exec _ _ _ _); simplify_eq/=.
Qed.

(** A container that is monitored stays so, but for its end. *)
Lemma bexec_monitored a s s' id :
  bexec a s = Some s' -> is_Some (monitored (bb s) !! id) ->
  (a = BHandle -> ~ (ends (bhandling s) /\ etypes.ID (bhandling s) = id)) -> is_Some (monitored (bb s') !! id).
Proof.
  intros Ha. by_action a Ha.
  - case_decide; [done|]. intros Ha. by destruct (ServerChannels.exec _ _ _ _); simplify_eq/=.
  - case_decide; [|done]. destruct (handle_keeps (bb s) (bhandling s) (bhist s)) as (b' & err & new & -> & _ & _ & Hm & _). intros Ha Hid Hne.
    destruct (ServerChannels.exec _ _ _ _); simplify_eq/=. by apply Hm, Hne.
Qed.

(** A collection goes on, if no container ends meanwhile. *)
Definition going (s : bsystem) (c : collection) : Prop :=
  bcollect s = Some c /\ bhist s = c_from c ++ map snd (c_trace c) /\ others_quiet (c_ids c) (c_trace c).

Lemma extend_going s c i l :
  bcollect s = Some c -> bhist s = c_from c ++ map snd (c_trace c) -> others_quiet (c_ids c) (c_trace c) ->
  i < length (c_tasks c) \/ Forall no_gauge l ->
  bhist s ++ l = c_from c ++ map snd (c_trace (extend i l c)) /\ others_quiet (c_ids c) (c_trace (extend i l c)).
Proof.
  intros _ -> Ho Hl. simpl. rewrite map_app, map_map, <- app_assoc. simpl. rewrite map_id. split; [done|].
  apply Forall_app. split; [done|]. apply Forall_map, Forall_forall. intros e He. simpl. unfold c_ids. rewrite length_fmap.
  destruct Hl as [?|Hq]; [by left|right]. rewrite Forall_forall in Hq. by apply Hq.
Qed.

Lemma bexec_going a s s' c :
  bexec a s = Some s' -> going s c -> (a = BHandle -> ~ ends (bhandling s)) ->
  a = BDone \/ exists c', going s' c' /\ c_tasks c' = c_tasks c.
Proof.
  intros Ha (Hc & Hh & Ho) Hne. unfold bexec in Ha. destruct (running (bserver s)); [|done].
  destruct a as [a| |tasks|i|]; rewrite ?Hc in Ha; [right..|by left].
  - case_decide; [done|]. destruct (ServerChannels.exec _ _ _ _); simplify_eq/=. by exists c.
  - case_decide; [|done]. destruct (handle_keeps (bb s) (bhandling s) (bhist s)) as (b' & err & new & Heq & _ & Hq & _).
    rewrite Heq in Ha. destruct (ServerChannels.exec _ _ _ _); simplify_eq/=. rewrite drop_app_length.
    exists (extend (length (c_tasks c)) new c). split; [|done]. split; [done|].
    apply (extend_going s c); [done..|]. right. by apply Hq, Hne.
  - done.
  - simpl in Ha. destruct (next_event s c i) as [e|] eqn:He; [|done]. simplify_eq/=.
    exists (extend i [e] c). split; [|done]. split; [done|]. apply (extend_going s c); [done..|]. left.
    unfold next_event in He. destruct (c_tasks c !! i) as [[id R]|] eqn:Hi; [|done]. by apply lookup_lt_Some in Hi.
Qed.
End System.
