(* ===== verification/BeaconFair.v ===== *)
(** * From an event to the gauges, in fair runs

    In the fair runs of [BeaconSystem], the start of a container is handled by
    the beacon, and every collection that begins later publishes what the
    daemon says of the container. *)

From S2P Require Import Prelude Progress GoStd GoTime GoJson Docker Config NodeID Beacon Collect Decode Published.
From S2P Require Import Server ServerChannels ServerFair Hosted BeaconSystem.

#[local] Arguments ServerChannels.exec : simpl never.

(** The states of a run, and the step after each, if there is one. *)
Record bexecution := {
  bat : nat -> bsystem;
  bby : nat -> option baction;
}.

Section Fair.
Context {W : World}.
Context (elsewhere : string -> option (string -> bool)) (NewPoint : influx.Point -> option error).
Context (time_ok : json -> bool) (json_error : string -> error) (containerID : string).
Context (polling : bool) (n p : nat).
#[local] Abbreviation Unmarshal := (UnmarshalStats time_ok json_error).
#[local] Abbreviation exec_at := (bexec elsewhere NewPoint Unmarshal containerID polling n p).

Definition bvalid (r : bexecution) : Prop := forall k,
  match bby r k with Some a => exec_at a (bat r k) = Some (bat r (S k)) | None => bat r (S k) = bat r k end.

(** A step of the program, or none. *)
Definition bstep (a : option baction) (s s' : bsystem) : Prop :=
  match a with Some a => exec_at a s = Some s' | None => s' = s end.
Definition blabel (s : bsystem) (a : option baction) : option action := a ≫= blab s.
Definition bserver_run (r : bexecution) : srv_execution := hosted_run bserver blabel (bat r) (bby r).

Lemma bstep_host : p < n -> Host polling n p bstep bserver bhandling blabel (fun a => a = Some BHandle).
Proof.
  intros Hp. destruct (beacon_host elsewhere NewPoint Unmarshal containerID polling n p Hp) as [H1 H2 H3 H4].
  split; intros [a|] s s'; simpl; try (by intros ->); try (by intros; subst).
  - apply H1.
  - apply H2.
  - apply H3.
  - intros l Ha Hl Hev HE. f_equal. by eapply H4.
Qed.

(** ** One collection *)

(** Other interactions leave the gauges as they are. *)
Lemma published_app id name config s h new : Forall no_gauge new -> published id name config s h -> published id name config s (h ++ new).
Proof.
  intros Hq (stat & Hst & Hr). exists stat. split; [done|]. intros g labels v Hin Hl.
  unfold gauge. rewrite fold_left_app, fold_no_gauge by done. by apply Hr.
Qed.

Section Run.
Context (r : bexecution) (Hv : bvalid r).

Lemma run_cfg k : cfg (bb (bat r k)) = cfg (bb (bat r 0)).
Proof.
  induction k as [|k IH]; [done|]. rewrite <- IH. specialize (Hv k). destruct (bby r k) as [a|]; [|by rewrite Hv].
  by eapply bexec_cfg.
Qed.

(** No event that is handled from [k] to [m] ends the container; none ends
    any. *)
Definition not_ended (id : string) (k m : nat) : Prop :=
  forall j, k <= j -> j < m -> bby r j = Some BHandle -> ~ (ends (bhandling (bat r j)) /\ etypes.ID (bhandling (bat r j)) = id).
Definition none_ends (k m : nat) : Prop :=
  forall j, k <= j -> j < m -> bby r j = Some BHandle -> ~ ends (bhandling (bat r j)).

Lemma run_monitored id k m :
  k <= m -> not_ended id k m -> is_Some (monitored (bb (bat r k)) !! id) -> is_Some (monitored (bb (bat r m)) !! id).
Proof.
  intros Hm Hne Hid. induction Hm as [|m Hm IH]; [done|]. pose proof (Hv m) as Hvm.
  assert (Hid' : is_Some (monitored (bb (bat r m)) !! id)) by (apply IH; intros j Hj Hjm; apply Hne; lia).
  destruct (bby r m) as [a|] eqn:Ha; [|by rewrite Hvm]. eapply bexec_monitored; [exact Hvm|done|]. intros ->. apply Hne; [lia..|done].
Qed.

(** A collection begins at [t], and ends at [d]. *)
Definition collects (t d : nat) (tasks : list (string * MapRange)) : Prop :=
  t < d /\ bby r t = Some (BTick tasks) /\ bby r d = Some BDone /\ forall m, t < m -> m < d -> bby r m <> Some BDone.

Lemma run_going t d tasks m :
  collects t d tasks -> none_ends t d -> t < m -> m <= d -> exists c, going (bat r m) c /\ c_tasks c = tasks.
Proof.
  intros (Htd & Ht & Hd & Hno) Hne Hm. induction Hm as [|m Hm IH]; intros Hmd.
  - pose proof (Hv t) as Hvt. rewrite Ht in Hvt. unfold bexec in Hvt. destruct (running _); [|done].
    destruct (bcollect (bat r t)); [done|]. case_decide; [|done].
    injection Hvt as Hs. rewrite <- Hs. eexists. split; [split; [reflexivity|]|reflexivity]. simpl. rewrite app_nil_r. split; [done|constructor].
  - destruct IH as (c & Hg & Hc); [lia|]. pose proof (Hv m) as Hvm. destruct (bby r m) as [a|] eqn:Ha; [|by rewrite Hvm; exists c].
    destruct (bexec_going _ _ _ _ _ _ _ _ _ _ c Hvm Hg) as [->|(c' & Hg' & Hc')].
    + intros ->. apply Hne; [lia..|done].
    + by destruct (Hno m).
    + exists c'. split; [done|congruence].
Qed.

Context (id name read : string) (config : ctypes.Config) (percpu : list Z) (system : Z) (s : types.StatsJSON).
(** What the daemon says of the container, and the rules. *)
Context (Hprom : StatsBackendType (cfg (bb (bat r 0))) = "prometheus") (Hsel : selected elsewhere (bb (bat r 0)) config).
Context (Hr : utf8 read) (Ht : time_ok (JStr read) = true) (Hp : Forall uint64 percpu) (Hsys : uint64 system) (Hs : uint64_stats s).
Context (Hlen : (Z.of_nat (String.length (print (stats_json read percpu system s))) < 65536)%Z).
Context (Ha : answers id name config (print (stats_json read percpu system s))).

Lemma selected_cfg b b' : cfg b = cfg b' -> selected elsewhere b config -> selected elsewhere b' config.
Proof. unfold selected, image_rule. by intros ->. Qed.

(** A collection publishes the statistics of a container that was monitored
    when it began, if twelve characters told the containers apart. *)
Lemma collection_publishes t d tasks :
  collects t d tasks -> none_ends t d -> NoDup (map short (monitored_ids (bb (bat r t)))) ->
  is_Some (monitored (bb (bat r t)) !! id) -> published id name config s (bhist (bat r (S d))).
Proof.
  intros Hc Hne Hids Hid. destruct (run_going t d tasks d Hc Hne) as (c & (Hcoll & Hh & Ho) & Htasks); [apply Hc|done|].
  destruct Hc as (Htd & Hbt & Hbd & _).
  assert (Hperm : tasks.*1 ≡ₚ monitored_ids (bb (bat r t))).
  { pose proof (Hv t) as Hvt. rewrite Hbt in Hvt. unfold bexec in Hvt. destruct (running _); [|done].
    destruct (bcollect (bat r t)); [done|]. by case_decide. }
  pose proof (Hv d) as Hvd. rewrite Hbd in Hvd. unfold bexec in Hvd. destruct (running _); [|done].
  rewrite Hcoll in Hvd. simpl in Hvd. case_decide as Hf; [|done]. destruct (push_keeps containerID (bb (bat r d)) (bhist (bat r d))) as (new & Hpush & Hq).
  rewrite Hpush in Hvd. injection Hvd as Hsd. rewrite <- Hsd. simpl. apply published_app; [done|]. rewrite Hh.
  assert (Hin : id ∈ c_ids c).
  { unfold c_ids, monitored_ids in *. rewrite Htasks, Hperm. by apply elem_of_elements, elem_of_dom. }
  apply list_elem_of_lookup in Hin as [i Hi].
  apply (goroutines_publish elsewhere NewPoint time_ok json_error (bb (bat r d)) (c_from c) (c_ids c) (c_trace c) i id name config
    read percpu system s); try done.
  - by rewrite run_cfg.
  - intros i' id' Hi'. unfold c_ids in Hi'. rewrite list_lookup_fmap in Hi'.
    destruct (c_tasks c !! i') as [[id1 R]|] eqn:Htk; [|done]. injection Hi' as ->. exists R.
    unfold finished in Hf. rewrite Forall_forall in Hf. apply (Hf (i', (id', R))).
    apply list_elem_of_lookup. exists i'. by rewrite list_lookup_imap, Htk.
  - unfold c_ids. rewrite Htasks, Hperm. apply Hids.
  - eapply selected_cfg; [|exact Hsel]. symmetry. by apply run_cfg.
Qed.
End Run.

(** C9: The start of a container reaches the gauges: in every infinite fair run
    of the program with a beacon for prometheus whose rules select the image of
    the container, of a server that polls or without errors of status 500 and
    lines [null], an event that tells the start of the container and that
    waits to be sent is handled by the beacon; and every later collection
    leaves in the gauges the numbers of the statistics of the container, if no
    event that ended it was handled between the two, none that ends any
    container is handled during the collection, and twelve characters told the
    monitored containers apart when it began.  The daemon answers every
    inspection of the container and every request for its statistics with the
    same text, which is valid UTF-8 and shorter than 64 KiB, and whose counters
    fit in 64 bits. *)
Theorem started_published r b0 x ev k id name read config percpu system s :
  bat r 0 = binit b0 -> bvalid r -> srv_fair polling n (bserver_run r) ->
  polling = true \/ (without_500 (bserver_run r) /\ without_null (bserver_run r)) -> p < n ->
  StatsBackendType (cfg b0) = "prometheus" -> selected elsewhere b0 config ->
  utf8 read -> time_ok (JStr read) = true -> Forall uint64 percpu -> uint64 system -> uint64_stats s ->
  (Z.of_nat (String.length (print (stats_json read percpu system s))) < 65536)%Z ->
  answers id name config (print (stats_json read percpu system s)) ->
  offer x (bserver (bat r k)) = Some (Some ev) -> etypes.Status ev = "start" -> etypes.ID ev = id -> id <> "" ->
  exists j, k <= j /\ bby r j = Some BHandle /\ bhandling (bat r j) = ev /\
    forall t d tasks, j < t -> collects r t d tasks -> not_ended r id (S j) t -> none_ends r t d ->
      NoDup (map short (monitored_ids (bb (bat r t)))) -> published id name config s (bhist (bat r (S d))).
Proof.
  intros H0 Hv Hf Hd Hp Hprom Hsel Hr Ht Hpc Hsys Hs Hlen Ha Ho Hst Hid Hne.
  assert (Hi : srv_at (bserver_run r) 0 = ServerChannels.init) by (simpl; by rewrite H0).
  pose proof (bstep_host Hp) as HH.
  assert (Hu : undisturbed polling (bserver_run r)) by (apply init_undisturbed; tauto).
  assert (Hal : goes_on (bserver_run r)).
  { eapply (run_goes_on polling n); [done| |tauto]. exact (hosted_valid (HH := HH) (bat r) (bby r) Hv). }
  destruct (event_handled (HH := HH) (bat r) (bby r) x (Some ev) k) as (j & Hj & Hev & Hb); try done; try lia.
  { intros ev' ->. intros [Hid' _]. congruence. }
  exists j. split; [done|]. split; [done|]. split; [done|]. intros t d tasks Hjt Hc Hnot Hend Hids.
  eapply (collection_publishes r Hv id name read config percpu system s); try done; [by rewrite H0..|].
  apply (run_monitored r Hv id (S j)); [lia|done|].
  pose proof (Hv j) as Hvj. rewrite Hb in Hvj. unfold bexec in Hvj. destruct (running _); [|done]. case_decide; [|done].
  destruct (handle_keeps (bb (bat r j)) (bhandling (bat r j)) (bhist (bat r j))) as (b' & err & new & Heq & _ & _ & _ & Hm).
  rewrite Heq in Hvj. destruct (ServerChannels.exec _ _ _ _); [|done]. injection Hvj as Hsj. rewrite <- Hsj. simpl.
  rewrite Hev in Hm. rewrite <- Hid. by apply Hm.
Qed.
End Fair.

(** ** Witness *)

(** A run of some actions, after which nothing happens; while they run, twelve
    characters tell the containers apart, no container ends and no action
    brings an error. *)
Section Finite.
Context {W : World}.
Context (elsewhere : string -> option (string -> bool)) (NewPoint : influx.Point -> option error).
Context (time_ok : json -> bool) (json_error : string -> error) (containerID : string).
Context (polling : bool) (n p : nat).
#[local] Abbreviation exec_at := (bexec elsewhere NewPoint (UnmarshalStats time_ok json_error) containerID polling n p).
#[local] Abbreviation run_at := (brun elsewhere NewPoint (UnmarshalStats time_ok json_error) containerID polling n p).

Lemma brun_app acts1 acts2 s : run_at (acts1 ++ acts2) s = (s' ← run_at acts1 s; run_at acts2 s').
Proof. revert s. induction acts1 as [|a acts1 IH]; intros s; [done|]. simpl. by destruct (exec_at a s); simpl. Qed.

Definition good (s : bsystem) : bool :=
  bool_decide (NoDup (map short (monitored_ids (bb s)))) && bool_decide (~ ends (bhandling s)).
Definition harmless (s : bsystem) (a : baction) : bool :=
  match blab s a with Some l => bool_decide (action_error l = None) && bool_decide (~ null_line l) | None => true end.
Fixpoint checked_run (acts : list baction) (s : bsystem) : option bsystem :=
  if good s then
    match acts with
    | [] => Some s
    | a :: acts' => if harmless s a then s' ← exec_at a s; checked_run acts' s' else None
    end
  else None.

Lemma checked_good acts s s' : checked_run acts s = Some s' -> good s = true.
Proof. destruct acts; simpl; by destruct (good s). Qed.

Lemma checked_run_app acts s s' k :
  checked_run acts s = Some s' -> exists s1, run_at (take k acts) s = Some s1 /\ checked_run (drop k acts) s1 = Some s'.
Proof.
  revert s k. induction acts as [|a acts IH]; intros s k Hc; [exists s; by destruct k|]. destruct k as [|k]; [by exists s|].
  pose proof (checked_good _ _ _ Hc) as Hg. cbn [checked_run] in Hc. rewrite Hg in Hc.
  destruct (harmless s a); [|done]. simpl. destruct (exec_at a s) as [s1|]; [|done]. simpl in *. by apply IH.
Qed.

Definition finite (acts : list baction) (s : bsystem) : bexecution := {|
  bat k := default s (run_at (take k acts) s);
  bby k := acts !! k;
|}.

Lemma checked_at acts s s' k :
  checked_run acts s = Some s' -> exists s1, bat (finite acts s) k = s1 /\ checked_run (drop k acts) s1 = Some s'.
Proof. intros Hc. destruct (checked_run_app acts s s' k Hc) as (s1 & Hr & Hd). exists s1. simpl. by rewrite Hr. Qed.

Lemma checked_valid acts s s' :
  checked_run acts s = Some s' -> bvalid elsewhere NewPoint time_ok json_error containerID polling n p (finite acts s).
Proof.
  intros Hc k. destruct (checked_run_app acts s s' k Hc) as (s1 & Hr & Hd). simpl. rewrite Hr. simpl.
  destruct (acts !! k) as [a|] eqn:Ha.
  - rewrite (drop_S _ _ _ Ha) in Hd. pose proof (checked_good _ _ _ Hd) as Hg. cbn [checked_run] in Hd. rewrite Hg in Hd.
    destruct (harmless s1 a); [|done]. erewrite take_S_r by done. rewrite brun_app, Hr. simpl. by destruct (exec_at a s1).
  - apply lookup_ge_None in Ha. rewrite take_ge in * by lia. by rewrite Hr.
Qed.

Lemma checked_states_good acts s s' k :
  checked_run acts s = Some s' ->
  NoDup (map short (monitored_ids (bb (bat (finite acts s) k)))) /\ ~ ends (bhandling (bat (finite acts s) k)).
Proof.
  intros Hc. destruct (checked_at acts s s' k Hc) as (s1 & -> & Hd). apply checked_good in Hd. unfold good in Hd.
  apply andb_true_iff in Hd as [H1%bool_decide_eq_true H2%bool_decide_eq_true]. done.
Qed.

Lemma checked_without_500 acts s s' : checked_run acts s = Some s' -> without_500 (bserver_run (finite acts s)).
Proof.
  intros Hc k l e Hl He. simpl in Hl. destruct (checked_run_app acts s s' k Hc) as (s1 & Hr & Hd). rewrite Hr in Hl. simpl in Hl.
  destruct (acts !! k) as [a|] eqn:Ha; [|done]. simpl in Hl.
  rewrite (drop_S _ _ _ Ha) in Hd. pose proof (checked_good _ _ _ Hd) as Hg. cbn [checked_run] in Hd. rewrite Hg in Hd.
  destruct (harmless s1 a) eqn:Hh; [|done]. unfold harmless in Hh. rewrite Hl in Hh. apply andb_true_iff in Hh as [Hh%bool_decide_eq_true _]. congruence.
Qed.

Lemma checked_without_null acts s s' : checked_run acts s = Some s' -> without_null (bserver_run (finite acts s)).
Proof.
  intros Hc k l Hl. simpl in Hl. destruct (checked_run_app acts s s' k Hc) as (s1 & Hr & Hd). rewrite Hr in Hl. simpl in Hl.
  destruct (acts !! k) as [a|] eqn:Ha; [|done]. simpl in Hl.
  rewrite (drop_S _ _ _ Ha) in Hd. pose proof (checked_good _ _ _ Hd) as Hg. cbn [checked_run] in Hd. rewrite Hg in Hd.
  destruct (harmless s1 a) eqn:Hh; [|done]. unfold harmless in Hh. rewrite Hl in Hh.
  by apply andb_true_iff in Hh as [_ Hh%bool_decide_eq_true].
Qed.

Lemma checked_fair acts s s' :
  checked_run acts s = Some s' -> at_end (bserver s') -> srv_fair polling n (bserver_run (finite acts s)).
Proof.
  intros Hc He. apply (settled_fair polling n _ (length acts) (bserver s') He). intros k Hk. simpl.
  destruct (checked_run_app acts s s' (length acts) Hc) as (s1 & Hr & Hd). rewrite take_ge in * by lia. rewrite Hr. simpl.
  rewrite drop_all in Hd. simpl in Hd. destruct (good s1); [|done]. by injection Hd as ->.
Qed.
End Finite.

Section Witnesses.
Import Cluster.
#[local] Abbreviation daemon := (counting (unlines [web_line])).

Definition idle_beacon : Beacon := {| cfg := cfg all_rules; monitored := ∅ |}.
Definition api_starts : etypes.Message := {|
  etypes.Status := "start"; etypes.ID := "bbbbbbbbbbbb"; etypes.Type_ := "container"; etypes.Action := "start";
  etypes.Actor_Attributes := ∅ |}.

(** The program starts, the reader reads that a container has started, and the
    beacon handles it; then comes a collection, whose goroutines take turns. *)
Definition before_read : list baction :=
  map BServer [AMain; AOpen None; AStart] ++ [BHandle] ++ map BServer [ACount; ALine 0 (inr (Some api_starts))].
Definition before_tick : list baction := before_read ++ [BServer (AReadMsg 0); BHandle; BServer ACount].
Definition tick_tasks : list (string * MapRange) :=
  [("cccccccccccc", sorted_range); ("aaaaaaaaaaaa", sorted_range); ("bbbbbbbbbbbb", sorted_range)].
Definition emits_all : list baction := concat (replicate 23 [BEmit 0; BEmit 1; BEmit 2]).
Definition start_acts : list baction := before_tick ++ BTick tick_tasks :: emits_all ++ [BDone].

Definition start_run : bexecution :=
  finite (W := daemon) nothing_else (fun _ => None) any_time syntax_error "0123456789ab" false 1 0 start_acts (binit idle_beacon).

Lemma start_checked : exists s',
  checked_run (W := daemon) nothing_else (fun _ => None) any_time syntax_error "0123456789ab" false 1 0 start_acts (binit idle_beacon) = Some s' /\
  at_end (bserver s').
Proof.
  assert (Hc : match checked_run (W := daemon) nothing_else (fun _ => None) any_time syntax_error "0123456789ab" false 1 0 start_acts (binit idle_beacon) with
    | Some s' => (ServerChannels.H (bserver s') = HRecv /\ E (bserver s') = ERecv) /\ readers (bserver s') = [Scan] /\
        R (bserver s') = RRecv /\ poller (bserver s') = POff
    | None => False end) by (vm_compute; repeat split).
  destruct (checked_run _ _ _ _ _ _ _ _ _ _) as [s'|]; [|done]. exists s'. split; [done|].
  destruct Hc as ([HH HE] & Hr & HR & Hp). split; [done|]. split; [done|]. intros [[|i]| |]; simpl; by rewrite ?Hr, ?HR, ?Hp.
Qed.

Lemma start_collects : collects start_run (length before_tick) (length start_acts - 1) tick_tasks.
Proof.
  split; [by apply Nat.ltb_lt|]. split; [reflexivity|]. split; [reflexivity|]. intros m Hm Hd. simpl.
  assert (Hall : Forall (fun a => a <> Some BDone) (map (fun m => start_acts !! m) (seq 10 69))) by (repeat constructor; discriminate).
  rewrite Forall_map, Forall_seq in Hall. apply Hall. change (length before_tick) with 9 in Hm. change (length start_acts - 1) with 79 in Hd. lia.
Qed.

(** The beacon handles nothing once the collection has begun. *)
Lemma start_handles j : bby start_run j = Some BHandle -> j < length before_tick.
Proof.
  intros Hj. destruct (decide (j < length before_tick)) as [|Hge]; [done|exfalso]. simpl in Hj.
  unfold start_acts in Hj. rewrite lookup_app_r in Hj by lia.
  assert (Hall : Forall (fun a => a <> BHandle) (BTick tick_tasks :: emits_all ++ [BDone])) by (repeat constructor; discriminate).
  rewrite Forall_lookup in Hall. by apply (Hall _ _ Hj).
Qed.

Lemma started_published_witness :
  published "bbbbbbbbbbbb" "/api" api_config web_statistics (bhist (bat start_run (length start_acts))).
Proof.
  destruct start_checked as (s' & Hc & He).
  destruct (started_published (W := daemon) nothing_else (fun _ => None) any_time syntax_error "0123456789ab" false 1 0
    start_run idle_beacon (Reader 0) api_starts (length before_read) "bbbbbbbbbbbb" "/api" "2016-04-29T15:18:21Z" api_config
    [7%Z; 5%Z] 90%Z web_statistics) as (j & _ & Hb & _ & Hpub); try reflexivity.
  - by eapply checked_valid.
  - by eapply checked_fair.
  - right. split; [by eapply checked_without_500|by eapply checked_without_null].
  - lia.
  - apply all_rules_select.
  - apply (bool_decide_eq_true_1 (Forall uint64 [7%Z; 5%Z])). reflexivity.
  - apply (bool_decide_eq_true_1 (uint64 90%Z)). reflexivity.
  - exact web_statistics_fit.
  - exact counting_answers.
  - done.
  - apply (Hpub (length before_tick) (length start_acts - 1) tick_tasks (start_handles j Hb) start_collects).
    + intros i _ _ _ [Hend _]. by eapply checked_states_good in Hend.
    + intros i _ _ _. by eapply checked_states_good.
    + by eapply checked_states_good.
Defined.
End Witnesses.
