(* ===== verification/Client.v ===== *)
(** * The Docker client

    [client/dockerclient.go], [version/version.go] and [getDockerClient] of
    [server/utils.go]: the address and the TLS options the client of the daemon
    is made with.  The environment, the
    parsing of certificates ([crypto/x509], [crypto/tls]) and the vendored
    [client.NewClient] are parameters. *)

From S2P Require Import Prelude GoStd Docker Config.

(** ** version.go *)

Definition Version : string := "1.4.0".
Definition Build : string := "-dev".
Definition GitCommit : string := "HEAD".
Definition FullVersion : string := Version +:+ Build +:+ " (" +:+ GitCommit +:+ ")".

(** ** dockerclient.go *)

Definition apiVersion : string := "1.21".

(** [tls.Config]: the texts of the authorities and the key pair. *)
Record TLSConfig (keypair : Type) := {
  InsecureSkipVerify : bool;
  RootCAs : string;
  Certificates : list keypair;
}.
Arguments InsecureSkipVerify {keypair}.
Arguments RootCAs {keypair}.
Arguments Certificates {keypair}.

Section Client.
Context `{World}.
Context (getenv : string -> string).
Context {keypair client : Type} (X509KeyPair : string -> string -> res keypair).
Context (NewClient : string -> string -> option (TLSConfig keypair) -> list (string * string) -> res client).

(** The configuration is returned with the error too, but not used then. *)
Definition GetTLSConfig (caCert cert key : string) (allowInsecure : bool) : res (TLSConfig keypair) :=
  match X509KeyPair cert key with
  | Err err => Err err
  | Ok kp =>
      let tlsConfig := {| InsecureSkipVerify := true; RootCAs := caCert; Certificates := [kp] |} in
      Ok (if allowInsecure then {| InsecureSkipVerify := true; RootCAs := RootCAs tlsConfig; Certificates := Certificates tlsConfig |}
          else tlsConfig)
  end.

(** [ioutil.ReadFile], or the end of the process. *)
Definition must_read (what path : string) : M string :=
  d ← ReadFile path;
  match d with
  | Ok d => mret d
  | Err err => pure (Exit ("error loading tls " +:+ what +:+ ": " +:+ Error err))
  end.

(** The TLS options, if the three files are given. *)
Definition load_tls (tlsCaCert tlsCert tlsKey : string) (allowInsecure : bool) (envDockerTlsVerify : string) :
    M (option (TLSConfig keypair)) :=
  if decide (tlsCaCert <> "" /\ tlsCert <> "" /\ tlsKey <> "") then
    caCert ← must_read "ca cert" tlsCaCert;
    cert ← must_read "cert" tlsCert;
    key ← must_read "key" tlsKey;
    match GetTLSConfig caCert cert key allowInsecure with
    | Err err => pure (Exit ("error configuring tls: " +:+ Error err))
    | Ok cfg =>
        mret (Some {| InsecureSkipVerify := bool_decide (envDockerTlsVerify = ""); RootCAs := RootCAs cfg;
                      Certificates := Certificates cfg |})
    end
  else mret None.

Definition GetDockerClient (dockerUrl tlsCaCert tlsCert tlsKey : string) (allowInsecure : bool) : M (res client) :=
  (* check environment for docker client config *)
  let envDockerHost := getenv "DOCKER_HOST" in
  let dockerUrl := if decide (dockerUrl = "" /\ envDockerHost <> "") then envDockerHost else dockerUrl in
  let envDockerCertPath := getenv "DOCKER_CERT_PATH" in
  let envDockerTlsVerify := getenv "DOCKER_TLS_VERIFY" in
  let '(tlsCaCert, tlsCert, tlsKey) :=
    if decide (tlsCaCert = "" /\ envDockerCertPath <> "" /\ envDockerTlsVerify <> "") then
      (Path.Join [envDockerCertPath; "ca.pem"], Path.Join [envDockerCertPath; "cert.pem"],
       Path.Join [envDockerCertPath; "key.pem"])
    else (tlsCaCert, tlsCert, tlsKey) in
  tlsConfig ← load_tls tlsCaCert tlsCert tlsKey allowInsecure envDockerTlsVerify;
  mret (NewClient dockerUrl apiVersion tlsConfig [("User-Agent", "interlock-" +:+ Version)]).

(** [server/utils.go] *)
Definition getDockerClient (cfg : Config) : M (res client) :=
  GetDockerClient (DockerURL cfg) (TLSCACert cfg) (TLSCert cfg) (TLSKey cfg) (AllowInsecure cfg).

(** ** Theorems *)

Lemma GetTLSConfig_insecure ca cert key a b : GetTLSConfig ca cert key a = GetTLSConfig ca cert key b.
Proof. unfold GetTLSConfig. destruct (X509KeyPair cert key); [by destruct a, b|done]. Qed.

Lemma must_read_at what path h :
  must_read what path h =
  (match reply_ReadFile h path with
   | Ok d => Val d
   | Err err => Exit ("error loading tls " +:+ what +:+ ": " +:+ Error err)
   end, h ++ [EReadFile path]).
Proof. unfold must_read, ReadFile, call. rewrite bind_at. by destruct (reply_ReadFile h path). Qed.

Lemma load_tls_insecure ca cert key a b verify h : load_tls ca cert key a verify h = load_tls ca cert key b verify h.
Proof.
  unfold load_tls. case_decide; [|done].
  do 3 (rewrite !bind_at, must_read_at; destruct (reply_ReadFile _ _) as [?|?]; [|done]).
  by rewrite (GetTLSConfig_insecure _ _ _ a b).
Qed.

Lemma load_tls_verifies ca cert key a verify h :
  match (load_tls ca cert key a verify h).1 with
  | Val (Some cfg) => InsecureSkipVerify cfg = bool_decide (verify = "")
  | Val None => ca = "" \/ cert = "" \/ key = ""
  | Exit _ => True
  | Panic _ => False
  end.
Proof.
  unfold load_tls. case_decide as Hd.
  - do 3 (rewrite bind_at, must_read_at; destruct (reply_ReadFile _ _) as [?|?]; [|done]).
    by destruct (GetTLSConfig _ _ _ _).
  - simpl. destruct (decide (ca = "")), (decide (cert = "")), (decide (key = "")); tauto.
Qed.

(** C35: The option to allow an insecure connection has no effect, and the
    certificate of the daemon is verified exactly when the variable
    DOCKER_TLS_VERIFY is set: the client is made without TLS, or with TLS
    options that say so, or the process ends. *)
Theorem client_verification cfg h :
  getDockerClient cfg h =
    GetDockerClient (DockerURL cfg) (TLSCACert cfg) (TLSCert cfg) (TLSKey cfg) (negb (AllowInsecure cfg)) h /\
  match (getDockerClient cfg h).1 with
  | Val r => exists url' tls,
      r = NewClient url' apiVersion tls [("User-Agent", "interlock-1.4.0")] /\
      match tls with
      | None => True
      | Some tlsConfig => InsecureSkipVerify tlsConfig = bool_decide (getenv "DOCKER_TLS_VERIFY" = "")
      end
  | Exit _ => True
  | Panic _ => False
  end.
Proof.
  unfold getDockerClient. generalize (AllowInsecure cfg). intros allowInsecure.
  unfold GetDockerClient. set (env := getenv "DOCKER_TLS_VERIFY"). cbv zeta.
  destruct (if decide _ then (_, _, _) else _) as [[ca' cert'] key'].
  rewrite !bind_at, (load_tls_insecure _ _ _ (negb allowInsecure) allowInsecure). split; [done|].
  pose proof (load_tls_verifies ca' cert' key' allowInsecure env h) as Hv.
  destruct (load_tls _ _ _ _ _ _) as [[tls|w|w] h']; [|done..].
  eexists _, tls. split; [reflexivity|]. by destruct tls.
Qed.
End Client.
