(* ===== verification/Cmd.v ===== *)
(** * The command line

    [cmd/interlock]: where the [run] command takes its configuration from,
    what it does with it, and the configuration the [spec] command prints.
    The key-value store is the vendored [libkv], whose operations are a
    record; what [GoUrl] does not read of its address is a parameter. *)

From S2P Require Import Prelude GoStd GoJson GoUrl Docker Labels Config Network Nginx HAProxy NodeID Backends.
From S2P Require Import LoadBalancer Beacon Poller Extensions Server Client.

(** ** run.go *)

Definition config_line (name val : string) : string := name +:+ " = " +:+ val +:+ String (ascii_of_nat 10) EmptyString.
Definition defaultConfig : string :=
  config_line "ListenAddr" (dquote +:+ ":8080" +:+ dquote) +:+
  config_line "DockerURL" (dquote +:+ "unix:///var/run/docker.sock" +:+ dquote) +:+
  config_line "EnableMetrics" "true".
Definition kvConfigKey : string := "interlock/v1/config".

(** The flags of [cmdRun]. *)
Record flags := {
  config : string;
  discovery : string;
  discovery_tls_ca_cert : string;
  discovery_tls_cert : string;
  discovery_tls_key : string;
}.

Inductive kv_backend := CONSUL | ETCD | NoBackend.

Definition kv_backend_of (kvType : string) : kv_backend :=
  if decide (kvType = "consul") then CONSUL else if decide (kvType = "etcd") then ETCD else NoBackend.

(** A key-value store. *)
Record Store := {
  Exists : string -> res bool;
  Get : string -> res string;
}.

(** [ioutil.ReadFile], with the test of [os.IsNotExist] on its error. *)
Inductive file := Contents (d : string) | NotFound | Unreadable (e : error).

Lemma to_lower_idem s : Strings.ToLower (Strings.ToLower s) = Strings.ToLower s.
Proof.
  induction s as [|c s IH]; [done|]. simpl. rewrite IH. f_equal. by destruct c as [[] [] [] [] [] [] [] []].
Qed.

Section Run.
Context (getenv : string -> string).
(** The scheme and the host of an address [GoUrl] does not read. *)
Context (url_elsewhere : string -> res (string * string)).
Context {tls : Type} (tls_Client : string -> string -> string -> res tls).
Context (NewStore : kv_backend -> list string -> option tls -> res Store).
Context (read : string -> file).

Definition getKVStore (addr : string) (options : option tls) : res Store :=
  match Url.Parse url_elsewhere addr with
  | Err err => Err err
  | Ok (scheme, host) =>
      let kvType := Strings.ToLower scheme in
      NewStore (kv_backend_of kvType) [host] options
  end.

(** [log.Fatal] on an error. *)
Definition must {A} (r : res A) : outcome A := match r with Ok a => Val a | Err e => Exit (Error e) end.

(** The configuration in the key-value store. *)
Definition kv_config (f : flags) : outcome string :=
  options ←
    (if decide (discovery_tls_ca_cert f <> "" /\ discovery_tls_cert f <> "" /\ discovery_tls_key f <> "") then
       t ← must (tls_Client (discovery_tls_ca_cert f) (discovery_tls_cert f) (discovery_tls_key f));
       mret (Some t)
     else mret None);
  kv ← must (getKVStore (discovery f) options);
  found ← must (Exists kv kvConfigKey);
  if found : bool then
    v ← must (Get kv kvConfigKey);
    mret (if decide (v = "") then defaultConfig else v)
  else mret defaultConfig.

(** The text [runAction] gives to [ParseConfig]. *)
Definition config_data (f : flags) : outcome string :=
  let data := getenv "INTERLOCK_CONFIG" in
  data ← (if decide (discovery f <> "") then kv_config f else mret data);
  data ←
    (if decide (config f <> "" /\ data = "") then
       match read (config f) with
       | NotFound => Exit ("config not found: file=" +:+ config f)
       | Contents d => mret d
       | Unreadable err => Exit (Error err)
       end
     else mret data);
  if decide (data = "") then Exit "You must specify a config from a file, environment variable, or key value store"
  else mret data.

(** ** Theorems *)

(** An address with a scheme names the kind of store and its host, whatever
    follows; one without has no host. *)
Theorem discovery_address options :
  (forall scheme host path, scheme <> "" -> Url.all Url.letter scheme = true -> Url.host_ok host = true ->
     Url.all Url.safe_char path = true -> (path = "" \/ exists p, path = String "/" p) ->
     getKVStore (scheme +:+ "://" +:+ host +:+ path) options = NewStore (kv_backend_of (Strings.ToLower scheme)) [host] options) /\
  (forall name port, name <> "" -> Url.all Url.letter name = true -> Url.all Url.digit port = true ->
     getKVStore (name +:+ ":" +:+ port) options = NewStore (kv_backend_of (Strings.ToLower name)) [""] options).
Proof.
  unfold getKVStore. split.
  - intros scheme host path H1 H2 H3 H4 H5. rewrite Url.parse_address by done. by rewrite to_lower_idem.
  - intros name port H1 H2 H3. rewrite Url.parse_bare by done. by rewrite to_lower_idem.
Qed.

Lemma kv_config_not_empty f data : kv_config f = Val data -> data <> "".
Proof.
  unfold kv_config. destruct (if decide _ then _ else _) as [o|w|w]; [|done..]. simpl.
  destruct (must (getKVStore _ _)) as [kv|w|w]; [|done..]. simpl.
  destruct (must (Exists kv _)) as [[]|w|w]; [|by intros [= <-]|done..]. simpl.
  destruct (must (Get kv _)) as [v|w|w]; [|done..]. simpl. case_decide; intros [= <-]; done.
Qed.

(** The order of the sources: the key-value store if an address is given; else
    the environment if it has one; else the file.  The file is read only when
    nothing else gave a text. *)
Theorem config_precedence f :
  config_data f =
  if decide (discovery f <> "") then kv_config f
  else if decide (getenv "INTERLOCK_CONFIG" <> "") then Val (getenv "INTERLOCK_CONFIG")
  else if decide (config f = "") then
    Exit "You must specify a config from a file, environment variable, or key value store"
  else
    match read (config f) with
    | Contents d =>
        if decide (d = "") then Exit "You must specify a config from a file, environment variable, or key value store"
        else Val d
    | NotFound => Exit ("config not found: file=" +:+ config f)
    | Unreadable err => Exit (Error err)
    end.
Proof.
  unfold config_data. destruct (decide (discovery f <> "")) as [Hd|Hd].
  - destruct (kv_config f) as [data|w|w] eqn:Hk; [|done..]. apply kv_config_not_empty in Hk. simpl.
    rewrite decide_False by tauto. simpl. by rewrite decide_False.
  - cbn [mbind outcome_bind mret outcome_ret].
    destruct (decide (getenv "INTERLOCK_CONFIG" <> "")) as [He|He].
    + rewrite decide_False by tauto. simpl. by rewrite decide_False.
    + destruct (decide (config f = "")) as [Hc|Hc].
      * rewrite decide_False by tauto. simpl. by rewrite decide_True by (destruct (decide (getenv "INTERLOCK_CONFIG" = "")); tauto).
      * rewrite decide_True by (destruct (decide (getenv "INTERLOCK_CONFIG" = "")); tauto).
        by destruct (read (config f)) as [d| |e].
Qed.

#[local] Instance res_ret : MRet res := fun _ a => Ok a.
#[local] Instance res_bind : MBind res := fun _ _ f r => match r with Ok a => f a | Err e => Err e end.

Definition no_config {A} : outcome A := Exit "You must specify a config from a file, environment variable, or key value store".

(** What the key-value store of an address holds: its connection is encrypted
    when the three files are given, and a key that is missing or empty stands
    for the default configuration. *)
Definition stored_config (f : flags) : res string :=
  let files := [discovery_tls_ca_cert f; discovery_tls_cert f; discovery_tls_key f] in
  options ← (if decide (Forall (fun p => p <> "") files) then
               t ← tls_Client (discovery_tls_ca_cert f) (discovery_tls_cert f) (discovery_tls_key f); mret (Some t)
             else mret None);
  kv ← getKVStore (discovery f) options;
  found ← Exists kv kvConfigKey;
  if found : bool then v ← Get kv kvConfigKey; mret (if decide (v = "") then defaultConfig else v)
  else mret defaultConfig.

Lemma kv_config_stored f : kv_config f = must (stored_config f).
Proof.
  unfold kv_config, stored_config. case_decide as H1; case_decide as H2; rewrite !Forall_cons, Forall_nil in H2; try tauto.
  - destruct (tls_Client _ _ _) as [t|e]; [|done]. cbn. destruct (getKVStore _ _) as [kv|e]; [|done]. cbn.
    destruct (Exists kv _) as [[]|e]; [|done..]. cbn. by destruct (Get kv _).
  - cbn. destruct (getKVStore _ _) as [kv|e]; [|done]. cbn.
    destruct (Exists kv _) as [[]|e]; [|done..]. cbn. by destruct (Get kv _).
Qed.

(** C34: Where the configuration comes from.  An address of a key-value store on
    the command line decides: its text is used, a missing or empty key gives
    the default configuration, and an error ends the process.  Otherwise, if
    only the environment or only the file has a configuration, it is used; a
    file that cannot be read ends the process, and so does the lack of any
    configuration.  A configuration that is used is never empty. *)
Theorem config_sources f :
  let env := getenv "INTERLOCK_CONFIG" in
  (discovery f <> "" -> config_data f = must (stored_config f)) /\
  (discovery f = "" -> config f = "" -> config_data f = if decide (env = "") then no_config else Val env) /\
  (discovery f = "" -> config f <> "" -> env = "" ->
     config_data f =
     match read (config f) with
     | Contents d => if decide (d = "") then no_config else Val d
     | NotFound => Exit ("config not found: file=" +:+ config f)
     | Unreadable err => Exit (Error err)
     end) /\
  (forall data, config_data f = Val data -> data <> "").
Proof.
  intros env. rewrite config_precedence. fold env. split_and!.
  - intros Hd. rewrite decide_True by done. apply kv_config_stored.
  - intros Hd Hc. rewrite decide_False by tauto. repeat case_decide; tauto.
  - intros Hd Hc He. rewrite !decide_False by tauto. done.
  - intros data. case_decide; [apply kv_config_not_empty|]. case_decide; [by intros [= <-]|].
    case_decide; [done|]. destruct (read (config f)) as [d| |e]; [|done..]. case_decide; [done|]. by intros [= <-].
Qed.
End Run.

(** ** The whole of run *)

Section RunAction.
Context `{MapRange} `{World}.

(** [runAction] from the text of the configuration on, with the decoder of
    TOML, the registration of metrics by prometheus and the client
    [getDockerClient] makes of a configuration. *)
Context (MustRegister : string -> M unit).
Definition runAction {client} (Decode : string -> res Config) (getDockerClient : Config -> M (res client))
    (data : outcome string) : M unit :=
  data ← pure data;
  match ParseConfig Decode data with
  | Err err => pure (Exit (Error err))
  | Ok cfg =>
      srv ← NewServer MustRegister (getDockerClient cfg) cfg;
      match srv with
      | Err err => pure (Exit (Error err))
      | Ok _ =>
          err ← Run cfg;
          match err with
          | Some err => pure (Exit (Error err))
          | None => mret tt
          end
      end
  end.

(** ** spec.go *)

(** What the [spec] command prints, in TOML. *)
Definition spec_extension : ExtensionConfig :=
  SetConfigDefaults {|
    Config.Name := "nginx"; Config.ConfigPath := "/etc/nginx/nginx.conf"; ConfigBasePath := ""; PidPath := "/var/run/nginx.pid";
    TemplatePath := "/etc/interlock/nginx.conf.template";
    BackendOverrideAddress := ""; ConnectTimeout := 0; ServerTimeout := 0; ClientTimeout := 0; MaxConn := 0; Port := 0;
    SyslogAddr := ""; AdminUser := ""; AdminPass := ""; SSLCertPath := ""; SSLCert := ""; SSLPort := 0; SSLOpts := "";
    SSLDefaultDHParam := 0; SSLServerVerify := ""; DHParam := false; DHParamPath := ""; NginxPlusEnabled := false;
    User := ""; WorkerProcesses := 0; RLimitNoFile := 0; ProxyConnectTimeout := 0; ProxySendTimeout := 0;
    ProxyReadTimeout := 0; SendTimeout := 0; SSLCiphers := ""; SSLProtocols := ""; StatsInterval := "";
    StatsBackendType := ""; StatsPrometheusPushGatewayURL := ""; StatsInfluxDBAddress := ""; StatsInfluxDBUser := "";
    StatsInfluxDBPassword := ""; StatsInfluxDBDatabase := ""; StatsInfluxDBPrecision := ""; Rules := ∅ |}.
Definition specAction : Config := {|
  ListenAddr := ":8080"; DockerURL := "unix:///var/run/docker.sock"; TLSCACert := ""; TLSCert := ""; TLSKey := "";
  AllowInsecure := false; EnableMetrics := true; PollInterval := ""; Config.Extensions := [spec_extension];
  Config_Rules := ∅ |}.

Definition spec_template : string := "/etc/interlock/nginx.conf.template".

(** The configuration the program prints for its user, run as it is, ends the
    process unless the template file it names is there, although the text is
    read without an error. *)
Theorem spec_needs_template {client} Decode (getDockerClient : Config -> M (res client)) data c ms h h0 h1 :
  Decode data = Ok specAction ->
  NewMetrics MustRegister h = (Val ms, h0) ->
  (forall cfg, getDockerClient cfg h0 = (Val (Ok c), h1)) ->
  reply_NotExist h1 spec_template = true ->
  runAction Decode getDockerClient (Val data) h =
  (Exit ("stat " +:+ spec_template +:+ ": no such file or directory"), h1 ++ [EStat spec_template]).
Proof.
  intros Hd Hms Hc Hm. unfold runAction. rewrite bind_at. unfold pure at 1.
  unfold ParseConfig. rewrite Hd. rewrite bind_at. unfold NewServer. rewrite !bind_at, Hms, bind_at, Hc, bind_at.
  unfold loadExtensions. cbn [Config.Extensions specAction map foldM]. rewrite bind_at.
  set (x := set_Rules _ _). assert (Hx : Strings.ToLower (Config.Name x) = "nginx" /\ TemplatePath x = spec_template).
  { vm_compute. done. }
  destruct Hx as [Hn Ht]. clearbody x. unfold load_extension. cbv zeta. rewrite decide_True by auto.
  rewrite bind_at. unfold NewLoadBalancer. rewrite bind_at, Ht. rewrite decide_True by done.
  rewrite bind_at. unfold NotExist, call. rewrite Hm. reflexivity.
Qed.
End RunAction.

(** ** main.go *)

(** What the vendored library [cli] is given: a command with its action on the
    context of its flags, and the program with the function that is called
    before a command. *)
Record Command (context : Type) := {
  Cmd_Name : string;
  Cmd_Usage : string;
  Cmd_Flags : list string;
  Cmd_Action : context -> M unit;
}.
Arguments Cmd_Name {context}.
Arguments Cmd_Action {context}.
Record App (context : Type) := {
  App_Name : string;
  App_Version : string;
  App_Author : string;
  App_Email : string;
  App_Usage : string;
  App_Flags : list string;
  App_Commands : list (Command context);
  App_Before : context -> M (option error);
}.
Arguments App_Commands {context}.
Arguments App_Before {context}.

Section Main.
Context `{MapRange} `{World}.
(** The contexts of [cli], their flags, and the method [Run] of an [App]. *)
Context {context : Type} (String_ : context -> string -> string) (Bool : context -> string -> bool).
Context (App_Run : App context -> list string -> M (option error)).
(** What the commands are made of: the TOML library, the level of the log, and
    the run command on its flags. *)
Context (Encode : Config -> M (option error)) (SetDebugLevel : M unit) (run_flags : flags -> M unit).

Definition cmdSpec : Command context := {|
  Cmd_Name := "spec"; Cmd_Usage := "generate a configuration file"; Cmd_Flags := [];
  Cmd_Action _ :=
    err ← Encode specAction;
    match err with Some err => pure (Exit (Error err)) | None => mret tt end;
|}.
Definition cmdRun : Command context := {|
  Cmd_Name := "run"; Cmd_Usage := "run interlock";
  Cmd_Flags := ["config, c"; "discovery, k"; "discovery-tls-ca-cert"; "discovery-tls-cert"; "discovery-tls-key"];
  Cmd_Action c := run_flags {|
    config := String_ c "config"; discovery := String_ c "discovery";
    discovery_tls_ca_cert := String_ c "discovery-tls-ca-cert"; discovery_tls_cert := String_ c "discovery-tls-cert";
    discovery_tls_key := String_ c "discovery-tls-key" |};
|}.
Definition app : App context := {|
  App_Name := "interlock"; App_Version := FullVersion; App_Author := "@ehazlett"; App_Email := "ejhazlett@gmail.com";
  App_Usage := "an event driven extension system for docker"; App_Flags := ["debug, D"]; App_Commands := [cmdSpec; cmdRun];
  App_Before c := _ ← (if Bool c "debug" then SetDebugLevel else mret tt); mret None;
|}.
Definition main (args : list string) : M unit :=
  err ← App_Run app args;
  match err with Some err => pure (Exit (Error err)) | None => mret tt end.
End Main.

(** ** Witnesses *)

Definition file_flags : flags := {|
  config := "config.toml"; discovery := ""; discovery_tls_ca_cert := ""; discovery_tls_cert := ""; discovery_tls_key := "" |}.
Lemma config_sources_witness :
  config_data (tls := unit) (fun _ => "") (fun _ => Err (ErrorString "")) (fun _ _ _ => Ok tt) (fun _ _ _ => Err (ErrorString ""))
    (fun _ => Contents defaultConfig) file_flags = Val defaultConfig.
Proof.
  destruct (config_sources (tls := unit) (fun _ => "") (fun _ => Err (ErrorString "")) (fun _ _ _ => Ok tt)
    (fun _ _ _ => Err (ErrorString "")) (fun _ => Contents defaultConfig) file_flags) as (_ & _ & Hfile & _).
  rewrite Hfile by done. reflexivity.
Defined.

Lemma spec_needs_template_witness :
  exists why, @runAction sorted_range Cluster.cluster (fun _ => mret tt) unit (fun _ => Ok specAction) (fun _ => mret (Ok tt)) (Val "") [] =
    (Exit why, [EStat spec_template]).
Proof.
  eexists. apply (@spec_needs_template sorted_range Cluster.cluster (fun _ => mret tt) unit (fun _ => Ok specAction)
    (fun _ => mret (Ok tt)) "" tt
    {| EventsProcessed := eventsProcessed; LastReloadDuration := lastReloadDuration; Uptime := uptime |} [] [] []); reflexivity.
Defined.
